(** * The OAT file writer of ART (src/oat_writer.cc)

    A shallow embedding of [OatWriter]: the offset-planning pass run by the
    constructor ([InitOatHeader] ... [InitOatCodeDexFiles]) and the writing
    pass [Write], together with the properties the design document states
    about them.

    Conventions.
    - The writer is modelled as built for a 32-bit target without
      [ART_USE_LLVM_COMPILER] and with [NDEBUG] (the [DCHECK]s and the
      debug-only GC-map check are compiled out).  [size_t] and [uint32_t]
      are both 32 bits wide and [off_t] is a signed 32-bit integer.
    - Integers are in [Z].  Every place where the C++ code computes in a
      32-bit unsigned type is marked by a conversion [cast]; the program
      itself is obtained with [cast := wrap32], and the reference run with
      [cast := exact] (no wrap-around) gives the size of the planned file.
    - A [CHECK] that fails aborts the process: the planning pass returns
      [None].
    - Vectors owned by the compiler live in a [Memory]; the writer only
      handles their addresses, which are the keys of its deduplication
      maps. *)

From Stdlib Require Import ZArith Lia.
From stdpp Require Import base option list gmap strings.

Local Open Scope Z_scope.

(** ** Machine integers and bytes *)

Definition wrap32 (z : Z) : Z := z mod 2 ^ 32.

Definition exact (z : Z) : Z := z.

(** [static_cast<uint32_t>] of an [off_t]. *)
Definition uint32_of_off_t (z : Z) : Z := z mod 2 ^ 32.

Definition off_t_range (z : Z) : Prop := - 2 ^ 31 <= z < 2 ^ 31.

Definition sizeof_uint32 : Z := 4.

(** Little-endian object representations. *)
Definition le16 (z : Z) : list Z := [z mod 256; (z / 256) mod 256].

Definition le32 (z : Z) : list Z :=
  [z mod 256; (z / 256) mod 256; (z / 65536) mod 256; (z / 16777216) mod 256].

Definition len {A} (l : list A) : Z := Z.of_nat (length l).

(** ** Constants of globals.h and the instruction sets *)

Record Globals := {
  kPageSize : Z;
  kStackAlignment : Z;
  kArmAlignment : Z;
  kMipsAlignment : Z;
  kX86Alignment : Z
}.

Inductive InstructionSet := kArm | kThumb2 | kX86 | kMips.

Definition InstructionSet_value (isa : InstructionSet) : Z :=
  match isa with kArm => 1 | kThumb2 => 2 | kX86 => 3 | kMips => 4 end.

Inductive InvokeType := kStatic | kDirect | kVirtual | kSuper | kInterface.

Global Instance InvokeType_eq_dec : EqDecision InvokeType.
Proof. solve_decision. Defined.

Definition kAccStatic : Z := 8.
Definition kAccNative : Z := 256.

(** Class::Status is an enum; the writer names two of its values. *)
Definition kStatusError : Z := -1.
Definition kStatusNotReady : Z := 0.

(** ** What the writer consumes *)

Definition ptr := nat.

(** The vectors the compiler owns, by address and element type. *)
Record Memory := {
  vec8 : ptr → list Z;
  vec16 : ptr → list Z;
  vec32 : ptr → list Z
}.

Record CompiledMethod := {
  cm_instruction_set : InstructionSet;
  cm_code : ptr;
  cm_frame_size_in_bytes : Z;
  cm_core_spill_mask : Z;
  cm_fp_spill_mask : Z;
  cm_mapping_table : ptr;
  cm_vmap_table : ptr;
  cm_native_gc_map : ptr
}.

Record CompiledInvokeStub := {
  stub_instruction_set : InstructionSet;
  stub_code : ptr
}.

Record Compiler := {
  GetInstructionSet : InstructionSet;
  IsImage : bool;
  GetCompiledClass : ptr → nat → option Z;
  GetCompiledMethod : ptr → Z → option CompiledMethod;
  FindInvokeStub : bool → string → option CompiledInvokeStub
}.

(** One method of a class_data_item, as the ClassDataItemIterator yields
    it: access flags, the invoke type and the method index. *)
Record EncodedMethod := {
  access_flags : Z;
  invoke_type : InvokeType;
  method_idx : Z
}.

Record ClassData := {
  direct_methods : list EncodedMethod;
  virtual_methods : list EncodedMethod
}.

Record ClassDef := { class_data : option ClassData }.

(** A DEX file: [dex_image] holds the [file_size_] bytes that start at its
    header. *)
Record DexFile := {
  dex_addr : ptr;
  location : list Z;
  location_checksum : Z;
  dex_image : list Z;
  class_defs : list ClassDef;
  GetMethodShorty : Z → string
}.

Definition file_size_ (d : DexFile) : Z := len (dex_image d).

(** Modelled from the spec: a method of the runtime's registry, which the
    class linker resolves in image mode (object.h is not part of the
    sources).  [am_code] is the code of the method: [SetOatCodeOffset]
    stores an offset in it, [SetCode] an address. *)
Record AbstractMethod := {
  am_is_static : bool;
  am_is_constructor : bool;
  am_declaring_class_initialized : bool;
  am_frame_size_in_bytes : Z;
  am_core_spill_mask : Z;
  am_fp_spill_mask : Z;
  am_mapping_table_offset : Z;
  am_vmap_table_offset : Z;
  am_gc_map_offset : Z;
  am_invoke_stub_offset : Z;
  am_code : Z
}.

Record Env := {
  globals : Globals;
  memory : Memory;
  compiler : Compiler;
  IsClassRejected : ptr → nat → bool;
  ResolveMethod : ptr → Z → InvokeType → option ptr;
  resolution_stub_static : Z;
  dex_files : list DexFile;
  image_file_location_oat_checksum : Z;
  image_file_location_oat_begin : Z;
  image_file_location : list Z
}.

(** What a byte range holds.  The labels follow the diagnostics of the
    writing pass; they annotate the ranges that are folded into the
    checksum and the ranges that are written, and carry no data. *)
Inductive What :=
  | OatHeaderStruct | ImageFileLocation
  | DexFileLocationLength | DexFileLocationData | DexFileLocationChecksum
  | DexFileOffset | MethodsOffsets | DexFilePayload
  | ClassStatus | MethodOffsets
  | MethodCodeSize | MethodCode | MappingTable | VmapTable | GcMap
  | InvokeStubCodeSize | InvokeStubCode
  | ProxyStubCodeSize | ProxyStubCode.

Global Instance What_eq_dec : EqDecision What.
Proof. solve_decision. Defined.

(** ** The records of the writer *)

Record OatMethodOffsets := {
  code_offset_ : Z;
  frame_size_in_bytes_ : Z;
  core_spill_mask_ : Z;
  fp_spill_mask_ : Z;
  mapping_table_offset_ : Z;
  vmap_table_offset_ : Z;
  gc_map_offset_ : Z;
  invoke_stub_offset_ : Z
}.

(** A default-constructed OatMethodOffsets, as [resize] creates it. *)
Definition OatMethodOffsets_default : OatMethodOffsets :=
  {| code_offset_ := 0; frame_size_in_bytes_ := 0; core_spill_mask_ := 0;
     fp_spill_mask_ := 0; mapping_table_offset_ := 0; vmap_table_offset_ := 0;
     gc_map_offset_ := 0; invoke_stub_offset_ := 0 |}.

Definition sizeof_OatMethodOffsets : Z := 32.

Definition OatMethodOffsets_bytes (m : OatMethodOffsets) : list Z :=
  le32 (code_offset_ m) ++ le32 (frame_size_in_bytes_ m) ++
  le32 (core_spill_mask_ m) ++ le32 (fp_spill_mask_ m) ++
  le32 (mapping_table_offset_ m) ++ le32 (vmap_table_offset_ m) ++
  le32 (gc_map_offset_ m) ++ le32 (invoke_stub_offset_ m).

Record OatClass := {
  status_ : Z;
  method_offsets_ : list OatMethodOffsets
}.

Record OatDexFile := {
  dex_file_location_size_ : Z;
  dex_file_location_data_ : list Z;
  dex_file_location_checksum_ : Z;
  dex_file_offset_ : Z;
  methods_offsets_ : list Z
}.

(** Modelled from the spec: the OatHeader of oat.h and oat.cc, which are
    not part of the sources.  Its fields are those of section 3 of the
    design document; the running checksum is kept as the sequence of byte
    ranges handed to [UpdateChecksum], of which the Adler-32 value is a
    function.  Each range carries a label saying what it holds, which the
    checksum ignores. *)
Record OatHeader := {
  hdr_instruction_set : InstructionSet;
  hdr_dex_file_checksum : Z;
  hdr_image_file_location_oat_checksum : Z;
  hdr_image_file_location_oat_begin : Z;
  hdr_executable_offset : Z;
  hdr_image_file_location_size : Z;
  hdr_checksum_ranges : list (What * list Z)
}.

Definition adler32_byte (s : Z) (b : Z) : Z :=
  let a := ((s mod 65536) + b) mod 65521 in
  let c := ((s / 65536) + a) mod 65521 in
  c * 65536 + a.

Definition adler32 (seed : Z) (data : list Z) : Z :=
  fold_left adler32_byte data seed.

Definition GetChecksum (h : OatHeader) : Z :=
  fold_left adler32 (map snd (hdr_checksum_ranges h)) 1.

Definition sizeof_OatHeader : Z := 36.

Definition kOatMagic : list Z := [111; 97; 116; 10].
Definition kOatVersion : list Z := [48; 48; 49; 0].

Definition OatHeader_bytes (h : OatHeader) : list Z :=
  kOatMagic ++ kOatVersion ++ le32 (GetChecksum h) ++
  le32 (InstructionSet_value (hdr_instruction_set h)) ++
  le32 (hdr_dex_file_checksum h) ++
  le32 (hdr_image_file_location_oat_checksum h) ++
  le32 (hdr_image_file_location_oat_begin h) ++
  le32 (hdr_executable_offset h) ++
  le32 (hdr_image_file_location_size h).

Definition OatHeader_UpdateChecksum (what : What) (data : list Z) (h : OatHeader) : OatHeader :=
  {| hdr_instruction_set := hdr_instruction_set h;
     hdr_dex_file_checksum := hdr_dex_file_checksum h;
     hdr_image_file_location_oat_checksum := hdr_image_file_location_oat_checksum h;
     hdr_image_file_location_oat_begin := hdr_image_file_location_oat_begin h;
     hdr_executable_offset := hdr_executable_offset h;
     hdr_image_file_location_size := hdr_image_file_location_size h;
     hdr_checksum_ranges := hdr_checksum_ranges h ++ [(what, data)] |}.

Definition SetExecutableOffset (executable_offset : Z) (h : OatHeader) : OatHeader :=
  {| hdr_instruction_set := hdr_instruction_set h;
     hdr_dex_file_checksum := hdr_dex_file_checksum h;
     hdr_image_file_location_oat_checksum := hdr_image_file_location_oat_checksum h;
     hdr_image_file_location_oat_begin := hdr_image_file_location_oat_begin h;
     hdr_executable_offset := executable_offset;
     hdr_image_file_location_size := hdr_image_file_location_size h;
     hdr_checksum_ranges := hdr_checksum_ranges h |}.

Definition GetExecutableOffset (h : OatHeader) : Z := hdr_executable_offset h.

(** The state of an OatWriter.  [runtime_methods] is not a member of the
    class: it is the part of the runtime (the methods of its class linker)
    that the writer mutates in image mode. *)
Record OatWriter := {
  oat_header_ : OatHeader;
  oat_dex_files_ : list OatDexFile;
  oat_classes_ : list OatClass;
  executable_offset_padding_length_ : Z;
  code_offsets_ : gmap ptr Z;
  mapping_table_offsets_ : gmap ptr Z;
  vmap_table_offsets_ : gmap ptr Z;
  gc_map_offsets_ : gmap ptr Z;
  runtime_methods : gmap ptr AbstractMethod
}.

Definition with_header (f : OatHeader → OatHeader) (w : OatWriter) : OatWriter :=
  {| oat_header_ := f (oat_header_ w); oat_dex_files_ := oat_dex_files_ w;
     oat_classes_ := oat_classes_ w;
     executable_offset_padding_length_ := executable_offset_padding_length_ w;
     code_offsets_ := code_offsets_ w;
     mapping_table_offsets_ := mapping_table_offsets_ w;
     vmap_table_offsets_ := vmap_table_offsets_ w;
     gc_map_offsets_ := gc_map_offsets_ w;
     runtime_methods := runtime_methods w |}.

Definition with_dex_files (f : list OatDexFile → list OatDexFile) (w : OatWriter) : OatWriter :=
  {| oat_header_ := oat_header_ w; oat_dex_files_ := f (oat_dex_files_ w);
     oat_classes_ := oat_classes_ w;
     executable_offset_padding_length_ := executable_offset_padding_length_ w;
     code_offsets_ := code_offsets_ w;
     mapping_table_offsets_ := mapping_table_offsets_ w;
     vmap_table_offsets_ := vmap_table_offsets_ w;
     gc_map_offsets_ := gc_map_offsets_ w;
     runtime_methods := runtime_methods w |}.

Definition with_classes (f : list OatClass → list OatClass) (w : OatWriter) : OatWriter :=
  {| oat_header_ := oat_header_ w; oat_dex_files_ := oat_dex_files_ w;
     oat_classes_ := f (oat_classes_ w);
     executable_offset_padding_length_ := executable_offset_padding_length_ w;
     code_offsets_ := code_offsets_ w;
     mapping_table_offsets_ := mapping_table_offsets_ w;
     vmap_table_offsets_ := vmap_table_offsets_ w;
     gc_map_offsets_ := gc_map_offsets_ w;
     runtime_methods := runtime_methods w |}.

Definition with_padding (z : Z) (w : OatWriter) : OatWriter :=
  {| oat_header_ := oat_header_ w; oat_dex_files_ := oat_dex_files_ w;
     oat_classes_ := oat_classes_ w;
     executable_offset_padding_length_ := z;
     code_offsets_ := code_offsets_ w;
     mapping_table_offsets_ := mapping_table_offsets_ w;
     vmap_table_offsets_ := vmap_table_offsets_ w;
     gc_map_offsets_ := gc_map_offsets_ w;
     runtime_methods := runtime_methods w |}.

Definition with_code_offsets (f : gmap ptr Z → gmap ptr Z) (w : OatWriter) : OatWriter :=
  {| oat_header_ := oat_header_ w; oat_dex_files_ := oat_dex_files_ w;
     oat_classes_ := oat_classes_ w;
     executable_offset_padding_length_ := executable_offset_padding_length_ w;
     code_offsets_ := f (code_offsets_ w);
     mapping_table_offsets_ := mapping_table_offsets_ w;
     vmap_table_offsets_ := vmap_table_offsets_ w;
     gc_map_offsets_ := gc_map_offsets_ w;
     runtime_methods := runtime_methods w |}.

Definition with_mapping_table_offsets (f : gmap ptr Z → gmap ptr Z) (w : OatWriter) : OatWriter :=
  {| oat_header_ := oat_header_ w; oat_dex_files_ := oat_dex_files_ w;
     oat_classes_ := oat_classes_ w;
     executable_offset_padding_length_ := executable_offset_padding_length_ w;
     code_offsets_ := code_offsets_ w;
     mapping_table_offsets_ := f (mapping_table_offsets_ w);
     vmap_table_offsets_ := vmap_table_offsets_ w;
     gc_map_offsets_ := gc_map_offsets_ w;
     runtime_methods := runtime_methods w |}.

Definition with_vmap_table_offsets (f : gmap ptr Z → gmap ptr Z) (w : OatWriter) : OatWriter :=
  {| oat_header_ := oat_header_ w; oat_dex_files_ := oat_dex_files_ w;
     oat_classes_ := oat_classes_ w;
     executable_offset_padding_length_ := executable_offset_padding_length_ w;
     code_offsets_ := code_offsets_ w;
     mapping_table_offsets_ := mapping_table_offsets_ w;
     vmap_table_offsets_ := f (vmap_table_offsets_ w);
     gc_map_offsets_ := gc_map_offsets_ w;
     runtime_methods := runtime_methods w |}.

Definition with_gc_map_offsets (f : gmap ptr Z → gmap ptr Z) (w : OatWriter) : OatWriter :=
  {| oat_header_ := oat_header_ w; oat_dex_files_ := oat_dex_files_ w;
     oat_classes_ := oat_classes_ w;
     executable_offset_padding_length_ := executable_offset_padding_length_ w;
     code_offsets_ := code_offsets_ w;
     mapping_table_offsets_ := mapping_table_offsets_ w;
     vmap_table_offsets_ := vmap_table_offsets_ w;
     gc_map_offsets_ := f (gc_map_offsets_ w);
     runtime_methods := runtime_methods w |}.

Definition with_runtime_methods (f : gmap ptr AbstractMethod → gmap ptr AbstractMethod)
    (w : OatWriter) : OatWriter :=
  {| oat_header_ := oat_header_ w; oat_dex_files_ := oat_dex_files_ w;
     oat_classes_ := oat_classes_ w;
     executable_offset_padding_length_ := executable_offset_padding_length_ w;
     code_offsets_ := code_offsets_ w;
     mapping_table_offsets_ := mapping_table_offsets_ w;
     vmap_table_offsets_ := vmap_table_offsets_ w;
     gc_map_offsets_ := gc_map_offsets_ w;
     runtime_methods := f (runtime_methods w) |}.

(** ** Alignment *)

(** utils.h: [RoundDown(x, n)] is [x & -n] and [RoundUp(x, n)] is
    [RoundDown(x + n - 1, n)], for a power of two [n]. *)
Definition RoundDown (x n : Z) : Z := x - x mod n.

Definition RoundUp (cast : Z → Z) (x n : Z) : Z := RoundDown (cast (x + n - 1)) n.

(** Modelled from the spec: the code alignment and the code delta of an
    instruction set (compiled_method.cc is not part of the sources).  The
    delta is the Thumb bit. *)
Definition CodeAlignment (g : Globals) (isa : InstructionSet) : Z :=
  match isa with
  | kArm | kThumb2 => kArmAlignment g
  | kMips => kMipsAlignment g
  | kX86 => kX86Alignment g
  end.

Definition AlignCode (cast : Z → Z) (g : Globals) (offset : Z) (isa : InstructionSet) : Z :=
  RoundUp cast offset (CodeAlignment g isa).

Definition CodeDelta (isa : InstructionSet) : Z :=
  match isa with kThumb2 => 1 | _ => 0 end.

(** The bytes of the compiler's vectors. *)
Definition code_bytes (m : Memory) (p : ptr) : list Z := vec8 m p.
Definition mapping_table_bytes (m : Memory) (p : ptr) : list Z := vec32 m p ≫= le32.
Definition vmap_table_bytes (m : Memory) (p : ptr) : list Z := vec16 m p ≫= le16.
Definition gc_map_bytes (m : Memory) (p : ptr) : list Z := vec8 m p.

(** The first [n] bytes at the start of a buffer. *)
Definition range (n : Z) (buf : list Z) : list Z := take (Z.to_nat n) buf.

(** ** OatDexFile and OatClass *)

Definition new_OatDexFile (cast : Z → Z) (dex_file : DexFile) : OatDexFile :=
  {| dex_file_location_size_ := cast (len (location dex_file));
     dex_file_location_data_ := location dex_file;
     dex_file_location_checksum_ := location_checksum dex_file;
     dex_file_offset_ := 0;
     methods_offsets_ := replicate (length (class_defs dex_file)) 0 |}.

Definition OatDexFile_SizeOf (cast : Z → Z) (d : OatDexFile) : Z :=
  cast (sizeof_uint32 + dex_file_location_size_ d + sizeof_uint32 + sizeof_uint32
        + sizeof_uint32 * len (methods_offsets_ d)).

Definition methods_offsets_bytes (cast : Z → Z) (d : OatDexFile) : list Z :=
  range (cast (sizeof_uint32 * len (methods_offsets_ d))) (methods_offsets_ d ≫= le32).

Definition OatDexFile_ranges (cast : Z → Z) (d : OatDexFile) : list (What * list Z) :=
  [ (DexFileLocationLength, le32 (dex_file_location_size_ d));
    (DexFileLocationData, range (dex_file_location_size_ d) (dex_file_location_data_ d));
    (DexFileLocationChecksum, le32 (dex_file_location_checksum_ d));
    (DexFileOffset, le32 (dex_file_offset_ d));
    (MethodsOffsets, methods_offsets_bytes cast d) ].

Definition OatDexFile_UpdateChecksum (cast : Z → Z) (d : OatDexFile) (h : OatHeader) : OatHeader :=
  fold_left (λ h r, OatHeader_UpdateChecksum r.1 r.2 h) (OatDexFile_ranges cast d) h.

Definition set_dex_file_offset (offset : Z) (d : OatDexFile) : OatDexFile :=
  {| dex_file_location_size_ := dex_file_location_size_ d;
     dex_file_location_data_ := dex_file_location_data_ d;
     dex_file_location_checksum_ := dex_file_location_checksum_ d;
     dex_file_offset_ := offset;
     methods_offsets_ := methods_offsets_ d |}.

Definition set_methods_offset (class_def_index : nat) (offset : Z) (d : OatDexFile) : OatDexFile :=
  {| dex_file_location_size_ := dex_file_location_size_ d;
     dex_file_location_data_ := dex_file_location_data_ d;
     dex_file_location_checksum_ := dex_file_location_checksum_ d;
     dex_file_offset_ := dex_file_offset_ d;
     methods_offsets_ := <[class_def_index := offset]> (methods_offsets_ d) |}.

Definition new_OatClass (status : Z) (methods_count : Z) : OatClass :=
  {| status_ := status;
     method_offsets_ := replicate (Z.to_nat methods_count) OatMethodOffsets_default |}.

Definition OatClass_SizeOf (cast : Z → Z) (c : OatClass) : Z :=
  cast (sizeof_uint32 + sizeof_OatMethodOffsets * len (method_offsets_ c)).

Definition method_offsets_bytes (cast : Z → Z) (c : OatClass) : list Z :=
  range (cast (sizeof_OatMethodOffsets * len (method_offsets_ c)))
        (method_offsets_ c ≫= OatMethodOffsets_bytes).

Definition OatClass_ranges (cast : Z → Z) (c : OatClass) : list (What * list Z) :=
  [ (ClassStatus, le32 (status_ c)); (MethodOffsets, method_offsets_bytes cast c) ].

Definition OatClass_UpdateChecksum (cast : Z → Z) (c : OatClass) (h : OatHeader) : OatHeader :=
  fold_left (λ h r, OatHeader_UpdateChecksum r.1 r.2 h) (OatClass_ranges cast c) h.

Definition set_method_offsets (class_def_method_index : nat) (m : OatMethodOffsets)
    (c : OatClass) : OatClass :=
  {| status_ := status_ c;
     method_offsets_ := <[class_def_method_index := m]> (method_offsets_ c) |}.

(** ** The offset-planning pass (the constructor) *)

Section Planning.

Context (cast : Z → Z) (E : Env).

Definition new_OatHeader : OatHeader :=
  {| hdr_instruction_set := GetInstructionSet (compiler E);
     hdr_dex_file_checksum :=
       fold_left (λ acc d, Z.lxor acc (location_checksum d)) (dex_files E) 0;
     hdr_image_file_location_oat_checksum := image_file_location_oat_checksum E;
     hdr_image_file_location_oat_begin := image_file_location_oat_begin E;
     hdr_executable_offset := 0;
     hdr_image_file_location_size := cast (len (image_file_location E));
     hdr_checksum_ranges := [] |}.

(** The writer as the constructor has it before the first phase:
    [rt] is the state of the runtime's methods at that time. *)
Definition OatWriter_initial (rt : gmap ptr AbstractMethod) : OatWriter :=
  {| oat_header_ := new_OatHeader; oat_dex_files_ := []; oat_classes_ := [];
     executable_offset_padding_length_ := 0;
     code_offsets_ := ∅; mapping_table_offsets_ := ∅;
     vmap_table_offsets_ := ∅; gc_map_offsets_ := ∅;
     runtime_methods := rt |}.

Definition InitOatHeader : Z :=
  cast (sizeof_OatHeader + len (image_file_location E)).

Fixpoint InitOatDexFiles_loop (dfs : list DexFile) (offset : Z) (w : OatWriter)
    : Z * OatWriter :=
  match dfs with
  | [] => (offset, w)
  | dex_file :: rest =>
      let oat_dex_file := new_OatDexFile cast dex_file in
      let w := with_dex_files (λ l, l ++ [oat_dex_file]) w in
      let offset := cast (offset + OatDexFile_SizeOf cast oat_dex_file) in
      InitOatDexFiles_loop rest offset w
  end.

Definition InitOatDexFiles (offset : Z) (w : OatWriter) : Z * OatWriter :=
  InitOatDexFiles_loop (dex_files E) offset w.

Fixpoint InitDexFiles_loop (dfs : list DexFile) (i : nat) (offset : Z) (w : OatWriter)
    : Z * OatWriter :=
  match dfs with
  | [] => (offset, w)
  | dex_file :: rest =>
      let offset := RoundUp cast offset 4 in
      let w := with_dex_files (alter (set_dex_file_offset offset) i) w in
      let offset := cast (offset + file_size_ dex_file) in
      InitDexFiles_loop rest (S i) offset w
  end.

Definition InitDexFiles (offset : Z) (w : OatWriter) : Z * OatWriter :=
  InitDexFiles_loop (dex_files E) 0%nat offset w.

(** The number of methods of a class definition, 0 for a class without
    class data. *)
Definition num_methods (class_def : ClassDef) : Z :=
  match class_data class_def with
  | Some cd => cast (len (direct_methods cd) + len (virtual_methods cd))
  | None => 0
  end.

(** The status of a class, as the OatClass phase determines it. *)
Definition class_status (dex_file : DexFile) (class_def_index : nat) : Z :=
  match GetCompiledClass (compiler E) (dex_addr dex_file) class_def_index with
  | Some status => status
  | None =>
      if IsClassRejected E (dex_addr dex_file) class_def_index
      then kStatusError else kStatusNotReady
  end.

Fixpoint InitOatClasses_classes (dex_file : DexFile) (i : nat) (cds : list ClassDef)
    (class_def_index : nat) (offset : Z) (w : OatWriter) : Z * OatWriter :=
  match cds with
  | [] => (offset, w)
  | class_def :: rest =>
      let w := with_dex_files (alter (set_methods_offset class_def_index offset) i) w in
      let status := class_status dex_file class_def_index in
      let oat_class := new_OatClass status (num_methods class_def) in
      let w := with_classes (λ l, l ++ [oat_class]) w in
      let offset := cast (offset + OatClass_SizeOf cast oat_class) in
      InitOatClasses_classes dex_file i rest (S class_def_index) offset w
  end.

Definition OatDexFile_UpdateChecksum_at (i : nat) (w : OatWriter) : OatWriter :=
  match oat_dex_files_ w !! i with
  | Some d => with_header (OatDexFile_UpdateChecksum cast d) w
  | None => w
  end.

Fixpoint InitOatClasses_loop (dfs : list DexFile) (i : nat) (offset : Z) (w : OatWriter)
    : Z * OatWriter :=
  match dfs with
  | [] => (offset, w)
  | dex_file :: rest =>
      let '(offset, w) :=
        InitOatClasses_classes dex_file i (class_defs dex_file) 0%nat offset w in
      let w := OatDexFile_UpdateChecksum_at i w in
      InitOatClasses_loop rest (S i) offset w
  end.

Definition InitOatClasses (offset : Z) (w : OatWriter) : Z * OatWriter :=
  InitOatClasses_loop (dex_files E) 0%nat offset w.

Definition InitOatCode (offset : Z) (w : OatWriter) : Z * OatWriter :=
  let old_offset := offset in
  let offset := RoundUp cast offset (kPageSize (globals E)) in
  let w := with_header (SetExecutableOffset offset) w in
  let w := with_padding (cast (offset - old_offset)) w in
  (offset, w).

(** *** InitOatCodeMethod, block by block

    Each block takes the offset cursor and the writer and returns the
    offset it records for the method, the new cursor and the new writer. *)

(** Lines 260-269, and 345-354 for an invoke stub: the lookup of a code
    array in [code_offsets_].  [offset] is the aligned cursor and
    [code_offset] the offset the array would get there. *)
Definition InitOatCodeMethod_deduplicate (code : ptr) (what : What) (code_size : Z)
    (code_offset : Z) (offset : Z) (w : OatWriter) : Z * Z * OatWriter :=
  match code_offsets_ w !! code with
  | Some stored => (stored, offset, w)
  | None =>
      let w := with_code_offsets <[code := code_offset]> w in
      let offset := cast (offset + sizeof_uint32) in
      let offset := cast (offset + code_size) in
      let w := with_header (OatHeader_UpdateChecksum what
                              (range code_size (code_bytes (memory E) code))) w in
      (code_offset, offset, w)
  end.

(** Lines 252-269: the code of a compiled method. *)
Definition InitOatCodeMethod_code (compiled_method : CompiledMethod) (offset : Z)
    (w : OatWriter) : option (Z * Z * OatWriter) :=
  let offset := AlignCode cast (globals E) offset (cm_instruction_set compiled_method) in
  let code := cm_code compiled_method in
  let code_size := cast (len (code_bytes (memory E) code) * 1) in
  if decide (code_size = 0) then None else
  let thumb_offset := CodeDelta (cm_instruction_set compiled_method) in
  let code_offset := cast (offset + sizeof_uint32 + thumb_offset) in
  Some (InitOatCodeMethod_deduplicate code MethodCode code_size code_offset offset w).

(** Lines 274-286: the mapping table. *)
Definition InitOatCodeMethod_mapping_table (compiled_method : CompiledMethod) (offset : Z)
    (w : OatWriter) : Z * Z * OatWriter :=
  let mapping_table := cm_mapping_table compiled_method in
  let mapping_table_size := cast (len (vec32 (memory E) mapping_table) * 4) in
  let mapping_table_offset := if decide (mapping_table_size = 0) then 0 else offset in
  match mapping_table_offsets_ w !! mapping_table with
  | Some stored => (stored, offset, w)
  | None =>
      let w := with_mapping_table_offsets <[mapping_table := mapping_table_offset]> w in
      let offset := cast (offset + mapping_table_size) in
      let w := with_header (OatHeader_UpdateChecksum MappingTable
                 (range mapping_table_size (mapping_table_bytes (memory E) mapping_table))) w in
      (mapping_table_offset, offset, w)
  end.

(** Lines 288-300: the vmap table. *)
Definition InitOatCodeMethod_vmap_table (compiled_method : CompiledMethod) (offset : Z)
    (w : OatWriter) : Z * Z * OatWriter :=
  let vmap_table := cm_vmap_table compiled_method in
  let vmap_table_size := cast (len (vec16 (memory E) vmap_table) * 2) in
  let vmap_table_offset := if decide (vmap_table_size = 0) then 0 else offset in
  match vmap_table_offsets_ w !! vmap_table with
  | Some stored => (stored, offset, w)
  | None =>
      let w := with_vmap_table_offsets <[vmap_table := vmap_table_offset]> w in
      let offset := cast (offset + vmap_table_size) in
      let w := with_header (OatHeader_UpdateChecksum VmapTable
                 (range vmap_table_size (vmap_table_bytes (memory E) vmap_table))) w in
      (vmap_table_offset, offset, w)
  end.

(** Lines 302-330: the native GC map. *)
Definition InitOatCodeMethod_gc_map (compiled_method : CompiledMethod) (offset : Z)
    (w : OatWriter) : Z * Z * OatWriter :=
  let gc_map := cm_native_gc_map compiled_method in
  let gc_map_size := cast (len (vec8 (memory E) gc_map) * 1) in
  let gc_map_offset := if decide (gc_map_size = 0) then 0 else offset in
  match gc_map_offsets_ w !! gc_map with
  | Some stored => (stored, offset, w)
  | None =>
      let w := with_gc_map_offsets <[gc_map := gc_map_offset]> w in
      let offset := cast (offset + gc_map_size) in
      let w := with_header (OatHeader_UpdateChecksum GcMap
                 (range gc_map_size (gc_map_bytes (memory E) gc_map))) w in
      (gc_map_offset, offset, w)
  end.

(** Lines 336-355: the invoke stub, interned in [code_offsets_]. *)
Definition InitOatCodeMethod_invoke_stub (compiled_invoke_stub : CompiledInvokeStub)
    (offset : Z) (w : OatWriter) : option (Z * Z * OatWriter) :=
  let offset := AlignCode cast (globals E) offset (GetInstructionSet (compiler E)) in
  let invoke_stub := stub_code compiled_invoke_stub in
  let invoke_stub_size := cast (len (code_bytes (memory E) invoke_stub) * 1) in
  if decide (invoke_stub_size = 0) then None else
  let thumb_offset := CodeDelta (stub_instruction_set compiled_invoke_stub) in
  let invoke_stub_offset := cast (offset + sizeof_uint32 + thumb_offset) in
  Some (InitOatCodeMethod_deduplicate invoke_stub InvokeStubCode invoke_stub_size
          invoke_stub_offset offset w).

(** Lines 357-381: the proxy stub, interned in [code_offsets_] as well.
    The block is compiled only with ART_USE_LLVM_COMPILER, where the record
    of a method has a ninth field for the offset it returns; the build
    modelled here leaves it out, and [InitOatCodeMethod] below does not call
    it.  [compiled_proxy_stub] is the result of [FindProxyStub]. *)
Definition InitOatCodeMethod_proxy_stub (type : InvokeType)
    (compiled_proxy_stub : option CompiledInvokeStub)
    (offset : Z) (w : OatWriter) : option (Z * Z * OatWriter) :=
  if bool_decide (type ≠ kStatic) then
    match compiled_proxy_stub with
    | Some compiled_proxy_stub =>
        let offset := AlignCode cast (globals E) offset (GetInstructionSet (compiler E)) in
        let proxy_stub := stub_code compiled_proxy_stub in
        let proxy_stub_size := cast (len (code_bytes (memory E) proxy_stub) * 1) in
        if decide (proxy_stub_size = 0) then None else
        let thumb_offset := CodeDelta (stub_instruction_set compiled_proxy_stub) in
        let proxy_stub_offset := cast (offset + sizeof_uint32 + thumb_offset) in
        Some (InitOatCodeMethod_deduplicate proxy_stub ProxyStubCode proxy_stub_size
                proxy_stub_offset offset w)
    | None => Some (0, offset, w)
    end
  else Some (0, offset, w).

(** Lines 397-419: the boot-image bridge. *)
Definition update_AbstractMethod (mo : OatMethodOffsets) (method : AbstractMethod)
    : AbstractMethod :=
  {| am_is_static := am_is_static method;
     am_is_constructor := am_is_constructor method;
     am_declaring_class_initialized := am_declaring_class_initialized method;
     am_frame_size_in_bytes := frame_size_in_bytes_ mo;
     am_core_spill_mask := core_spill_mask_ mo;
     am_fp_spill_mask := fp_spill_mask_ mo;
     am_mapping_table_offset := mapping_table_offset_ mo;
     am_vmap_table_offset := vmap_table_offset_ mo;
     am_gc_map_offset := gc_map_offset_ mo;
     am_invoke_stub_offset := invoke_stub_offset_ mo;
     am_code :=
       if negb (am_is_static method) || am_is_constructor method
          || am_declaring_class_initialized method
       then code_offset_ mo
       else resolution_stub_static E |}.

Definition InitOatCodeMethod_image (type : InvokeType) (method_idx : Z) (dex_file : DexFile)
    (mo : OatMethodOffsets) (w : OatWriter) : option OatWriter :=
  if IsImage (compiler E) then
    a ← ResolveMethod E (dex_addr dex_file) method_idx type;
    method ← runtime_methods w !! a;
    Some (with_runtime_methods <[a := update_AbstractMethod mo method]> w)
  else Some w.

(** What the compiled method contributes to the record and to the layout. *)
Definition InitOatCodeMethod_compiled (method_idx : Z) (dex_file : DexFile) (offset : Z)
    (w : OatWriter) : option (OatMethodOffsets * Z * OatWriter) :=
  match GetCompiledMethod (compiler E) (dex_addr dex_file) method_idx with
  | Some compiled_method =>
      '(code_offset, offset, w) ← InitOatCodeMethod_code compiled_method offset w;
      let '(mapping_table_offset, offset, w) :=
        InitOatCodeMethod_mapping_table compiled_method offset w in
      let '(vmap_table_offset, offset, w) :=
        InitOatCodeMethod_vmap_table compiled_method offset w in
      let '(gc_map_offset, offset, w) :=
        InitOatCodeMethod_gc_map compiled_method offset w in
      Some ({| code_offset_ := code_offset;
               frame_size_in_bytes_ := cm_frame_size_in_bytes compiled_method;
               core_spill_mask_ := cm_core_spill_mask compiled_method;
               fp_spill_mask_ := cm_fp_spill_mask compiled_method;
               mapping_table_offset_ := mapping_table_offset;
               vmap_table_offset_ := vmap_table_offset;
               gc_map_offset_ := gc_map_offset;
               invoke_stub_offset_ := 0 |}, offset, w)
  | None =>
      Some ({| code_offset_ := 0;
               frame_size_in_bytes_ := kStackAlignment (globals E);
               core_spill_mask_ := 0; fp_spill_mask_ := 0;
               mapping_table_offset_ := 0; vmap_table_offset_ := 0;
               gc_map_offset_ := 0; invoke_stub_offset_ := 0 |}, offset, w)
  end.

Definition set_invoke_stub_offset (z : Z) (mo : OatMethodOffsets) : OatMethodOffsets :=
  {| code_offset_ := code_offset_ mo;
     frame_size_in_bytes_ := frame_size_in_bytes_ mo;
     core_spill_mask_ := core_spill_mask_ mo;
     fp_spill_mask_ := fp_spill_mask_ mo;
     mapping_table_offset_ := mapping_table_offset_ mo;
     vmap_table_offset_ := vmap_table_offset_ mo;
     gc_map_offset_ := gc_map_offset_ mo;
     invoke_stub_offset_ := z |}.

Definition InitOatCodeMethod (offset : Z) (oat_class_index : nat)
    (class_def_method_index : nat) (type : InvokeType) (method_idx : Z)
    (dex_file : DexFile) (w : OatWriter) : option (Z * OatWriter) :=
  '(mo, offset, w) ← InitOatCodeMethod_compiled method_idx dex_file offset w;
  let shorty := GetMethodShorty dex_file method_idx in
  '(invoke_stub_offset, offset, w) ←
    match FindInvokeStub (compiler E) (bool_decide (type = kStatic)) shorty with
    | Some compiled_invoke_stub =>
        InitOatCodeMethod_invoke_stub compiled_invoke_stub offset w
    | None => Some (0, offset, w)
    end;
  let mo := set_invoke_stub_offset invoke_stub_offset mo in
  let w := with_classes
             (alter (set_method_offsets class_def_method_index mo) oat_class_index) w in
  w ← InitOatCodeMethod_image type method_idx dex_file mo w;
  Some (offset, w).

(** The two method loops of [InitOatCodeClassDef] have the same body. *)
Fixpoint InitOatCodeClassDef_methods (ms : list EncodedMethod) (offset : Z)
    (oat_class_index : nat) (class_def_method_index : nat) (dex_file : DexFile)
    (w : OatWriter) : option (Z * nat * OatWriter) :=
  match ms with
  | [] => Some (offset, class_def_method_index, w)
  | m :: rest =>
      '(offset, w) ← InitOatCodeMethod offset oat_class_index class_def_method_index
                        (invoke_type m) (method_idx m) dex_file w;
      InitOatCodeClassDef_methods rest offset oat_class_index
        (S class_def_method_index) dex_file w
  end.

Definition InitOatCodeClassDef (offset : Z) (oat_class_index : nat) (dex_file : DexFile)
    (class_def : ClassDef) (w : OatWriter) : option (Z * OatWriter) :=
  match class_data class_def with
  | None => Some (offset, w)
  | Some cd =>
      oat_class ← oat_classes_ w !! oat_class_index;
      if decide (len (method_offsets_ oat_class)
                 = cast (len (direct_methods cd) + len (virtual_methods cd))) then
        '(offset, class_def_method_index, w) ←
          InitOatCodeClassDef_methods (direct_methods cd) offset oat_class_index 0%nat
            dex_file w;
        '(offset, _, w) ←
          InitOatCodeClassDef_methods (virtual_methods cd) offset oat_class_index
            class_def_method_index dex_file w;
        Some (offset, w)
      else None
  end.

Definition OatClass_UpdateChecksum_at (oat_class_index : nat) (w : OatWriter) : OatWriter :=
  match oat_classes_ w !! oat_class_index with
  | Some c => with_header (OatClass_UpdateChecksum cast c) w
  | None => w
  end.

Fixpoint InitOatCodeDexFile_loop (cds : list ClassDef) (offset : Z) (oat_class_index : nat)
    (dex_file : DexFile) (w : OatWriter) : option (Z * nat * OatWriter) :=
  match cds with
  | [] => Some (offset, oat_class_index, w)
  | class_def :: rest =>
      '(offset, w) ← InitOatCodeClassDef offset oat_class_index dex_file class_def w;
      let w := OatClass_UpdateChecksum_at oat_class_index w in
      InitOatCodeDexFile_loop rest offset (S oat_class_index) dex_file w
  end.

Definition InitOatCodeDexFile (offset : Z) (oat_class_index : nat) (dex_file : DexFile)
    (w : OatWriter) : option (Z * nat * OatWriter) :=
  InitOatCodeDexFile_loop (class_defs dex_file) offset oat_class_index dex_file w.

Fixpoint InitOatCodeDexFiles_loop (dfs : list DexFile) (offset : Z) (oat_class_index : nat)
    (w : OatWriter) : option (Z * nat * OatWriter) :=
  match dfs with
  | [] => Some (offset, oat_class_index, w)
  | dex_file :: rest =>
      '(offset, oat_class_index, w) ← InitOatCodeDexFile offset oat_class_index dex_file w;
      InitOatCodeDexFiles_loop rest offset oat_class_index w
  end.

Definition InitOatCodeDexFiles (offset : Z) (w : OatWriter) : option (Z * OatWriter) :=
  '(offset, _, w) ← InitOatCodeDexFiles_loop (dex_files E) offset 0%nat w;
  Some (offset, w).

(** The constructor.  It returns the writer together with the last value
    of its local [offset], the planned length of the file. *)
Definition OatWriter_new (rt : gmap ptr AbstractMethod) : option (Z * OatWriter) :=
  let w := OatWriter_initial rt in
  let offset := InitOatHeader in
  let '(offset, w) := InitOatDexFiles offset w in
  let '(offset, w) := InitDexFiles offset w in
  let '(offset, w) := InitOatClasses offset w in
  let '(offset, w) := InitOatCode offset w in
  '(offset, w) ← InitOatCodeDexFiles offset w;
  if decide (length (dex_files E) = length (oat_dex_files_ w))
  then Some (offset, w) else None.

End Planning.

(** ** The output stream

    [OutputStream] is an interface; the model is a stream that keeps its
    position and a journal of the calls it served, and whose behaviour is
    scripted: call by call it either does what a file does or fails (a
    write returns [false], a seek lands elsewhere).  Once the script is
    exhausted the stream is faithful. *)

Inductive Whence := kSeekSet | kSeekCurrent.

Inductive Behaviour := Faithful | Faulty (z : Z).

Inductive Event :=
  | Written (what : What) (at_position : Z) (data : list Z)
  | WriteFailed (what : What) (at_position : Z) (data : list Z)
  | Sought (target : Z) (result : Z).

Record OutputStream := {
  position : Z;
  events : list Event;
  behaviour : list Behaviour
}.

Definition WriteFully (what : What) (data : list Z) (out : OutputStream)
    : bool * OutputStream :=
  match behaviour out with
  | Faulty _ :: rest =>
      (false, {| position := position out;
                 events := events out ++ [WriteFailed what (position out) data];
                 behaviour := rest |})
  | _ =>
      (true, {| position := position out + len data;
                events := events out ++ [Written what (position out) data];
                behaviour := tail (behaviour out) |})
  end.

Definition Seek (offset : Z) (whence : Whence) (out : OutputStream) : Z * OutputStream :=
  let target := match whence with
                | kSeekSet => offset
                | kSeekCurrent => position out + offset
                end in
  let result := match behaviour out with
                | Faulty z :: _ => z
                | _ => target
                end in
  (result, {| position := result;
              events := events out ++ [Sought target result];
              behaviour := tail (behaviour out) |}).

(** A 32-bit unsigned value passed where an [off_t] is expected. *)
Definition off_t_of_uint32 (z : Z) : Z := if decide (z < 2 ^ 31) then z else z - 2 ^ 32.

(** How a part of the writing pass ends: it goes on with a value, it
    reports a failure to its caller, or a [CHECK] aborts the process. *)
Inductive step (A : Type) :=
  | Done (a : A) (out : OutputStream)
  | Fail (out : OutputStream)
  | Abort (out : OutputStream).
Arguments Done {A} a out.
Arguments Fail {A} out.
Arguments Abort {A} out.

Definition step_bind {A B} (s : step A) (k : A → OutputStream → step B) : step B :=
  match s with
  | Done a out => k a out
  | Fail out => Fail out
  | Abort out => Abort out
  end.

Definition stream_of {A} (s : step A) : OutputStream :=
  match s with Done _ out | Fail out | Abort out => out end.

(** [out.WriteFully(...)] guarded by [if (!...) return failure]. *)
Definition write (what : What) (data : list Z) (out : OutputStream) : step unit :=
  let '(ok, out) := WriteFully what data out in
  if ok then Done () out else Fail out.

(** [out.Seek(offset, whence)] guarded by
    [if (static_cast<uint32_t>(result) != expected) return failure]. *)
Definition seek (offset : Z) (whence : Whence) (expected : Z) (out : OutputStream)
    : step unit :=
  let '(result, out) := Seek (off_t_of_uint32 offset) whence out in
  if decide (uint32_of_off_t result = expected) then Done () out else Fail out.

Fixpoint write_all (rs : list (What * list Z)) (out : OutputStream) : step unit :=
  match rs with
  | [] => Done () out
  | r :: rest => step_bind (write r.1 r.2 out) (λ _, write_all rest)
  end.

Definition OatDexFile_Write (d : OatDexFile) (out : OutputStream) : step unit :=
  write_all (OatDexFile_ranges wrap32 d) out.

Definition OatClass_Write (c : OatClass) (out : OutputStream) : step unit :=
  write_all (OatClass_ranges wrap32 c) out.

(** ** The writing pass *)

Section Writing.

Context (E : Env) (w : OatWriter).

Fixpoint WriteTables_oat_dex_files (ds : list OatDexFile) (out : OutputStream) : step unit :=
  match ds with
  | [] => Done () out
  | d :: rest => step_bind (OatDexFile_Write d out) (λ _, WriteTables_oat_dex_files rest)
  end.

(** The second loop of [WriteTables]; indexing [dex_files_] out of range is
    undefined behaviour, modelled as an abort. *)
Fixpoint WriteTables_dex_files (ds : list OatDexFile) (i : nat) (out : OutputStream)
    : step unit :=
  match ds with
  | [] => Done () out
  | d :: rest =>
      let expected_offset := dex_file_offset_ d in
      step_bind (seek expected_offset kSeekSet expected_offset out) (λ _ out,
      match dex_files E !! i with
      | None => Abort out
      | Some dex_file =>
          step_bind (write DexFilePayload
                       (range (wrap32 (file_size_ dex_file)) (dex_image dex_file)) out)
            (λ _, WriteTables_dex_files rest (S i))
      end)
  end.

Fixpoint WriteTables_oat_classes (cs : list OatClass) (out : OutputStream) : step unit :=
  match cs with
  | [] => Done () out
  | c :: rest => step_bind (OatClass_Write c out) (λ _, WriteTables_oat_classes rest)
  end.

Definition WriteTables (out : OutputStream) : step unit :=
  step_bind (WriteTables_oat_dex_files (oat_dex_files_ w) out) (λ _ out,
  step_bind (WriteTables_dex_files (oat_dex_files_ w) 0%nat out) (λ _ out,
  WriteTables_oat_classes (oat_classes_ w) out)).

(** [WriteCode] returns the code offset, 0 for a failure. *)
Definition WriteCode (out : OutputStream) : step Z :=
  let code_offset := GetExecutableOffset (oat_header_ w) in
  match seek (executable_offset_padding_length_ w) kSeekCurrent code_offset out with
  | Done _ out => Done code_offset out
  | Fail out => Done 0 out
  | Abort out => Abort out
  end.

(** Seeking forward to the aligned offset, lines 585-596 and 695-707. *)
Definition WriteCodeMethod_align (aligned_code_offset : Z) (code_offset : Z)
    (out : OutputStream) : step Z :=
  let aligned_code_delta := wrap32 (aligned_code_offset - code_offset) in
  if decide (aligned_code_delta = 0) then Done code_offset out
  else
    step_bind (seek aligned_code_delta kSeekCurrent aligned_code_offset out) (λ _ out,
    Done (wrap32 (code_offset + aligned_code_delta)) out).

(** Lines 602-620, and 713-733 for an invoke stub: the array is written,
    after its size, unless it is in [code_offsets_] and the offset it would
    get here is not the recorded one. *)
Definition WriteCodeMethod_deduplicate (code : ptr) (what_size what : What) (code_size : Z)
    (offset : Z) (recorded : Z) (code_offset : Z) (out : OutputStream) : step Z :=
  if bool_decide (is_Some (code_offsets_ w !! code)) && bool_decide (offset ≠ recorded)
  then Done code_offset out
  else
    step_bind (write what_size (le32 code_size) out) (λ _ out,
    let code_offset := wrap32 (code_offset + sizeof_uint32) in
    step_bind (write what (range code_size (code_bytes (memory E) code)) out) (λ _ out,
    Done (wrap32 (code_offset + code_size)) out)).

(** Lines 585-621: the code of a compiled method. *)
Definition WriteCodeMethod_code (compiled_method : CompiledMethod)
    (method_offsets : OatMethodOffsets) (code_offset : Z) (out : OutputStream) : step Z :=
  let aligned_code_offset :=
    wrap32 (AlignCode wrap32 (globals E) code_offset (cm_instruction_set compiled_method)) in
  step_bind (WriteCodeMethod_align aligned_code_offset code_offset out) (λ code_offset out,
  let code := cm_code compiled_method in
  let code_size := wrap32 (len (code_bytes (memory E) code) * 1) in
  if decide (code_size = 0) then Abort out else
  let offset := wrap32 (code_offset + sizeof_uint32
                        + CodeDelta (cm_instruction_set compiled_method)) in
  WriteCodeMethod_deduplicate code MethodCodeSize MethodCode code_size offset
    (code_offset_ method_offsets) code_offset out).

(** Lines 623-644: the mapping table. *)
Definition WriteCodeMethod_mapping_table (compiled_method : CompiledMethod)
    (method_offsets : OatMethodOffsets) (code_offset : Z) (out : OutputStream) : step Z :=
  let mapping_table := cm_mapping_table compiled_method in
  let mapping_table_size := wrap32 (len (vec32 (memory E) mapping_table) * 4) in
  if bool_decide (is_Some (mapping_table_offsets_ w !! mapping_table))
     && bool_decide (code_offset ≠ mapping_table_offset_ method_offsets)
  then Done code_offset out
  else
    step_bind (write MappingTable
                 (range mapping_table_size (mapping_table_bytes (memory E) mapping_table)) out)
      (λ _ out, Done (wrap32 (code_offset + mapping_table_size)) out).

(** Lines 646-667: the vmap table. *)
Definition WriteCodeMethod_vmap_table (compiled_method : CompiledMethod)
    (method_offsets : OatMethodOffsets) (code_offset : Z) (out : OutputStream) : step Z :=
  let vmap_table := cm_vmap_table compiled_method in
  let vmap_table_size := wrap32 (len (vec16 (memory E) vmap_table) * 2) in
  if bool_decide (is_Some (vmap_table_offsets_ w !! vmap_table))
     && bool_decide (code_offset ≠ vmap_table_offset_ method_offsets)
  then Done code_offset out
  else
    step_bind (write VmapTable
                 (range vmap_table_size (vmap_table_bytes (memory E) vmap_table)) out)
      (λ _ out, Done (wrap32 (code_offset + vmap_table_size)) out).

(** Lines 669-690: the native GC map. *)
Definition WriteCodeMethod_gc_map (compiled_method : CompiledMethod)
    (method_offsets : OatMethodOffsets) (code_offset : Z) (out : OutputStream) : step Z :=
  let gc_map := cm_native_gc_map compiled_method in
  let gc_map_size := wrap32 (len (vec8 (memory E) gc_map) * 1) in
  if bool_decide (is_Some (gc_map_offsets_ w !! gc_map))
     && bool_decide (code_offset ≠ gc_map_offset_ method_offsets)
  then Done code_offset out
  else
    step_bind (write GcMap (range gc_map_size (gc_map_bytes (memory E) gc_map)) out)
      (λ _ out, Done (wrap32 (code_offset + gc_map_size)) out).

(** Lines 694-734: the invoke stub. *)
Definition WriteCodeMethod_invoke_stub (compiled_invoke_stub : CompiledInvokeStub)
    (method_offsets : OatMethodOffsets) (code_offset : Z) (out : OutputStream) : step Z :=
  let aligned_code_offset :=
    wrap32 (AlignCode wrap32 (globals E) code_offset (GetInstructionSet (compiler E))) in
  step_bind (WriteCodeMethod_align aligned_code_offset code_offset out) (λ code_offset out,
  let invoke_stub := stub_code compiled_invoke_stub in
  let invoke_stub_size := wrap32 (len (code_bytes (memory E) invoke_stub) * 1) in
  if decide (invoke_stub_size = 0) then Abort out else
  let offset := wrap32 (code_offset + sizeof_uint32
                        + CodeDelta (stub_instruction_set compiled_invoke_stub)) in
  WriteCodeMethod_deduplicate invoke_stub InvokeStubCodeSize InvokeStubCode
    invoke_stub_size offset (invoke_stub_offset_ method_offsets) code_offset out).

(** [oat_classes_[oat_class_index]->method_offsets_[class_def_method_index]];
    an index out of range is undefined behaviour, for which the model
    reads a default record. *)
Definition method_offsets_at (oat_class_index class_def_method_index : nat)
    : OatMethodOffsets :=
  default OatMethodOffsets_default
    (c ← oat_classes_ w !! oat_class_index; method_offsets_ c !! class_def_method_index).

(** Lines 577-691: what is written for the compiled method, if any. *)
Definition WriteCodeMethod_compiled (method_idx : Z) (dex_file : DexFile)
    (method_offsets : OatMethodOffsets) (code_offset : Z) (out : OutputStream) : step Z :=
  match GetCompiledMethod (compiler E) (dex_addr dex_file) method_idx with
  | Some compiled_method =>
      step_bind (WriteCodeMethod_code compiled_method method_offsets code_offset out)
        (λ code_offset out,
      step_bind (WriteCodeMethod_mapping_table compiled_method method_offsets
                   code_offset out) (λ code_offset out,
      step_bind (WriteCodeMethod_vmap_table compiled_method method_offsets
                   code_offset out) (λ code_offset out,
      WriteCodeMethod_gc_map compiled_method method_offsets code_offset out)))
  | None => Done code_offset out
  end.

(** [WriteCodeMethod] returns the new code offset, 0 for a failure. *)
Definition WriteCodeMethod (out : OutputStream) (code_offset : Z) (oat_class_index : nat)
    (class_def_method_index : nat) (is_static : bool) (method_idx : Z)
    (dex_file : DexFile) : step Z :=
  let method_offsets := method_offsets_at oat_class_index class_def_method_index in
  let r :=
    step_bind (WriteCodeMethod_compiled method_idx dex_file method_offsets code_offset out)
      (λ code_offset out,
       let shorty := GetMethodShorty dex_file method_idx in
       match FindInvokeStub (compiler E) is_static shorty with
       | Some compiled_invoke_stub =>
           WriteCodeMethod_invoke_stub compiled_invoke_stub method_offsets code_offset out
       | None => Done code_offset out
       end) in
  match r with
  | Fail out => Done 0 out
  | _ => r
  end.

(** The method loops of [WriteCodeClassDef]: the loop over the direct
    methods reads [is_static] from the access flags, the loop over the
    virtual methods passes [false]. *)
Fixpoint WriteCodeClassDef_methods (direct : bool) (ms : list EncodedMethod)
    (out : OutputStream) (code_offset : Z) (oat_class_index : nat)
    (class_def_method_index : nat) (dex_file : DexFile) : step (Z * nat) :=
  match ms with
  | [] => Done (code_offset, class_def_method_index) out
  | m :: rest =>
      let is_static :=
        direct && bool_decide (Z.land (access_flags m) kAccStatic ≠ 0) in
      step_bind (WriteCodeMethod out code_offset oat_class_index class_def_method_index
                   is_static (method_idx m) dex_file) (λ code_offset out,
      if decide (code_offset = 0) then Done (0, class_def_method_index) out
      else WriteCodeClassDef_methods direct rest out code_offset oat_class_index
             (S class_def_method_index) dex_file)
  end.

Definition WriteCodeClassDef (out : OutputStream) (code_offset : Z) (oat_class_index : nat)
    (dex_file : DexFile) (class_def : ClassDef) : step Z :=
  match class_data class_def with
  | None => Done code_offset out
  | Some cd =>
      step_bind (WriteCodeClassDef_methods true (direct_methods cd) out code_offset
                   oat_class_index 0%nat dex_file) (λ '(code_offset, i) out,
      if decide (code_offset = 0) then Done 0 out else
      step_bind (WriteCodeClassDef_methods false (virtual_methods cd) out code_offset
                   oat_class_index i dex_file) (λ '(code_offset, _) out,
      Done code_offset out))
  end.

Fixpoint WriteCodeDexFile_loop (cds : list ClassDef) (out : OutputStream) (code_offset : Z)
    (oat_class_index : nat) (dex_file : DexFile) : step (Z * nat) :=
  match cds with
  | [] => Done (code_offset, oat_class_index) out
  | class_def :: rest =>
      step_bind (WriteCodeClassDef out code_offset oat_class_index dex_file class_def)
        (λ code_offset out,
      if decide (code_offset = 0) then Done (0, oat_class_index) out
      else WriteCodeDexFile_loop rest out code_offset (S oat_class_index) dex_file)
  end.

Definition WriteCodeDexFile (out : OutputStream) (code_offset : Z) (oat_class_index : nat)
    (dex_file : DexFile) : step (Z * nat) :=
  WriteCodeDexFile_loop (class_defs dex_file) out code_offset oat_class_index dex_file.

Fixpoint WriteCodeDexFiles_loop (ds : list OatDexFile) (i : nat) (out : OutputStream)
    (code_offset : Z) (oat_class_index : nat) : step Z :=
  match ds with
  | [] => Done code_offset out
  | _ :: rest =>
      match dex_files E !! i with
      | None => Abort out
      | Some dex_file =>
          step_bind (WriteCodeDexFile out code_offset oat_class_index dex_file)
            (λ '(code_offset, oat_class_index) out,
          if decide (code_offset = 0) then Done 0 out
          else WriteCodeDexFiles_loop rest (S i) out code_offset oat_class_index)
      end
  end.

Definition WriteCodeDexFiles (out : OutputStream) (code_offset : Z) : step Z :=
  WriteCodeDexFiles_loop (oat_dex_files_ w) 0%nat out code_offset 0%nat.

(** [Write] returns [true] or [false], unless a [CHECK] aborts. *)
Definition Write (out : OutputStream) : step bool :=
  match write OatHeaderStruct (OatHeader_bytes (oat_header_ w)) out with
  | Fail out => Done false out
  | Abort out => Abort out
  | Done _ out =>
  match write ImageFileLocation
          (range (wrap32 (len (image_file_location E))) (image_file_location E)) out with
  | Fail out => Done false out
  | Abort out => Abort out
  | Done _ out =>
  match WriteTables out with
  | Fail out => Done false out
  | Abort out => Abort out
  | Done _ out =>
  step_bind (WriteCode out) (λ code_offset out,
  if decide (code_offset = 0) then Done false out else
  step_bind (WriteCodeDexFiles out code_offset) (λ code_offset out,
  if decide (code_offset = 0) then Done false out else
  Done true out))
  end end end.

End Writing.

(** ** The program: 32-bit arithmetic *)

(** [Create]: construct the writer, then write. *)
Definition Create (E : Env) (rt : gmap ptr AbstractMethod) (out : OutputStream)
    : option (step bool) :=
  '(_, w) ← OatWriter_new wrap32 E rt;
  Some (Write E w out).

Definition fresh_stream (script : list Behaviour) : OutputStream :=
  {| position := 0; events := []; behaviour := script |}.

(** ** Vocabulary of the specification *)

(** A call of the stream went well: a write returned [true], a seek landed
    on its target. *)
Definition event_ok (e : Event) : Prop :=
  match e with
  | Written _ _ _ => True
  | WriteFailed _ _ _ => False
  | Sought target result => target = result
  end.

Global Instance event_ok_dec e : Decision (event_ok e).
Proof. destruct e; simpl; apply _. Defined.

(** The ranges written, in order. *)
Definition writes_of (evs : list Event) : list (What * list Z) :=
  omap (λ e, match e with Written what _ data => Some (what, data) | _ => None end) evs.

(** The positions a stream may report are values of [off_t]. *)
Definition stream_inv (out : OutputStream) : Prop :=
  Forall (λ b, match b with Faulty z => off_t_range z | Faithful => True end)
         (behaviour out).

(** [tracks out r a o ws]: started on [out], a part of the writing pass
    that ended as [r] either went on with the value [a], leaving the stream
    at position [o] after calls that all went well and wrote the ranges
    [ws]; or it reported a failure after a call that went wrong.  It did
    not abort, and on a faithful stream it did not fail. *)
Definition tracks {A} (out : OutputStream) (r : step A) (a : A) (o : Z)
    (ws : list (What * list Z)) : Prop :=
  stream_inv (stream_of r) ∧
  (behaviour out = [] → behaviour (stream_of r) = [] ∧ r = Done a (stream_of r)) ∧
  ∃ evs, events (stream_of r) = events out ++ evs ∧
    match r with
    | Done c out' => c = a ∧ position out' = o ∧ Forall event_ok evs ∧ writes_of evs = ws
    | Fail _ => ¬ Forall event_ok evs
    | Abort _ => False
    end.

(** A function of the writing pass that returns an offset reports a
    failure by returning 0: [reported z r] reads the result [r] of such a
    function, [z] giving the offset in the returned value. *)
Definition reported {A} (z : A → Z) (r : step A) : step A :=
  match r with
  | Done a out => if decide (z a = 0) then Fail out else Done a out
  | _ => r
  end.

(** [emits P out r]: if the part of the writing pass that started on
    [out] went on, every call of the stream it made satisfies [P]. *)
Definition emits (P : Event → Prop) {A} (out : OutputStream) (r : step A) : Prop :=
  ∀ a out', r = Done a out' → ∃ evs, events out' = events out ++ evs ∧ Forall P evs.

(** [tracks], together with what is known of the calls of the stream. *)
Definition ptracks (P : Event → Prop) {A} (out : OutputStream) (r : step A) (a : A) (o : Z)
    (ws : list (What * list Z)) : Prop :=
  tracks out r a o ws ∧ emits P out r.

(** The writes the writing pass can make for a method, at the positions
    that the record [mo] of the method gives: the size and the code of its
    compiled method, its three tables, and the size and the code of its
    invoke stub. *)
Definition compiled_events (E : Env) (mo : OatMethodOffsets) (cm : CompiledMethod)
    : list Event :=
  [ Written MethodCodeSize
      (code_offset_ mo - CodeDelta (cm_instruction_set cm) - sizeof_uint32)
      (le32 (len (code_bytes (memory E) (cm_code cm))));
    Written MethodCode (code_offset_ mo - CodeDelta (cm_instruction_set cm))
      (code_bytes (memory E) (cm_code cm));
    Written MappingTable (mapping_table_offset_ mo)
      (mapping_table_bytes (memory E) (cm_mapping_table cm));
    Written VmapTable (vmap_table_offset_ mo)
      (vmap_table_bytes (memory E) (cm_vmap_table cm));
    Written GcMap (gc_map_offset_ mo) (gc_map_bytes (memory E) (cm_native_gc_map cm)) ].

Definition stub_events (E : Env) (mo : OatMethodOffsets) (stub : CompiledInvokeStub)
    : list Event :=
  [ Written InvokeStubCodeSize
      (invoke_stub_offset_ mo - CodeDelta (stub_instruction_set stub) - sizeof_uint32)
      (le32 (len (code_bytes (memory E) (stub_code stub))));
    Written InvokeStubCode (invoke_stub_offset_ mo - CodeDelta (stub_instruction_set stub))
      (code_bytes (memory E) (stub_code stub)) ].

(** *** Admissible inputs *)

Definition globals_wf (g : Globals) : Prop :=
  0 < kPageSize g < 2 ^ 31 ∧ 0 < kArmAlignment g < 2 ^ 31 ∧
  0 < kMipsAlignment g < 2 ^ 31 ∧ 0 < kX86Alignment g < 2 ^ 31.

(** The vectors fit a 32-bit address space. *)
Definition memory_wf (m : Memory) : Prop :=
  ∀ p, len (vec8 m p) < 2 ^ 32 ∧ len (vec16 m p) * 2 < 2 ^ 32 ∧ len (vec32 m p) * 4 < 2 ^ 32.

(** The invoke type the iterator yields is [kStatic] exactly for the
    direct methods whose access flags have [kAccStatic]. *)
Definition class_data_wf (cd : ClassData) : Prop :=
  Forall (λ m, invoke_type m = kStatic ↔ Z.land (access_flags m) kAccStatic ≠ 0)
         (direct_methods cd) ∧
  Forall (λ m, invoke_type m ≠ kStatic) (virtual_methods cd).

Definition class_def_wf (class_def : ClassDef) : Prop :=
  match class_data class_def with Some cd => class_data_wf cd | None => True end.

Definition dex_file_wf (d : DexFile) : Prop := Forall class_def_wf (class_defs d).

Definition admissible (E : Env) : Prop :=
  globals_wf (globals E) ∧ memory_wf (memory E) ∧ Forall dex_file_wf (dex_files E).

(** *** Invariants of the planning pass *)

(** Whatever has been interned lies before the offset cursor. *)
Definition Inv (o : Z) (w : OatWriter) : Prop :=
  0 < o ∧
  map_Forall (λ _ v, v ≤ o) (code_offsets_ w) ∧
  map_Forall (λ _ v, v < o) (mapping_table_offsets_ w) ∧
  map_Forall (λ _ v, v < o) (vmap_table_offsets_ w) ∧
  map_Forall (λ _ v, v < o) (gc_map_offsets_ w).

Definition same_shape (c c' : OatClass) : Prop :=
  status_ c = status_ c' ∧ length (method_offsets_ c) = length (method_offsets_ c').

(** [extends w w']: what the code phase may have done between [w] and [w']. *)
Definition extends (w w' : OatWriter) : Prop :=
  code_offsets_ w ⊆ code_offsets_ w' ∧
  mapping_table_offsets_ w ⊆ mapping_table_offsets_ w' ∧
  vmap_table_offsets_ w ⊆ vmap_table_offsets_ w' ∧
  gc_map_offsets_ w ⊆ gc_map_offsets_ w' ∧
  oat_dex_files_ w' = oat_dex_files_ w ∧
  hdr_executable_offset (oat_header_ w') = hdr_executable_offset (oat_header_ w) ∧
  executable_offset_padding_length_ w' = executable_offset_padding_length_ w ∧
  Forall2 same_shape (oat_classes_ w) (oat_classes_ w').

Definition method_offsets_of (w : OatWriter) (oat_class_index class_def_method_index : nat)
    : option OatMethodOffsets :=
  c ← oat_classes_ w !! oat_class_index; method_offsets_ c !! class_def_method_index.

(** [method_event E mo dex_file method_idx is_static e]: the call [e] of
    the stream is one that the writing pass can make for the method
    [method_idx] of [dex_file] whose record is [mo]: a seek that landed on
    its target, or a write of an artifact of its compiled method or of its
    invoke stub at the position that [mo] gives for it. *)
Definition method_event (E : Env) (mo : OatMethodOffsets) (dex_file : DexFile)
    (method_idx : Z) (is_static : bool) (e : Event) : Prop :=
  (∃ t, e = Sought t t) ∨
  (∃ cm, GetCompiledMethod (compiler E) (dex_addr dex_file) method_idx = Some cm ∧
         e ∈ compiled_events E mo cm) ∨
  (∃ stub, FindInvokeStub (compiler E) is_static (GetMethodShorty dex_file method_idx)
           = Some stub ∧
           e ∈ stub_events E mo stub).

(** The methods of the input with their records: [(n, k, dex_file, m)]
    says that the record [(n, k)] (the OatClass of index [n], the method of
    index [k] in it) is the one of the method [m] of [dex_file].  The
    OatClass records are numbered through the class definitions of all DEX
    files, and the methods of a class through its direct and then its
    virtual methods, as the loops of both passes do. *)
Definition class_methods (dex_file : DexFile) (n : nat) (class_def : ClassDef)
    : list (nat * nat * DexFile * EncodedMethod) :=
  match class_data class_def with
  | Some cd => imap (λ k m, (n, k, dex_file, m)) (direct_methods cd ++ virtual_methods cd)
  | None => []
  end.

Fixpoint dex_methods (dex_file : DexFile) (n : nat) (cds : list ClassDef)
    : list (nat * nat * DexFile * EncodedMethod) :=
  match cds with
  | [] => []
  | class_def :: rest => class_methods dex_file n class_def ++ dex_methods dex_file (S n) rest
  end.

Fixpoint all_methods (dfs : list DexFile) (n : nat)
    : list (nat * nat * DexFile * EncodedMethod) :=
  match dfs with
  | [] => []
  | dex_file :: rest =>
      dex_methods dex_file n (class_defs dex_file)
      ++ all_methods rest (n + length (class_defs dex_file))
  end.

(** [slot_events E w slots e]: the call [e] of the stream is a seek that
    landed on its target, or a write, for one of the methods [slots], of an
    artifact of that method at the position that the record of the method
    in [w] gives for it. *)
Definition slot_events (E : Env) (w : OatWriter)
    (slots : list (nat * nat * DexFile * EncodedMethod)) (e : Event) : Prop :=
  (∃ t, e = Sought t t) ∨
  ∃ n k dex_file m mo,
    (n, k, dex_file, m) ∈ slots ∧
    method_offsets_of w n k = Some mo ∧
    method_event E mo dex_file (method_idx m) (bool_decide (invoke_type m = kStatic)) e.

(** [placed E w e]: the same for the methods of the input. *)
Definition placed (E : Env) (w : OatWriter) (e : Event) : Prop :=
  slot_events E w (all_methods (dex_files E) 0) e.

(** [plans_method E o n k type idx dex w o' w']: in a state of the code
    phase (what is interned lies before the cursor [o], and the record
    [(n, k)] exists), the call of [InitOatCodeMethod] for a method returns
    the cursor [o'] and the writer [w'] in the reference run, and [o'] fits
    the offsets of the platform. *)
Definition plans_method (E : Env) (o : Z) (n k : nat) (type : InvokeType) (idx : Z)
    (dex : DexFile) (w : OatWriter) (o' : Z) (w' : OatWriter) : Prop :=
  admissible E ∧ Inv o w ∧ is_Some (method_offsets_of w n k) ∧
  InitOatCodeMethod exact E o n k type idx dex w = Some (o', w') ∧ o' < 2 ^ 31.

(** What interning [p] in [table] folds into the checksum: the range, if
    [p] is new there. *)
Definition folded_if_new (table : gmap ptr Z) (p : ptr) (what : What) (data : list Z)
    : list (What * list Z) :=
  match table !! p with
  | Some _ => []
  | None => [(what, data)]
  end.

(** The records before position [(n, k)], in the order of the code phase,
    are the same in [w] and [w']. *)
Definition unchanged_below (w w' : OatWriter) (n k : nat) : Prop :=
  ∀ n' j, (n' < n ∨ n' = n ∧ j < k)%nat →
          method_offsets_of w' n' j = method_offsets_of w n' j.

(** [planned o w o' w' cks]: a part of the code phase took the cursor from
    [o] to [o'] and the writer from [w] to [w'], folding the ranges [cks]
    into the checksum. *)
Definition planned (o : Z) (w : OatWriter) (o' : Z) (w' : OatWriter)
    (cks : list (What * list Z)) : Prop :=
  o ≤ o' ∧ Inv o' w' ∧ extends w w' ∧
  hdr_checksum_ranges (oat_header_ w') = hdr_checksum_ranges (oat_header_ w) ++ cks.

(** *** Ranges of the compiled artifacts *)

Definition is_blob (what : What) : bool :=
  match what with
  | MethodCode | MappingTable | VmapTable | GcMap | InvokeStubCode | ProxyStubCode => true
  | _ => false
  end.

(** The label of the size that is written before a code array. *)
Definition size_label (what : What) : option What :=
  match what with
  | MethodCode => Some MethodCodeSize
  | InvokeStubCode => Some InvokeStubCodeSize
  | ProxyStubCode => Some ProxyStubCodeSize
  | _ => None
  end.

(** What is written for an artifact: a table as it is, a code array after
    the four bytes of its size. *)
Definition emitted (r : What * list Z) : list (What * list Z) :=
  match size_label r.1 with
  | Some what_size => [(what_size, le32 (len r.2)); r]
  | None => [r]
  end.

(** [covers ws cks]: the written ranges [ws] are the non-empty artifacts
    among the checksummed ranges [cks], in the same order, each code array
    after its size, and nothing else. *)
Definition covers (ws cks : list (What * list Z)) : Prop :=
  ws = filter (λ r, is_blob r.1 = true ∧ r.2 ≠ []) cks ≫= emitted.

(** [folds_classes cast n n' w w']: between [w] and [w'] the code phase
    left the OatClass records before index [n] as they were and appended
    ranges to the checksum; what it appended apart from compiled artifacts
    are the OatClass records from index [n] up to [n'], as they are in
    [w'], in this order. *)
Definition folds_classes (cast : Z → Z) (n n' : nat) (w w' : OatWriter) : Prop :=
  length (oat_classes_ w') = length (oat_classes_ w) ∧
  take n (oat_classes_ w') = take n (oat_classes_ w) ∧
  ∃ cks,
    hdr_checksum_ranges (oat_header_ w') = hdr_checksum_ranges (oat_header_ w) ++ cks ∧
    filter (λ r, is_blob r.1 = false) cks
    = drop n (take n' (oat_classes_ w')) ≫= OatClass_ranges cast.

(** *** The layout of the tables *)

(** Two OatDexFile records that differ at most in the offsets they hold. *)
Definition same_dex_shape (d d' : OatDexFile) : Prop :=
  dex_file_location_size_ d' = dex_file_location_size_ d ∧
  dex_file_location_data_ d' = dex_file_location_data_ d ∧
  dex_file_location_checksum_ d' = dex_file_location_checksum_ d ∧
  length (methods_offsets_ d') = length (methods_offsets_ d).

(** [dex_layout dfs o offs o']: laid out from [o], the DEX files [dfs]
    start at the 4-byte aligned offsets [offs] and end at [o']. *)
Fixpoint dex_layout (dfs : list DexFile) (o : Z) (offs : list Z) (o' : Z) : Prop :=
  match dfs, offs with
  | [], [] => o' = o
  | d :: dfs, a :: offs =>
      a = RoundUp exact o 4 ∧ dex_layout dfs (a + file_size_ d) offs o'
  | _, _ => False
  end.

(** The total size of a list of records. *)
Definition OatDexFiles_SizeOf (ds : list OatDexFile) : Z :=
  foldr (λ d acc, OatDexFile_SizeOf exact d + acc) 0 ds.

Definition OatClasses_SizeOf (cs : list OatClass) : Z :=
  foldr (λ c acc, OatClass_SizeOf exact c + acc) 0 cs.

(** The OatClass records the OatClass phase creates for the class
    definitions [cds] of [dex_file], numbered from [class_def_index]. *)
Fixpoint new_OatClasses (E : Env) (dex_file : DexFile) (cds : list ClassDef)
    (class_def_index : nat) : list OatClass :=
  match cds with
  | [] => []
  | class_def :: rest =>
      new_OatClass (class_status E dex_file class_def_index) (num_methods exact class_def)
      :: new_OatClasses E dex_file rest (S class_def_index)
  end.

Definition new_OatClasses_all (E : Env) (dfs : list DexFile) : list OatClass :=
  dfs ≫= λ d, new_OatClasses E d (class_defs d) 0.

Definition append_checksum (cks : list (What * list Z)) (h : OatHeader) : OatHeader :=
  fold_left (λ h r, OatHeader_UpdateChecksum r.1 r.2 h) cks h.

(** Records whose written size is the size the planning pass counts. *)
Definition dex_record_ok (d : OatDexFile) : Prop :=
  dex_file_location_size_ d = len (dex_file_location_data_ d) ∧
  sizeof_uint32 * len (methods_offsets_ d) < 2 ^ 32.

Definition class_record_ok (c : OatClass) : Prop :=
  sizeof_OatMethodOffsets * len (method_offsets_ c) < 2 ^ 32.

(** *** The common form of the code blocks

    The blocks for the code of a method and for an invoke stub are the
    same computation, on different artifacts. *)

Definition plan_code_blob (cast : Z → Z) (E : Env) (align_isa delta_isa : InstructionSet)
    (code : ptr) (what : What) (offset : Z) (w : OatWriter) : option (Z * Z * OatWriter) :=
  let offset := AlignCode cast (globals E) offset align_isa in
  let code_size := cast (len (code_bytes (memory E) code) * 1) in
  if decide (code_size = 0) then None else
  let code_offset := cast (offset + sizeof_uint32 + CodeDelta delta_isa) in
  Some (InitOatCodeMethod_deduplicate cast E code what code_size code_offset offset w).

Definition emit_code_blob (E : Env) (w : OatWriter) (align_isa delta_isa : InstructionSet)
    (code : ptr) (what_size what : What) (recorded : Z) (code_offset : Z)
    (out : OutputStream) : step Z :=
  let aligned_code_offset := wrap32 (AlignCode wrap32 (globals E) code_offset align_isa) in
  step_bind (WriteCodeMethod_align aligned_code_offset code_offset out) (λ code_offset out,
  let code_size := wrap32 (len (code_bytes (memory E) code) * 1) in
  if decide (code_size = 0) then Abort out else
  let offset := wrap32 (code_offset + sizeof_uint32 + CodeDelta delta_isa) in
  WriteCodeMethod_deduplicate E w code what_size what code_size offset recorded
    code_offset out).

(** [Write] reports a failure by returning [false]. *)
Definition Z_of_bool (b : bool) : Z := if b then 1 else 0.

(** *** The offsets after the phases of the planning pass

    The cursor after the header phase, the OatDexFile phase, the
    embedded-DEX phase, the OatClass phase and the executable-gap phase. *)
Definition plan_tables (cast : Z → Z) (E : Env) (rt : gmap ptr AbstractMethod)
    : Z * Z * Z * Z * Z * OatWriter :=
  let w := OatWriter_initial cast E rt in
  let o1 := InitOatHeader cast E in
  let '(o2, w) := InitOatDexFiles cast E o1 w in
  let '(o3, w) := InitDexFiles cast E o2 w in
  let '(o4, w) := InitOatClasses cast E o3 w in
  let '(o5, w) := InitOatCode cast E o4 w in
  (o1, o2, o3, o4, o5, w).

Definition phase_offsets (cast : Z → Z) (E : Env) (rt : gmap ptr AbstractMethod)
    : Z * Z * Z * Z * Z :=
  (plan_tables cast E rt).1.

(** The planned file is shorter than 2 GiB: the reference run of the
    constructor, without wrap-around, ends below 2^31. *)
Definition plans (E : Env) (rt : gmap ptr AbstractMethod) (L : Z) (w : OatWriter) : Prop :=
  admissible E ∧ OatWriter_new exact E rt = Some (L, w) ∧ L < 2 ^ 31.

(** *** What the parts of the two passes leave alone *)

(** The functions of the code phase report a failure by returning 0, never
    by [Fail]. *)
Definition never_fails {A} (r : step A) : Prop :=
  match r with Fail _ => False | _ => True end.

(** The blocks of [InitOatCodeMethod] that lay out the artifacts touch
    neither the OatClass records nor the methods of the runtime. *)
Definition frame (w w' : OatWriter) : Prop :=
  oat_classes_ w' = oat_classes_ w ∧ runtime_methods w' = runtime_methods w ∧
  oat_dex_files_ w' = oat_dex_files_ w.

(** The statuses of the OatClass records. *)
Definition statuses (w : OatWriter) : list Z := map status_ (oat_classes_ w).

(** *** The interning of the tables

    The rule of the specification for a mapping table, a vmap table or a GC
    map [p] of [size] bytes met at the cursor [offset], with the table
    [table] of the offsets interned so far: the tentative offset is the
    cursor, or 0 for a table without bytes; a table already interned keeps
    its stored offset and leaves the cursor where it is; a new table is
    interned at the tentative offset and the cursor advances by [size]. *)
Definition spec_intern_table (table : gmap ptr Z) (p : ptr) (size offset : Z)
    (recorded offset' : Z) (table' : gmap ptr Z) : Prop :=
  let tentative := if decide (size = 0) then 0 else offset in
  match table !! p with
  | Some stored => recorded = stored ∧ offset' = offset ∧ table' = table
  | None =>
      recorded = tentative ∧ offset' = wrap32 (offset + size) ∧
      table' = <[p := tentative]> table
  end.

(** The offsets interned for the tables without bytes are 0. *)
Definition tables_zero (E : Env) (w : OatWriter) : Prop :=
  (∀ p v, mapping_table_offsets_ w !! p = Some v →
          wrap32 (len (vec32 (memory E) p) * 4) = 0 → v = 0) ∧
  (∀ p v, vmap_table_offsets_ w !! p = Some v →
          wrap32 (len (vec16 (memory E) p) * 2) = 0 → v = 0) ∧
  (∀ p v, gc_map_offsets_ w !! p = Some v →
          wrap32 (len (vec8 (memory E) p) * 1) = 0 → v = 0).

(** The three tables of interned table offsets. *)
Definition table_maps (w : OatWriter) : gmap ptr Z * gmap ptr Z * gmap ptr Z :=
  (mapping_table_offsets_ w, vmap_table_offsets_ w, gc_map_offsets_ w).

(** *** The journal of a run of writes

    The events of writing the ranges [rs] one after the other, the first
    at position [p]. *)
Fixpoint written_from (p : Z) (rs : list (What * list Z)) : list Event :=
  match rs with
  | [] => []
  | r :: rest => Written r.1 p r.2 :: written_from (p + len r.2) rest
  end.

(** The events of writing the records [rs] one after the other, the
    first at [offset], each next one [SizeOf] further: the recurrence of
    the planning pass, [offset += SizeOf()]. *)
Fixpoint records_from {R} (ranges : R → list (What * list Z)) (SizeOf : R → Z)
    (offset : Z) (rs : list R) : list Event :=
  match rs with
  | [] => []
  | r :: rest =>
      written_from offset (ranges r) ++ records_from ranges SizeOf (offset + SizeOf r) rest
  end.

(** The events of writing each DEX file at the [dex_file_offset_] of its
    OatDexFile record, after a seek to that offset. *)
Fixpoint payload_events (ds : list OatDexFile) (dfs : list DexFile) : list Event :=
  match ds, dfs with
  | d :: ds, dex_file :: dfs =>
      Sought (dex_file_offset_ d) (dex_file_offset_ d)
      :: Written DexFilePayload (dex_file_offset_ d) (dex_image dex_file)
      :: payload_events ds dfs
  | _, _ => []
  end.

(** The end of the last byte written: the length of the file written on
    an empty file. *)
Definition written_end (evs : list Event) : Z :=
  foldr (λ e acc, match e with
                  | Written _ p data => Z.max (p + len data) acc
                  | _ => acc
                  end) 0 evs.

(** A [WriteFully] that returned [false]. *)
Definition is_WriteFailed (e : Event) : bool :=
  match e with WriteFailed _ _ _ => true | _ => false end.

(** The positions at which the DEX payloads were written, and what was
    written there. *)
Definition payload_writes (evs : list Event) : list (Z * list Z) :=
  omap (λ e, match e with
             | Written DexFilePayload p data => Some (p, data)
             | _ => None
             end) evs.

(** [stops_at_failure failed out r]: in the part of the writing pass that
    started on [out] and ended as [r], no [WriteFully] failed, or the one
    that failed was the last call of the stream and [r] reports a failure:
    [Fail], or a value that its caller reads as one ([failed]). *)
Definition stops_at_failure {A} (failed : A → Prop) (out : OutputStream) (r : step A)
    : Prop :=
  ∃ evs, events (stream_of r) = events out ++ evs ∧
    (Forall (λ e, is_WriteFailed e = false) evs ∨
     ∃ evs0 e, evs = evs0 ++ [e] ∧ Forall (λ e, is_WriteFailed e = false) evs0 ∧
               is_WriteFailed e = true ∧
               match r with Done a _ => failed a | Fail _ => True | Abort _ => False end).

(** *** A sample input

    One DEX file with two class definitions.  The first class has a direct
    method and two virtual methods; the first two methods have the same
    compiled method (5 bytes of Thumb-2 code, a one-entry mapping table and
    empty vmap table and GC map), the third has none.  All three have the
    same invoke stub (6 bytes).  The second class has no class data. *)
Module Sample.

Definition g : Globals :=
  {| kPageSize := 4096; kStackAlignment := 16; kArmAlignment := 16;
     kMipsAlignment := 16; kX86Alignment := 16 |}.

Definition mem : Memory :=
  {| vec8 := λ p, match p with
                  | 1%nat => [1; 2; 3; 4; 5]
                  | 2%nat => [9; 9; 9; 9; 9; 9]
                  | _ => []
                  end;
     vec16 := λ _, [];
     vec32 := λ p, match p with 5%nat => [7] | _ => [] end |}.

Definition cm : CompiledMethod :=
  {| cm_instruction_set := kThumb2; cm_code := 1%nat; cm_frame_size_in_bytes := 32;
     cm_core_spill_mask := 3; cm_fp_spill_mask := 0; cm_mapping_table := 5%nat;
     cm_vmap_table := 6%nat; cm_native_gc_map := 7%nat |}.

Definition stub : CompiledInvokeStub :=
  {| stub_instruction_set := kThumb2; stub_code := 2%nat |}.

Definition comp (image : bool) : Compiler :=
  {| GetInstructionSet := kThumb2; IsImage := image;
     GetCompiledClass := λ _ _, None;
     GetCompiledMethod := λ _ i, if decide (i = 0) then Some cm
                                 else if decide (i = 1) then Some cm else None;
     FindInvokeStub := λ is_static _, if is_static then None else Some stub |}.

Definition m0 : EncodedMethod := {| access_flags := 0; invoke_type := kDirect; method_idx := 0 |}.
Definition m1 : EncodedMethod := {| access_flags := 0; invoke_type := kVirtual; method_idx := 1 |}.
Definition m2 : EncodedMethod := {| access_flags := 0; invoke_type := kVirtual; method_idx := 2 |}.

Definition dex : DexFile :=
  {| dex_addr := 100%nat; location := [65; 66; 67]; location_checksum := 77;
     dex_image := [1; 2; 3; 4; 5; 6; 7];
     class_defs := [ {| class_data := Some {| direct_methods := [m0];
                                              virtual_methods := [m1; m2] |} |};
                     {| class_data := None |} ];
     GetMethodShorty := λ _, "V"%string |}.

Definition method : AbstractMethod :=
  {| am_is_static := true; am_is_constructor := false;
     am_declaring_class_initialized := false;
     am_frame_size_in_bytes := 0; am_core_spill_mask := 0; am_fp_spill_mask := 0;
     am_mapping_table_offset := 0; am_vmap_table_offset := 0; am_gc_map_offset := 0;
     am_invoke_stub_offset := 0; am_code := 0 |}.

Definition env (image : bool) : Env :=
  {| globals := g; memory := mem; compiler := comp image;
     IsClassRejected := λ _ c, bool_decide (c = 1%nat);
     ResolveMethod := λ _ i _, Some (Z.to_nat i);
     resolution_stub_static := 1000;
     dex_files := [dex];
     image_file_location_oat_checksum := 0; image_file_location_oat_begin := 0;
     image_file_location := [] |}.

Definition E : Env := env false.

(** The registry of the runtime, for the image case. *)
Definition rt : gmap ptr AbstractMethod :=
  {[ 0%nat := method; 1%nat := method; 2%nat := method ]}.

(** The writer the constructor builds, and the planned length. *)
Definition planned_length : Z := 4128.

Definition writer : OatWriter :=
  match OatWriter_new wrap32 E ∅ with
  | Some (_, w) => w
  | None => OatWriter_initial wrap32 E ∅
  end.

(** The writer before the code phase. *)
Definition writer_before_code : OatWriter := (plan_tables wrap32 E ∅).2.

(** The writer after the call of [InitOatCodeMethod] for the first method. *)
Definition writer_after_m0 : OatWriter :=
  match InitOatCodeMethod wrap32 E 4096 0 0 kDirect 0 dex writer_before_code with
  | Some (_, w) => w
  | None => writer_before_code
  end.

(** The same input with a compiler that gives the second method a compiled
    method for another instruction set over the same code array. *)
Definition cm_arm : CompiledMethod :=
  {| cm_instruction_set := kArm; cm_code := 1%nat; cm_frame_size_in_bytes := 32;
     cm_core_spill_mask := 3; cm_fp_spill_mask := 0; cm_mapping_table := 5%nat;
     cm_vmap_table := 6%nat; cm_native_gc_map := 7%nat |}.

Definition env_mixed : Env :=
  {| globals := g; memory := mem;
     compiler :=
       {| GetInstructionSet := kThumb2; IsImage := false;
          GetCompiledClass := λ _ _, None;
          GetCompiledMethod := λ _ i, if decide (i = 0) then Some cm
                                      else if decide (i = 1) then Some cm_arm else None;
          FindInvokeStub := λ is_static _, if is_static then None else Some stub |};
     IsClassRejected := λ _ c, bool_decide (c = 1%nat);
     ResolveMethod := λ _ i _, Some (Z.to_nat i);
     resolution_stub_static := 1000;
     dex_files := [dex];
     image_file_location_oat_checksum := 0; image_file_location_oat_begin := 0;
     image_file_location := [] |}.

(** The same input with a compiler whose compiled methods have an empty
    code array. *)
Definition cm_empty : CompiledMethod :=
  {| cm_instruction_set := kThumb2; cm_code := 3%nat; cm_frame_size_in_bytes := 32;
     cm_core_spill_mask := 3; cm_fp_spill_mask := 0; cm_mapping_table := 5%nat;
     cm_vmap_table := 6%nat; cm_native_gc_map := 7%nat |}.

Definition env_empty : Env :=
  {| globals := g; memory := mem;
     compiler :=
       {| GetInstructionSet := kThumb2; IsImage := false;
          GetCompiledClass := λ _ _, None;
          GetCompiledMethod := λ _ _, Some cm_empty;
          FindInvokeStub := λ _ _, None |};
     IsClassRejected := λ _ c, bool_decide (c = 1%nat);
     ResolveMethod := λ _ i _, Some (Z.to_nat i);
     resolution_stub_static := 1000;
     dex_files := [dex];
     image_file_location_oat_checksum := 0; image_file_location_oat_begin := 0;
     image_file_location := [] |}.

End Sample.

(** ** Properties *)


Local Ltac invert H := inversion H; subst; clear H.

Local Ltac pow32 :=
  change (2 ^ 31) with 2147483648 in *; change (2 ^ 32) with 4294967296 in *.

Local Ltac lia32 :=
  unfold off_t_range, sizeof_uint32, sizeof_OatHeader, sizeof_OatMethodOffsets in *;
  pow32; lia.

Lemma wrap32_small z : 0 <= z < 2 ^ 32 → wrap32 z = z.
Proof. intros. unfold wrap32. apply Z.mod_small. lia32. Qed.

Lemma len_app {A} (l k : list A) : len (l ++ k) = len l + len k.
Proof. unfold len. rewrite length_app. lia. Qed.

Lemma len_nonneg {A} (l : list A) : 0 <= len l.
Proof. unfold len. lia. Qed.

Lemma writes_of_app l k : writes_of (l ++ k) = writes_of l ++ writes_of k.
Proof. unfold writes_of. apply omap_app. Qed.

Lemma stream_inv_tail p e bs :
  Forall (λ b, match b with Faulty z => off_t_range z | Faithful => True end) bs →
  stream_inv {| position := p; events := e; behaviour := tail bs |}.
Proof. intros H. unfold stream_inv. simpl. destruct bs; simpl; [done|]. by invert H. Qed.

Lemma tracks_write what data out :
  stream_inv out →
  tracks out (write what data out) () (position out + len data) [(what, data)].
Proof.
  intros Hinv. unfold write, WriteFully, tracks.
  destruct (behaviour out) as [|[|z] bs] eqn:Hb; simpl.
  - split; [by constructor|]. split; [done|].
    exists [Written what (position out) data]. simpl. repeat split; auto; by repeat constructor.
  - split; [unfold stream_inv in *; rewrite Hb in Hinv; by invert Hinv|].
    split; [done|].
    exists [Written what (position out) data]. simpl. repeat split; auto; by repeat constructor.
  - split; [unfold stream_inv in *; rewrite Hb in Hinv; by invert Hinv|].
    split; [done|].
    exists [WriteFailed what (position out) data]. simpl. split; [done|].
    intros H. by invert H.
Qed.

Lemma tracks_seek offset whence expected out :
  stream_inv out →
  0 <= offset < 2 ^ 31 →
  0 <= expected < 2 ^ 31 →
  expected = match whence with
             | kSeekSet => offset
             | kSeekCurrent => position out + offset
             end →
  tracks out (seek offset whence expected out) () expected [].
Proof.
  intros Hinv Hoff Hexp Heq. unfold seek, Seek, tracks, off_t_of_uint32.
  rewrite (decide_True (P := offset < 2 ^ 31)) by lia32. rewrite <- Heq.
  destruct (behaviour out) as [|[|z] bs] eqn:Hb; simpl.
  - rewrite decide_True by (unfold uint32_of_off_t; apply Z.mod_small; lia32). simpl.
    split; [by constructor|]. split; [done|].
    exists [Sought expected expected]. simpl. repeat split; auto; by repeat constructor.
  - rewrite decide_True by (unfold uint32_of_off_t; apply Z.mod_small; lia32). simpl.
    split; [unfold stream_inv in *; rewrite Hb in Hinv; by invert Hinv|].
    split; [done|].
    exists [Sought expected expected]. simpl. repeat split; auto; by repeat constructor.
  - assert (Hz : off_t_range z ∧ stream_inv {| position := z; events := events out ++ [Sought expected z]; behaviour := bs |}).
    { unfold stream_inv in *. rewrite Hb in Hinv. by invert Hinv. }
    destruct Hz as [Hz Hinv'].
    assert (uint32_of_off_t z = expected ↔ z = expected) as Hiff.
    { unfold uint32_of_off_t, off_t_range in *. pow32.
      Z.to_euclidean_division_equations. lia. }
    destruct (decide (uint32_of_off_t z = expected)) as [Hc|Hc]; simpl.
    + apply Hiff in Hc. subst z.
      split; [done|]. split; [done|].
      exists [Sought expected expected]. repeat split; auto; by repeat constructor.
    + split; [done|]. split; [done|].
      exists [Sought expected z]. split; [done|].
      intros H. invert H. simpl in *. apply Hc, Hiff. done.
Qed.

Lemma tracks_bind {A B} out (r : step A) (k : A → OutputStream → step B)
    a1 o1 ws1 b o2 ws2 :
  tracks out r a1 o1 ws1 →
  (∀ out1, stream_inv out1 → position out1 = o1 → tracks out1 (k a1 out1) b o2 ws2) →
  tracks out (step_bind r k) b o2 (ws1 ++ ws2).
Proof.
  intros (Hinv & Hfaith & evs & Hev & Hr) Hk.
  destruct r as [a out1|out1|out1]; simpl in *; [| |done].
  2:{ split; [done|]. split; [intros Hb; by destruct (Hfaith Hb) as [_ ?]|]. by exists evs. }
  destruct Hr as (-> & Hpos & Hok & Hws).
  destruct (Hk out1 Hinv Hpos) as (Hinv2 & Hfaith2 & evs2 & Hev2 & Hr2).
  split; [done|]. split.
  { intros Hb. destruct (Hfaith Hb) as [Hb1 _]. by apply Hfaith2. }
  exists (evs ++ evs2). split; [by rewrite Hev2, Hev, app_assoc|].
  destruct (k a1 out1) as [c out2|out2|out2]; simpl in *; [|rewrite Forall_app; tauto|done].
  destruct Hr2 as (-> & Hpos2 & Hok2 & Hws2).
  rewrite Forall_app, writes_of_app, Hws, Hws2. done.
Qed.

Lemma tracks_done {A} out (a : A) o :
  stream_inv out → position out = o → tracks out (Done a out) a o [].
Proof.
  intros Hinv Hpos. split; [done|]. split; [done|].
  exists []. rewrite app_nil_r. repeat split; auto.
Qed.

Lemma tracks_write_all rs out :
  stream_inv out →
  tracks out (write_all rs out) () (position out + len (rs ≫= snd)) rs.
Proof.
  revert out. induction rs as [|[what data] rs IH]; intros out Hinv; simpl.
  - apply tracks_done; [done|]. unfold len; simpl; lia.
  - apply (tracks_bind out _ _ () (position out + len data) [(what, data)] () _ rs);
      [by apply tracks_write|].
    intros out1 Hinv1 Hpos1. rewrite len_app, Z.add_assoc, <- Hpos1. by apply IH.
Qed.

(** A part that reports a failure to its caller, seen from the caller,
    which takes a returned 0 for the failure. *)
Lemma tracks_reported_fail out (r : step Z) o ws :
  o ≠ 0 →
  tracks out r o o ws →
  tracks out (reported id (match r with Fail out' => Done 0 out' | _ => r end)) o o ws.
Proof.
  intros Ho (Hinv & Hfaith & evs & Hev & Hr).
  destruct r as [c out1|out1|out1]; simpl in *; [| |done].
  2:{ split; [done|]. split; [intros Hb; by destruct (Hfaith Hb) as [_ ?]|]. by exists evs. }
  destruct Hr as (-> & Hr). unfold id. rewrite decide_False by done. simpl.
  split; [done|]. split; [done|]. exists evs. done.
Qed.

Lemma tracks_reported_bind {A B} (z : A → Z) (z' : B → Z) out (r : step A)
    (k : A → OutputStream → step B) a1 o1 ws1 b o2 ws2 :
  tracks out (reported z r) a1 o1 ws1 →
  (∀ a out1, z a = 0 → reported z' (k a out1) = Fail out1) →
  (∀ out1, stream_inv out1 → position out1 = o1 →
           tracks out1 (reported z' (k a1 out1)) b o2 ws2) →
  tracks out (reported z' (step_bind r k)) b o2 (ws1 ++ ws2).
Proof.
  intros Hr Hfail Hk.
  destruct r as [a out1|out1|out1]; simpl in *.
  - destruct (decide (z a = 0)) as [Hz|Hz].
    + rewrite Hfail by done. destruct Hr as (Hinv & Hfaith & evs & Hev & Hr).
      simpl in *. split; [done|]. split; [|by eauto].
      intros Hb. by destruct (Hfaith Hb) as [_ ?].
    + assert (a = a1) as -> by (by destruct Hr as (_ & _ & ? & _ & ? & _)).
      apply (tracks_bind out (Done a1 out1) (λ a o, reported z' (k a o)) a1 o1 ws1); done.
  - destruct Hr as (Hinv & Hfaith & evs & Hev & Hr). simpl in *.
    split; [done|]. split; [|by eauto].
    intros Hb. by destruct (Hfaith Hb) as [_ ?].
  - by destruct Hr as (_ & _ & ? & _ & ?).
Qed.

(** *** The same, with the calls of the stream *)

Lemma ptracks_write P what data out :
  stream_inv out → P (Written what (position out) data) →
  ptracks P out (write what data out) () (position out + len data) [(what, data)].
Proof.
  intros Hinv HP. split; [by apply tracks_write|].
  intros a out'. unfold write, WriteFully.
  destruct (behaviour out) as [|[|z] bs]; simpl; intros H; invert H;
    exists [Written what (position out) data]; split; by repeat constructor.
Qed.

Lemma ptracks_seek P offset whence expected out :
  stream_inv out →
  0 <= offset < 2 ^ 31 →
  0 <= expected < 2 ^ 31 →
  expected = match whence with
             | kSeekSet => offset
             | kSeekCurrent => position out + offset
             end →
  P (Sought expected expected) →
  ptracks P out (seek offset whence expected out) () expected [].
Proof.
  intros Hinv Hoff Hexp Heq HP.
  pose proof (tracks_seek offset whence expected out Hinv Hoff Hexp Heq) as T.
  split; [done|]. intros a out' Hr. rewrite Hr in T.
  destruct T as (_ & _ & evs & Hev & _ & Hpos & Hok & _). simpl in *.
  revert Hr. unfold seek, Seek, off_t_of_uint32.
  rewrite (decide_True (P := offset < 2 ^ 31)) by lia32.
  destruct (decide (uint32_of_off_t _ = _)) as [Hd|Hd]; [|done].
  intros H. injection H as <- <-.
  simpl in *. apply app_inv_head in Hev. subst evs. invert Hok.
  eexists. split; [done|]. constructor; [|constructor].
  by rewrite Hpos.
Qed.

Lemma ptracks_bind {A B} P out (r : step A) (k : A → OutputStream → step B)
    a1 o1 ws1 b o2 ws2 :
  ptracks P out r a1 o1 ws1 →
  (∀ out1, stream_inv out1 → position out1 = o1 → ptracks P out1 (k a1 out1) b o2 ws2) →
  ptracks P out (step_bind r k) b o2 (ws1 ++ ws2).
Proof.
  intros [T Em] Hk. split.
  { eapply tracks_bind; [done|]. intros out1 Hinv1 Hpos1. by apply Hk. }
  intros c out' Hr. destruct r as [a out1|out1|out1]; simpl in *; [|done..].
  destruct (Em a out1 eq_refl) as (evs1 & He1 & HP1).
  destruct T as (Hinv & _ & _ & _ & -> & Hpos & _). simpl in *.
  destruct (Hk out1 Hinv Hpos) as [_ Em2].
  destruct (Em2 c out' Hr) as (evs2 & He2 & HP2).
  exists (evs1 ++ evs2). split; [by rewrite He2, He1, app_assoc|]. by apply Forall_app.
Qed.

Lemma ptracks_done {A} P out (a : A) o :
  stream_inv out → position out = o → ptracks P out (Done a out) a o [].
Proof.
  intros Hinv Hpos. split; [by apply tracks_done|].
  intros c out' H; invert H. exists []. by rewrite app_nil_r.
Qed.

Lemma ptracks_reported_fail P out (r : step Z) o ws :
  o ≠ 0 →
  ptracks P out r o o ws →
  ptracks P out (reported id (match r with Fail out' => Done 0 out' | _ => r end)) o o ws.
Proof.
  intros Ho [T Em]. split; [by apply tracks_reported_fail|].
  intros c out'. destruct r as [a out1|out1|out1]; simpl; [|done..].
  unfold id. destruct (decide (a = 0)); [done|]. intros H; invert H. by apply (Em c out').
Qed.

Lemma ptracks_reported_bind {A B} P (z : A → Z) (z' : B → Z) out (r : step A)
    (k : A → OutputStream → step B) a1 o1 ws1 b o2 ws2 :
  ptracks P out (reported z r) a1 o1 ws1 →
  (∀ a out1, z a = 0 → reported z' (k a out1) = Fail out1) →
  (∀ out1, stream_inv out1 → position out1 = o1 →
           ptracks P out1 (reported z' (k a1 out1)) b o2 ws2) →
  ptracks P out (reported z' (step_bind r k)) b o2 (ws1 ++ ws2).
Proof.
  intros [T Em] Hfail Hk. split.
  { eapply tracks_reported_bind; [done|done|]. intros out1 Hinv1 Hpos1. by apply Hk. }
  intros c out' Hr. destruct r as [a out1|out1|out1]; simpl in *; [|done..].
  destruct (decide (z a = 0)) as [Hz|Hz].
  { specialize (Hfail a out1 Hz). by rewrite Hr in Hfail. }
  destruct (Em a out1 eq_refl) as (evs1 & He1 & HP1).
  destruct T as (Hinv & _ & _ & _ & -> & Hpos & _). simpl in *.
  destruct (Hk out1 Hinv Hpos) as [_ Em2].
  destruct (Em2 c out' Hr) as (evs2 & He2 & HP2).
  exists (evs1 ++ evs2). split; [by rewrite He2, He1, app_assoc|]. by apply Forall_app.
Qed.

(** *** Rounding *)

Lemma RoundUp_exact x n :
  0 < n → x <= RoundUp exact x n < x + n ∧ RoundUp exact x n mod n = 0.
Proof.
  intros Hn. unfold RoundUp, RoundDown, exact.
  split; [pose proof (Z.mod_pos_bound (x + n - 1) n Hn); lia|].
  rewrite Zminus_mod, Z.mod_mod, Z.sub_diag, Z.mod_0_l; lia.
Qed.

Lemma RoundUp_wrap32 x n :
  0 <= x → 0 < n → x + n - 1 < 2 ^ 32 → RoundUp wrap32 x n = RoundUp exact x n.
Proof.
  intros. unfold RoundUp, exact. by rewrite wrap32_small by lia.
Qed.

Lemma CodeAlignment_pos g isa : globals_wf g → 0 < CodeAlignment g isa < 2 ^ 31.
Proof. intros (? & ? & ? & ?). destruct isa; simpl; lia. Qed.

Lemma AlignCode_exact g o isa :
  globals_wf g →
  o <= AlignCode exact g o isa < o + CodeAlignment g isa.
Proof.
  intros Hg. unfold AlignCode.
  apply RoundUp_exact. by apply CodeAlignment_pos.
Qed.

Lemma CodeDelta_bound isa : 0 <= CodeDelta isa <= 1.
Proof. destruct isa; simpl; lia. Qed.

(** *** The relations between writer states *)

Lemma same_shape_refl l : Forall2 same_shape l l.
Proof. apply Forall_Forall2_diag, Forall_forall. by intros. Qed.

Lemma extends_refl w : extends w w.
Proof. repeat split; auto using same_shape_refl. Qed.

Lemma same_shape_trans l1 l2 l3 :
  Forall2 same_shape l1 l2 → Forall2 same_shape l2 l3 → Forall2 same_shape l1 l3.
Proof.
  intros H. revert l3. induction H as [|a b l1 l2 [? ?] _ IH]; intros l3 H3.
  - by invert H3.
  - invert H3. constructor; [|by apply IH].
    match goal with H : same_shape b _ |- _ => destruct H end.
    split; congruence.
Qed.

Lemma extends_trans w1 w2 w3 : extends w1 w2 → extends w2 w3 → extends w1 w3.
Proof.
  intros (? & ? & ? & ? & ? & ? & ? & ?) (? & ? & ? & ? & ? & ? & ? & ?).
  repeat split; try (etrans; eassumption); try congruence.
  by eapply same_shape_trans.
Qed.

Lemma Inv_mono o o' w : o <= o' → Inv o w → Inv o' w.
Proof.
  intros Ho (? & Hc & Hm & Hv & Hg).
  split; [lia|].
  repeat split; (eapply map_Forall_impl; [eassumption|]); simpl; intros; lia.
Qed.

Lemma planned_refl o w : Inv o w → planned o w o w [].
Proof. intros. repeat split; auto using same_shape_refl; try lia; try apply H. by rewrite app_nil_r. Qed.

Lemma planned_trans o1 w1 o2 w2 o3 w3 cks1 cks2 :
  planned o1 w1 o2 w2 cks1 → planned o2 w2 o3 w3 cks2 →
  planned o1 w1 o3 w3 (cks1 ++ cks2).
Proof.
  intros (? & ? & ? & Hc1) (? & ? & ? & Hc2).
  split; [lia|]. split; [done|]. split; [by eapply extends_trans|].
  by rewrite Hc2, Hc1, app_assoc.
Qed.

Lemma covers_app ws1 cks1 ws2 cks2 :
  covers ws1 cks1 → covers ws2 cks2 → covers (ws1 ++ ws2) (cks1 ++ cks2).
Proof. unfold covers. intros -> ->. by rewrite filter_app, bind_app. Qed.

Lemma covers_nil : covers [] [].
Proof. done. Qed.

(** *** Seeking to the aligned offset *)

Lemma tracks_align aligned o out :
  stream_inv out → position out = o → 0 <= o → o <= aligned < 2 ^ 31 →
  tracks out (WriteCodeMethod_align aligned o out) aligned aligned [].
Proof.
  intros Hinv Hpos Ho Ha. unfold WriteCodeMethod_align.
  rewrite (wrap32_small (aligned - o)) by lia32.
  destruct (decide (aligned - o = 0)) as [Hz|Hz].
  - replace aligned with o by lia. by apply tracks_done.
  - change [] with (@nil (What * list Z) ++ []).
    eapply tracks_bind.
    + apply tracks_seek; [done|lia32|lia32|lia].
    + intros out1 Hinv1 Hpos1. replace (o + (aligned - o)) with aligned by lia.
      rewrite wrap32_small by lia32. by apply tracks_done.
Qed.

Lemma ptracks_align P aligned o out :
  (∀ t, P (Sought t t)) →
  stream_inv out → position out = o → 0 <= o → o <= aligned < 2 ^ 31 →
  ptracks P out (WriteCodeMethod_align aligned o out) aligned aligned [].
Proof.
  intros HP Hinv Hpos Ho Ha. unfold WriteCodeMethod_align.
  rewrite (wrap32_small (aligned - o)) by lia32.
  destruct (decide (aligned - o = 0)) as [Hz|Hz].
  - replace aligned with o by lia. by apply ptracks_done.
  - change [] with (@nil (What * list Z) ++ []).
    eapply ptracks_bind.
    + apply ptracks_seek; [done|lia32|lia32|lia|done].
    + intros out1 Hinv1 Hpos1. replace (o + (aligned - o)) with aligned by lia.
      rewrite wrap32_small by lia32. by apply ptracks_done.
Qed.

(** *** The blocks of [InitOatCodeMethod] and of [WriteCodeMethod] *)

Lemma range_all (l : list Z) n : n = len l → range n l = l.
Proof. intros ->. unfold range, len. rewrite Nat2Z.id. apply firstn_all. Qed.

Lemma len_le32 z : len (le32 z) = 4.
Proof. done. Qed.

Lemma len_nil_iff {A} (l : list A) : len l = 0 ↔ l = [].
Proof. unfold len. destruct l; simpl; split; intros; try done; lia. Qed.

Lemma InitOatCodeMethod_code_eq cast E cm o w :
  InitOatCodeMethod_code cast E cm o w
  = plan_code_blob cast E (cm_instruction_set cm) (cm_instruction_set cm) (cm_code cm)
      MethodCode o w.
Proof. reflexivity. Qed.

Lemma InitOatCodeMethod_invoke_stub_eq cast E stub o w :
  InitOatCodeMethod_invoke_stub cast E stub o w
  = plan_code_blob cast E (GetInstructionSet (compiler E)) (stub_instruction_set stub)
      (stub_code stub) InvokeStubCode o w.
Proof. reflexivity. Qed.

Lemma WriteCodeMethod_code_eq E w cm mo o out :
  WriteCodeMethod_code E w cm mo o out
  = emit_code_blob E w (cm_instruction_set cm) (cm_instruction_set cm) (cm_code cm)
      MethodCodeSize MethodCode (code_offset_ mo) o out.
Proof. reflexivity. Qed.

Lemma WriteCodeMethod_invoke_stub_eq E w stub mo o out :
  WriteCodeMethod_invoke_stub E w stub mo o out
  = emit_code_blob E w (GetInstructionSet (compiler E)) (stub_instruction_set stub)
      (stub_code stub) InvokeStubCodeSize InvokeStubCode (invoke_stub_offset_ mo) o out.
Proof. reflexivity. Qed.

Lemma lockstep_code_blob E align_isa delta_isa code what_size what o w rec o' w' :
  admissible E → Inv o w → is_blob what = true → size_label what = Some what_size →
  plan_code_blob exact E align_isa delta_isa code what o w = Some (rec, o', w') →
  ∃ cks, planned o w o' w' cks ∧ oat_classes_ w' = oat_classes_ w ∧
    runtime_methods w' = runtime_methods w ∧
    ∀ wf recorded, extends w' wf → recorded = rec → o' < 2 ^ 31 →
      ∃ ws, covers ws cks ∧ ∀ P out,
        (∀ t, P (Sought t t)) →
        P (Written what_size (recorded - CodeDelta delta_isa - sizeof_uint32)
             (le32 (len (code_bytes (memory E) code)))) →
        P (Written what (recorded - CodeDelta delta_isa) (code_bytes (memory E) code)) →
        stream_inv out → position out = o →
        ptracks P out (emit_code_blob E wf align_isa delta_isa code what_size what
                         recorded o out) o' o' ws.
Proof.
  intros (Hg & Hm & _) HI Hblob Hnblob.
  unfold plan_code_blob, InitOatCodeMethod_deduplicate, exact.
  pose proof HI as (Ho0 & Hcm & Hmt & Hvt & Hgt).
  pose proof (AlignCode_exact (globals E) o align_isa Hg) as Ha.
  pose proof (CodeAlignment_pos (globals E) align_isa Hg) as Hal.
  pose proof (CodeDelta_bound delta_isa) as Hd.
  pose proof (len_nonneg (code_bytes (memory E) code)) as Hl.
  destruct (Hm code) as (Hl8 & _).
  unfold exact in Ha.
  set (a := AlignCode (λ z : Z, z) (globals E) o align_isa) in *.
  destruct (decide (len (code_bytes (memory E) code) * 1 = 0)) as [|Hsz]; [done|].
  destruct (code_offsets_ w !! code) as [stored|] eqn:Hlk; intros [= <- <- <-].
  - exists []. split; [|split; [done|split; [done|]]].
    { split; [lia|]. split; [by eapply Inv_mono; [|done]; lia|].
      split; [apply extends_refl|]. by rewrite app_nil_r. }
    intros wf mo Hext Hmo Ho'. exists []. split; [done|].
    intros P out HPs HP1 HP2 Hinv Hpos. unfold emit_code_blob, WriteCodeMethod_deduplicate.
    assert (AlignCode wrap32 (globals E) o align_isa = a) as ->.
    { unfold AlignCode. rewrite RoundUp_wrap32; [done| |lia|lia32].
      lia. }
    rewrite (wrap32_small a) by (lia32).
    change [] with (@nil (What * list Z) ++ []).
    eapply ptracks_bind.
    { apply ptracks_align; [done|done|done| |lia]. lia. }
    intros out1 Hinv1 Hpos1.
    rewrite (wrap32_small (_ * 1)) by (unfold code_bytes in *; lia32).
    rewrite decide_False by done.
    assert (is_Some (code_offsets_ wf !! code)) as Hsome.
    { destruct Hext as (Hc & _). exists stored. by eapply lookup_weaken. }
    rewrite (bool_decide_eq_true_2 _ Hsome). simpl.
    pose proof (Hcm _ _ Hlk) as Hc. simpl in Hc.
    rewrite wrap32_small by lia32.
    rewrite bool_decide_eq_true_2 by (rewrite Hmo; lia32).
    by apply ptracks_done.
  - exists [(what, range (len (code_bytes (memory E) code) * 1)
                           (code_bytes (memory E) code))].
    split; [|split; [done|split; [done|]]].
    { split; [simpl; lia32|]. split.
      - split; [lia32|]. simpl.
        split; [|repeat split; (eapply map_Forall_impl; [eassumption|]); simpl; intros; lia32].
        apply map_Forall_insert_2; [lia32|].
        eapply map_Forall_impl; [eassumption|]. simpl; intros; lia32.
      - split; [|done]. repeat split; auto using same_shape_refl. simpl.
        by apply insert_subseteq. }
    intros wf mo Hext Hmo Ho'. simpl in Ho'.
    eexists. split; [|].
    2:{ intros P out HPs HP1 HP2 Hinv Hpos. unfold emit_code_blob, WriteCodeMethod_deduplicate.
      assert (AlignCode wrap32 (globals E) o align_isa = a) as ->.
      { unfold AlignCode. rewrite RoundUp_wrap32; [done| |lia|lia32].
        lia. }
      rewrite (wrap32_small a) by (lia32).
      eapply (ptracks_bind _ _ _ _ _ _ []).
      { apply ptracks_align; [done|done|done| |lia32]. lia. }
      intros out1 Hinv1 Hpos1.
      rewrite (wrap32_small (_ * 1)) by (unfold code_bytes in *; lia32).
      rewrite decide_False by done.
      rewrite wrap32_small by lia32.
      rewrite (bool_decide_eq_false_2 (_ ≠ _)) by (rewrite Hmo; intros Hne; by apply Hne).
      rewrite andb_false_r.
      eapply (ptracks_bind _ _ _ _ _ _ [_]).
      { apply ptracks_write; [done|]. rewrite Hpos1, Z.mul_1_r.
        replace a with (mo - CodeDelta delta_isa - sizeof_uint32) by (rewrite Hmo; lia32).
        done. }
      intros out2 Hinv2 Hpos2. rewrite len_le32 in Hpos2.
      eapply (ptracks_bind _ _ _ _ _ _ [_] _ _ []).
      { apply ptracks_write; [done|]. rewrite Hpos2, Hpos1, range_all by lia.
        replace (a + 4) with (mo - CodeDelta delta_isa) by (rewrite Hmo; lia32).
        done. }
      intros out3 Hinv3 Hpos3.
      rewrite range_all in Hpos3 by lia.
      rewrite (wrap32_small (a + sizeof_uint32)) by lia32.
      rewrite wrap32_small by lia32.
      apply ptracks_done; [done|]. unfold sizeof_uint32 in *. lia. }
    unfold covers. simpl. rewrite !filter_cons, !filter_nil. simpl. rewrite Hblob.
    rewrite decide_True.
    2:{ split; [done|]. rewrite range_all by lia. intros Hnil. apply Hsz.
        rewrite Hnil. done. }
    simpl. unfold emitted. simpl. rewrite Hnblob, range_all by lia.
    by rewrite Z.mul_1_r.
Qed.

Lemma len_bind_le32 (l : list Z) : len (l ≫= le32) = len l * 4.
Proof.
  unfold len. induction l as [|a l IH]; [done|].
  change ((a :: l) ≫= le32) with (le32 a ++ (l ≫= le32)).
  rewrite length_app. simpl in *. lia.
Qed.

Lemma len_bind_le16 (l : list Z) : len (l ≫= le16) = len l * 2.
Proof.
  unfold len. induction l as [|a l IH]; [done|].
  change ((a :: l) ≫= le16) with (le16 a ++ (l ≫= le16)).
  rewrite length_app. simpl in *. lia.
Qed.

Lemma len_mapping_table_bytes m p : len (mapping_table_bytes m p) = len (vec32 m p) * 4.
Proof. apply len_bind_le32. Qed.

Lemma len_vmap_table_bytes m p : len (vmap_table_bytes m p) = len (vec16 m p) * 2.
Proof. apply len_bind_le16. Qed.

Lemma len_gc_map_bytes m p : len (gc_map_bytes m p) = len (vec8 m p) * 1.
Proof. unfold gc_map_bytes. lia. Qed.

Lemma lockstep_mapping_table E cm o w rec o' w' :
  admissible E → Inv o w →
  InitOatCodeMethod_mapping_table exact E cm o w = (rec, o', w') →
  ∃ cks, planned o w o' w' cks ∧ oat_classes_ w' = oat_classes_ w ∧
    runtime_methods w' = runtime_methods w ∧
    ∀ wf mo, extends w' wf → mapping_table_offset_ mo = rec → o' < 2 ^ 31 →
      ∃ ws, covers ws cks ∧ ∀ P out,
        P (Written MappingTable (mapping_table_offset_ mo) (mapping_table_bytes (memory E) (cm_mapping_table cm))) →
        stream_inv out → position out = o →
        ptracks P out (WriteCodeMethod_mapping_table E wf cm mo o out) o' o' ws.
Proof.
  intros (Hg & Hm & _) HI.
  unfold InitOatCodeMethod_mapping_table, WriteCodeMethod_mapping_table, exact.
  pose proof HI as (Ho0 & Hcm & Hmt & Hvt & Hgt).
  destruct (Hm (cm_mapping_table cm)) as (Hl8 & Hl16 & Hl32).
  pose proof (len_mapping_table_bytes (memory E) (cm_mapping_table cm)) as Hbl.
  pose proof (len_nonneg (vec32 (memory E) (cm_mapping_table cm))) as Hl.
  set (p := cm_mapping_table cm) in *.
  set (s := len (vec32 (memory E) p) * 4) in *.
  destruct (mapping_table_offsets_ w !! p) as [stored|] eqn:Hlk; intros [= <- <- <-].
  - exists []. split; [|split; [done|split; [done|]]].
    { by apply planned_refl. }
    intros wf mo Hext Hmo Ho'. exists []. split; [done|].
    intros P out HP Hinv Hpos.
    assert (is_Some (mapping_table_offsets_ wf !! p)) as Hsome.
    { destruct Hext as (? & ? & ? & ? & _). exists stored. by eapply lookup_weaken. }
    rewrite (bool_decide_eq_true_2 _ Hsome). simpl.
    pose proof (Hmt _ _ Hlk) as Hc. simpl in Hc.
    rewrite bool_decide_eq_true_2 by (rewrite Hmo; lia).
    by apply ptracks_done.
  - exists [(MappingTable, range s (mapping_table_bytes (memory E) p))].
    split; [|split; [done|split; [done|]]].
    { split; [simpl; lia|]. split.
      - split; [lia|]. simpl.
        repeat split; try (apply map_Forall_insert_2; [case_decide; lia|]);
          (eapply map_Forall_impl; [eassumption|]); simpl; intros; lia.
      - split; [|done]. repeat split; auto using same_shape_refl. simpl.
        by apply insert_subseteq. }
    intros wf mo Hext Hmo Ho'. simpl in Ho'.
    assert (is_Some (mapping_table_offsets_ wf !! p)) as Hsome.
    { destruct Hext as (? & ? & ? & ? & _). eexists. eapply lookup_weaken; [|eassumption].
      simpl. apply lookup_insert_eq. }
    rewrite (bool_decide_eq_true_2 _ Hsome). simpl.
    rewrite (wrap32_small s) by lia32.
    destruct (decide (s = 0)) as [Hs|Hs].
    + rewrite bool_decide_eq_true_2 by (rewrite Hmo; lia).
      exists []. split.
      * unfold covers. rewrite !filter_cons, !filter_nil. simpl.
        rewrite decide_False; [done|]. intros [_ Hne]. apply Hne.
        rewrite range_all by lia. apply len_nil_iff. lia.
      * intros P out HP Hinv Hpos. replace (o + s) with o by lia. by apply ptracks_done.
    + rewrite bool_decide_eq_false_2 by (rewrite Hmo; intros Hne; by apply Hne).
      eexists. split.
      2:{ intros P out HP Hinv Hpos. eapply (ptracks_bind _ _ _ _ _ _ [_] _ _ []).
        { apply ptracks_write; [done|]. rewrite Hpos, range_all by lia.
          by rewrite <- Hmo. }
        intros out1 Hinv1 Hpos1. rewrite range_all in Hpos1 by lia.
        rewrite wrap32_small by lia32.
        apply ptracks_done; [done|lia]. }
      unfold covers. simpl. rewrite !filter_cons, !filter_nil. simpl.
      rewrite decide_True; [done|]. split; [done|].
      rewrite range_all by lia. intros Hnil. rewrite Hnil in Hbl.
      unfold len in Hbl at 1. simpl in Hbl. lia.
Qed.

Lemma lockstep_vmap_table E cm o w rec o' w' :
  admissible E → Inv o w →
  InitOatCodeMethod_vmap_table exact E cm o w = (rec, o', w') →
  ∃ cks, planned o w o' w' cks ∧ oat_classes_ w' = oat_classes_ w ∧
    runtime_methods w' = runtime_methods w ∧
    ∀ wf mo, extends w' wf → vmap_table_offset_ mo = rec → o' < 2 ^ 31 →
      ∃ ws, covers ws cks ∧ ∀ P out,
        P (Written VmapTable (vmap_table_offset_ mo) (vmap_table_bytes (memory E) (cm_vmap_table cm))) →
        stream_inv out → position out = o →
        ptracks P out (WriteCodeMethod_vmap_table E wf cm mo o out) o' o' ws.
Proof.
  intros (Hg & Hm & _) HI.
  unfold InitOatCodeMethod_vmap_table, WriteCodeMethod_vmap_table, exact.
  pose proof HI as (Ho0 & Hcm & Hmt & Hvt & Hgt).
  destruct (Hm (cm_vmap_table cm)) as (Hl8 & Hl16 & Hl32).
  pose proof (len_vmap_table_bytes (memory E) (cm_vmap_table cm)) as Hbl.
  pose proof (len_nonneg (vec16 (memory E) (cm_vmap_table cm))) as Hl.
  set (p := cm_vmap_table cm) in *.
  set (s := len (vec16 (memory E) p) * 2) in *.
  destruct (vmap_table_offsets_ w !! p) as [stored|] eqn:Hlk; intros [= <- <- <-].
  - exists []. split; [|split; [done|split; [done|]]].
    { by apply planned_refl. }
    intros wf mo Hext Hmo Ho'. exists []. split; [done|].
    intros P out HP Hinv Hpos.
    assert (is_Some (vmap_table_offsets_ wf !! p)) as Hsome.
    { destruct Hext as (? & ? & ? & ? & _). exists stored. by eapply lookup_weaken. }
    rewrite (bool_decide_eq_true_2 _ Hsome). simpl.
    pose proof (Hvt _ _ Hlk) as Hc. simpl in Hc.
    rewrite bool_decide_eq_true_2 by (rewrite Hmo; lia).
    by apply ptracks_done.
  - exists [(VmapTable, range s (vmap_table_bytes (memory E) p))].
    split; [|split; [done|split; [done|]]].
    { split; [simpl; lia|]. split.
      - split; [lia|]. simpl.
        repeat split; try (apply map_Forall_insert_2; [case_decide; lia|]);
          (eapply map_Forall_impl; [eassumption|]); simpl; intros; lia.
      - split; [|done]. repeat split; auto using same_shape_refl. simpl.
        by apply insert_subseteq. }
    intros wf mo Hext Hmo Ho'. simpl in Ho'.
    assert (is_Some (vmap_table_offsets_ wf !! p)) as Hsome.
    { destruct Hext as (? & ? & ? & ? & _). eexists. eapply lookup_weaken; [|eassumption].
      simpl. apply lookup_insert_eq. }
    rewrite (bool_decide_eq_true_2 _ Hsome). simpl.
    rewrite (wrap32_small s) by lia32.
    destruct (decide (s = 0)) as [Hs|Hs].
    + rewrite bool_decide_eq_true_2 by (rewrite Hmo; lia).
      exists []. split.
      * unfold covers. rewrite !filter_cons, !filter_nil. simpl.
        rewrite decide_False; [done|]. intros [_ Hne]. apply Hne.
        rewrite range_all by lia. apply len_nil_iff. lia.
      * intros P out HP Hinv Hpos. replace (o + s) with o by lia. by apply ptracks_done.
    + rewrite bool_decide_eq_false_2 by (rewrite Hmo; intros Hne; by apply Hne).
      eexists. split.
      2:{ intros P out HP Hinv Hpos. eapply (ptracks_bind _ _ _ _ _ _ [_] _ _ []).
        { apply ptracks_write; [done|]. rewrite Hpos, range_all by lia.
          by rewrite <- Hmo. }
        intros out1 Hinv1 Hpos1. rewrite range_all in Hpos1 by lia.
        rewrite wrap32_small by lia32.
        apply ptracks_done; [done|lia]. }
      unfold covers. simpl. rewrite !filter_cons, !filter_nil. simpl.
      rewrite decide_True; [done|]. split; [done|].
      rewrite range_all by lia. intros Hnil. rewrite Hnil in Hbl.
      unfold len in Hbl at 1. simpl in Hbl. lia.
Qed.

Lemma lockstep_gc_map E cm o w rec o' w' :
  admissible E → Inv o w →
  InitOatCodeMethod_gc_map exact E cm o w = (rec, o', w') →
  ∃ cks, planned o w o' w' cks ∧ oat_classes_ w' = oat_classes_ w ∧
    runtime_methods w' = runtime_methods w ∧
    ∀ wf mo, extends w' wf → gc_map_offset_ mo = rec → o' < 2 ^ 31 →
      ∃ ws, covers ws cks ∧ ∀ P out,
        P (Written GcMap (gc_map_offset_ mo) (gc_map_bytes (memory E) (cm_native_gc_map cm))) →
        stream_inv out → position out = o →
        ptracks P out (WriteCodeMethod_gc_map E wf cm mo o out) o' o' ws.
Proof.
  intros (Hg & Hm & _) HI.
  unfold InitOatCodeMethod_gc_map, WriteCodeMethod_gc_map, exact.
  pose proof HI as (Ho0 & Hcm & Hmt & Hvt & Hgt).
  destruct (Hm (cm_native_gc_map cm)) as (Hl8 & Hl16 & Hl32).
  pose proof (len_gc_map_bytes (memory E) (cm_native_gc_map cm)) as Hbl.
  pose proof (len_nonneg (vec8 (memory E) (cm_native_gc_map cm))) as Hl.
  set (p := cm_native_gc_map cm) in *.
  set (s := len (vec8 (memory E) p) * 1) in *.
  destruct (gc_map_offsets_ w !! p) as [stored|] eqn:Hlk; intros [= <- <- <-].
  - exists []. split; [|split; [done|split; [done|]]].
    { by apply planned_refl. }
    intros wf mo Hext Hmo Ho'. exists []. split; [done|].
    intros P out HP Hinv Hpos.
    assert (is_Some (gc_map_offsets_ wf !! p)) as Hsome.
    { destruct Hext as (? & ? & ? & ? & _). exists stored. by eapply lookup_weaken. }
    rewrite (bool_decide_eq_true_2 _ Hsome). simpl.
    pose proof (Hgt _ _ Hlk) as Hc. simpl in Hc.
    rewrite bool_decide_eq_true_2 by (rewrite Hmo; lia).
    by apply ptracks_done.
  - exists [(GcMap, range s (gc_map_bytes (memory E) p))].
    split; [|split; [done|split; [done|]]].
    { split; [simpl; lia|]. split.
      - split; [lia|]. simpl.
        repeat split; try (apply map_Forall_insert_2; [case_decide; lia|]);
          (eapply map_Forall_impl; [eassumption|]); simpl; intros; lia.
      - split; [|done]. repeat split; auto using same_shape_refl. simpl.
        by apply insert_subseteq. }
    intros wf mo Hext Hmo Ho'. simpl in Ho'.
    assert (is_Some (gc_map_offsets_ wf !! p)) as Hsome.
    { destruct Hext as (? & ? & ? & ? & _). eexists. eapply lookup_weaken; [|eassumption].
      simpl. apply lookup_insert_eq. }
    rewrite (bool_decide_eq_true_2 _ Hsome). simpl.
    rewrite (wrap32_small s) by lia32.
    destruct (decide (s = 0)) as [Hs|Hs].
    + rewrite bool_decide_eq_true_2 by (rewrite Hmo; lia).
      exists []. split.
      * unfold covers. rewrite !filter_cons, !filter_nil. simpl.
        rewrite decide_False; [done|]. intros [_ Hne]. apply Hne.
        rewrite range_all by lia. apply len_nil_iff. lia.
      * intros P out HP Hinv Hpos. replace (o + s) with o by lia. by apply ptracks_done.
    + rewrite bool_decide_eq_false_2 by (rewrite Hmo; intros Hne; by apply Hne).
      eexists. split.
      2:{ intros P out HP Hinv Hpos. eapply (ptracks_bind _ _ _ _ _ _ [_] _ _ []).
        { apply ptracks_write; [done|]. rewrite Hpos, range_all by lia.
          by rewrite <- Hmo. }
        intros out1 Hinv1 Hpos1. rewrite range_all in Hpos1 by lia.
        rewrite wrap32_small by lia32.
        apply ptracks_done; [done|lia]. }
      unfold covers. simpl. rewrite !filter_cons, !filter_nil. simpl.
      rewrite decide_True; [done|]. split; [done|].
      rewrite range_all by lia. intros Hnil. rewrite Hnil in Hbl.
      unfold len in Hbl at 1. simpl in Hbl. lia.
Qed.

Lemma planned_Inv o w o' w' cks : planned o w o' w' cks → Inv o' w'.
Proof. by intros (_ & ? & _). Qed.

Lemma planned_le o w o' w' cks : planned o w o' w' cks → o <= o'.
Proof. by intros (? & _). Qed.

Lemma planned_extends o w o' w' cks : planned o w o' w' cks → extends w w'.
Proof. by intros (_ & _ & ? & _). Qed.

Lemma Inv_pos o w : Inv o w → 0 < o.
Proof. by intros (? & _). Qed.

Lemma lockstep_compiled E idx dex o w mo o' w' :
  admissible E → Inv o w →
  InitOatCodeMethod_compiled exact E idx dex o w = Some (mo, o', w') →
  ∃ cks, planned o w o' w' cks ∧ oat_classes_ w' = oat_classes_ w ∧
    runtime_methods w' = runtime_methods w ∧
    ∀ wf mo', extends w' wf →
      code_offset_ mo' = code_offset_ mo →
      mapping_table_offset_ mo' = mapping_table_offset_ mo →
      vmap_table_offset_ mo' = vmap_table_offset_ mo →
      gc_map_offset_ mo' = gc_map_offset_ mo →
      o' < 2 ^ 31 →
      ∃ ws, covers ws cks ∧ ∀ P out,
        (∀ t, P (Sought t t)) →
        (∀ cm, GetCompiledMethod (compiler E) (dex_addr dex) idx = Some cm →
               Forall P (compiled_events E mo' cm)) →
        stream_inv out → position out = o →
        ptracks P out (WriteCodeMethod_compiled E wf idx dex mo' o out) o' o' ws.
Proof.
  intros Hadm HI. unfold InitOatCodeMethod_compiled, WriteCodeMethod_compiled.
  destruct (GetCompiledMethod (compiler E) (dex_addr dex) idx) as [cm|] eqn:Hcm.
  2:{ intros [= <- <- <-]. exists []. split; [by apply planned_refl|].
      split; [done|]. split; [done|]. intros. exists []. split; [done|].
      intros. by apply ptracks_done. }
  rewrite InitOatCodeMethod_code_eq.
  destruct (plan_code_blob _ _ _ _ _ _ _ _) as [[[r1 o1] w1]|] eqn:H1; [|done]. simpl.
  destruct (InitOatCodeMethod_mapping_table _ _ _ _ _) as [[r2 o2] w2] eqn:H2.
  destruct (InitOatCodeMethod_vmap_table _ _ _ _ _) as [[r3 o3] w3] eqn:H3.
  destruct (InitOatCodeMethod_gc_map _ _ _ _ _) as [[r4 o4] w4] eqn:H4.
  intros [= <- <- <-]. simpl.
  eapply (lockstep_code_blob _ _ _ _ MethodCodeSize) in H1 as (cks1 & P1 & C1 & R1 & G1);
    [|done..].
  eapply lockstep_mapping_table in H2 as (cks2 & P2 & C2 & R2 & G2);
    [|done|by eapply planned_Inv].
  eapply lockstep_vmap_table in H3 as (cks3 & P3 & C3 & R3 & G3);
    [|done|by eapply planned_Inv].
  eapply lockstep_gc_map in H4 as (cks4 & P4 & C4 & R4 & G4);
    [|done|by eapply planned_Inv].
  exists (cks1 ++ cks2 ++ cks3 ++ cks4).
  split; [by repeat (eapply planned_trans; [eassumption|])|].
  split; [congruence|]. split; [congruence|].
  intros wf mo' Hext E1 E2 E3 E4 Ho'.
  pose proof (planned_le _ _ _ _ _ P1). pose proof (planned_le _ _ _ _ _ P2).
  pose proof (planned_le _ _ _ _ _ P3). pose proof (planned_le _ _ _ _ _ P4).
  pose proof (planned_extends _ _ _ _ _ P2) as X2.
  pose proof (planned_extends _ _ _ _ _ P3) as X3.
  pose proof (planned_extends _ _ _ _ _ P4) as X4.
  assert (extends w3 wf) as X3f by (by eapply extends_trans).
  assert (extends w2 wf) as X2f by (by eapply extends_trans).
  assert (extends w1 wf) as X1f by (by eapply extends_trans).
  destruct (G1 wf (code_offset_ mo') X1f E1 ltac:(lia)) as (ws1 & V1 & T1).
  destruct (G2 wf mo' X2f E2 ltac:(lia)) as (ws2 & V2 & T2).
  destruct (G3 wf mo' X3f E3 ltac:(lia)) as (ws3 & V3 & T3).
  destruct (G4 wf mo' Hext E4 ltac:(lia)) as (ws4 & V4 & T4).
  exists (ws1 ++ ws2 ++ ws3 ++ ws4).
  split; [by repeat apply covers_app|].
  intros P out HPs HPc Hinv Hpos. rewrite WriteCodeMethod_code_eq.
  specialize (HPc cm eq_refl). unfold compiled_events in HPc.
  rewrite !Forall_cons in HPc. destruct HPc as (Q1 & Q2 & Q3 & Q4 & Q5 & _).
  eapply ptracks_bind; [by apply T1|]. intros out1 Hinv1 Hpos1.
  eapply ptracks_bind; [by apply T2|]. intros out2 Hinv2 Hpos2.
  eapply ptracks_bind; [by apply T3|]. intros out3 Hinv3 Hpos3.
  by apply T4.
Qed.

(** *** Storing the record of a method *)

Lemma same_shape_alter l n k mo :
  Forall2 same_shape l (alter (set_method_offsets k mo) n l).
Proof.
  revert n. induction l as [|c l IH]; intros [|n]; simpl; try constructor.
  - split; [done|]. simpl. by rewrite length_insert.
  - apply same_shape_refl.
  - done.
  - apply IH.
Qed.

Lemma method_offsets_of_store w n k mo :
  is_Some (method_offsets_of w n k) →
  method_offsets_of (with_classes (alter (set_method_offsets k mo) n) w) n k = Some mo.
Proof.
  unfold method_offsets_of. simpl. intros [x Hx].
  destruct (oat_classes_ w !! n) as [c|] eqn:Hc; [|done]. simpl in Hx.
  rewrite list_lookup_alter_eq, Hc. simpl.
  apply list_lookup_insert_eq. by eapply lookup_lt_Some.
Qed.

Lemma method_offsets_of_store_other w n k mo n' j :
  (n', j) ≠ (n, k) →
  method_offsets_of (with_classes (alter (set_method_offsets k mo) n) w) n' j
  = method_offsets_of w n' j.
Proof.
  unfold method_offsets_of. simpl. intros Hne.
  destruct (decide (n' = n)) as [->|Hn].
  - rewrite list_lookup_alter_eq. destruct (oat_classes_ w !! n) as [c|]; [|done]. simpl.
    apply list_lookup_insert_ne. congruence.
  - by rewrite list_lookup_alter_ne.
Qed.

Lemma method_offsets_at_of w n k mo :
  method_offsets_of w n k = Some mo → method_offsets_at w n k = mo.
Proof. unfold method_offsets_at, method_offsets_of. by intros ->. Qed.

Lemma lockstep_method E o n k type idx dex w o' w' :
  admissible E → Inv o w → is_Some (method_offsets_of w n k) →
  InitOatCodeMethod exact E o n k type idx dex w = Some (o', w') →
  ∃ cks mo, planned o w o' w' cks ∧
    method_offsets_of w' n k = Some mo ∧
    (∀ n' j, (n', j) ≠ (n, k) → method_offsets_of w' n' j = method_offsets_of w n' j) ∧
    ∀ wf, extends w' wf → method_offsets_of wf n k = Some mo → o' < 2 ^ 31 →
      ∃ ws, covers ws cks ∧ ∀ P out,
        (∀ t, P (Sought t t)) →
        (∀ cm, GetCompiledMethod (compiler E) (dex_addr dex) idx = Some cm →
               Forall P (compiled_events E mo cm)) →
        (∀ s, FindInvokeStub (compiler E) (bool_decide (type = kStatic))
                (GetMethodShorty dex idx) = Some s →
              Forall P (stub_events E mo s)) →
        stream_inv out → position out = o →
        ptracks P out
          (reported id (WriteCodeMethod E wf out o n k (bool_decide (type = kStatic)) idx dex))
          o' o' ws.
Proof.
  intros Hadm HI Hslot. unfold InitOatCodeMethod.
  destruct (InitOatCodeMethod_compiled _ _ _ _ _ _) as [[[mo1 o1] w1]|] eqn:H1; [|done].
  simpl.
  eapply lockstep_compiled in H1 as (cks1 & P1 & C1 & R1 & G1); [|done..].
  set (stub := FindInvokeStub (compiler E) (bool_decide (type = kStatic))
                 (GetMethodShorty dex idx)) in *.
  destruct (match stub with
            | Some s => InitOatCodeMethod_invoke_stub exact E s o1 w1
            | None => Some (0, o1, w1)
            end) as [[[r2 o2] w2]|] eqn:H2; [|done]. simpl.
  assert (∃ cks2, planned o1 w1 o2 w2 cks2 ∧ oat_classes_ w2 = oat_classes_ w1 ∧
            runtime_methods w2 = runtime_methods w1 ∧
            ∀ wf mo', extends w2 wf → invoke_stub_offset_ mo' = r2 → o2 < 2 ^ 31 →
              ∃ ws, covers ws cks2 ∧ ∀ P out,
                (∀ t, P (Sought t t)) →
                (∀ s, stub = Some s → Forall P (stub_events E mo' s)) →
                stream_inv out → position out = o1 →
                ptracks P out
                  (match stub with
                   | Some s => WriteCodeMethod_invoke_stub E wf s mo' o1 out
                   | None => Done o1 out
                   end) o2 o2 ws) as (cks2 & P2 & C2 & R2 & G2).
  { destruct stub as [s|].
    - rewrite InitOatCodeMethod_invoke_stub_eq in H2.
      eapply (lockstep_code_blob _ _ _ _ InvokeStubCodeSize) in H2
        as (cks2 & P2 & C2 & R2 & G2); [|done|by eapply planned_Inv|done..].
      exists cks2. repeat (split; [done|]). intros wf mo' Hext Hmo Ho2.
      destruct (G2 wf _ Hext Hmo Ho2) as (ws & V & T). exists ws. split; [done|].
      intros P out HPs HPst Hinv Hpos. rewrite WriteCodeMethod_invoke_stub_eq.
      specialize (HPst s eq_refl). unfold stub_events in HPst.
      rewrite !Forall_cons in HPst. destruct HPst as (Q1 & Q2 & _). by apply T.
    - injection H2 as <- <- <-. exists []. split; [apply planned_refl; by eapply planned_Inv|].
      repeat (split; [done|]). intros. exists []. split; [done|].
      intros. by apply ptracks_done. }
  set (mo := set_invoke_stub_offset r2 mo1).
  set (w3 := with_classes (alter (set_method_offsets k mo) n) w2).
  assert (is_Some (method_offsets_of w2 n k)) as Hslot2.
  { unfold method_offsets_of in *. by rewrite C2, C1. }
  assert (planned o2 w2 o2 w3 []) as P3.
  { split; [lia|]. split; [exact (planned_Inv _ _ _ _ _ P2)|]. split; [|by rewrite app_nil_r].
    repeat split; try done. apply same_shape_alter. }
  intros Himg.
  assert (∃ rt, w' = with_runtime_methods (λ _, rt) w3 ∧ o' = o2) as (rt & -> & ->).
  { unfold InitOatCodeMethod_image in Himg. destruct (IsImage (compiler E)).
    - destruct (ResolveMethod E _ _ _) as [a|]; [|done]. simpl in Himg.
      destruct (runtime_methods _ !! a) as [m|]; [|done]. simpl in Himg.
      injection Himg as <- <-. by eexists.
    - injection Himg as <- <-. exists (runtime_methods w3). split; [|done].
      unfold w3. clear. by destruct w2. }
  exists (cks1 ++ cks2), mo.
  split.
  { replace (cks1 ++ cks2) with (cks1 ++ cks2 ++ []) by (by rewrite app_nil_r).
    eapply planned_trans; [done|]. eapply planned_trans; [done|].
    exact P3. }
  split; [by apply method_offsets_of_store|].
  split.
  { intros n' j Hne. unfold w3.
    change (method_offsets_of (with_runtime_methods (λ _, rt) ?x) n' j)
      with (method_offsets_of x n' j).
    rewrite method_offsets_of_store_other by done.
    unfold method_offsets_of. by rewrite C2, C1. }
  intros wf Hext Hmo Ho'.
  pose proof (planned_le _ _ _ _ _ P1). pose proof (planned_le _ _ _ _ _ P2).
  assert (extends w2 wf) as X2.
  { eapply extends_trans; [|done]. destruct P3 as (_ & _ & X & _).
    destruct X as (? & ? & ? & ? & ? & ? & ? & ?). repeat split; done. }
  assert (extends w1 wf) as X1 by (eapply extends_trans; [by eapply planned_extends|done]).
  destruct (G1 wf mo X1) as (ws1 & V1 & T1); [done..|lia|].
  destruct (G2 wf mo X2) as (ws2 & V2 & T2); [done..|].
  exists (ws1 ++ ws2). split; [by apply covers_app|].
  intros P out HPs HPc HPst Hinv Hpos. unfold WriteCodeMethod.
  rewrite (method_offsets_at_of _ _ _ _ Hmo).
  apply ptracks_reported_fail.
  { apply Inv_pos in HI. lia. }
  eapply ptracks_bind; [by apply T1|]. intros out1 Hinv1 Hpos1. by apply T2.
Qed.

(** *** The method loops *)

Lemma same_shape_lookup l l' n c :
  Forall2 same_shape l l' → l !! n = Some c →
  ∃ c', l' !! n = Some c' ∧ same_shape c c'.
Proof. intros H Hn. by eapply Forall2_lookup_l in H. Qed.

Lemma extends_slots w w' n m :
  extends w w' →
  (∃ c, oat_classes_ w !! n = Some c ∧ (m ≤ length (method_offsets_ c))%nat) →
  ∃ c, oat_classes_ w' !! n = Some c ∧ (m ≤ length (method_offsets_ c))%nat.
Proof.
  intros (_ & _ & _ & _ & _ & _ & _ & Hs) (c & Hc & Hm).
  destruct (same_shape_lookup _ _ _ _ Hs Hc) as (c' & Hc' & _ & Hlen).
  exists c'. split; [done|lia].
Qed.

Lemma slots_is_Some w n k m :
  (k < m)%nat →
  (∃ c, oat_classes_ w !! n = Some c ∧ (m ≤ length (method_offsets_ c))%nat) →
  is_Some (method_offsets_of w n k).
Proof.
  intros Hk (c & Hc & Hm). unfold method_offsets_of. rewrite Hc. simpl.
  apply lookup_lt_is_Some. lia.
Qed.

Lemma unchanged_below_trans w1 w2 w3 n k n' k' :
  (n < n' ∨ n = n' ∧ k ≤ k')%nat →
  unchanged_below w1 w2 n k → unchanged_below w2 w3 n' k' → unchanged_below w1 w3 n k.
Proof.
  intros Hle H1 H2 m j Hm. rewrite H2 by lia. by apply H1.
Qed.

Lemma unchanged_below_refl w n k : unchanged_below w w n k.
Proof. by intros ???. Qed.

Lemma unchanged_below_weaken w w' n k n' k' :
  (n < n' ∨ n = n' ∧ k ≤ k')%nat →
  unchanged_below w w' n' k' → unchanged_below w w' n k.
Proof. intros Hle H m j Hm. apply H. lia. Qed.

Lemma ptracks_weaken {A} (P Q : Event → Prop) out (r : step A) a o ws :
  (∀ e, P e → Q e) → ptracks P out r a o ws → ptracks Q out r a o ws.
Proof.
  intros H [T Em]. split; [done|]. intros c out' Hr.
  destruct (Em c out' Hr) as (evs & He & HP). exists evs. split; [done|].
  by eapply Forall_impl.
Qed.

Lemma slot_events_mono E w s1 s2 e :
  (∀ x, x ∈ s1 → x ∈ s2) → slot_events E w s1 e → slot_events E w s2 e.
Proof.
  intros Hs [H|(n & k & dex & m & mo & Hin & H)]; [by left|].
  right. exists n, k, dex, m, mo. split; [by apply Hs|done].
Qed.

Lemma lockstep_methods E direct ms : ∀ o n k dex w o' k' w',
  admissible E → Inv o w →
  (∃ c, oat_classes_ w !! n = Some c ∧ (k + length ms ≤ length (method_offsets_ c))%nat) →
  Forall (λ m, bool_decide (invoke_type m = kStatic)
               = direct && bool_decide (Z.land (access_flags m) kAccStatic ≠ 0)) ms →
  InitOatCodeClassDef_methods exact E ms o n k dex w = Some (o', k', w') →
  ∃ cks, planned o w o' w' cks ∧ k' = (k + length ms)%nat ∧
    unchanged_below w w' n k ∧
    ∀ wf, extends w' wf → unchanged_below w' wf n k' → o' < 2 ^ 31 →
      ∃ ws, covers ws cks ∧ ∀ out, stream_inv out → position out = o →
        ptracks (slot_events E wf (imap (λ j m, (n, (k + j)%nat, dex, m)) ms)) out
          (reported fst (WriteCodeClassDef_methods E wf direct ms out o n k dex))
          (o', k') o' ws.
Proof.
  induction ms as [|m ms IH]; intros o n k dex w o' k' w' Hadm HI Hslots Hst; simpl.
  - intros [= <- <- <-]. exists []. split; [by apply planned_refl|].
    split; [lia|]. split; [apply unchanged_below_refl|].
    intros wf _ _ _. exists []. split; [done|]. intros out Hinv Hpos.
    simpl. rewrite decide_False by (apply Inv_pos in HI; lia).
    by apply ptracks_done.
  - invert Hst. rename H1 into Hm, H2 into Hst.
    destruct (InitOatCodeMethod _ _ _ _ _ _ _ _ _) as [[o1 w1]|] eqn:H1; [|done]. simpl.
    intros Hrest.
    eapply lockstep_method in H1 as (cks1 & mo & P1 & S1 & F1 & G1);
      [|done|done|by eapply slots_is_Some; [|done]; simpl; lia].
    eapply IH in Hrest as (cks2 & P2 & -> & U2 & G2);
      [|done|by eapply planned_Inv| |done].
    2:{ eapply extends_slots; [by eapply planned_extends|].
        destruct Hslots as (c & ? & ?). exists c. split; [done|simpl in *; lia]. }
    exists (cks1 ++ cks2). split; [by eapply planned_trans|].
    split; [simpl; lia|].
    assert (unchanged_below w w1 n k) as U1.
    { intros n' j Hlt. apply F1. intros [= -> ->]. lia. }
    split; [eapply unchanged_below_trans; [|done|done]; lia|].
    intros wf Hext Uf Ho'.
    pose proof (planned_le _ _ _ _ _ P2).
    assert (method_offsets_of wf n k = Some mo) as Hrec.
    { rewrite Uf by lia. rewrite U2 by lia. done. }
    destruct (G1 wf) as (ws1 & V1 & T1).
    { eapply extends_trans; [by eapply planned_extends|done]. }
    { done. }
    { lia. }
    destruct (G2 wf) as (ws2 & V2 & T2); [done..|].
    exists (ws1 ++ ws2). split; [by apply covers_app|].
    intros out Hinv Hpos.
    rewrite <- Hm.
    eapply (ptracks_reported_bind _ id fst).
    { apply T1; [| | |done|done].
      - intros t. left. by exists t.
      - intros cm Hcm. apply Forall_forall. intros e He. right.
        exists n, k, dex, m, mo.
        split; [rewrite ?imap_cons; apply elem_of_cons; left; by rewrite Nat.add_0_r|].
        split; [done|]. right. left. by exists cm.
      - intros s Hs. apply Forall_forall. intros e He. right.
        exists n, k, dex, m, mo.
        split; [rewrite ?imap_cons; apply elem_of_cons; left; by rewrite Nat.add_0_r|].
        split; [done|]. right. right. by exists s. }
    + intros a out1 Ha. unfold id in Ha. subst a. by rewrite decide_True by done.
    + intros out1 Hinv1 Hpos1.
      rewrite decide_False by (apply planned_Inv, Inv_pos in P1; lia).
      eapply ptracks_weaken; [|by apply T2].
      intros e. apply slot_events_mono. intros x Hx.
      rewrite ?imap_cons. apply elem_of_cons. right.
      erewrite imap_ext; [exact Hx|]. intros j y _. simpl. do 3 f_equal. lia.
Qed.

(** *** Classes and DEX files in the code phase *)

Lemma lockstep_class_def E o n dex cd w o' w' :
  admissible E → Inv o w → class_def_wf cd →
  InitOatCodeClassDef exact E o n dex cd w = Some (o', w') →
  ∃ cks, planned o w o' w' cks ∧ unchanged_below w w' n 0 ∧
    ∀ wf, extends w' wf → unchanged_below w' wf (S n) 0 → o' < 2 ^ 31 →
      ∃ ws, covers ws cks ∧ ∀ out, stream_inv out → position out = o →
        ptracks (slot_events E wf (class_methods dex n cd)) out
          (reported id (WriteCodeClassDef E wf out o n dex cd)) o' o' ws.
Proof.
  intros Hadm HI Hwf.
  unfold InitOatCodeClassDef, WriteCodeClassDef, class_def_wf, class_methods in *.
  destruct (class_data cd) as [cdata|].
  2:{ intros [= <- <-]. exists []. split; [by apply planned_refl|].
      split; [apply unchanged_below_refl|]. intros wf _ _ _. exists []. split; [done|].
      intros out Hinv Hpos. simpl. unfold id.
      rewrite decide_False by (apply Inv_pos in HI; lia). by apply ptracks_done. }
  destruct Hwf as [Hd Hv].
  destruct (oat_classes_ w !! n) as [c|] eqn:Hc; [|done]. simpl.
  unfold exact at 1. case_decide as Hlen; [|done].
  destruct (InitOatCodeClassDef_methods _ _ (direct_methods cdata) _ _ _ _ _)
    as [[[o1 k1] w1]|] eqn:H1; [|done]. simpl.
  destruct (InitOatCodeClassDef_methods _ _ (virtual_methods cdata) _ _ _ _ _)
    as [[[o2 k2] w2]|] eqn:H2; [|done]. simpl.
  intros [= <- <-].
  assert (length (method_offsets_ c)
          = (length (direct_methods cdata) + length (virtual_methods cdata))%nat) as Hlen'.
  { unfold len in Hlen. lia. }
  eapply (lockstep_methods _ true) in H1 as (cks1 & P1 & -> & U1 & G1); [|done|done| |].
  2:{ exists c. split; [done|lia]. }
  2:{ eapply Forall_impl; [exact Hd|]. simpl. intros m Hm. by apply bool_decide_ext. }
  eapply (lockstep_methods _ false) in H2 as (cks2 & P2 & -> & U2 & G2);
    [|done|by eapply planned_Inv| |].
  2:{ eapply extends_slots; [by eapply planned_extends|]. exists c. split; [done|lia]. }
  2:{ eapply Forall_impl; [exact Hv|]. simpl. intros m Hm. by apply bool_decide_eq_false_2. }
  exists (cks1 ++ cks2). split; [by eapply planned_trans|].
  split; [eapply unchanged_below_trans; [|done|done]; lia|].
  intros wf Hext Uf Ho'.
  pose proof (planned_le _ _ _ _ _ P2).
  destruct (G1 wf) as (ws1 & V1 & T1).
  { eapply extends_trans; [by eapply planned_extends|done]. }
  { eapply unchanged_below_trans; [|done|done]. lia. }
  { lia. }
  destruct (G2 wf) as (ws2 & V2 & T2); [done| |done|].
  { eapply unchanged_below_weaken; [|done]. lia. }
  exists (ws1 ++ ws2 ++ []). split; [rewrite app_nil_r; by apply covers_app|].
  intros out Hinv Hpos.
  eapply (ptracks_reported_bind _ fst id).
  { eapply ptracks_weaken; [|by apply T1].
    intros e. apply slot_events_mono. intros x Hx.
    rewrite imap_app. apply elem_of_app. by left. }
  { intros [a i] out1 Ha. simpl in Ha. subst a. by rewrite decide_True by done. }
  intros out1 Hinv1 Hpos1. simpl.
  rewrite decide_False by (apply planned_Inv, Inv_pos in P1; lia).
  eapply (ptracks_reported_bind _ fst id).
  { eapply ptracks_weaken; [|by apply T2].
    intros e. apply slot_events_mono. intros x Hx.
    rewrite imap_app. apply elem_of_app. by right. }
  { intros [a i] out2 Ha. simpl in Ha. subst a. done. }
  intros out2 Hinv2 Hpos2. simpl. unfold id.
  rewrite decide_False by (apply planned_Inv, Inv_pos in P2; lia).
  by apply ptracks_done.
Qed.

Lemma covers_OatClass_ranges c : covers [] (OatClass_ranges exact c).
Proof. done. Qed.

Lemma hdr_ranges_fold rs h :
  hdr_checksum_ranges (fold_left (λ h r, OatHeader_UpdateChecksum r.1 r.2 h) rs h)
  = hdr_checksum_ranges h ++ rs
  ∧ hdr_executable_offset (fold_left (λ h r, OatHeader_UpdateChecksum r.1 r.2 h) rs h)
    = hdr_executable_offset h.
Proof.
  revert h. induction rs as [|[what data] rs IH]; intros h; simpl.
  - by rewrite app_nil_r.
  - destruct (IH (OatHeader_UpdateChecksum what data h)) as [-> ->]. simpl.
    by rewrite <- app_assoc.
Qed.

Lemma planned_OatClass_UpdateChecksum_at o w n :
  Inv o w →
  ∃ cks, planned o w o (OatClass_UpdateChecksum_at exact n w) cks ∧ covers [] cks ∧
    (∀ n' j, method_offsets_of (OatClass_UpdateChecksum_at exact n w) n' j
             = method_offsets_of w n' j).
Proof.
  intros HI. unfold OatClass_UpdateChecksum_at.
  destruct (oat_classes_ w !! n) as [c|].
  - exists (OatClass_ranges exact c). split; [|done].
    split; [lia|]. split; [done|]. unfold OatClass_UpdateChecksum.
    destruct (hdr_ranges_fold (OatClass_ranges exact c) (oat_header_ w)) as [Hr He].
    split; [|done]. repeat split; auto using same_shape_refl.
  - exists []. split; [by apply planned_refl|]. done.
Qed.

Lemma lockstep_dex_file_loop E cds : ∀ o n dex w o' n' w',
  admissible E → Inv o w → Forall class_def_wf cds →
  InitOatCodeDexFile_loop exact E cds o n dex w = Some (o', n', w') →
  ∃ cks, planned o w o' w' cks ∧ n' = (n + length cds)%nat ∧
    unchanged_below w w' n 0 ∧
    ∀ wf, extends w' wf → unchanged_below w' wf n' 0 → o' < 2 ^ 31 →
      ∃ ws, covers ws cks ∧ ∀ out, stream_inv out → position out = o →
        ptracks (slot_events E wf (dex_methods dex n cds)) out
          (reported fst (WriteCodeDexFile_loop E wf cds out o n dex))
          (o', n') o' ws.
Proof.
  induction cds as [|cd cds IH]; intros o n dex w o' n' w' Hadm HI Hwf; simpl.
  - intros [= <- <- <-]. exists []. split; [by apply planned_refl|].
    split; [lia|]. split; [apply unchanged_below_refl|].
    intros wf _ _ _. exists []. split; [done|]. intros out Hinv Hpos.
    simpl. rewrite decide_False by (apply Inv_pos in HI; lia).
    by apply ptracks_done.
  - invert Hwf. rename H1 into Hcd, H2 into Hwf.
    destruct (InitOatCodeClassDef _ _ _ _ _ _ _) as [[o1 w1]|] eqn:H1; [|done]. simpl.
    intros Hrest.
    eapply lockstep_class_def in H1 as (cks1 & P1 & U1 & G1); [|done..].
    destruct (planned_OatClass_UpdateChecksum_at o1 w1 n) as (cksc & Pc & Vc & Fc);
      [by eapply planned_Inv|].
    eapply IH in Hrest as (cks2 & P2 & -> & U2 & G2); [|done|by eapply planned_Inv|done].
    exists (cks1 ++ cksc ++ cks2).
    split; [eapply planned_trans; [done|]; by eapply planned_trans|].
    split; [lia|].
    assert (unchanged_below w1 w' (S n) 0) as U12.
    { intros n1 j Hlt. rewrite U2 by done. apply Fc. }
    split; [eapply unchanged_below_trans; [|done|done]; lia|].
    intros wf Hext Uf Ho'.
    pose proof (planned_le _ _ _ _ _ P2). pose proof (planned_le _ _ _ _ _ Pc).
    destruct (G1 wf) as (ws1 & V1 & T1).
    { eapply extends_trans; [by eapply planned_extends|].
      eapply extends_trans; [by eapply planned_extends|done]. }
    { eapply unchanged_below_trans; [|done|done]. lia. }
    { lia. }
    destruct (G2 wf) as (ws2 & V2 & T2); [done..|].
    exists (ws1 ++ ws2). split.
    { apply covers_app; [done|]. by apply (covers_app []). }
    intros out Hinv Hpos.
    eapply (ptracks_reported_bind _ id fst).
    + eapply ptracks_weaken; [|by apply T1].
      intros e. apply slot_events_mono. intros x Hx. apply elem_of_app. by left.
    + intros a out1 Ha. unfold id in Ha. subst a. by rewrite decide_True by done.
    + intros out1 Hinv1 Hpos1.
      rewrite decide_False by (apply planned_Inv, Inv_pos in P1; lia).
      eapply ptracks_weaken; [|by apply T2].
      intros e. apply slot_events_mono. intros x Hx. apply elem_of_app. by right.
Qed.

Lemma lockstep_dex_files_loop E dfs : ∀ ds i o n w o' n' w',
  admissible E → Inv o w → Forall dex_file_wf dfs →
  length ds = length dfs →
  (∀ j, dfs !! j = dex_files E !! (i + j)%nat) →
  InitOatCodeDexFiles_loop exact E dfs o n w = Some (o', n', w') →
  ∃ cks, planned o w o' w' cks ∧ (n ≤ n')%nat ∧
    unchanged_below w w' n 0 ∧
    ∀ wf, extends w' wf → unchanged_below w' wf n' 0 → o' < 2 ^ 31 →
      ∃ ws, covers ws cks ∧ ∀ out, stream_inv out → position out = o →
        ptracks (slot_events E wf (all_methods dfs n)) out
          (reported id (WriteCodeDexFiles_loop E wf ds i out o n)) o' o' ws.
Proof.
  induction dfs as [|dex dfs IH]; intros ds i o n w o' n' w' Hadm HI Hwf Hlen Hsuf; simpl.
  - destruct ds; [|done]. intros [= <- <- <-]. exists []. split; [by apply planned_refl|].
    split; [lia|]. split; [apply unchanged_below_refl|].
    intros wf _ _ _. exists []. split; [done|]. intros out Hinv Hpos.
    simpl. unfold id. rewrite decide_False by (apply Inv_pos in HI; lia).
    by apply ptracks_done.
  - destruct ds as [|d ds]; [done|]. invert Hwf. rename H1 into Hdex, H2 into Hwf.
    unfold InitOatCodeDexFile.
    destruct (InitOatCodeDexFile_loop _ _ _ _ _ _ _) as [[[o1 n1] w1]|] eqn:H1; [|done].
    simpl. intros Hrest.
    eapply lockstep_dex_file_loop in H1 as (cks1 & P1 & -> & U1 & G1); [|done..].
    eapply (IH ds (S i)) in Hrest as (cks2 & P2 & Hn' & U2 & G2);
      [|done|by eapply planned_Inv|done|by simpl in Hlen; lia|].
    2:{ intros j. specialize (Hsuf (S j)). simpl in Hsuf. rewrite Hsuf. f_equal. lia. }
    exists (cks1 ++ cks2). split; [by eapply planned_trans|].
    split; [lia|].
    split; [eapply unchanged_below_trans; [|done|done]; lia|].
    intros wf Hext Uf Ho'.
    pose proof (planned_le _ _ _ _ _ P2).
    destruct (G1 wf) as (ws1 & V1 & T1).
    { eapply extends_trans; [by eapply planned_extends|done]. }
    { eapply unchanged_below_trans; [|done|done]. lia. }
    { lia. }
    destruct (G2 wf) as (ws2 & V2 & T2); [done..|].
    exists (ws1 ++ ws2). split; [by apply covers_app|].
    intros out Hinv Hpos.
    specialize (Hsuf 0%nat). simpl in Hsuf. rewrite Nat.add_0_r in Hsuf. rewrite <- Hsuf.
    unfold WriteCodeDexFile.
    eapply (ptracks_reported_bind _ fst id).
    + eapply ptracks_weaken; [|by apply T1].
      intros e. apply slot_events_mono. intros x Hx. apply elem_of_app. by left.
    + intros [a m] out1 Ha. simpl in Ha. subst a. by rewrite decide_True by done.
    + intros out1 Hinv1 Hpos1. simpl.
      rewrite decide_False by (apply planned_Inv, Inv_pos in P1; lia).
      eapply ptracks_weaken; [|by apply T2].
      intros e. apply slot_events_mono. intros x Hx. apply elem_of_app. by right.
Qed.

(** *** The phases before the code phase *)

Lemma InitOatDexFiles_loop_spec dfs : ∀ o w,
  InitOatDexFiles_loop exact dfs o w
  = (o + OatDexFiles_SizeOf (map (new_OatDexFile exact) dfs),
     with_dex_files (λ _, oat_dex_files_ w ++ map (new_OatDexFile exact) dfs) w).
Proof.
  induction dfs as [|d dfs IH]; intros o w; simpl.
  - rewrite app_nil_r, Z.add_0_r. by destruct w.
  - rewrite IH. unfold exact at 1. f_equal; [lia|].
    simpl. rewrite <- app_assoc. done.
Qed.

Lemma same_dex_shape_refl l : Forall2 same_dex_shape l l.
Proof. apply Forall_Forall2_diag, Forall_forall. by intros. Qed.

Lemma same_dex_shape_trans l1 l2 l3 :
  Forall2 same_dex_shape l1 l2 → Forall2 same_dex_shape l2 l3 →
  Forall2 same_dex_shape l1 l3.
Proof.
  intros H. revert l3. induction H as [|a b l1 l2 (? & ? & ? & ?) _ IH]; intros l3 H3.
  - by invert H3.
  - invert H3. constructor; [|by apply IH].
    match goal with H : same_dex_shape b _ |- _ => destruct H as (? & ? & ? & ?) end.
    repeat split; congruence.
Qed.

Lemma InitDexFiles_loop_spec dfs : ∀ pre ds o w,
  length ds = length dfs →
  ∃ o' ds',
    InitDexFiles_loop exact dfs (length pre) o (with_dex_files (λ _, pre ++ ds) w)
    = (o', with_dex_files (λ _, pre ++ ds') w) ∧
    Forall2 same_dex_shape ds ds' ∧
    dex_layout dfs o (map dex_file_offset_ ds') o'.
Proof.
  induction dfs as [|d dfs IH]; intros pre ds o w Hlen; simpl.
  - destruct ds; [|done]. by exists o, [].
  - destruct ds as [|x ds]; [done|]. simpl in Hlen.
    set (a := RoundUp exact o 4).
    destruct (IH (pre ++ [set_dex_file_offset a x]) ds (exact (a + file_size_ d)) w)
      as (o' & ds' & Heq & Hsh & Hlay); [lia|].
    exists o', (set_dex_file_offset a x :: ds').
    split; [|split].
    + rewrite length_app, Nat.add_1_r in Heq. simpl in Heq.
      rewrite <- (app_assoc pre [_] ds') in Heq. simpl in Heq. rewrite <- Heq.
      f_equal. unfold with_dex_files. simpl. f_equal.
      replace (length pre) with (length pre + 0)%nat by lia.
      rewrite alter_app_r. simpl. by rewrite <- app_assoc.
    + constructor; [done|done].
    + simpl. done.
Qed.

Lemma OatClasses_SizeOf_app l k :
  OatClasses_SizeOf (l ++ k) = OatClasses_SizeOf l + OatClasses_SizeOf k.
Proof. unfold OatClasses_SizeOf. induction l; simpl; lia. Qed.

Lemma OatDexFiles_SizeOf_app l k :
  OatDexFiles_SizeOf (l ++ k) = OatDexFiles_SizeOf l + OatDexFiles_SizeOf k.
Proof. unfold OatDexFiles_SizeOf. induction l; simpl; lia. Qed.

Lemma InitOatClasses_classes_spec E dex cds : ∀ pre x post cl c o w,
  ∃ x',
    InitOatClasses_classes exact E dex (length pre) cds c o
      (with_classes (λ _, cl) (with_dex_files (λ _, pre ++ x :: post) w))
    = (o + OatClasses_SizeOf (new_OatClasses E dex cds c),
       with_classes (λ _, cl ++ new_OatClasses E dex cds c)
         (with_dex_files (λ _, pre ++ x' :: post) w)) ∧
    same_dex_shape x x' ∧ dex_file_offset_ x' = dex_file_offset_ x.
Proof.
  induction cds as [|cd cds IH]; intros pre x post cl c o w; simpl.
  - exists x. rewrite app_nil_r, Z.add_0_r. done.
  - set (x1 := set_methods_offset c o x).
    set (oc := new_OatClass (class_status E dex c) (num_methods exact cd)).
    destruct (IH pre x1 post (cl ++ [oc]) (S c) (exact (o + OatClass_SizeOf exact oc)) w)
      as (x' & Heq & (? & ? & ? & Hl) & ?).
    exists x'. split; [|split; [|done]].
    + rewrite <- (app_assoc cl [oc]) in Heq. simpl in Heq.
      etrans; [|etrans; [exact Heq|]].
      * f_equal. unfold with_classes, with_dex_files. simpl. f_equal.
        replace (length pre) with (length pre + 0)%nat by lia.
        by rewrite alter_app_r.
      * f_equal. unfold OatClasses_SizeOf, exact. simpl. fold oc. lia.
    + repeat split; try done. rewrite Hl. unfold x1. simpl. apply length_insert.
Qed.

Lemma append_checksum_app a b h :
  append_checksum (a ++ b) h = append_checksum b (append_checksum a h).
Proof. unfold append_checksum. apply fold_left_app. Qed.

Lemma InitOatClasses_loop_spec E dfs : ∀ pre ds cl h o w,
  length ds = length dfs →
  ∃ ds',
    InitOatClasses_loop exact E dfs (length pre) o
      (with_header (λ _, h) (with_classes (λ _, cl)
         (with_dex_files (λ _, pre ++ ds) w)))
    = (o + OatClasses_SizeOf (new_OatClasses_all E dfs),
       with_header (λ _, append_checksum (ds' ≫= OatDexFile_ranges exact) h)
         (with_classes (λ _, cl ++ new_OatClasses_all E dfs)
            (with_dex_files (λ _, pre ++ ds') w))) ∧
    Forall2 same_dex_shape ds ds' ∧
    map dex_file_offset_ ds' = map dex_file_offset_ ds.
Proof.
  induction dfs as [|d dfs IH]; intros pre ds cl h o w Hlen; simpl.
  - destruct ds; [|done]. exists []. unfold new_OatClasses_all, OatClasses_SizeOf. simpl.
    rewrite !app_nil_r, Z.add_0_r. done.
  - destruct ds as [|x ds]; [done|]. simpl in Hlen.
    destruct (InitOatClasses_classes_spec E d (class_defs d) pre x ds cl 0%nat o
                (with_header (λ _, h) w)) as (x' & Heq & Hsh & Hoff).
    change (with_header (λ _, h) (with_classes (λ _, cl)
              (with_dex_files (λ _, pre ++ x :: ds) w)))
      with (with_classes (λ _, cl) (with_dex_files (λ _, pre ++ x :: ds)
              (with_header (λ _, h) w))).
    rewrite Heq.
    set (cl1 := cl ++ new_OatClasses E d (class_defs d) 0).
    set (h1 := append_checksum (OatDexFile_ranges exact x') h).
    destruct (IH (pre ++ [x']) ds cl1 h1
                (o + OatClasses_SizeOf (new_OatClasses E d (class_defs d) 0)) w)
      as (ds' & Heq2 & Hsh2 & Hoff2); [lia|].
    exists (x' :: ds'). split; [|split].
    + rewrite length_app, Nat.add_1_r in Heq2. simpl in Heq2.
      rewrite <- (app_assoc pre [x'] ds') in Heq2. simpl in Heq2.
      etrans; [|etrans; [exact Heq2|]].
      * f_equal. unfold OatDexFile_UpdateChecksum_at. simpl.
        rewrite lookup_app_r by lia. rewrite Nat.sub_diag. simpl.
        rewrite <- (app_assoc pre [x'] ds). done.
      * assert ((x' :: ds') ≫= OatDexFile_ranges exact
                = OatDexFile_ranges exact x' ++ (ds' ≫= OatDexFile_ranges exact)) as ->
          by done.
        rewrite OatClasses_SizeOf_app, Z.add_assoc, append_checksum_app.
        unfold cl1, h1. by rewrite <- app_assoc.
    + by constructor.
    + simpl. by rewrite Hoff, Hoff2.
Qed.

(** *** Writing the tables *)

Lemma len_bind_OatMethodOffsets_bytes (l : list OatMethodOffsets) :
  len (l ≫= OatMethodOffsets_bytes) = sizeof_OatMethodOffsets * len l.
Proof.
  unfold len, sizeof_OatMethodOffsets. induction l as [|a l IH]; [done|].
  change ((a :: l) ≫= OatMethodOffsets_bytes)
    with (OatMethodOffsets_bytes a ++ (l ≫= OatMethodOffsets_bytes)).
  rewrite length_app. simpl in *. lia.
Qed.

Lemma OatDexFile_ranges_wrap32 d :
  sizeof_uint32 * len (methods_offsets_ d) < 2 ^ 32 →
  OatDexFile_ranges wrap32 d = OatDexFile_ranges exact d.
Proof.
  intros Hb. unfold OatDexFile_ranges, methods_offsets_bytes.
  rewrite wrap32_small; [done|].
  pose proof (len_nonneg (methods_offsets_ d)). lia32.
Qed.

Lemma len_OatDexFile_ranges d :
  dex_record_ok d →
  len (OatDexFile_ranges exact d ≫= snd) = OatDexFile_SizeOf exact d.
Proof.
  intros [Hs Hb]. unfold OatDexFile_ranges, OatDexFile_SizeOf, methods_offsets_bytes, exact.
  rewrite !range_all; [|by rewrite len_bind_le32; unfold sizeof_uint32; lia|done].
  pose proof (len_bind_le32 (methods_offsets_ d)) as Hl.
  rewrite Hs. unfold len, sizeof_uint32 in *. simpl.
  rewrite !length_app. simpl. rewrite length_app. simpl. lia.
Qed.

Lemma OatClass_ranges_wrap32 c :
  class_record_ok c → OatClass_ranges wrap32 c = OatClass_ranges exact c.
Proof.
  intros Hb. unfold OatClass_ranges, method_offsets_bytes.
  rewrite wrap32_small; [done|].
  pose proof (len_nonneg (method_offsets_ c)). unfold class_record_ok in *.
  unfold sizeof_OatMethodOffsets in *. lia32.
Qed.

Lemma len_OatClass_ranges c :
  len (OatClass_ranges exact c ≫= snd) = OatClass_SizeOf exact c.
Proof.
  unfold OatClass_ranges, OatClass_SizeOf, method_offsets_bytes, exact.
  rewrite range_all by (by rewrite len_bind_OatMethodOffsets_bytes).
  pose proof (len_bind_OatMethodOffsets_bytes (method_offsets_ c)) as Hl.
  unfold len, sizeof_uint32 in *. simpl. rewrite !length_app. simpl. lia.
Qed.

Lemma tracks_WriteTables_oat_dex_files ds : ∀ out,
  Forall dex_record_ok ds → stream_inv out →
  tracks out (WriteTables_oat_dex_files ds out) ()
    (position out + OatDexFiles_SizeOf ds) (ds ≫= OatDexFile_ranges exact).
Proof.
  induction ds as [|d ds IH]; intros out Hok Hinv; simpl.
  - apply tracks_done; [done|]. unfold OatDexFiles_SizeOf. simpl. lia.
  - invert Hok.
    apply (tracks_bind out _ _ () (position out + OatDexFile_SizeOf exact d)
             (OatDexFile_ranges exact d) () _ (ds ≫= OatDexFile_ranges exact)).
    + unfold OatDexFile_Write. rewrite OatDexFile_ranges_wrap32 by apply H1.
      rewrite <- len_OatDexFile_ranges by done. by apply tracks_write_all.
    + intros out1 Hinv1 Hpos1.
      unfold OatDexFiles_SizeOf. simpl. rewrite Z.add_assoc, <- Hpos1. by apply IH.
Qed.

Lemma tracks_WriteTables_oat_classes cs : ∀ out,
  Forall class_record_ok cs → stream_inv out →
  tracks out (WriteTables_oat_classes cs out) ()
    (position out + OatClasses_SizeOf cs) (cs ≫= OatClass_ranges exact).
Proof.
  induction cs as [|c cs IH]; intros out Hok Hinv; simpl.
  - apply tracks_done; [done|]. unfold OatClasses_SizeOf. simpl. lia.
  - invert Hok.
    apply (tracks_bind out _ _ () (position out + OatClass_SizeOf exact c)
             (OatClass_ranges exact c) () _ (cs ≫= OatClass_ranges exact)).
    + unfold OatClass_Write. rewrite OatClass_ranges_wrap32 by done.
      rewrite <- len_OatClass_ranges. by apply tracks_write_all.
    + intros out1 Hinv1 Hpos1.
      unfold OatClasses_SizeOf. simpl. rewrite Z.add_assoc, <- Hpos1. by apply IH.
Qed.

Lemma dex_layout_le dfs : ∀ o offs o', dex_layout dfs o offs o' → o <= o'.
Proof.
  induction dfs as [|d dfs IH]; intros o [|a offs] o'; simpl; try done; [lia|].
  intros [-> H]. apply IH in H.
  pose proof (RoundUp_exact o 4 ltac:(lia)). pose proof (len_nonneg (dex_image d)).
  unfold file_size_ in *. lia.
Qed.

Lemma tracks_WriteTables_dex_files E dfs : ∀ ds i o o' out,
  dex_layout dfs o (map dex_file_offset_ ds) o' →
  (∀ j, dfs !! j = dex_files E !! (i + j)%nat) →
  0 <= o → o' < 2 ^ 31 → stream_inv out → position out = o →
  tracks out (WriteTables_dex_files E ds i out) () o'
    (map (λ d, (DexFilePayload, dex_image d)) dfs).
Proof.
  induction dfs as [|d dfs IH]; intros [|x ds] i o o' out; simpl; try done.
  - intros -> _ _ _ Hinv Hpos. by apply tracks_done.
  - intros [Ha Hlay] Hsuf Ho Ho' Hinv Hpos.
    pose proof (RoundUp_exact o 4 ltac:(lia)) as [Hr _].
    pose proof (dex_layout_le _ _ _ _ Hlay) as Hle.
    pose proof (len_nonneg (dex_image d)) as Hl. unfold file_size_ in *.
    apply (tracks_bind out _ _ () (dex_file_offset_ x) [] () _ (_ :: _)).
    { apply tracks_seek; [done|lia32|lia32|done]. }
    intros out1 Hinv1 Hpos1.
    pose proof (Hsuf 0%nat) as H0. simpl in H0. rewrite Nat.add_0_r in H0. rewrite <- H0.
    rewrite wrap32_small by lia32. rewrite range_all by done.
    apply (tracks_bind out1 _ _ () (dex_file_offset_ x + len (dex_image d))
             [(DexFilePayload, dex_image d)] () _ _).
    { rewrite <- Hpos1. by apply tracks_write. }
    intros out2 Hinv2 Hpos2.
    eapply IH; [exact Hlay| |lia|done|done|done].
    intros j. specialize (Hsuf (S j)). simpl in Hsuf. rewrite Hsuf. f_equal. lia.
Qed.

(** *** The constructor, phase by phase *)

Lemma OatWriter_new_tables cast E rt :
  OatWriter_new cast E rt
  = '(offset, w) ← InitOatCodeDexFiles cast E (plan_tables cast E rt).1.2
                      (plan_tables cast E rt).2;
    if decide (length (dex_files E) = length (oat_dex_files_ w))
    then Some (offset, w) else None.
Proof.
  unfold OatWriter_new, plan_tables.
  destruct (InitOatDexFiles _ _ _ _) as [o2 w2].
  destruct (InitDexFiles _ _ _ _) as [o3 w3].
  destruct (InitOatClasses _ _ _ _) as [o4 w4].
  by destruct (InitOatCode _ _ _ _) as [o5 w5].
Qed.

Lemma plan_tables_exact E rt :
  ∃ ds o3,
    let o1 := sizeof_OatHeader + len (image_file_location E) in
    let o2 := o1 + OatDexFiles_SizeOf (map (new_OatDexFile exact) (dex_files E)) in
    let o4 := o3 + OatClasses_SizeOf (new_OatClasses_all E (dex_files E)) in
    let o5 := RoundUp exact o4 (kPageSize (globals E)) in
    Forall2 same_dex_shape (map (new_OatDexFile exact) (dex_files E)) ds ∧
    dex_layout (dex_files E) o2 (map dex_file_offset_ ds) o3 ∧
    plan_tables exact E rt
    = (o1, o2, o3, o4, o5,
       {| oat_header_ :=
            SetExecutableOffset o5
              (append_checksum (ds ≫= OatDexFile_ranges exact) (new_OatHeader exact E));
          oat_dex_files_ := ds;
          oat_classes_ := new_OatClasses_all E (dex_files E);
          executable_offset_padding_length_ := o5 - o4;
          code_offsets_ := ∅; mapping_table_offsets_ := ∅;
          vmap_table_offsets_ := ∅; gc_map_offsets_ := ∅;
          runtime_methods := rt |}).
Proof.
  unfold plan_tables, InitOatDexFiles, InitDexFiles, InitOatClasses, InitOatCode,
    InitOatHeader.
  rewrite InitOatDexFiles_loop_spec.
  set (w0 := OatWriter_initial exact E rt).
  set (ds0 := map (new_OatDexFile exact) (dex_files E)).
  destruct (InitDexFiles_loop_spec (dex_files E) [] ds0
              (exact (sizeof_OatHeader + len (image_file_location E))
               + OatDexFiles_SizeOf ds0) w0) as (o3 & ds1 & Heq1 & Hsh1 & Hlay).
  { unfold ds0. by rewrite length_map. }
  simpl in Heq1. change (oat_dex_files_ w0 ++ ds0) with ds0. rewrite Heq1.
  destruct (InitOatClasses_loop_spec E (dex_files E) [] ds1 [] (new_OatHeader exact E)
              o3 w0) as (ds2 & Heq2 & Hsh2 & Hoff2).
  { apply Forall2_length in Hsh1. unfold ds0 in Hsh1. rewrite length_map in Hsh1. done. }
  simpl in Heq2.
  change (with_dex_files (λ _, ds1) w0)
    with (with_header (λ _, new_OatHeader exact E)
            (with_classes (λ _, []) (with_dex_files (λ _, ds1) w0))).
  rewrite Heq2.
  exists ds2, o3. simpl.
  split; [by eapply same_dex_shape_trans|].
  split; [by rewrite Hoff2|].
  reflexivity.
Qed.

Lemma OatWriter_new_exact_inv E rt L w :
  OatWriter_new exact E rt = Some (L, w) →
  ∃ ds o3 w5 n',
    let o1 := sizeof_OatHeader + len (image_file_location E) in
    let o2 := o1 + OatDexFiles_SizeOf (map (new_OatDexFile exact) (dex_files E)) in
    let o4 := o3 + OatClasses_SizeOf (new_OatClasses_all E (dex_files E)) in
    let o5 := RoundUp exact o4 (kPageSize (globals E)) in
    Forall2 same_dex_shape (map (new_OatDexFile exact) (dex_files E)) ds ∧
    dex_layout (dex_files E) o2 (map dex_file_offset_ ds) o3 ∧
    plan_tables exact E rt = (o1, o2, o3, o4, o5, w5) ∧
    w5 = {| oat_header_ :=
              SetExecutableOffset o5
                (append_checksum (ds ≫= OatDexFile_ranges exact) (new_OatHeader exact E));
            oat_dex_files_ := ds;
            oat_classes_ := new_OatClasses_all E (dex_files E);
            executable_offset_padding_length_ := o5 - o4;
            code_offsets_ := ∅; mapping_table_offsets_ := ∅;
            vmap_table_offsets_ := ∅; gc_map_offsets_ := ∅;
            runtime_methods := rt |} ∧
    InitOatCodeDexFiles_loop exact E (dex_files E) o5 0 w5 = Some (L, n', w).
Proof.
  rewrite OatWriter_new_tables.
  destruct (plan_tables_exact E rt) as (ds & o3 & Hsh & Hlay & Heq). simpl in *.
  rewrite Heq. simpl. unfold InitOatCodeDexFiles.
  destruct (InitOatCodeDexFiles_loop _ _ _ _ _ _) as [[[L' n'] w']|] eqn:Hcode; [|done].
  simpl. case_decide; [|done]. intros [= <- <-].
  exists ds, o3, (plan_tables exact E rt).2, n'. rewrite Heq. simpl.
  split; [done|]. split; [done|]. split; [reflexivity|]. split; [reflexivity|]. exact Hcode.
Qed.

(** *** The writing pass against the plan *)

Lemma tracks_Write_step out (r : step unit) (k : OutputStream → step bool) o1 ws1 o2 ws2 :
  tracks out r () o1 ws1 →
  (∀ out1, stream_inv out1 → position out1 = o1 →
           tracks out1 (reported Z_of_bool (k out1)) true o2 ws2) →
  tracks out
    (reported Z_of_bool
       match r with
       | Fail out => Done false out
       | Abort out => Abort out
       | Done _ out => k out
       end) true o2 (ws1 ++ ws2).
Proof.
  intros Hr Hk. destruct r as [[] out1|out1|out1]; simpl.
  - by apply (tracks_bind out (Done () out1) (λ _ o, reported Z_of_bool (k o)) () o1 ws1).
  - destruct Hr as (Hinv & Hfaith & evs & Hev & Hr). simpl in *.
    split; [done|]. split; [|by eauto].
    intros Hb. by destruct (Hfaith Hb) as [_ ?].
  - by destruct Hr as (_ & _ & ? & _ & ?).
Qed.

Lemma OatDexFile_SizeOf_nonneg d :
  0 <= dex_file_location_size_ d → 0 <= OatDexFile_SizeOf exact d.
Proof.
  intros. unfold OatDexFile_SizeOf, exact, sizeof_uint32.
  pose proof (len_nonneg (methods_offsets_ d)). lia.
Qed.

Lemma dex_records_ok dfs ds :
  Forall2 same_dex_shape (map (new_OatDexFile exact) dfs) ds →
  OatDexFiles_SizeOf ds = OatDexFiles_SizeOf (map (new_OatDexFile exact) dfs) ∧
  0 <= OatDexFiles_SizeOf ds ∧
  (OatDexFiles_SizeOf ds < 2 ^ 32 → Forall dex_record_ok ds).
Proof.
  revert ds. induction dfs as [|d dfs IH]; intros ds H; simpl in *.
  - invert H. unfold OatDexFiles_SizeOf. simpl. split; [done|]. split; [lia|]. done.
  - invert H. destruct (IH _ H4) as (IH1 & IH2 & IH3).
    destruct H2 as (Hs & Hd & Hc & Hl). simpl in *.
    assert (OatDexFile_SizeOf exact y = OatDexFile_SizeOf exact (new_OatDexFile exact d))
      as Heq.
    { unfold OatDexFile_SizeOf, exact, len in *. simpl. rewrite Hs, Hl. done. }
    pose proof (OatDexFile_SizeOf_nonneg y) as Hn.
    rewrite Hs in Hn. unfold exact at 1 in Hn. specialize (Hn (len_nonneg _)).
    unfold OatDexFiles_SizeOf in *. simpl.
    split; [lia|]. split; [lia|]. intros Hb.
    constructor; [|apply IH3; lia].
    split; [by rewrite Hs, Hd|].
    unfold OatDexFile_SizeOf, exact, sizeof_uint32 in *.
    pose proof (len_nonneg (dex_file_location_data_ y)).
    rewrite Hs in *. unfold exact in *. pose proof (len_nonneg (location d)). lia.
Qed.

Lemma class_records_ok cs cs' :
  Forall2 same_shape cs cs' →
  OatClasses_SizeOf cs' = OatClasses_SizeOf cs ∧
  0 <= OatClasses_SizeOf cs' ∧
  (OatClasses_SizeOf cs' < 2 ^ 32 → Forall class_record_ok cs').
Proof.
  induction 1 as [|c c' cs cs' [Hs Hl] _ (IH1 & IH2 & IH3)].
  - unfold OatClasses_SizeOf. simpl. split; [done|]. split; [lia|]. done.
  - assert (OatClass_SizeOf exact c' = OatClass_SizeOf exact c) as Heq.
    { unfold OatClass_SizeOf, exact, len. by rewrite Hl. }
    pose proof (len_nonneg (method_offsets_ c')) as Hn.
    unfold OatClasses_SizeOf in *. simpl.
    unfold OatClass_SizeOf, exact, sizeof_uint32, sizeof_OatMethodOffsets in *.
    split; [lia|]. split; [lia|]. intros Hb.
    constructor; [|apply IH3; lia].
    unfold class_record_ok, sizeof_OatMethodOffsets. lia.
Qed.

Lemma len_OatHeader_bytes h : len (OatHeader_bytes h) = sizeof_OatHeader.
Proof. done. Qed.

Lemma tracks_WriteCode w out o4 o5 :
  stream_inv out → position out = o4 → 0 <= o4 → o4 <= o5 < 2 ^ 31 → o5 ≠ 0 →
  hdr_executable_offset (oat_header_ w) = o5 →
  executable_offset_padding_length_ w = o5 - o4 →
  tracks out (reported id (WriteCode w out)) o5 o5 [].
Proof.
  intros Hinv Hpos H4 H5 Hne He Hp. unfold WriteCode, GetExecutableOffset.
  rewrite He, Hp.
  pose proof (tracks_seek (o5 - o4) kSeekCurrent o5 out Hinv ltac:(lia32) ltac:(lia32)
                ltac:(simpl; lia)) as Hs.
  destruct (seek (o5 - o4) kSeekCurrent o5 out) as [[] out1|out1|out1]; simpl.
  - unfold id. rewrite decide_False by done.
    destruct Hs as (? & Hf & evs & ? & ? & ? & ? & ?).
    split; [done|]. split.
    { intros Hb. destruct (Hf Hb) as [? _]. done. }
    exists evs. done.
  - destruct Hs as (? & Hf & evs & ? & ?). simpl in *.
    split; [done|]. split; [|by exists evs].
    intros Hb. by destruct (Hf Hb) as [_ ?].
  - by destruct Hs as (_ & _ & ? & _ & ?).
Qed.

Lemma Write_tracks E rt L w :
  admissible E → OatWriter_new exact E rt = Some (L, w) → L < 2 ^ 31 →
  ∃ ws_code cks_code,
    hdr_checksum_ranges (oat_header_ w)
    = (oat_dex_files_ w ≫= OatDexFile_ranges exact) ++ cks_code ∧
    covers ws_code cks_code ∧
    ∀ out, stream_inv out → position out = 0 →
      tracks out (reported Z_of_bool (Write E w out)) true L
        ([(OatHeaderStruct, OatHeader_bytes (oat_header_ w));
          (ImageFileLocation, image_file_location E)]
         ++ (oat_dex_files_ w ≫= OatDexFile_ranges exact)
         ++ map (λ d, (DexFilePayload, dex_image d)) (dex_files E)
         ++ (oat_classes_ w ≫= OatClass_ranges exact)
         ++ ws_code).
Proof.
  intros Hadm Hnew HL.
  destruct (OatWriter_new_exact_inv _ _ _ _ Hnew)
    as (ds & o3 & w5 & n' & Hsh & Hlay & Htab & Hw5 & Hcode).
  simpl in *.
  set (o1 := sizeof_OatHeader + len (image_file_location E)) in *.
  set (o2 := o1 + OatDexFiles_SizeOf (map (new_OatDexFile exact) (dex_files E))) in *.
  set (o4 := o3 + OatClasses_SizeOf (new_OatClasses_all E (dex_files E))) in *.
  set (o5 := RoundUp exact o4 (kPageSize (globals E))) in *.
  pose proof Hadm as (Hg & Hm & Hdw).
  pose proof (len_nonneg (image_file_location E)) as Hloc.
  destruct (dex_records_ok _ _ Hsh) as (Hsz & Hsz0 & Hdok).
  pose proof (dex_layout_le _ _ _ _ Hlay) as H23.
  destruct (class_records_ok _ _ (same_shape_refl (new_OatClasses_all E (dex_files E))))
    as (_ & Hcz0 & _).
  destruct Hg as (Hpage & _).
  pose proof (RoundUp_exact o4 (kPageSize (globals E)) ltac:(lia)) as [H45 _].
  fold o5 in H45. unfold sizeof_OatHeader in *.
  assert (Inv o5 w5) as HI.
  { subst w5. split; [lia|]. simpl. repeat split; apply map_Forall_empty. }
  assert (length ds = length (dex_files E)) as Hlen.
  { apply Forall2_length in Hsh. by rewrite length_map in Hsh. }
  eapply (lockstep_dex_files_loop _ _ ds 0%nat) in Hcode
    as (cks & P & _ & _ & G); [|done|done|done|done|done].
  pose proof (planned_le _ _ _ _ _ P) as H5L.
  destruct P as (_ & _ & X & Hck).
  destruct (G w (extends_refl w) (unchanged_below_refl _ _ _) HL) as (ws & V & T).
  pose proof X as (_ & _ & _ & _ & Hds & Hexe & Hpad & Hcls).
  assert (oat_dex_files_ w = ds) as Hds' by (rewrite Hds; by subst w5).
  assert (hdr_executable_offset (oat_header_ w) = o5) as Hexe'
    by (rewrite Hexe; by subst w5).
  assert (executable_offset_padding_length_ w = o5 - o4) as Hpad'
    by (rewrite Hpad; by subst w5).
  assert (Forall2 same_shape (new_OatClasses_all E (dex_files E)) (oat_classes_ w)) as Hcls'
    by (by subst w5).
  destruct (class_records_ok _ _ Hcls') as (Hcsz & _ & Hcok).
  exists ws, cks. split.
  { rewrite Hck, Hds'. subst w5. simpl. f_equal.
    unfold append_checksum.
    destruct (hdr_ranges_fold (ds ≫= OatDexFile_ranges exact) (new_OatHeader exact E))
      as [-> _]. done. }
  split; [done|].
  intros out Hinv Hpos. unfold Write.
  apply (tracks_Write_step out _ _ sizeof_OatHeader [_] L (_ :: _)).
  { pose proof (tracks_write OatHeaderStruct (OatHeader_bytes (oat_header_ w)) out Hinv)
      as Hw. by rewrite Hpos in Hw. }
  intros out1 Hinv1 Hpos1.
  rewrite wrap32_small by lia32. rewrite range_all by done.
  apply (tracks_Write_step out1 _ _ o1 [_] L).
  { pose proof (tracks_write ImageFileLocation (image_file_location E) out1 Hinv1) as Hw.
    by rewrite Hpos1 in Hw. }
  intros out2 Hinv2 Hpos2.
  rewrite app_assoc, app_assoc.
  apply (tracks_Write_step out2 _ _ o4 _ L).
  { unfold WriteTables. rewrite <- app_assoc.
    eapply tracks_bind.
    { apply tracks_WriteTables_oat_dex_files; [|done]. rewrite Hds'. apply Hdok. lia32. }
    intros out3 Hinv3 Hpos3. rewrite Hds', Hsz, Hpos2 in Hpos3. fold o2 in Hpos3.
    eapply tracks_bind.
    { rewrite Hds'. eapply (tracks_WriteTables_dex_files _ _ _ _ o2 o3);
        [done|done|lia|lia32|done|done]. }
    intros out4 Hinv4 Hpos4.
    pose proof (tracks_WriteTables_oat_classes (oat_classes_ w) out4) as Hw.
    rewrite Hpos4, Hcsz in Hw. apply Hw; [|done]. apply Hcok. lia32. }
  intros out5 Hinv5 Hpos5.
  apply (tracks_reported_bind id Z_of_bool out5 _ _ o5 o5 [] true L ws).
  { apply (tracks_WriteCode w out5 o4 o5); try done; lia32. }
  { intros a out6 Ha. unfold id in Ha. subst a. by rewrite decide_True by done. }
  intros out6 Hinv6 Hpos6.
  rewrite decide_False by lia.
  replace ws with (ws ++ []) by apply app_nil_r.
  apply (tracks_reported_bind id Z_of_bool out6 _ _ L L ws true L []).
  { unfold WriteCodeDexFiles. rewrite Hds'. by apply T. }
  { intros a out7 Ha. unfold id in Ha. subst a. by rewrite decide_True by done. }
  intros out7 Hinv7 Hpos7. rewrite decide_False by lia. simpl.
  by apply tracks_done.
Qed.

(** *** The program computes what the reference run computes

    As long as the planned file is shorter than 2^31 bytes, no 32-bit
    computation of the planning pass wraps around. *)

Lemma bridge_code_blob E align_isa delta_isa code what o w rec o' w' :
  admissible E → 0 <= o →
  plan_code_blob exact E align_isa delta_isa code what o w = Some (rec, o', w') →
  o' < 2 ^ 31 →
  plan_code_blob wrap32 E align_isa delta_isa code what o w = Some (rec, o', w').
Proof.
  intros (Hg & Hm & _) Ho. unfold plan_code_blob, InitOatCodeMethod_deduplicate, exact.
  pose proof (AlignCode_exact (globals E) o align_isa Hg) as Ha.
  pose proof (CodeAlignment_pos (globals E) align_isa Hg) as Hal.
  pose proof (CodeDelta_bound delta_isa) as Hd.
  pose proof (len_nonneg (code_bytes (memory E) code)) as Hl.
  destruct (Hm code) as (Hl8 & _). unfold code_bytes in *.
  unfold exact in Ha.
  set (a := AlignCode (λ z : Z, z) (globals E) o align_isa) in *.
  destruct (decide (len (vec8 (memory E) code) * 1 = 0)) as [|Hsz]; [done|].
  intros Hrun Ho'.
  assert (a <= o') as Hao.
  { destruct (code_offsets_ w !! code); injection Hrun as <- <- <-; unfold sizeof_uint32; lia. }
  assert (AlignCode wrap32 (globals E) o align_isa = a) as ->.
  { unfold AlignCode. rewrite RoundUp_wrap32; [done|lia|lia|lia32]. }
  rewrite (wrap32_small (_ * 1)) by lia32.
  rewrite decide_False by done.
  destruct (code_offsets_ w !! code) as [stored|]; [done|].
  injection Hrun as <- <- <-.
  rewrite (wrap32_small (a + sizeof_uint32 + _)) by lia32.
  rewrite (wrap32_small (a + sizeof_uint32)) by lia32.
  rewrite wrap32_small by lia32. done.
Qed.

Lemma bridge_mapping_table E cm o w rec o' w' :
  admissible E → 0 <= o →
  InitOatCodeMethod_mapping_table exact E cm o w = (rec, o', w') →
  o' < 2 ^ 31 →
  InitOatCodeMethod_mapping_table wrap32 E cm o w = (rec, o', w').
Proof.
  intros (Hg & Hm & _) Ho. unfold InitOatCodeMethod_mapping_table, exact.
  destruct (Hm (cm_mapping_table cm)) as (Hl8 & Hl16 & Hl32).
  pose proof (len_nonneg (vec32 (memory E) (cm_mapping_table cm))) as Hl.
  intros Hrun Ho'.
  rewrite (wrap32_small (_ * 4)) by lia32.
  destruct (mapping_table_offsets_ w !! cm_mapping_table cm) as [stored|]; [done|].
  injection Hrun as <- <- <-.
  rewrite wrap32_small by lia32. done.
Qed.

Lemma bridge_vmap_table E cm o w rec o' w' :
  admissible E → 0 <= o →
  InitOatCodeMethod_vmap_table exact E cm o w = (rec, o', w') →
  o' < 2 ^ 31 →
  InitOatCodeMethod_vmap_table wrap32 E cm o w = (rec, o', w').
Proof.
  intros (Hg & Hm & _) Ho. unfold InitOatCodeMethod_vmap_table, exact.
  destruct (Hm (cm_vmap_table cm)) as (Hl8 & Hl16 & Hl32).
  pose proof (len_nonneg (vec16 (memory E) (cm_vmap_table cm))) as Hl.
  intros Hrun Ho'.
  rewrite (wrap32_small (_ * 2)) by lia32.
  destruct (vmap_table_offsets_ w !! cm_vmap_table cm) as [stored|]; [done|].
  injection Hrun as <- <- <-.
  rewrite wrap32_small by lia32. done.
Qed.

Lemma bridge_gc_map E cm o w rec o' w' :
  admissible E → 0 <= o →
  InitOatCodeMethod_gc_map exact E cm o w = (rec, o', w') →
  o' < 2 ^ 31 →
  InitOatCodeMethod_gc_map wrap32 E cm o w = (rec, o', w').
Proof.
  intros (Hg & Hm & _) Ho. unfold InitOatCodeMethod_gc_map, exact.
  destruct (Hm (cm_native_gc_map cm)) as (Hl8 & Hl16 & Hl32).
  pose proof (len_nonneg (vec8 (memory E) (cm_native_gc_map cm))) as Hl.
  intros Hrun Ho'.
  rewrite (wrap32_small (_ * 1)) by lia32.
  destruct (gc_map_offsets_ w !! cm_native_gc_map cm) as [stored|]; [done|].
  injection Hrun as <- <- <-.
  rewrite wrap32_small by lia32. done.
Qed.

Lemma bridge_compiled E idx dex o w mo o' w' :
  admissible E → Inv o w →
  InitOatCodeMethod_compiled exact E idx dex o w = Some (mo, o', w') →
  o' < 2 ^ 31 →
  InitOatCodeMethod_compiled wrap32 E idx dex o w = Some (mo, o', w').
Proof.
  intros Hadm HI. unfold InitOatCodeMethod_compiled.
  destruct (GetCompiledMethod (compiler E) (dex_addr dex) idx) as [cm|]; [|done].
  rewrite !InitOatCodeMethod_code_eq.
  destruct (plan_code_blob exact _ _ _ _ _ _ _) as [[[r1 o1] w1]|] eqn:H1; [|done]. simpl.
  destruct (InitOatCodeMethod_mapping_table exact _ _ _ _) as [[r2 o2] w2] eqn:H2.
  destruct (InitOatCodeMethod_vmap_table exact _ _ _ _) as [[r3 o3] w3] eqn:H3.
  destruct (InitOatCodeMethod_gc_map exact _ _ _ _) as [[r4 o4] w4] eqn:H4.
  intros [= <- <- <-] Ho'.
  pose proof H1 as H1'. pose proof H2 as H2'. pose proof H3 as H3'. pose proof H4 as H4'.
  eapply (lockstep_code_blob _ _ _ _ MethodCodeSize) in H1' as (cks1 & P1 & _); [|done..].
  eapply lockstep_mapping_table in H2' as (cks2 & P2 & _); [|done|by eapply planned_Inv].
  eapply lockstep_vmap_table in H3' as (cks3 & P3 & _); [|done|by eapply planned_Inv].
  eapply lockstep_gc_map in H4' as (cks4 & P4 & _); [|done|by eapply planned_Inv].
  pose proof (planned_le _ _ _ _ _ P1). pose proof (planned_le _ _ _ _ _ P2).
  pose proof (planned_le _ _ _ _ _ P3). pose proof (planned_le _ _ _ _ _ P4).
  pose proof (Inv_pos _ _ HI).
  erewrite bridge_code_blob; [|done|lia|done|lia]. simpl.
  erewrite bridge_mapping_table; [|done|lia|done|lia].
  erewrite bridge_vmap_table; [|done|lia|done|lia].
  erewrite bridge_gc_map; [|done|lia|done|lia].
  done.
Qed.

Lemma bridge_method E o n k type idx dex w o' w' :
  admissible E → Inv o w →
  InitOatCodeMethod exact E o n k type idx dex w = Some (o', w') →
  o' < 2 ^ 31 →
  InitOatCodeMethod wrap32 E o n k type idx dex w = Some (o', w').
Proof.
  intros Hadm HI Hrun Ho'.
  unfold InitOatCodeMethod in *.
  destruct (InitOatCodeMethod_compiled exact _ _ _ _ _) as [[[mo1 o1] w1]|] eqn:H1; [|done].
  simpl in *.
  pose proof H1 as H1'.
  eapply lockstep_compiled in H1' as (cks1 & P1 & _); [|done..].
  set (stub := FindInvokeStub (compiler E) (bool_decide (type = kStatic))
                 (GetMethodShorty dex idx)) in *.
  destruct (match stub with
            | Some s => InitOatCodeMethod_invoke_stub exact E s o1 w1
            | None => Some (0, o1, w1)
            end) as [[[r2 o2] w2]|] eqn:H2; [|done]. simpl in *.
  assert (o1 <= o2 ∧
          match stub with
          | Some s => InitOatCodeMethod_invoke_stub wrap32 E s o1 w1
          | None => Some (0, o1, w1)
          end = Some (r2, o2, w2) ∨ 2 ^ 31 <= o2) as Hstub.
  { destruct (decide (o2 < 2 ^ 31)); [left|right; lia].
    destruct stub as [s|]; [|injection H2 as <- <- <-; split; [lia|done]].
    rewrite InitOatCodeMethod_invoke_stub_eq in *.
    pose proof H2 as H2'.
    eapply (lockstep_code_blob _ _ _ _ InvokeStubCodeSize) in H2' as (cks2 & P2 & _);
      [|done|by eapply planned_Inv|done..].
    split; [by eapply planned_le|].
    apply bridge_code_blob; [done| |done|done].
    apply planned_Inv, Inv_pos in P1. lia. }
  assert (o' = o2) as ->.
  { unfold InitOatCodeMethod_image in Hrun.
    destruct (IsImage (compiler E)); [|by injection Hrun as <- <-].
    destruct (ResolveMethod E _ _ _) as [a|]; [|done]. simpl in Hrun.
    destruct (runtime_methods _ !! a) as [m|]; [|done]. simpl in Hrun.
    by injection Hrun as <- <-. }
  destruct Hstub as [[H12 Hstub]|]; [|lia].
  erewrite bridge_compiled; [|done|done|done|lia]. simpl.
  rewrite Hstub. simpl. exact Hrun.
Qed.

Lemma bridge_methods E ms : ∀ o n k dex w o' k' w',
  admissible E → Inv o w →
  (∃ c, oat_classes_ w !! n = Some c ∧ (k + length ms ≤ length (method_offsets_ c))%nat) →
  InitOatCodeClassDef_methods exact E ms o n k dex w = Some (o', k', w') →
  o <= o' ∧ Inv o' w' ∧ extends w w' ∧ k' = (k + length ms)%nat ∧
  (o' < 2 ^ 31 →
   InitOatCodeClassDef_methods wrap32 E ms o n k dex w = Some (o', k', w')).
Proof.
  induction ms as [|m ms IH]; intros o n k dex w o' k' w' Hadm HI Hslots; simpl.
  { intros [= <- <- <-]. split; [lia|]. split; [done|]. split; [apply extends_refl|].
    split; [lia|done]. }
  destruct (InitOatCodeMethod exact _ _ _ _ _ _ _ _) as [[o1 w1]|] eqn:H1; [|done]. simpl.
  intros Hrest.
  pose proof H1 as H1'.
  eapply lockstep_method in H1' as (cks1 & mo & P1 & _);
    [|done|done|by eapply slots_is_Some; [|done]; simpl; lia].
  eapply IH in Hrest as (Hle & HI' & Hext & -> & Hreal); [|done|by eapply planned_Inv|].
  2:{ eapply extends_slots; [by eapply planned_extends|].
      destruct Hslots as (c & ? & ?). exists c. split; [done|simpl in *; lia]. }
  pose proof (planned_le _ _ _ _ _ P1).
  split; [lia|]. split; [done|].
  split; [eapply extends_trans; [by eapply planned_extends|done]|].
  split; [simpl; lia|].
  intros Ho'. erewrite bridge_method; [|done|done|done|lia]. simpl. by apply Hreal.
Qed.

Lemma extends_class_records_ok w w' :
  extends w w' → Forall class_record_ok (oat_classes_ w) →
  Forall class_record_ok (oat_classes_ w').
Proof.
  intros (_ & _ & _ & _ & _ & _ & _ & Hs) Hok.
  induction Hs as [|c c' cs cs' [_ Hl] _ IH]; [done|].
  invert Hok. constructor; [|by apply IH].
  unfold class_record_ok, len in *. by rewrite <- Hl.
Qed.

Lemma bridge_class_def E o n dex cd w o' w' :
  admissible E → Inv o w → Forall class_record_ok (oat_classes_ w) →
  InitOatCodeClassDef exact E o n dex cd w = Some (o', w') →
  o <= o' ∧ Inv o' w' ∧ extends w w' ∧
  (o' < 2 ^ 31 → InitOatCodeClassDef wrap32 E o n dex cd w = Some (o', w')).
Proof.
  intros Hadm HI Hok. unfold InitOatCodeClassDef.
  destruct (class_data cd) as [cdata|].
  2:{ intros [= <- <-]. split; [lia|]. split; [done|]. split; [apply extends_refl|done]. }
  destruct (oat_classes_ w !! n) as [c|] eqn:Hc; [|done]. simpl.
  unfold exact at 1. case_decide as Hlen; [|done].
  destruct (InitOatCodeClassDef_methods exact _ (direct_methods cdata) _ _ _ _ _)
    as [[[o1 k1] w1]|] eqn:H1; [|done]. simpl.
  destruct (InitOatCodeClassDef_methods exact _ (virtual_methods cdata) _ _ _ _ _)
    as [[[o2 k2] w2]|] eqn:H2; [|done]. simpl.
  intros [= <- <-].
  assert (length (method_offsets_ c)
          = (length (direct_methods cdata) + length (virtual_methods cdata))%nat) as Hlen'.
  { unfold len in Hlen. lia. }
  eapply bridge_methods in H1 as (Hle1 & HI1 & X1 & -> & R1); [|done|done|].
  2:{ exists c. split; [done|lia]. }
  eapply bridge_methods in H2 as (Hle2 & HI2 & X2 & -> & R2); [|done|done|].
  2:{ eapply extends_slots; [done|]. exists c. split; [done|lia]. }
  split; [lia|]. split; [done|]. split; [by eapply extends_trans|].
  intros Ho'.
  assert (class_record_ok c) as Hcok by (by eapply Forall_lookup_1 in Hok).
  rewrite wrap32_small.
  2:{ unfold class_record_ok, sizeof_OatMethodOffsets in Hcok. rewrite <- Hlen.
      pose proof (len_nonneg (method_offsets_ c)). lia32. }
  rewrite decide_True by done.
  rewrite R1 by lia. simpl in *. rewrite R2 by lia. done.
Qed.

Lemma bridge_OatClass_UpdateChecksum_at n w :
  Forall class_record_ok (oat_classes_ w) →
  OatClass_UpdateChecksum_at wrap32 n w = OatClass_UpdateChecksum_at exact n w.
Proof.
  intros Hok. unfold OatClass_UpdateChecksum_at.
  destruct (oat_classes_ w !! n) as [c|] eqn:Hc; [|done].
  unfold OatClass_UpdateChecksum. rewrite OatClass_ranges_wrap32; [done|].
  by eapply Forall_lookup_1 in Hok.
Qed.

Lemma bridge_dex_file_loop E cds : ∀ o n dex w o' n' w',
  admissible E → Inv o w → Forall class_record_ok (oat_classes_ w) →
  InitOatCodeDexFile_loop exact E cds o n dex w = Some (o', n', w') →
  o <= o' ∧ Inv o' w' ∧ extends w w' ∧
  (o' < 2 ^ 31 → InitOatCodeDexFile_loop wrap32 E cds o n dex w = Some (o', n', w')).
Proof.
  induction cds as [|cd cds IH]; intros o n dex w o' n' w' Hadm HI Hok; simpl.
  { intros [= <- <- <-]. split; [lia|]. split; [done|]. split; [apply extends_refl|done]. }
  destruct (InitOatCodeClassDef exact _ _ _ _ _ _) as [[o1 w1]|] eqn:H1; [|done]. simpl.
  intros Hrest.
  eapply bridge_class_def in H1 as (Hle1 & HI1 & X1 & R1); [|done..].
  destruct (planned_OatClass_UpdateChecksum_at o1 w1 n HI1) as (cksc & Pc & _).
  pose proof (extends_class_records_ok _ _ X1 Hok) as Hok1.
  eapply IH in Hrest as (Hle2 & HI2 & X2 & R2); [|done|by eapply planned_Inv|].
  2:{ eapply extends_class_records_ok; [by eapply planned_extends|done]. }
  split; [lia|]. split; [done|].
  split.
  { eapply extends_trans; [done|]. eapply extends_trans; [by eapply planned_extends|done]. }
  intros Ho'. rewrite R1 by lia. simpl.
  rewrite bridge_OatClass_UpdateChecksum_at by done. by apply R2.
Qed.

Lemma bridge_dex_files_loop E dfs : ∀ o n w o' n' w',
  admissible E → Inv o w → Forall class_record_ok (oat_classes_ w) →
  InitOatCodeDexFiles_loop exact E dfs o n w = Some (o', n', w') →
  o <= o' ∧ Inv o' w' ∧ extends w w' ∧
  (o' < 2 ^ 31 → InitOatCodeDexFiles_loop wrap32 E dfs o n w = Some (o', n', w')).
Proof.
  induction dfs as [|dex dfs IH]; intros o n w o' n' w' Hadm HI Hok; simpl.
  { intros [= <- <- <-]. split; [lia|]. split; [done|]. split; [apply extends_refl|done]. }
  unfold InitOatCodeDexFile.
  destruct (InitOatCodeDexFile_loop exact _ _ _ _ _ _) as [[[o1 n1] w1]|] eqn:H1; [|done].
  simpl. intros Hrest.
  eapply bridge_dex_file_loop in H1 as (Hle1 & HI1 & X1 & R1); [|done..].
  eapply IH in Hrest as (Hle2 & HI2 & X2 & R2); [|done|done|].
  2:{ by eapply extends_class_records_ok. }
  split; [lia|]. split; [done|]. split; [by eapply extends_trans|].
  intros Ho'. rewrite R1 by lia. simpl. by apply R2.
Qed.

Lemma bridge_new_OatDexFile d :
  len (location d) < 2 ^ 32 → new_OatDexFile wrap32 d = new_OatDexFile exact d.
Proof.
  intros. unfold new_OatDexFile. rewrite wrap32_small; [done|].
  pose proof (len_nonneg (location d)). lia.
Qed.

Lemma bridge_InitOatDexFiles_loop dfs : ∀ o w,
  0 <= o → o + OatDexFiles_SizeOf (map (new_OatDexFile exact) dfs) < 2 ^ 32 →
  InitOatDexFiles_loop wrap32 dfs o w = InitOatDexFiles_loop exact dfs o w.
Proof.
  induction dfs as [|d dfs IH]; intros o w Ho Hb; simpl; [done|].
  destruct (dex_records_ok dfs _ (same_dex_shape_refl _)) as (_ & Hn & _).
  change (OatDexFiles_SizeOf (map (new_OatDexFile exact) (d :: dfs)))
    with (OatDexFile_SizeOf exact (new_OatDexFile exact d)
          + OatDexFiles_SizeOf (map (new_OatDexFile exact) dfs)) in Hb.
  pose proof (len_nonneg (location d)) as Hl.
  pose proof (len_nonneg (class_defs d)) as Hc.
  assert (OatDexFile_SizeOf exact (new_OatDexFile exact d)
          = 12 + len (location d) + 4 * len (class_defs d)) as Hs.
  { unfold OatDexFile_SizeOf, new_OatDexFile, exact, sizeof_uint32, len.
    cbn [dex_file_location_size_ methods_offsets_]. rewrite length_replicate. lia. }
  rewrite Hs in *.
  rewrite bridge_new_OatDexFile by lia32.
  assert (OatDexFile_SizeOf wrap32 (new_OatDexFile exact d)
          = 12 + len (location d) + 4 * len (class_defs d)) as ->.
  { unfold OatDexFile_SizeOf, new_OatDexFile, exact, sizeof_uint32, len in *.
    cbn [dex_file_location_size_ methods_offsets_]. rewrite length_replicate.
    rewrite wrap32_small by lia32. lia. }
  rewrite wrap32_small by lia32.
  change (exact (o + (12 + len (location d) + 4 * len (class_defs d))))
    with (o + (12 + len (location d) + 4 * len (class_defs d))).
  apply IH; lia.
Qed.

Lemma InitDexFiles_loop_le dfs : ∀ i o w, o <= (InitDexFiles_loop exact dfs i o w).1.
Proof.
  induction dfs as [|d dfs IH]; intros i o w; simpl; [lia|].
  etrans; [|apply IH]. pose proof (RoundUp_exact o 4 ltac:(lia)).
  pose proof (len_nonneg (dex_image d)). unfold exact at 1, file_size_. lia.
Qed.

Lemma bridge_InitDexFiles_loop dfs : ∀ i o w,
  0 <= o → (InitDexFiles_loop exact dfs i o w).1 < 2 ^ 31 →
  InitDexFiles_loop wrap32 dfs i o w = InitDexFiles_loop exact dfs i o w.
Proof.
  induction dfs as [|d dfs IH]; intros i o w Ho Hb; simpl in *; [done|].
  pose proof (RoundUp_exact o 4 ltac:(lia)) as [Hr _].
  set (a := RoundUp exact o 4) in *.
  change (exact (a + file_size_ d)) with (a + file_size_ d) in *.
  pose proof (InitDexFiles_loop_le dfs (S i) (a + file_size_ d)
                (with_dex_files (alter (set_dex_file_offset a) i) w)) as Hle.
  pose proof (len_nonneg (dex_image d)). unfold file_size_ in *.
  assert (RoundUp wrap32 o 4 = a) as -> by (apply RoundUp_wrap32; lia32).
  rewrite wrap32_small by lia32. apply IH; [lia|done].
Qed.

Lemma OatClass_SizeOf_new st n :
  0 <= n → OatClass_SizeOf exact (new_OatClass st n) = 4 + 32 * n.
Proof.
  intros. unfold OatClass_SizeOf, new_OatClass, exact, sizeof_uint32,
    sizeof_OatMethodOffsets, len. cbn [method_offsets_]. rewrite length_replicate. lia.
Qed.

Lemma num_methods_nonneg cd : 0 <= num_methods exact cd.
Proof.
  unfold num_methods, exact. destruct (class_data cd) as [c|]; [|lia].
  pose proof (len_nonneg (direct_methods c)). pose proof (len_nonneg (virtual_methods c)).
  lia.
Qed.

Lemma OatClasses_SizeOf_new_nonneg E dex cds : ∀ c,
  0 <= OatClasses_SizeOf (new_OatClasses E dex cds c).
Proof.
  induction cds as [|cd cds IH]; intros c; unfold OatClasses_SizeOf in *; simpl; [lia|].
  specialize (IH (S c)). rewrite OatClass_SizeOf_new by apply num_methods_nonneg.
  pose proof (num_methods_nonneg cd). lia.
Qed.

Lemma OatClass_SizeOf_wrap32 c :
  OatClass_SizeOf exact c < 2 ^ 32 → OatClass_SizeOf wrap32 c = OatClass_SizeOf exact c.
Proof.
  unfold OatClass_SizeOf, exact. intros. apply wrap32_small.
  pose proof (len_nonneg (method_offsets_ c)).
  unfold sizeof_OatMethodOffsets in *. lia32.
Qed.

Lemma bridge_InitOatClasses_classes E dex cds : ∀ i c o w,
  0 <= o → o + OatClasses_SizeOf (new_OatClasses E dex cds c) < 2 ^ 32 →
  InitOatClasses_classes wrap32 E dex i cds c o w
  = InitOatClasses_classes exact E dex i cds c o w.
Proof.
  induction cds as [|cd cds IH]; intros i c o w Ho Hb; simpl; [done|].
  change (OatClasses_SizeOf (new_OatClasses E dex (cd :: cds) c))
    with (OatClass_SizeOf exact (new_OatClass (class_status E dex c) (num_methods exact cd))
          + OatClasses_SizeOf (new_OatClasses E dex cds (S c))) in Hb.
  pose proof (OatClasses_SizeOf_new_nonneg E dex cds (S c)) as Hn.
  pose proof (num_methods_nonneg cd) as Hm.
  rewrite OatClass_SizeOf_new in * by done.
  assert (num_methods wrap32 cd = num_methods exact cd) as ->.
  { unfold num_methods in *. destruct (class_data cd); [|done].
    unfold exact in *. apply wrap32_small. lia32. }
  rewrite OatClass_SizeOf_wrap32 by (rewrite OatClass_SizeOf_new by done; lia32).
  rewrite OatClass_SizeOf_new by done.
  rewrite wrap32_small by lia32.
  change (exact (o + (4 + 32 * num_methods exact cd)))
    with (o + (4 + 32 * num_methods exact cd)).
  apply IH; lia.
Qed.

Lemma OatClasses_SizeOf_new_all_nonneg E dfs :
  0 <= OatClasses_SizeOf (new_OatClasses_all E dfs).
Proof.
  induction dfs as [|d dfs IH]; [unfold OatClasses_SizeOf; simpl; lia|].
  change (new_OatClasses_all E (d :: dfs))
    with (new_OatClasses E d (class_defs d) 0 ++ new_OatClasses_all E dfs).
  rewrite OatClasses_SizeOf_app.
  pose proof (OatClasses_SizeOf_new_nonneg E d (class_defs d) 0). lia.
Qed.

Lemma bridge_InitOatClasses_loop E dfs : ∀ pre ds cl h o w,
  length ds = length dfs →
  Forall (λ d, sizeof_uint32 * len (methods_offsets_ d) < 2 ^ 32) ds →
  0 <= o → o + OatClasses_SizeOf (new_OatClasses_all E dfs) < 2 ^ 32 →
  InitOatClasses_loop wrap32 E dfs (length pre) o
    (with_header (λ _, h) (with_classes (λ _, cl) (with_dex_files (λ _, pre ++ ds) w)))
  = InitOatClasses_loop exact E dfs (length pre) o
      (with_header (λ _, h) (with_classes (λ _, cl) (with_dex_files (λ _, pre ++ ds) w))).
Proof.
  induction dfs as [|d dfs IH]; intros pre ds cl h o w Hlen Hok Ho Hb; simpl; [done|].
  destruct ds as [|x ds]; [done|]. simpl in Hlen. invert Hok.
  change (new_OatClasses_all E (d :: dfs))
    with (new_OatClasses E d (class_defs d) 0 ++ new_OatClasses_all E dfs) in Hb.
  rewrite OatClasses_SizeOf_app in Hb.
  pose proof (OatClasses_SizeOf_new_nonneg E d (class_defs d) 0) as Hn1.
  pose proof (OatClasses_SizeOf_new_all_nonneg E dfs) as Hn2.
  rewrite bridge_InitOatClasses_classes by lia.
  destruct (InitOatClasses_classes_spec E d (class_defs d) pre x ds cl 0%nat o
              (with_header (λ _, h) w)) as (x' & Heq & Hsh & Hoff).
  change (with_header (λ _, h) (with_classes (λ _, cl)
            (with_dex_files (λ _, pre ++ x :: ds) w)))
    with (with_classes (λ _, cl) (with_dex_files (λ _, pre ++ x :: ds)
            (with_header (λ _, h) w))).
  rewrite Heq.
  assert (∀ cast, OatDexFile_UpdateChecksum_at cast (length pre)
            (with_classes (λ _, cl ++ new_OatClasses E d (class_defs d) 0)
               (with_dex_files (λ _, pre ++ x' :: ds) (with_header (λ _, h) w)))
          = with_header (λ _, OatDexFile_UpdateChecksum cast x' h)
              (with_classes (λ _, cl ++ new_OatClasses E d (class_defs d) 0)
                 (with_dex_files (λ _, (pre ++ [x']) ++ ds) w))) as Hupd.
  { intros cast. unfold OatDexFile_UpdateChecksum_at. simpl.
    rewrite lookup_app_r by lia. rewrite Nat.sub_diag. simpl.
    by rewrite <- (app_assoc pre [x'] ds). }
  rewrite !Hupd.
  assert (OatDexFile_UpdateChecksum wrap32 x' h = OatDexFile_UpdateChecksum exact x' h) as ->.
  { unfold OatDexFile_UpdateChecksum. rewrite OatDexFile_ranges_wrap32; [done|].
    destruct Hsh as (_ & _ & _ & Hl). unfold len in *. by rewrite Hl. }
  replace (S (length pre)) with (length (pre ++ [x'])) by (rewrite length_app; simpl; lia).
  apply IH; [lia|done|lia|lia].
Qed.

Lemma bridge_OatWriter_new E rt L w :
  admissible E → OatWriter_new exact E rt = Some (L, w) → L < 2 ^ 31 →
  OatWriter_new wrap32 E rt = Some (L, w).
Proof.
  intros Hadm Hnew HL. rewrite <- Hnew. revert Hnew.
  unfold OatWriter_new, InitOatDexFiles, InitDexFiles, InitOatClasses, InitOatCode,
    InitOatCodeDexFiles, InitOatHeader.
  rewrite InitOatDexFiles_loop_spec.
  set (w0 := OatWriter_initial exact E rt).
  set (ds0 := map (new_OatDexFile exact) (dex_files E)).
  set (o1 := exact (sizeof_OatHeader + len (image_file_location E))).
  destruct (InitDexFiles_loop_spec (dex_files E) [] ds0 (o1 + OatDexFiles_SizeOf ds0) w0)
    as (o3 & ds1 & Heq1 & Hsh1 & Hlay).
  { unfold ds0. by rewrite length_map. }
  simpl in Heq1. change (oat_dex_files_ w0 ++ ds0) with ds0. rewrite Heq1.
  assert (length ds1 = length (dex_files E)) as Hlen1.
  { apply Forall2_length in Hsh1. unfold ds0 in Hsh1. rewrite length_map in Hsh1. done. }
  destruct (InitOatClasses_loop_spec E (dex_files E) [] ds1 [] (new_OatHeader exact E)
              o3 w0) as (ds2 & Heq2 & Hsh2 & Hoff2); [done|].
  simpl in Heq2.
  change (with_dex_files (λ _, ds1) w0)
    with (with_header (λ _, new_OatHeader exact E)
            (with_classes (λ _, []) (with_dex_files (λ _, ds1) w0))).
  rewrite Heq2.
  set (o4 := o3 + OatClasses_SizeOf (new_OatClasses_all E (dex_files E))) in *.
  set (o5 := RoundUp exact o4 (kPageSize (globals E))).
  set (w5 := with_padding (exact (o5 - o4)) (with_header (SetExecutableOffset o5) _)).
  destruct (InitOatCodeDexFiles_loop exact E _ _ _ _) as [[[L' n'] w']|] eqn:Hcode; [|done].
  simpl. case_decide; [|done]. intros [= -> ->].
  (* bounds *)
  pose proof Hadm as (Hg & Hm & Hdw). destruct Hg as (Hpage & _).
  pose proof (len_nonneg (image_file_location E)) as Hloc.
  destruct (dex_records_ok _ _ Hsh1) as (Hsz & Hsz0 & Hdok). fold ds0 in Hsz.
  pose proof (dex_layout_le _ _ _ _ Hlay) as H23.
  pose proof (OatClasses_SizeOf_new_all_nonneg E (dex_files E)) as Hcz0.
  pose proof (RoundUp_exact o4 (kPageSize (globals E)) ltac:(lia)) as [H45 _].
  fold o5 in H45.
  assert (o1 = 36 + len (image_file_location E)) as Ho1 by done.
  assert (o4 = o3 + OatClasses_SizeOf (new_OatClasses_all E (dex_files E))) as Ho4 by done.
  clearbody o1 o4.
  assert (Inv o5 w5) as HI.
  { split; [lia|]. simpl. repeat split; apply map_Forall_empty. }
  assert (length ds2 = length (dex_files E)) as Hlen2.
  { apply Forall2_length in Hsh2. lia. }
  pose proof Hcode as Hcode'.
  eapply (lockstep_dex_files_loop _ _ ds2 0%nat) in Hcode'
    as (cks & P & _); [|done|done|done|done|done].
  pose proof (planned_le _ _ _ _ _ P) as H5L.
  assert (Forall class_record_ok (oat_classes_ w5)) as Hcok.
  { simpl. destruct (class_records_ok _ _
      (same_shape_refl (new_OatClasses_all E (dex_files E)))) as (_ & _ & Hc).
    apply Hc. lia32. }
  eapply bridge_dex_files_loop in Hcode as (_ & _ & _ & Hreal); [|done..].
  (* the program, phase by phase *)
  assert (OatWriter_initial wrap32 E rt = w0) as ->.
  { unfold w0, OatWriter_initial, new_OatHeader.
    rewrite wrap32_small by (lia32).
    done. }
  rewrite (wrap32_small (_ + _)) by lia32.
  replace (sizeof_OatHeader + len (image_file_location E)) with o1 by lia32.
  rewrite bridge_InitOatDexFiles_loop; [|lia|fold ds0; lia32].
  rewrite InitOatDexFiles_loop_spec.
  change (oat_dex_files_ w0 ++ map (new_OatDexFile exact) (dex_files E)) with ds0.
  fold ds0.
  rewrite bridge_InitDexFiles_loop; [|lia|].
  2:{ rewrite Heq1. simpl. lia32. }
  rewrite Heq1.
  change (with_dex_files (λ _, ds1) w0)
    with (with_header (λ _, new_OatHeader exact E)
            (with_classes (λ _, []) (with_dex_files (λ _, [] ++ ds1) w0))).
  change 0%nat with (length (@nil OatDexFile)) at 1.
  rewrite bridge_InitOatClasses_loop; [|done| |lia|lia32].
  2:{ destruct (dex_records_ok _ _ Hsh1) as (_ & _ & Hd).
      eapply Forall_impl; [apply Hd; fold ds0 in Hsz; lia32|].
      by intros d [_ ?]. }
  simpl length. simpl app. rewrite Heq2. simpl.
  rewrite RoundUp_wrap32; [|lia|lia|lia32].
  fold o5. rewrite wrap32_small by (lia32).
  match goal with
  | |- context [InitOatCodeDexFiles_loop wrap32 E (dex_files E) o5 0 ?x] =>
      change x with w5
  end.
  rewrite Hreal by done. simpl. rewrite decide_True by done. done.
Qed.

Lemma bridge_plan_tables E rt :
  admissible E → (plan_tables exact E rt).1.2 < 2 ^ 31 →
  plan_tables wrap32 E rt = plan_tables exact E rt.
Proof.
  intros Hadm.
  unfold plan_tables, InitOatDexFiles, InitDexFiles, InitOatClasses, InitOatCode,
    InitOatHeader.
  rewrite InitOatDexFiles_loop_spec.
  set (w0 := OatWriter_initial exact E rt).
  set (ds0 := map (new_OatDexFile exact) (dex_files E)).
  set (o1 := exact (sizeof_OatHeader + len (image_file_location E))).
  destruct (InitDexFiles_loop_spec (dex_files E) [] ds0 (o1 + OatDexFiles_SizeOf ds0) w0)
    as (o3 & ds1 & Heq1 & Hsh1 & Hlay).
  { unfold ds0. by rewrite length_map. }
  simpl in Heq1. change (oat_dex_files_ w0 ++ ds0) with ds0. rewrite Heq1.
  assert (length ds1 = length (dex_files E)) as Hlen1.
  { apply Forall2_length in Hsh1. unfold ds0 in Hsh1. rewrite length_map in Hsh1. done. }
  destruct (InitOatClasses_loop_spec E (dex_files E) [] ds1 [] (new_OatHeader exact E)
              o3 w0) as (ds2 & Heq2 & Hsh2 & Hoff2); [done|].
  simpl in Heq2.
  change (with_dex_files (λ _, ds1) w0)
    with (with_header (λ _, new_OatHeader exact E)
            (with_classes (λ _, []) (with_dex_files (λ _, ds1) w0))).
  rewrite Heq2.
  set (o4 := o3 + OatClasses_SizeOf (new_OatClasses_all E (dex_files E))) in *.
  set (o5 := RoundUp exact o4 (kPageSize (globals E))).
  simpl. intros H5.
  pose proof Hadm as (Hg & Hm & Hdw). destruct Hg as (Hpage & _).
  pose proof (len_nonneg (image_file_location E)) as Hloc.
  destruct (dex_records_ok _ _ Hsh1) as (Hsz & Hsz0 & Hdok). fold ds0 in Hsz.
  pose proof (dex_layout_le _ _ _ _ Hlay) as H23.
  pose proof (OatClasses_SizeOf_new_all_nonneg E (dex_files E)) as Hcz0.
  pose proof (RoundUp_exact o4 (kPageSize (globals E)) ltac:(lia)) as [H45 _].
  fold o5 in H45.
  assert (o1 = 36 + len (image_file_location E)) as Ho1 by done.
  assert (o4 = o3 + OatClasses_SizeOf (new_OatClasses_all E (dex_files E))) as Ho4 by done.
  clearbody o1 o4.
  assert (OatWriter_initial wrap32 E rt = w0) as ->.
  { unfold w0, OatWriter_initial, new_OatHeader. rewrite wrap32_small by lia32. done. }
  rewrite (wrap32_small (_ + _)) by lia32.
  replace (sizeof_OatHeader + len (image_file_location E)) with o1 by lia32.
  rewrite bridge_InitOatDexFiles_loop; [|lia|fold ds0; lia32].
  rewrite InitOatDexFiles_loop_spec.
  change (oat_dex_files_ w0 ++ map (new_OatDexFile exact) (dex_files E)) with ds0.
  fold ds0.
  rewrite bridge_InitDexFiles_loop; [|lia|].
  2:{ rewrite Heq1. simpl. lia32. }
  rewrite Heq1.
  change (with_dex_files (λ _, ds1) w0)
    with (with_header (λ _, new_OatHeader exact E)
            (with_classes (λ _, []) (with_dex_files (λ _, [] ++ ds1) w0))).
  change 0%nat with (length (@nil OatDexFile)) at 1.
  rewrite bridge_InitOatClasses_loop; [|done| |lia|lia32].
  2:{ destruct (dex_records_ok _ _ Hsh1) as (_ & _ & Hd).
      eapply Forall_impl; [apply Hd; fold ds0 in Hsz; lia32|].
      by intros d [_ ?]. }
  simpl length. simpl app. rewrite Heq2. simpl.
  rewrite RoundUp_wrap32; [|lia|lia|lia32].
  fold o5. rewrite wrap32_small by lia32. done.
Qed.

Lemma plans_bounds E rt L w :
  plans E rt L w →
  ∃ o1 o2 o3 o4 o5,
    phase_offsets exact E rt = (o1, o2, o3, o4, o5) ∧
    phase_offsets wrap32 E rt = (o1, o2, o3, o4, o5) ∧
    sizeof_OatHeader <= o1 ∧ o1 <= o2 ∧ o2 <= o3 ∧ o3 <= o4 ∧ o4 <= o5 ∧ o5 <= L.
Proof.
  intros (Hadm & Hnew & HL).
  destruct (OatWriter_new_exact_inv _ _ _ _ Hnew)
    as (ds & o3 & w5 & n' & Hsh & Hlay & Htab & Hw5 & Hcode).
  simpl in *.
  set (o1 := sizeof_OatHeader + len (image_file_location E)) in *.
  set (o2 := o1 + OatDexFiles_SizeOf (map (new_OatDexFile exact) (dex_files E))) in *.
  set (o4 := o3 + OatClasses_SizeOf (new_OatClasses_all E (dex_files E))) in *.
  set (o5 := RoundUp exact o4 (kPageSize (globals E))) in *.
  pose proof Hadm as (Hg & Hm & Hdw).
  pose proof (len_nonneg (image_file_location E)) as Hloc.
  destruct (dex_records_ok _ _ Hsh) as (Hsz & Hsz0 & Hdok).
  pose proof (dex_layout_le _ _ _ _ Hlay) as H23.
  pose proof (OatClasses_SizeOf_new_all_nonneg E (dex_files E)) as Hcz0.
  destruct Hg as (Hpage & _).
  pose proof (RoundUp_exact o4 (kPageSize (globals E)) ltac:(lia)) as [H45 _].
  fold o5 in H45.
  assert (Inv o5 w5) as HI.
  { subst w5. split; [unfold sizeof_OatHeader in *; lia|]. simpl.
    repeat split; apply map_Forall_empty. }
  assert (length ds = length (dex_files E)) as Hlen.
  { apply Forall2_length in Hsh. by rewrite length_map in Hsh. }
  eapply (lockstep_dex_files_loop _ _ ds 0%nat) in Hcode
    as (cks & P & _); [|done|done|done|done|done].
  pose proof (planned_le _ _ _ _ _ P) as H5L.
  exists o1, o2, o3, o4, o5. unfold phase_offsets.
  rewrite bridge_plan_tables; [|done|rewrite Htab; simpl; lia].
  rewrite Htab. simpl. repeat (split; [done|]). split; [subst o1; lia|]. lia.
Qed.

Lemma OatDexFiles_SizeOf_each ds :
  Forall dex_record_ok ds → OatDexFiles_SizeOf ds < 2 ^ 32 →
  Forall (λ d, dex_file_location_size_ d = len (dex_file_location_data_ d) ∧
               OatDexFile_SizeOf exact d < 2 ^ 32) ds.
Proof.
  intros Hok.
  assert (0 <= OatDexFiles_SizeOf ds ∧
          (OatDexFiles_SizeOf ds < 2 ^ 32 →
           Forall (λ d, dex_file_location_size_ d = len (dex_file_location_data_ d) ∧
                        OatDexFile_SizeOf exact d < 2 ^ 32) ds)) as [_ H]; [|done].
  unfold OatDexFiles_SizeOf.
  induction Hok as [|d ds [Hl Hm] Hok [IH0 IH]]; simpl; [done|].
  pose proof (OatDexFile_SizeOf_nonneg d) as Hn. rewrite Hl in Hn.
  specialize (Hn (len_nonneg _)).
  split; [lia|]. intros Hb. constructor; [split; [done|lia]|]. apply IH. lia.
Qed.

Lemma OatClasses_SizeOf_each cs :
  OatClasses_SizeOf cs < 2 ^ 32 → Forall (λ c, OatClass_SizeOf exact c < 2 ^ 32) cs.
Proof.
  assert (0 <= OatClasses_SizeOf cs ∧
          (OatClasses_SizeOf cs < 2 ^ 32 →
           Forall (λ c, OatClass_SizeOf exact c < 2 ^ 32) cs)) as [_ H]; [|done].
  unfold OatClasses_SizeOf.
  induction cs as [|c cs [IH0 IH]]; simpl; [done|].
  pose proof (len_nonneg (method_offsets_ c)).
  assert (0 <= OatClass_SizeOf exact c) as Hc.
  { unfold OatClass_SizeOf, exact, sizeof_uint32, sizeof_OatMethodOffsets in *. lia. }
  split; [lia|]. intros Hb. constructor; [lia|]. apply IH. lia.
Qed.

Lemma Write_phases_placed E rt L w o1 o2 o3 o4 o5 :
  plans E rt L w → phase_offsets exact E rt = (o1, o2, o3, o4, o5) →
  ∀ out, stream_inv out →
    (position out = 0 →
     tracks out (write OatHeaderStruct (OatHeader_bytes (oat_header_ w)) out) ()
       sizeof_OatHeader [(OatHeaderStruct, OatHeader_bytes (oat_header_ w))]) ∧
    (position out = sizeof_OatHeader →
     tracks out (write ImageFileLocation
                   (range (wrap32 (len (image_file_location E))) (image_file_location E))
                   out) () o1 [(ImageFileLocation, image_file_location E)]) ∧
    (position out = o1 →
     tracks out (WriteTables_oat_dex_files (oat_dex_files_ w) out) () o2
       (oat_dex_files_ w ≫= OatDexFile_ranges exact)) ∧
    (position out = o2 →
     tracks out (WriteTables_dex_files E (oat_dex_files_ w) 0 out) () o3
       (map (λ d, (DexFilePayload, dex_image d)) (dex_files E))) ∧
    (position out = o3 →
     tracks out (WriteTables_oat_classes (oat_classes_ w) out) () o4
       (oat_classes_ w ≫= OatClass_ranges exact)) ∧
    (position out = o4 → tracks out (reported id (WriteCode w out)) o5 o5 []) ∧
    (position out = o5 →
     ∃ ws, ptracks (placed E w) out (reported id (WriteCodeDexFiles E w out o5)) L L ws) ∧
    (Forall (λ d, dex_file_location_size_ d = len (dex_file_location_data_ d) ∧
                  OatDexFile_SizeOf exact d < 2 ^ 32) (oat_dex_files_ w) ∧
     dex_layout (dex_files E) o2 (map dex_file_offset_ (oat_dex_files_ w)) o3 ∧
     Forall (λ c, OatClass_SizeOf exact c < 2 ^ 32) (oat_classes_ w) ∧
     hdr_executable_offset (oat_header_ w) = o5 ∧
     executable_offset_padding_length_ w = o5 - o4 ∧
     0 <= o2 ∧ o3 < 2 ^ 31 ∧ 0 <= o4 ∧ o4 <= o5 < 2 ^ 31).
Proof.
  intros (Hadm & Hnew & HL) Hoffs out Hinv.
  destruct (OatWriter_new_exact_inv _ _ _ _ Hnew)
    as (ds & o3' & w5 & n' & Hsh & Hlay & Htab & Hw5 & Hcode).
  unfold phase_offsets in Hoffs. rewrite Htab in Hoffs. simpl in Hoffs.
  injection Hoffs as <- <- <- <- <-. simpl in *.
  set (o1 := sizeof_OatHeader + len (image_file_location E)) in *.
  set (o2 := o1 + OatDexFiles_SizeOf (map (new_OatDexFile exact) (dex_files E))) in *.
  set (o4 := o3' + OatClasses_SizeOf (new_OatClasses_all E (dex_files E))) in *.
  set (o5 := RoundUp exact o4 (kPageSize (globals E))) in *.
  pose proof Hadm as (Hg & Hm & Hdw).
  pose proof (len_nonneg (image_file_location E)) as Hloc.
  destruct (dex_records_ok _ _ Hsh) as (Hsz & Hsz0 & Hdok).
  pose proof (dex_layout_le _ _ _ _ Hlay) as H23.
  pose proof (OatClasses_SizeOf_new_all_nonneg E (dex_files E)) as Hcz0.
  destruct Hg as (Hpage & _).
  pose proof (RoundUp_exact o4 (kPageSize (globals E)) ltac:(lia)) as [H45 _].
  fold o5 in H45. unfold sizeof_OatHeader in *.
  assert (Inv o5 w5) as HI.
  { subst w5. split; [lia|]. simpl. repeat split; apply map_Forall_empty. }
  assert (length ds = length (dex_files E)) as Hlen.
  { apply Forall2_length in Hsh. by rewrite length_map in Hsh. }
  eapply (lockstep_dex_files_loop _ _ ds 0%nat) in Hcode
    as (cks & P & _ & _ & G); [|done|done|done|done|done].
  pose proof (planned_le _ _ _ _ _ P) as H5L.
  destruct P as (_ & _ & X & Hck).
  destruct (G w (extends_refl w) (unchanged_below_refl _ _ _) HL) as (ws & V & T).
  pose proof X as (_ & _ & _ & _ & Hds & Hexe & Hpad & Hcls).
  assert (oat_dex_files_ w = ds) as Hds' by (rewrite Hds; by subst w5).
  assert (hdr_executable_offset (oat_header_ w) = o5) as Hexe'
    by (rewrite Hexe; by subst w5).
  assert (executable_offset_padding_length_ w = o5 - o4) as Hpad'
    by (rewrite Hpad; by subst w5).
  assert (Forall2 same_shape (new_OatClasses_all E (dex_files E)) (oat_classes_ w)) as Hcls'
    by (by subst w5).
  destruct (class_records_ok _ _ Hcls') as (Hcsz & _ & Hcok).
  split.
  { intros Hpos.
    pose proof (tracks_write OatHeaderStruct (OatHeader_bytes (oat_header_ w)) out Hinv)
      as Hw. by rewrite Hpos in Hw. }
  split.
  { intros Hpos. rewrite wrap32_small by lia32. rewrite range_all by done.
    pose proof (tracks_write ImageFileLocation (image_file_location E) out Hinv) as Hw.
    by rewrite Hpos in Hw. }
  split.
  { intros Hpos.
    pose proof (tracks_WriteTables_oat_dex_files (oat_dex_files_ w) out) as Hw.
    rewrite Hds', Hsz, Hpos in Hw. rewrite Hds'. apply Hw; [|done]. apply Hdok. lia32. }
  split.
  { intros Hpos. rewrite Hds'.
    eapply (tracks_WriteTables_dex_files _ _ _ _ o2 o3'); [done|done|lia|lia32|done|done]. }
  split.
  { intros Hpos.
    pose proof (tracks_WriteTables_oat_classes (oat_classes_ w) out) as Hw.
    rewrite Hpos, Hcsz in Hw. apply Hw; [|done]. apply Hcok. lia32. }
  split.
  { intros Hpos. apply (tracks_WriteCode w out o4 o5); try done; lia32. }
  split.
  { intros Hpos. exists ws. unfold WriteCodeDexFiles. rewrite Hds'. by apply T. }
  split.
  { rewrite Hds'. apply OatDexFiles_SizeOf_each; [apply Hdok; lia32|lia32]. }
  split; [by rewrite Hds'|].
  split; [apply OatClasses_SizeOf_each; lia32|].
  repeat split; try done; lia32.
Qed.

Lemma Write_phases E rt L w o1 o2 o3 o4 o5 :
  plans E rt L w → phase_offsets exact E rt = (o1, o2, o3, o4, o5) →
  ∀ out, stream_inv out →
    (position out = 0 →
     tracks out (write OatHeaderStruct (OatHeader_bytes (oat_header_ w)) out) ()
       sizeof_OatHeader [(OatHeaderStruct, OatHeader_bytes (oat_header_ w))]) ∧
    (position out = sizeof_OatHeader →
     tracks out (write ImageFileLocation
                   (range (wrap32 (len (image_file_location E))) (image_file_location E))
                   out) () o1 [(ImageFileLocation, image_file_location E)]) ∧
    (position out = o1 →
     tracks out (WriteTables_oat_dex_files (oat_dex_files_ w) out) () o2
       (oat_dex_files_ w ≫= OatDexFile_ranges exact)) ∧
    (position out = o2 →
     tracks out (WriteTables_dex_files E (oat_dex_files_ w) 0 out) () o3
       (map (λ d, (DexFilePayload, dex_image d)) (dex_files E))) ∧
    (position out = o3 →
     tracks out (WriteTables_oat_classes (oat_classes_ w) out) () o4
       (oat_classes_ w ≫= OatClass_ranges exact)) ∧
    (position out = o4 → tracks out (reported id (WriteCode w out)) o5 o5 []) ∧
    (position out = o5 →
     ∃ ws, tracks out (reported id (WriteCodeDexFiles E w out o5)) L L ws).
Proof.
  intros Hp Ho out Hinv.
  destruct (Write_phases_placed _ _ _ _ _ _ _ _ _ Hp Ho out Hinv)
    as (T1 & T2 & T3 & T4 & T5 & T6 & T7 & _).
  repeat (split; [done|]). intros Hpos. destruct (T7 Hpos) as (ws & T & _). by exists ws.
Qed.

(** Reading a result off [tracks]. *)
Lemma tracks_Done {A} out (r : step A) a o ws c out' :
  tracks out r a o ws → r = Done c out' →
  c = a ∧ position out' = o ∧
  ∃ evs, events out' = events out ++ evs ∧ Forall event_ok evs ∧ writes_of evs = ws.
Proof.
  intros (_ & _ & evs & Hev & Hr) ->. simpl in *.
  destruct Hr as (? & ? & ? & ?). eauto 10.
Qed.

Lemma tracks_reported_Done {A} (z : A → Z) out (r : step A) a o ws c out' :
  tracks out (reported z r) a o ws → r = Done c out' → z c ≠ 0 →
  c = a ∧ position out' = o ∧
  ∃ evs, events out' = events out ++ evs ∧ Forall event_ok evs ∧ writes_of evs = ws.
Proof.
  intros Ht -> Hz. simpl in Ht. rewrite decide_False in Ht by done.
  by eapply tracks_Done.
Qed.

Lemma tracks_faithful {A} out (r : step A) a o ws :
  tracks out r a o ws → behaviour out = [] →
  ∃ out', r = Done a out' ∧ position out' = o ∧ behaviour out' = [].
Proof.
  intros Ht Hb. pose proof Ht as (_ & Hf & _). destruct (Hf Hb) as [Hb' Hr].
  exists (stream_of r). split; [done|]. split; [|done].
  destruct (tracks_Done _ _ _ _ _ _ _ Ht Hr) as (_ & ? & _). done.
Qed.

(** ** The claims of the specification *)

Lemma never_fails_WriteCodeMethod E w out o n k s idx dex :
  never_fails (WriteCodeMethod E w out o n k s idx dex).
Proof. unfold WriteCodeMethod. by destruct (step_bind _ _). Qed.

Lemma never_fails_WriteCodeClassDef_methods E w direct ms out o n k dex :
  never_fails (WriteCodeClassDef_methods E w direct ms out o n k dex).
Proof.
  revert out o k. induction ms as [|m ms IH]; intros out o k; simpl; [done|].
  pose proof (never_fails_WriteCodeMethod E w out o n k
    (direct && bool_decide (Z.land (access_flags m) kAccStatic ≠ 0)) (method_idx m) dex) as Hm.
  destruct (WriteCodeMethod _ _ _ _ _ _ _ _ _) as [c out1| |]; simpl; try done.
  destruct (decide (c = 0)); [done|apply IH].
Qed.

Lemma never_fails_WriteCodeClassDef E w out o n dex cd :
  never_fails (WriteCodeClassDef E w out o n dex cd).
Proof.
  unfold WriteCodeClassDef. destruct (class_data cd) as [d|]; [|done].
  pose proof (never_fails_WriteCodeClassDef_methods E w true (direct_methods d) out o n 0 dex)
    as H1.
  destruct (WriteCodeClassDef_methods _ _ true _ _ _ _ _ _) as [[c i] out1| |];
    simpl; try done.
  destruct (decide (c = 0)); [done|].
  pose proof (never_fails_WriteCodeClassDef_methods E w false (virtual_methods d) out1 c n i
                dex) as H2.
  by destruct (WriteCodeClassDef_methods _ _ false _ _ _ _ _ _) as [[c' i'] out2| |].
Qed.

Lemma never_fails_WriteCodeDexFile_loop E w cds out o n dex :
  never_fails (WriteCodeDexFile_loop E w cds out o n dex).
Proof.
  revert out o n. induction cds as [|cd cds IH]; intros out o n; simpl; [done|].
  pose proof (never_fails_WriteCodeClassDef E w out o n dex cd) as H1.
  destruct (WriteCodeClassDef _ _ _ _ _ _ _) as [c out1| |]; simpl; try done.
  destruct (decide (c = 0)); [done|apply IH].
Qed.

Lemma never_fails_WriteCodeDexFiles_loop E w ds i out o n :
  never_fails (WriteCodeDexFiles_loop E w ds i out o n).
Proof.
  revert i out o n. induction ds as [|d ds IH]; intros i out o n; simpl; [done|].
  destruct (dex_files E !! i) as [dex|]; [|done].
  pose proof (never_fails_WriteCodeDexFile_loop E w (class_defs dex) out o n dex) as H1.
  unfold WriteCodeDexFile.
  destruct (WriteCodeDexFile_loop _ _ _ _ _ _ _) as [[c n'] out1| |]; simpl; try done.
  destruct (decide (c = 0)); [done|apply IH].
Qed.

Lemma never_fails_Write E w out : never_fails (Write E w out).
Proof.
  unfold Write.
  destruct (write OatHeaderStruct _ _) as [? out1| |]; try done.
  destruct (write ImageFileLocation _ _) as [? out2| |]; try done.
  destruct (WriteTables _ _) as [? out3| |]; try done.
  unfold WriteCode. destruct (seek _ _ _ _) as [? out4| |]; simpl; try done.
  destruct (decide (_ = 0)); [done|].
    pose proof (never_fails_WriteCodeDexFiles_loop E w (oat_dex_files_ w) 0 out4
                  (GetExecutableOffset (oat_header_ w)) 0) as H1.
    unfold WriteCodeDexFiles.
    destruct (WriteCodeDexFiles_loop _ _ _ _ _ _ _) as [c out5| |]; simpl; try done.
    by destruct (decide (c = 0)).
Qed.

(** C6.  On an admissible input whose planned file fits the offsets of the
    platform, and on any stream opened at position 0, [Write] returns
    [true] or [false] (it does not abort).  If any call of the stream made
    during the writing pass went wrong (a write failed, or a seek did not
    land on its target, the offset planned for it) then [Write] returns
    [false]; it returns [true] only when every write and every seek went
    well, and then the stream is at the planned end [L].  Conversely
    [false] is returned only after a call that went wrong. *)
Theorem Write_false_iff_failure E rt L w out :
  plans E rt L w → stream_inv out → position out = 0 →
  ∃ b out' evs,
    Write E w out = Done b out' ∧ events out' = events out ++ evs ∧
    (¬ Forall event_ok evs → b = false) ∧
    (b = true → Forall event_ok evs ∧ position out' = L) ∧
    (b = false → ¬ Forall event_ok evs).
Proof.
  intros (Hadm & Hnew & HL) Hinv Hpos.
  destruct (Write_tracks _ _ _ _ Hadm Hnew HL) as (ws & cks & _ & _ & T).
  specialize (T out Hinv Hpos). destruct T as (_ & _ & evs & Hev & Hr).
  pose proof (never_fails_Write E w out) as Hnf.
  destruct (Write E w out) as [b out'| |]; simpl in *; try done.
  exists b, out', evs. destruct b; simpl in *.
  - destruct Hr as (_ & ? & ? & _). repeat split; try done; try (intros; tauto).
  - destruct (decide (0 = 0)); [|done]. repeat split; try done; try (intros; tauto).
Qed.

(** The sample input is admissible and is planned to 4128 bytes. *)
Lemma Sample_admissible image : admissible (Sample.env image).
Proof.
  split; [|split].
  - vm_compute. repeat split; reflexivity.
  - intros p. do 8 (destruct p as [|p]; [vm_compute; repeat split; reflexivity|]).
    vm_compute. repeat split; reflexivity.
  - repeat constructor; simpl; try done.
Qed.

Lemma Sample_plans : plans Sample.E ∅ Sample.planned_length Sample.writer.
Proof.
  split; [apply Sample_admissible|]. split; [vm_compute; reflexivity|].
  vm_compute; reflexivity.
Qed.

Lemma Write_false_iff_failure_witness :
  ∃ out', Write Sample.E Sample.writer (fresh_stream [Faithful; Faithful; Faulty 7])
          = Done false out'.
Proof.
  destruct (Write_false_iff_failure Sample.E ∅ Sample.planned_length Sample.writer
              (fresh_stream [Faithful; Faithful; Faulty 7]))
    as (b & out' & evs & Hw & Hev & Hbad & _).
  - exact Sample_plans.
  - unfold stream_inv; simpl. do 2 (constructor; [exact I|]).
    constructor; [|constructor]. vm_compute. split; [discriminate|reflexivity].
  - reflexivity.
  - exists out'. rewrite Hw. f_equal. apply Hbad.
    assert (evs = events out') as -> by (by rewrite Hev).
    assert (events out' = events (stream_of (Write Sample.E Sample.writer
              (fresh_stream [Faithful; Faithful; Faulty 7])))) as -> by (by rewrite Hw).
    vm_compute. intros Hall. inversion Hall as [|? ? _ Htl1]. inversion Htl1 as [|? ? _ Htl2].
    inversion Htl2 as [|? ? Hbad3 _]. exact Hbad3.
Defined.

(** What the final writer keeps of the writer before the code phase. *)
Lemma plans_writer E rt L w :
  plans E rt L w →
  ∃ o1 o2 o3 o4 o5 w5,
    plan_tables exact E rt = (o1, o2, o3, o4, o5, w5) ∧
    plan_tables wrap32 E rt = (o1, o2, o3, o4, o5, w5) ∧
    o5 = RoundUp exact o4 (kPageSize (globals E)) ∧
    0 < o4 ∧ o5 ≤ L ∧
    oat_classes_ w5 = new_OatClasses_all E (dex_files E) ∧
    hdr_executable_offset (oat_header_ w5) = o5 ∧
    executable_offset_padding_length_ w5 = o5 - o4 ∧
    Inv o5 w5 ∧ extends w5 w.
Proof.
  intros Hp. pose proof Hp as (Hadm & Hnew & HL).
  destruct (plans_bounds _ _ _ _ Hp)
    as (o1 & o2 & o3 & o4 & o5 & He & Hw & H01 & H12 & H23 & H34 & H45 & H5L).
  destruct (OatWriter_new_exact_inv _ _ _ _ Hnew)
    as (ds & o3' & w5 & n' & Hsh & Hlay & Htab & Hw5 & Hcode).
  simpl in *.
  unfold phase_offsets in He. rewrite Htab in He. simpl in He.
  injection He as <- <- <- <- <-.
  exists (sizeof_OatHeader + len (image_file_location E)),
    (sizeof_OatHeader + len (image_file_location E)
     + OatDexFiles_SizeOf (map (new_OatDexFile exact) (dex_files E))),
    o3', (o3' + OatClasses_SizeOf (new_OatClasses_all E (dex_files E))),
    (RoundUp exact (o3' + OatClasses_SizeOf (new_OatClasses_all E (dex_files E)))
       (kPageSize (globals E))), w5.
  assert (Inv (RoundUp exact (o3' + OatClasses_SizeOf (new_OatClasses_all E (dex_files E)))
                 (kPageSize (globals E))) w5) as HI.
  { subst w5. split; [unfold sizeof_OatHeader in *; lia|]. simpl.
    repeat split; apply map_Forall_empty. }
  assert (length ds = length (dex_files E)) as Hlen.
  { apply Forall2_length in Hsh. by rewrite length_map in Hsh. }
  pose proof Hadm as (Hg & Hm & Hdw).
  eapply (lockstep_dex_files_loop _ _ ds 0%nat) in Hcode
    as (cks & P & _); [|done|done|done|done|done].
  split; [done|]. split.
  { rewrite <- Htab. apply bridge_plan_tables; [done|]. rewrite Htab. simpl. lia. }
  split; [done|]. split; [unfold sizeof_OatHeader in *; lia|]. split; [done|].
  split; [by subst w5|]. split; [by subst w5|]. split; [by subst w5|].
  split; [done|]. by destruct P as (_ & _ & X & _).
Qed.

(** C7.  For every admissible input whose planned file fits the offsets of
    the platform, the executable offset stored in the header of the final
    writer is [RoundUp] applied to the offset cursor after the OatClass
    phase and the page size; it is a multiple of the page size, the least
    one that is not below the cursor; the padding length the writer
    remembers is the difference of the two; and the cursor after the
    executable-gap phase is the executable offset. *)
Theorem executable_offset_page_aligned E rt L w o1 o2 o3 o4 o5 :
  plans E rt L w →
  phase_offsets wrap32 E rt = (o1, o2, o3, o4, o5) →
  GetExecutableOffset (oat_header_ w) = RoundUp wrap32 o4 (kPageSize (globals E)) ∧
  GetExecutableOffset (oat_header_ w) mod kPageSize (globals E) = 0 ∧
  o4 ≤ GetExecutableOffset (oat_header_ w) < o4 + kPageSize (globals E) ∧
  executable_offset_padding_length_ w = GetExecutableOffset (oat_header_ w) - o4 ∧
  o5 = GetExecutableOffset (oat_header_ w).
Proof.
  intros Hp Hoffs. pose proof Hp as (Hadm & Hnew & HL).
  destruct (plans_writer _ _ _ _ Hp)
    as (p1 & p2 & p3 & p4 & p5 & w5 & _ & Hw & Hr & H4 & H5 & _ & Hexe & Hpad & _ & X).
  unfold phase_offsets in Hoffs. rewrite Hw in Hoffs. simpl in Hoffs.
  injection Hoffs as -> -> -> -> ->.
  destruct X as (_ & _ & _ & _ & _ & Hexe' & Hpad' & _).
  unfold GetExecutableOffset. rewrite Hexe', Hexe, Hpad', Hpad.
  destruct Hadm as ((Hpage & _) & _).
  destruct (RoundUp_exact o4 (kPageSize (globals E)) ltac:(lia)) as [Hb Hm].
  rewrite <- Hr in Hb, Hm.
  rewrite RoundUp_wrap32 by lia32. rewrite <- Hr. done.
Qed.

Lemma executable_offset_page_aligned_witness :
  GetExecutableOffset (oat_header_ Sample.writer) = 4096 ∧
  executable_offset_padding_length_ Sample.writer = 4096 - 171.
Proof.
  destruct (executable_offset_page_aligned Sample.E ∅ Sample.planned_length Sample.writer
              36 59 67 171 4096)
    as (_ & _ & _ & Hpad & Hexe).
  - exact Sample_plans.
  - vm_compute; reflexivity.
  - rewrite Hpad, <- Hexe. split; reflexivity.
Defined.

(** *** What the code phase leaves alone, whatever the arithmetic *)

Lemma frame_refl w : frame w w.
Proof. done. Qed.

Lemma frame_trans w1 w2 w3 : frame w1 w2 → frame w2 w3 → frame w1 w3.
Proof. intros (? & ? & ?) (? & ? & ?). repeat split; congruence. Qed.

Lemma frame_deduplicate cast E code what size code_offset offset w r o' w' :
  InitOatCodeMethod_deduplicate cast E code what size code_offset offset w = (r, o', w') →
  frame w w'.
Proof.
  unfold InitOatCodeMethod_deduplicate.
  destruct (code_offsets_ w !! code); intros [= <- <- <-]; done.
Qed.

Lemma frame_code cast E cm offset w r o' w' :
  InitOatCodeMethod_code cast E cm offset w = Some (r, o', w') → frame w w'.
Proof.
  unfold InitOatCodeMethod_code. destruct (decide _); [done|].
  intros [= H]. by eapply frame_deduplicate.
Qed.

Lemma frame_invoke_stub cast E stub offset w r o' w' :
  InitOatCodeMethod_invoke_stub cast E stub offset w = Some (r, o', w') → frame w w'.
Proof.
  unfold InitOatCodeMethod_invoke_stub. destruct (decide _); [done|].
  intros [= H]. by eapply frame_deduplicate.
Qed.

Lemma frame_mapping_table cast E cm offset w r o' w' :
  InitOatCodeMethod_mapping_table cast E cm offset w = (r, o', w') → frame w w'.
Proof.
  unfold InitOatCodeMethod_mapping_table.
  destruct (mapping_table_offsets_ w !! _); intros [= <- <- <-]; done.
Qed.

Lemma frame_vmap_table cast E cm offset w r o' w' :
  InitOatCodeMethod_vmap_table cast E cm offset w = (r, o', w') → frame w w'.
Proof.
  unfold InitOatCodeMethod_vmap_table.
  destruct (vmap_table_offsets_ w !! _); intros [= <- <- <-]; done.
Qed.

Lemma frame_gc_map cast E cm offset w r o' w' :
  InitOatCodeMethod_gc_map cast E cm offset w = (r, o', w') → frame w w'.
Proof.
  unfold InitOatCodeMethod_gc_map.
  destruct (gc_map_offsets_ w !! _); intros [= <- <- <-]; done.
Qed.

Lemma frame_compiled cast E idx dex offset w mo o' w' :
  InitOatCodeMethod_compiled cast E idx dex offset w = Some (mo, o', w') → frame w w'.
Proof.
  unfold InitOatCodeMethod_compiled.
  destruct (GetCompiledMethod _ _ _) as [cm|]; [|by intros [= <- <- <-]].
  destruct (InitOatCodeMethod_code cast E cm offset w) as [[[c o1] w1]|] eqn:H1; [|done].
  simpl.
  destruct (InitOatCodeMethod_mapping_table cast E cm o1 w1) as [[m o2] w2] eqn:H2.
  destruct (InitOatCodeMethod_vmap_table cast E cm o2 w2) as [[v o3] w3] eqn:H3.
  destruct (InitOatCodeMethod_gc_map cast E cm o3 w3) as [[g o4] w4] eqn:H4.
  intros [= <- <- <-].
  apply frame_code in H1. apply frame_mapping_table in H2.
  apply frame_vmap_table in H3. apply frame_gc_map in H4.
  eauto using frame_trans.
Qed.

Lemma statuses_alter w n k mo :
  statuses (with_classes (alter (set_method_offsets k mo) n) w) = statuses w.
Proof.
  unfold statuses. simpl. generalize (oat_classes_ w). intros l. revert n.
  induction l as [|c l IH]; intros [|n]; simpl; [done..| |]; f_equal; apply IH.
Qed.

Lemma statuses_InitOatCodeMethod cast E offset n k type idx dex w o' w' :
  InitOatCodeMethod cast E offset n k type idx dex w = Some (o', w') →
  statuses w' = statuses w.
Proof.
  unfold InitOatCodeMethod.
  destruct (InitOatCodeMethod_compiled _ _ _ _ _ _) as [[[mo o1] w1]|] eqn:H1; [|done].
  simpl. apply frame_compiled in H1 as (Hc1 & _).
  assert (∀ r o2 w2,
    match FindInvokeStub (compiler E) (bool_decide (type = kStatic))
                         (GetMethodShorty dex idx) with
    | Some stub => InitOatCodeMethod_invoke_stub cast E stub o1 w1
    | None => Some (0, o1, w1)
    end = Some (r, o2, w2) → frame w1 w2) as Hstub.
  { intros r o2 w2. destruct (FindInvokeStub _ _ _).
    - apply frame_invoke_stub.
    - by intros [= <- <- <-]. }
  destruct (match FindInvokeStub _ _ _ with Some _ => _ | None => _ end)
    as [[[r o2] w2]|] eqn:H2; [|done].
  simpl. destruct (Hstub _ _ _ eq_refl) as (Hc2 & _).
  unfold InitOatCodeMethod_image.
  destruct (IsImage _).
  - destruct (ResolveMethod _ _ _ _) as [a|]; [|done]. simpl.
    destruct (runtime_methods _ !! a) as [m|]; [|done]. simpl.
    intros [= <- <-]. unfold statuses in *. simpl. 
    change (statuses (with_classes (alter (set_method_offsets k
              (set_invoke_stub_offset r mo)) n) w2) = statuses w).
    rewrite statuses_alter. unfold statuses. by rewrite Hc2, Hc1.
  - intros [= <- <-]. rewrite statuses_alter. unfold statuses. by rewrite Hc2, Hc1.
Qed.

Lemma statuses_InitOatCodeClassDef_methods cast E ms : ∀ offset n k dex w o' k' w',
  InitOatCodeClassDef_methods cast E ms offset n k dex w = Some (o', k', w') →
  statuses w' = statuses w.
Proof.
  induction ms as [|m ms IH]; intros offset n k dex w o' k' w'; simpl.
  - by intros [= <- <- <-].
  - destruct (InitOatCodeMethod _ _ _ _ _ _ _ _ _) as [[o1 w1]|] eqn:H1; [|done].
    simpl. intros H2. apply IH in H2. apply statuses_InitOatCodeMethod in H1. congruence.
Qed.

Lemma statuses_InitOatCodeClassDef cast E offset n dex cd w o' w' :
  InitOatCodeClassDef cast E offset n dex cd w = Some (o', w') →
  statuses w' = statuses w.
Proof.
  unfold InitOatCodeClassDef. destruct (class_data cd) as [d|]; [|by intros [= <- <-]].
  destruct (oat_classes_ w !! n) as [c|]; [|done]. simpl.
  destruct (decide _); [|done].
  destruct (InitOatCodeClassDef_methods _ _ (direct_methods d) _ _ _ _ _)
    as [[[o1 k1] w1]|] eqn:H1; [|done]. simpl.
  destruct (InitOatCodeClassDef_methods _ _ (virtual_methods d) _ _ _ _ _)
    as [[[o2 k2] w2]|] eqn:H2; [|done]. simpl.
  intros [= <- <-].
  apply statuses_InitOatCodeClassDef_methods in H1, H2. congruence.
Qed.

Lemma statuses_OatClass_UpdateChecksum_at cast n w :
  statuses (OatClass_UpdateChecksum_at cast n w) = statuses w.
Proof. unfold OatClass_UpdateChecksum_at. by destruct (oat_classes_ w !! n). Qed.

Lemma statuses_InitOatCodeDexFile_loop cast E cds : ∀ offset n dex w o' n' w',
  InitOatCodeDexFile_loop cast E cds offset n dex w = Some (o', n', w') →
  statuses w' = statuses w.
Proof.
  induction cds as [|cd cds IH]; intros offset n dex w o' n' w'; simpl.
  - by intros [= <- <- <-].
  - destruct (InitOatCodeClassDef _ _ _ _ _ _ _) as [[o1 w1]|] eqn:H1; [|done].
    simpl. intros H2. apply IH in H2. apply statuses_InitOatCodeClassDef in H1.
    rewrite statuses_OatClass_UpdateChecksum_at in H2. congruence.
Qed.

Lemma statuses_InitOatCodeDexFiles_loop cast E dfs : ∀ offset n w o' n' w',
  InitOatCodeDexFiles_loop cast E dfs offset n w = Some (o', n', w') →
  statuses w' = statuses w.
Proof.
  induction dfs as [|dex dfs IH]; intros offset n w o' n' w'; simpl.
  - by intros [= <- <- <-].
  - unfold InitOatCodeDexFile.
    destruct (InitOatCodeDexFile_loop _ _ _ _ _ _ _) as [[[o1 n1] w1]|] eqn:H1; [|done].
    simpl. intros H2. apply IH in H2. apply statuses_InitOatCodeDexFile_loop in H1.
    congruence.
Qed.

Lemma statuses_InitOatDexFiles_loop cast dfs : ∀ o w,
  statuses (InitOatDexFiles_loop cast dfs o w).2 = statuses w.
Proof.
  induction dfs as [|d dfs IH]; intros o w; simpl; [done|]. by rewrite IH.
Qed.

Lemma statuses_InitDexFiles_loop cast dfs : ∀ i o w,
  statuses (InitDexFiles_loop cast dfs i o w).2 = statuses w.
Proof.
  induction dfs as [|d dfs IH]; intros i o w; simpl; [done|]. by rewrite IH.
Qed.

Lemma statuses_InitOatClasses_classes cast E dex i cds : ∀ k o w,
  statuses (InitOatClasses_classes cast E dex i cds k o w).2
  = statuses w ++ map (class_status E dex) (seq k (length cds)).
Proof.
  induction cds as [|cd cds IH]; intros k o w; simpl.
  - by rewrite app_nil_r.
  - rewrite IH. unfold statuses, with_classes, with_dex_files. simpl.
    rewrite map_app. simpl. by rewrite <- app_assoc.
Qed.

Lemma statuses_OatDexFile_UpdateChecksum_at cast i w :
  statuses (OatDexFile_UpdateChecksum_at cast i w) = statuses w.
Proof. unfold OatDexFile_UpdateChecksum_at. by destruct (oat_dex_files_ w !! i). Qed.

Lemma statuses_InitOatClasses_loop cast E dfs : ∀ i o w,
  statuses (InitOatClasses_loop cast E dfs i o w).2
  = statuses w
    ++ (dfs ≫= λ d, map (class_status E d) (seq 0 (length (class_defs d)))).
Proof.
  induction dfs as [|d dfs IH]; intros i o w; simpl.
  - by rewrite app_nil_r.
  - pose proof (statuses_InitOatClasses_classes cast E d i (class_defs d) 0 o w) as H1.
    destruct (InitOatClasses_classes _ _ _ _ _ _ _ _) as [o1 w1]. simpl in H1.
    rewrite IH, statuses_OatDexFile_UpdateChecksum_at, H1. by rewrite <- app_assoc.
Qed.

Lemma statuses_OatWriter_new cast E rt L w :
  OatWriter_new cast E rt = Some (L, w) →
  statuses w = dex_files E ≫= λ d, map (class_status E d) (seq 0 (length (class_defs d))).
Proof.
  unfold OatWriter_new, InitOatDexFiles, InitDexFiles, InitOatClasses, InitOatCode.
  pose proof (statuses_InitOatDexFiles_loop cast (dex_files E) (InitOatHeader cast E)
                (OatWriter_initial cast E rt)) as H1.
  destruct (InitOatDexFiles_loop _ _ _ _) as [o1 w1]. simpl in H1.
  pose proof (statuses_InitDexFiles_loop cast (dex_files E) 0 o1 w1) as H2.
  destruct (InitDexFiles_loop _ _ _ _ _) as [o2 w2]. simpl in H2.
  pose proof (statuses_InitOatClasses_loop cast E (dex_files E) 0 o2 w2) as H3.
  destruct (InitOatClasses_loop _ _ _ _ _ _) as [o3 w3]. simpl in H3.
  unfold InitOatCodeDexFiles.
  destruct (InitOatCodeDexFiles_loop _ _ _ _ _ _) as [[[o4 n4] w4]|] eqn:H4; [|done].
  simpl. destruct (decide _); [|done]. intros [= <- <-].
  apply statuses_InitOatCodeDexFiles_loop in H4. rewrite H4.
  change (statuses w3 = dex_files E ≫= λ d, map (class_status E d) (seq 0 (length (class_defs d)))).
  rewrite H3, H2, H1. done.
Qed.

(** C4.  In the writer the constructor returns, the OatClass records are
    those of the class definitions of the DEX files, in order, and the
    status of each is: the status of the compiled class if the compiler has
    one for the class definition; otherwise [kStatusError] if the verifier
    rejected the class; otherwise [kStatusNotReady].  The code phase does
    not change a status. *)
Theorem OatClass_status_rule E rt L w :
  OatWriter_new wrap32 E rt = Some (L, w) →
  map status_ (oat_classes_ w)
  = dex_files E ≫= λ dex_file,
      map (λ class_def_index,
             match GetCompiledClass (compiler E) (dex_addr dex_file) class_def_index with
             | Some status => status
             | None =>
                 if IsClassRejected E (dex_addr dex_file) class_def_index
                 then kStatusError else kStatusNotReady
             end)
          (seq 0 (length (class_defs dex_file))).
Proof. intros Hnew. exact (statuses_OatWriter_new _ _ _ _ _ Hnew). Qed.

Lemma OatClass_status_rule_witness :
  map status_ (oat_classes_ Sample.writer) = [kStatusNotReady; kStatusError].
Proof.
  rewrite (OatClass_status_rule Sample.E ∅ Sample.planned_length Sample.writer).
  - reflexivity.
  - vm_compute; reflexivity.
Defined.

(** C8.  In image mode, a call of [InitOatCodeMethod] that returns has
    resolved the method in the registry of the runtime and has replaced it
    there: with [mo] the record the call stored for the method in its
    OatClass, the frame size, the two spill masks and the offsets of the
    mapping table, the vmap table, the GC map and the invoke stub of the
    registry method are those of [mo], always; its code is the code offset
    of [mo] if the method is not static, or is a constructor, or its
    declaring class is initialized, and otherwise the static-method
    resolution stub of the runtime.  Nothing else of the registry
    changes. *)
Theorem image_method_update E offset oat_class_index class_def_method_index type
    method_idx dex_file w offset' w' :
  IsImage (compiler E) = true →
  InitOatCodeMethod wrap32 E offset oat_class_index class_def_method_index type
    method_idx dex_file w = Some (offset', w') →
  ∃ mo a method method',
    oat_classes_ w'
    = alter (set_method_offsets class_def_method_index mo) oat_class_index (oat_classes_ w) ∧
    ResolveMethod E (dex_addr dex_file) method_idx type = Some a ∧
    runtime_methods w !! a = Some method ∧
    runtime_methods w' = <[a := method']> (runtime_methods w) ∧
    am_frame_size_in_bytes method' = frame_size_in_bytes_ mo ∧
    am_core_spill_mask method' = core_spill_mask_ mo ∧
    am_fp_spill_mask method' = fp_spill_mask_ mo ∧
    am_mapping_table_offset method' = mapping_table_offset_ mo ∧
    am_vmap_table_offset method' = vmap_table_offset_ mo ∧
    am_gc_map_offset method' = gc_map_offset_ mo ∧
    am_invoke_stub_offset method' = invoke_stub_offset_ mo ∧
    am_code method'
    = (if negb (am_is_static method) || am_is_constructor method
          || am_declaring_class_initialized method
       then code_offset_ mo else resolution_stub_static E) ∧
    am_is_static method' = am_is_static method ∧
    am_is_constructor method' = am_is_constructor method ∧
    am_declaring_class_initialized method' = am_declaring_class_initialized method.
Proof.
  intros Himage. unfold InitOatCodeMethod.
  destruct (InitOatCodeMethod_compiled _ _ _ _ _ _) as [[[mo o1] w1]|] eqn:H1; [|done].
  simpl. apply frame_compiled in H1 as (Hc1 & Hr1 & _).
  assert (∀ r o2 w2,
    match FindInvokeStub (compiler E) (bool_decide (type = kStatic))
                         (GetMethodShorty dex_file method_idx) with
    | Some stub => InitOatCodeMethod_invoke_stub wrap32 E stub o1 w1
    | None => Some (0, o1, w1)
    end = Some (r, o2, w2) → frame w1 w2) as Hstub.
  { intros r o2 w2. destruct (FindInvokeStub _ _ _).
    - apply frame_invoke_stub.
    - by intros [= <- <- <-]. }
  destruct (match FindInvokeStub _ _ _ with Some _ => _ | None => _ end)
    as [[[r o2] w2]|] eqn:H2; [|done].
  simpl. destruct (Hstub _ _ _ eq_refl) as (Hc2 & Hr2 & _).
  unfold InitOatCodeMethod_image. rewrite Himage.
  destruct (ResolveMethod _ _ _ _) as [a|]; [|done]. simpl.
  destruct (runtime_methods w2 !! a) as [method|] eqn:Ha; [|done]. simpl.
  intros [= <- <-].
  exists (set_invoke_stub_offset r mo), a, method,
    (update_AbstractMethod E (set_invoke_stub_offset r mo) method).
  simpl. rewrite Hc2, Hc1, Hr2, Hr1 in *. repeat split; done.
Qed.

Lemma image_method_update_witness :
  ∃ w', InitOatCodeMethod wrap32 (Sample.env true) 4096 0 0 kStatic 0 Sample.dex
          (plan_tables wrap32 (Sample.env true) Sample.rt).2 = Some (4109, w') ∧
        (am_code <$> runtime_methods w' !! 0%nat) = Some (resolution_stub_static Sample.E).
Proof.
  assert (∃ w', InitOatCodeMethod wrap32 (Sample.env true) 4096 0 0 kStatic 0 Sample.dex
                  (plan_tables wrap32 (Sample.env true) Sample.rt).2 = Some (4109, w'))
    as [w' Hrun] by (eexists; vm_compute; reflexivity).
  exists w'. split; [exact Hrun|].
  destruct (image_method_update (Sample.env true) 4096 0 0 kStatic 0 Sample.dex
              (plan_tables wrap32 (Sample.env true) Sample.rt).2 4109 w')
    as (mo & a & method & method' & _ & Ha & Hm & Hrt & _ & _ & _ & _ & _ & _ & _
        & Hcode & _).
  - reflexivity.
  - exact Hrun.
  - vm_compute in Ha. injection Ha as <-.
    vm_compute in Hm. injection Hm as <-.
    rewrite Hrt, lookup_insert_eq. simpl. rewrite Hcode. reflexivity.
Defined.

(** C5, as the specification states it, fails: the record of a method
    without a compiled method is not all zeros.  The third method of the
    sample class has no compiled method, and the frame size of its record
    is [kStackAlignment], 16. *)
Lemma no_compiled_method_frame_size_counterexample :
  GetCompiledMethod (compiler Sample.E) (dex_addr Sample.dex) 2 = None ∧
  ∃ mo, method_offsets_of Sample.writer 0 2 = Some mo ∧
        code_offset_ mo = 0 ∧ frame_size_in_bytes_ mo = 16 ∧ frame_size_in_bytes_ mo ≠ 0.
Proof.
  split; [reflexivity|]. eexists. split; [vm_compute; reflexivity|]. simpl.
  repeat split; done.
Qed.

(** C5, amended.  For a method for which the compiler reports no compiled
    method, the part of [InitOatCodeMethod] for the compiled method leaves
    the offset cursor and the writer as they are (no code or table is
    planned, nothing is interned, nothing is folded into the checksum), and
    the writing pass writes nothing there.  The record stored for the method
    has code offset 0, both spill masks 0 and the three table offsets 0; its
    frame size is [kStackAlignment], not 0.  Without an invoke stub the stub
    offset is 0 as well and the call returns the cursor it was given; with
    an invoke stub, the stub offset, the returned cursor, the header and
    [code_offsets_] are those the invoke-stub block gives, started on the
    unchanged cursor and writer. *)
Theorem no_compiled_method_record E offset oat_class_index class_def_method_index type
    method_idx dex_file w offset' w' :
  GetCompiledMethod (compiler E) (dex_addr dex_file) method_idx = None →
  InitOatCodeMethod wrap32 E offset oat_class_index class_def_method_index type
    method_idx dex_file w = Some (offset', w') →
  ∃ mo,
    InitOatCodeMethod_compiled wrap32 E method_idx dex_file offset w
    = Some (set_invoke_stub_offset 0 mo, offset, w) ∧
    (∀ wf method_offsets code_offset out,
       WriteCodeMethod_compiled E wf method_idx dex_file method_offsets code_offset out
       = Done code_offset out) ∧
    oat_classes_ w'
    = alter (set_method_offsets class_def_method_index mo) oat_class_index (oat_classes_ w) ∧
    code_offset_ mo = 0 ∧
    frame_size_in_bytes_ mo = kStackAlignment (globals E) ∧
    core_spill_mask_ mo = 0 ∧ fp_spill_mask_ mo = 0 ∧
    mapping_table_offset_ mo = 0 ∧ vmap_table_offset_ mo = 0 ∧ gc_map_offset_ mo = 0 ∧
    mapping_table_offsets_ w' = mapping_table_offsets_ w ∧
    vmap_table_offsets_ w' = vmap_table_offsets_ w ∧
    gc_map_offsets_ w' = gc_map_offsets_ w ∧
    match FindInvokeStub (compiler E) (bool_decide (type = kStatic))
            (GetMethodShorty dex_file method_idx) with
    | None =>
        invoke_stub_offset_ mo = 0 ∧ offset' = offset ∧
        oat_header_ w' = oat_header_ w ∧ code_offsets_ w' = code_offsets_ w
    | Some compiled_invoke_stub =>
        ∃ w1, InitOatCodeMethod_invoke_stub wrap32 E compiled_invoke_stub offset w
              = Some (invoke_stub_offset_ mo, offset', w1) ∧
              oat_header_ w' = oat_header_ w1 ∧ code_offsets_ w' = code_offsets_ w1
    end.
Proof.
  intros Hnone. unfold InitOatCodeMethod, InitOatCodeMethod_compiled, WriteCodeMethod_compiled.
  rewrite Hnone. simpl.
  destruct (FindInvokeStub _ _ _) as [stub|].
  - destruct (InitOatCodeMethod_invoke_stub wrap32 E stub offset w)
      as [[[r o2] w2]|] eqn:H2; [|done].
    simpl. unfold InitOatCodeMethod_image.
    assert (mapping_table_offsets_ w2 = mapping_table_offsets_ w ∧
            vmap_table_offsets_ w2 = vmap_table_offsets_ w ∧
            gc_map_offsets_ w2 = gc_map_offsets_ w ∧
            oat_classes_ w2 = oat_classes_ w) as (Hm & Hv & Hg & Hc).
    { revert H2. unfold InitOatCodeMethod_invoke_stub, InitOatCodeMethod_deduplicate.
      destruct (decide _); [done|].
      destruct (code_offsets_ w !! _); intros [= <- <- <-]; done. }
    destruct (IsImage _).
    + destruct (ResolveMethod _ _ _ _) as [a|]; [|done]. simpl.
      destruct (runtime_methods _ !! a) as [m|]; [|done]. simpl.
      intros [= <- <-]. eexists (set_invoke_stub_offset r _). simpl.
      rewrite Hm, Hv, Hg, Hc. repeat split; try done. by exists w2.
    + intros [= <- <-]. eexists (set_invoke_stub_offset r _). simpl.
      rewrite Hm, Hv, Hg, Hc. repeat split; try done. by exists w2.
  - simpl. unfold InitOatCodeMethod_image. destruct (IsImage _).
    + destruct (ResolveMethod _ _ _ _) as [a|]; [|done]. simpl.
      destruct (runtime_methods _ !! a) as [m|]; [|done]. simpl.
      intros [= <- <-]. eexists (set_invoke_stub_offset 0 _). simpl. repeat split; done.
    + intros [= <- <-]. eexists (set_invoke_stub_offset 0 _). simpl. repeat split; done.
Qed.

Lemma no_compiled_method_record_witness :
  ∃ o' w',
    InitOatCodeMethod wrap32 Sample.E 4096 0 2 kVirtual 2 Sample.dex
      Sample.writer_before_code = Some (o', w') ∧
    (frame_size_in_bytes_ <$> method_offsets_of w' 0 2) = Some 16 ∧
    (code_offset_ <$> method_offsets_of w' 0 2) = Some 0.
Proof.
  assert (∃ o' w', InitOatCodeMethod wrap32 Sample.E 4096 0 2 kVirtual 2 Sample.dex
                     Sample.writer_before_code = Some (o', w'))
    as (o' & w' & Hrun) by (eexists _, _; vm_compute; reflexivity).
  exists o', w'. split; [exact Hrun|].
  destruct (no_compiled_method_record Sample.E 4096 0 2 kVirtual 2 Sample.dex
              Sample.writer_before_code o' w' eq_refl Hrun)
    as (mo & _ & _ & Hc & Hcode & Hframe & _).
  unfold method_offsets_of. rewrite Hc.
  set (cs := oat_classes_ Sample.writer_before_code). vm_compute in cs. subst cs.
  simpl. rewrite Hcode, Hframe. split; reflexivity.
Defined.

(** *** The tables without bytes *)

Lemma tables_zero_insert (size : ptr → Z) (table : gmap ptr Z) p offset :
  (∀ q v, table !! q = Some v → size q = 0 → v = 0) →
  ∀ q v, <[p := if decide (size p = 0) then 0 else offset]> table !! q = Some v →
         size q = 0 → v = 0.
Proof.
  intros Hz q v. destruct (decide (p = q)) as [->|Hne].
  - rewrite lookup_insert_eq. intros [= <-] Hq. by rewrite decide_True.
  - rewrite lookup_insert_ne by done. apply Hz.
Qed.

Lemma tables_zero_mapping_table E cm offset w r o' w' :
  tables_zero E w →
  InitOatCodeMethod_mapping_table wrap32 E cm offset w = (r, o', w') → tables_zero E w'.
Proof.
  intros (Hm & Hv & Hg). unfold InitOatCodeMethod_mapping_table.
  destruct (mapping_table_offsets_ w !! _); intros [= <- <- <-]; [done|].
  split; [|done]. simpl.
  apply (tables_zero_insert (λ p, wrap32 (len (vec32 (memory E) p) * 4))), Hm.
Qed.

Lemma tables_zero_vmap_table E cm offset w r o' w' :
  tables_zero E w →
  InitOatCodeMethod_vmap_table wrap32 E cm offset w = (r, o', w') → tables_zero E w'.
Proof.
  intros (Hm & Hv & Hg). unfold InitOatCodeMethod_vmap_table.
  destruct (vmap_table_offsets_ w !! _); intros [= <- <- <-]; [done|].
  split; [done|]. split; [|done]. simpl.
  apply (tables_zero_insert (λ p, wrap32 (len (vec16 (memory E) p) * 2))), Hv.
Qed.

Lemma tables_zero_gc_map E cm offset w r o' w' :
  tables_zero E w →
  InitOatCodeMethod_gc_map wrap32 E cm offset w = (r, o', w') → tables_zero E w'.
Proof.
  intros (Hm & Hv & Hg). unfold InitOatCodeMethod_gc_map.
  destruct (gc_map_offsets_ w !! _); intros [= <- <- <-]; [done|].
  split; [done|]. split; [done|]. simpl.
  apply (tables_zero_insert (λ p, wrap32 (len (vec8 (memory E) p) * 1))), Hg.
Qed.

Lemma mapping_table_rule E cm offset w recorded offset' w' :
  tables_zero E w →
  InitOatCodeMethod_mapping_table wrap32 E cm offset w = (recorded, offset', w') →
  spec_intern_table (mapping_table_offsets_ w) (cm_mapping_table cm)
    (wrap32 (len (vec32 (memory E) (cm_mapping_table cm)) * 4)) offset recorded offset'
    (mapping_table_offsets_ w') ∧
  (wrap32 (len (vec32 (memory E) (cm_mapping_table cm)) * 4) = 0 → recorded = 0) ∧
  tables_zero E w'.
Proof.
  intros Hz H. pose proof Hz as (Hm & _ & _).
  split; [|split; [|by eapply tables_zero_mapping_table]]; revert H;
    unfold InitOatCodeMethod_mapping_table, spec_intern_table;
    destruct (mapping_table_offsets_ w !! _) eqn:Hl; intros [= <- <- <-]; try done.
  - intros Hs. by eapply Hm.
  - intros Hs. by rewrite decide_True.
Qed.

Lemma vmap_table_rule E cm offset w recorded offset' w' :
  tables_zero E w →
  InitOatCodeMethod_vmap_table wrap32 E cm offset w = (recorded, offset', w') →
  spec_intern_table (vmap_table_offsets_ w) (cm_vmap_table cm)
    (wrap32 (len (vec16 (memory E) (cm_vmap_table cm)) * 2)) offset recorded offset'
    (vmap_table_offsets_ w') ∧
  (wrap32 (len (vec16 (memory E) (cm_vmap_table cm)) * 2) = 0 → recorded = 0) ∧
  tables_zero E w'.
Proof.
  intros Hz H. pose proof Hz as (_ & Hv & _).
  split; [|split; [|by eapply tables_zero_vmap_table]]; revert H;
    unfold InitOatCodeMethod_vmap_table, spec_intern_table;
    destruct (vmap_table_offsets_ w !! _) eqn:Hl; intros [= <- <- <-]; try done.
  - intros Hs. by eapply Hv.
  - intros Hs. by rewrite decide_True.
Qed.

Lemma gc_map_rule E cm offset w recorded offset' w' :
  tables_zero E w →
  InitOatCodeMethod_gc_map wrap32 E cm offset w = (recorded, offset', w') →
  spec_intern_table (gc_map_offsets_ w) (cm_native_gc_map cm)
    (wrap32 (len (vec8 (memory E) (cm_native_gc_map cm)) * 1)) offset recorded offset'
    (gc_map_offsets_ w') ∧
  (wrap32 (len (vec8 (memory E) (cm_native_gc_map cm)) * 1) = 0 → recorded = 0) ∧
  tables_zero E w'.
Proof.
  intros Hz H. pose proof Hz as (_ & _ & Hg).
  split; [|split; [|by eapply tables_zero_gc_map]]; revert H;
    unfold InitOatCodeMethod_gc_map, spec_intern_table;
    destruct (gc_map_offsets_ w !! _) eqn:Hl; intros [= <- <- <-]; try done.
  - intros Hs. by eapply Hg.
  - intros Hs. by rewrite decide_True.
Qed.

Lemma tables_zero_table_maps E w w' :
  table_maps w' = table_maps w → tables_zero E w → tables_zero E w'.
Proof. unfold table_maps, tables_zero. intros [= -> -> ->]. done. Qed.

Lemma table_maps_deduplicate cast E code what size code_offset offset w r o' w' :
  InitOatCodeMethod_deduplicate cast E code what size code_offset offset w = (r, o', w') →
  table_maps w' = table_maps w.
Proof.
  unfold InitOatCodeMethod_deduplicate.
  destruct (code_offsets_ w !! code); intros [= <- <- <-]; done.
Qed.

Lemma tables_zero_InitOatCodeMethod E offset n k type idx dex w o' w' :
  tables_zero E w →
  InitOatCodeMethod wrap32 E offset n k type idx dex w = Some (o', w') →
  tables_zero E w'.
Proof.
  intros Hz. unfold InitOatCodeMethod.
  destruct (InitOatCodeMethod_compiled _ _ _ _ _ _) as [[[mo o1] w1]|] eqn:H1; [|done].
  simpl.
  assert (tables_zero E w1) as Hz1.
  { revert H1. unfold InitOatCodeMethod_compiled.
    destruct (GetCompiledMethod _ _ _) as [cm|]; [|by intros [= <- <- <-]].
    unfold InitOatCodeMethod_code. destruct (decide _); [done|]. simpl.
    destruct (InitOatCodeMethod_deduplicate _ _ _ _ _ _ _ _) as [[c o0] w0] eqn:H0.
    apply table_maps_deduplicate in H0.
    destruct (InitOatCodeMethod_mapping_table wrap32 E cm o0 w0) as [[m o2] w2] eqn:H2.
    destruct (InitOatCodeMethod_vmap_table wrap32 E cm o2 w2) as [[v o3] w3] eqn:H3.
    destruct (InitOatCodeMethod_gc_map wrap32 E cm o3 w3) as [[g o4] w4] eqn:H4.
    intros [= <- <- <-].
    eapply tables_zero_gc_map; [|done]. eapply tables_zero_vmap_table; [|done].
    eapply tables_zero_mapping_table; [|done]. by eapply tables_zero_table_maps. }
  destruct (match FindInvokeStub _ _ _ with Some _ => _ | None => _ end)
    as [[[r o2] w2]|] eqn:H2; [|done].
  assert (tables_zero E w2) as Hz2.
  { revert H2. destruct (FindInvokeStub _ _ _); [|by intros [= <- <- <-]].
    unfold InitOatCodeMethod_invoke_stub. destruct (decide _); [done|].
    intros [= H2]. apply table_maps_deduplicate in H2.
    by eapply tables_zero_table_maps. }
  simpl. unfold InitOatCodeMethod_image.
  destruct (IsImage _).
  - destruct (ResolveMethod _ _ _ _) as [a|]; [|done]. simpl.
    destruct (runtime_methods _ !! a) as [m|]; [|done]. simpl.
    intros [= <- <-]. done.
  - intros [= <- <-]. done.
Qed.

Lemma tables_zero_InitOatCodeClassDef_methods E ms : ∀ offset n k dex w o' k' w',
  tables_zero E w →
  InitOatCodeClassDef_methods wrap32 E ms offset n k dex w = Some (o', k', w') →
  tables_zero E w'.
Proof.
  induction ms as [|m ms IH]; intros offset n k dex w o' k' w' Hz; simpl.
  - by intros [= <- <- <-].
  - destruct (InitOatCodeMethod _ _ _ _ _ _ _ _ _) as [[o1 w1]|] eqn:H1; [|done].
    simpl. apply IH. by eapply tables_zero_InitOatCodeMethod.
Qed.

Lemma tables_zero_InitOatCodeDexFile_loop E cds : ∀ offset n dex w o' n' w',
  tables_zero E w →
  InitOatCodeDexFile_loop wrap32 E cds offset n dex w = Some (o', n', w') →
  tables_zero E w'.
Proof.
  induction cds as [|cd cds IH]; intros offset n dex w o' n' w' Hz; simpl.
  - by intros [= <- <- <-].
  - destruct (InitOatCodeClassDef _ _ _ _ _ _ _) as [[o1 w1]|] eqn:H1; [|done].
    simpl. apply IH.
    assert (tables_zero E w1) as Hz1.
    { revert H1. unfold InitOatCodeClassDef.
      destruct (class_data cd) as [d|]; [|by intros [= <- <-]].
      destruct (oat_classes_ w !! n) as [c|]; [|done]. simpl.
      destruct (decide _); [|done].
      destruct (InitOatCodeClassDef_methods _ _ (direct_methods d) _ _ _ _ _)
        as [[[o2 k2] w2]|] eqn:H2; [|done]. simpl.
      destruct (InitOatCodeClassDef_methods _ _ (virtual_methods d) _ _ _ _ _)
        as [[[o3 k3] w3]|] eqn:H3; [|done]. simpl.
      intros [= <- <-].
      eapply tables_zero_InitOatCodeClassDef_methods; [|done].
      by eapply tables_zero_InitOatCodeClassDef_methods. }
    unfold OatClass_UpdateChecksum_at. by destruct (oat_classes_ w1 !! n).
Qed.

Lemma tables_zero_InitOatCodeDexFiles_loop E dfs : ∀ offset n w o' n' w',
  tables_zero E w →
  InitOatCodeDexFiles_loop wrap32 E dfs offset n w = Some (o', n', w') →
  tables_zero E w'.
Proof.
  induction dfs as [|dex dfs IH]; intros offset n w o' n' w' Hz; simpl.
  - by intros [= <- <- <-].
  - unfold InitOatCodeDexFile.
    destruct (InitOatCodeDexFile_loop _ _ _ _ _ _ _) as [[[o1 n1] w1]|] eqn:H1; [|done].
    simpl. apply IH. by eapply tables_zero_InitOatCodeDexFile_loop.
Qed.

Lemma table_maps_InitOatDexFiles_loop cast dfs : ∀ o w,
  table_maps (InitOatDexFiles_loop cast dfs o w).2 = table_maps w.
Proof. induction dfs as [|d dfs IH]; intros o w; simpl; [done|]. by rewrite IH. Qed.

Lemma table_maps_InitDexFiles_loop cast dfs : ∀ i o w,
  table_maps (InitDexFiles_loop cast dfs i o w).2 = table_maps w.
Proof. induction dfs as [|d dfs IH]; intros i o w; simpl; [done|]. by rewrite IH. Qed.

Lemma table_maps_InitOatClasses_classes cast E dex i cds : ∀ k o w,
  table_maps (InitOatClasses_classes cast E dex i cds k o w).2 = table_maps w.
Proof. induction cds as [|cd cds IH]; intros k o w; simpl; [done|]. by rewrite IH. Qed.

Lemma table_maps_InitOatClasses_loop cast E dfs : ∀ i o w,
  table_maps (InitOatClasses_loop cast E dfs i o w).2 = table_maps w.
Proof.
  induction dfs as [|d dfs IH]; intros i o w; simpl; [done|].
  pose proof (table_maps_InitOatClasses_classes cast E d i (class_defs d) 0 o w) as H1.
  destruct (InitOatClasses_classes _ _ _ _ _ _ _ _) as [o1 w1]. simpl in H1.
  rewrite IH. unfold OatDexFile_UpdateChecksum_at.
  by destruct (oat_dex_files_ w1 !! i).
Qed.

(** The writer at the start of the code phase has interned no table, and
    the code phase keeps the offsets of the tables without bytes at 0. *)
Lemma tables_zero_plan_tables E rt : tables_zero E (plan_tables wrap32 E rt).2.
Proof.
  unfold plan_tables, InitOatDexFiles, InitDexFiles, InitOatClasses, InitOatCode.
  pose proof (table_maps_InitOatDexFiles_loop wrap32 (dex_files E) (InitOatHeader wrap32 E)
                (OatWriter_initial wrap32 E rt)) as H1.
  destruct (InitOatDexFiles_loop _ _ _ _) as [o1 w1]. cbn [snd] in H1.
  pose proof (table_maps_InitDexFiles_loop wrap32 (dex_files E) 0 o1 w1) as H2.
  destruct (InitDexFiles_loop _ _ _ _ _) as [o2 w2]. cbn [snd] in H2.
  pose proof (table_maps_InitOatClasses_loop wrap32 E (dex_files E) 0 o2 w2) as H3.
  destruct (InitOatClasses_loop _ _ _ _ _ _) as [o3 w3]. cbn [snd] in H3.
  cbn [snd]. eapply (tables_zero_table_maps E (OatWriter_initial wrap32 E rt)).
  - change (table_maps w3 = table_maps (OatWriter_initial wrap32 E rt)).
    by rewrite H3, H2, H1.
  - repeat split; intros p v; simpl; by rewrite lookup_empty.
Qed.

Lemma tables_zero_OatWriter_new E rt L w :
  OatWriter_new wrap32 E rt = Some (L, w) → tables_zero E w.
Proof.
  rewrite OatWriter_new_tables. pose proof (tables_zero_plan_tables E rt) as Hz.
  destruct (plan_tables wrap32 E rt) as [[[[[o1 o2] o3] o4] o5] w5]. simpl in *.
  unfold InitOatCodeDexFiles.
  destruct (InitOatCodeDexFiles_loop _ _ _ _ _ _) as [[[o6 n6] w6]|] eqn:H6; [|done].
  simpl. destruct (decide _); [|done]. intros [= <- <-].
  by eapply tables_zero_InitOatCodeDexFiles_loop.
Qed.

(** *** The table of the code arrays *)

(** After the lookup of lines 260-269 the array is in [code_offsets_], at
    the offset the block returns. *)
Lemma deduplicate_stored cast E code what size code_offset offset w r o' w' :
  InitOatCodeMethod_deduplicate cast E code what size code_offset offset w = (r, o', w') →
  code_offsets_ w' !! code = Some r.
Proof.
  unfold InitOatCodeMethod_deduplicate.
  destruct (code_offsets_ w !! code) eqn:Hl; intros [= <- <- <-]; [done|].
  simpl. apply lookup_insert_eq.
Qed.

(** What the block does for an array that is already there, and for a new
    one. *)
Lemma deduplicate_cases cast E code what size code_offset offset w :
  match code_offsets_ w !! code with
  | Some stored =>
      InitOatCodeMethod_deduplicate cast E code what size code_offset offset w
      = (stored, offset, w)
  | None =>
      ∃ w', InitOatCodeMethod_deduplicate cast E code what size code_offset offset w
            = (code_offset, cast (cast (offset + sizeof_uint32) + size), w') ∧
            code_offsets_ w' = <[code := code_offset]> (code_offsets_ w) ∧
            hdr_checksum_ranges (oat_header_ w')
            = hdr_checksum_ranges (oat_header_ w)
              ++ [(what, range size (code_bytes (memory E) code))]
  end.
Proof.
  unfold InitOatCodeMethod_deduplicate. destruct (code_offsets_ w !! code); [done|].
  eexists. split; [done|]. done.
Qed.

(** The array of a block that found it in [code_offsets_], below the
    cursor, is not written again. *)
Lemma deduplicate_not_written E wf code what_size what size offset recorded code_offset out :
  is_Some (code_offsets_ wf !! code) → offset ≠ recorded →
  WriteCodeMethod_deduplicate E wf code what_size what size offset recorded code_offset out
  = Done code_offset out.
Proof.
  intros Hin Hne. unfold WriteCodeMethod_deduplicate.
  by rewrite !bool_decide_eq_true_2.
Qed.

(** C2, as the specification states it, fails: the ranges folded into the
    checksum are not the ranges written.  On the sample input [Write]
    succeeds and writes 17 ranges, 193 bytes; the checksum has folded 14
    ranges, 142 bytes.  The header, the image location, the DEX payload and
    the size prefixes of the code and of the invoke stub are written but not
    folded; the empty vmap table and GC map are folded but not written; and
    the OatClass records are written before the code and folded after
    it. *)
Lemma checksum_ranges_counterexample :
  ∃ out',
    Write Sample.E Sample.writer (fresh_stream []) = Done true out' ∧
    map fst (writes_of (events out'))
    = [OatHeaderStruct; ImageFileLocation; DexFileLocationLength; DexFileLocationData;
       DexFileLocationChecksum; DexFileOffset; MethodsOffsets; DexFilePayload;
       ClassStatus; MethodOffsets; ClassStatus; MethodOffsets;
       MethodCodeSize; MethodCode; MappingTable; InvokeStubCodeSize; InvokeStubCode] ∧
    map fst (hdr_checksum_ranges (oat_header_ Sample.writer))
    = [DexFileLocationLength; DexFileLocationData; DexFileLocationChecksum; DexFileOffset;
       MethodsOffsets; MethodCode; MappingTable; VmapTable; GcMap; InvokeStubCode;
       ClassStatus; MethodOffsets; ClassStatus; MethodOffsets] ∧
    len (writes_of (events out') ≫= snd) = 193 ∧
    len (hdr_checksum_ranges (oat_header_ Sample.writer) ≫= snd) = 142 ∧
    hdr_checksum_ranges (oat_header_ Sample.writer) ≠ writes_of (events out') ∧
    hdr_checksum_ranges (oat_header_ Sample.writer) ≠ drop 1 (writes_of (events out')).
Proof.
  eexists. split; [vm_compute; reflexivity|].
  split; [vm_compute; reflexivity|]. split; [vm_compute; reflexivity|].
  split; [vm_compute; reflexivity|]. split; [vm_compute; reflexivity|].
  split; intros Heq; apply (f_equal length) in Heq; vm_compute in Heq; discriminate.
Qed.

(** ** Further properties of the writer *)

(** *** Runs of writes *)

Lemma write_Done what data out u out' :
  write what data out = Done u out' →
  position out' = position out + len data ∧
  events out' = events out ++ [Written what (position out) data] ∧
  behaviour out' = tail (behaviour out).
Proof.
  unfold write, WriteFully. destruct (behaviour out) as [|[|z] rest] eqn:Hb;
    simpl; intros H; invert H; simpl; by rewrite ?Hb.
Qed.

Lemma write_Fail what data out out' :
  write what data out = Fail out' →
  position out' = position out ∧
  events out' = events out ++ [WriteFailed what (position out) data].
Proof.
  unfold write, WriteFully. destruct (behaviour out) as [|[|z] rest] eqn:Hb;
    simpl; intros H; invert H; done.
Qed.

Lemma write_not_Abort what data out out' : write what data out ≠ Abort out'.
Proof. unfold write, WriteFully. by destruct (behaviour out) as [|[|z] rest]. Qed.

Lemma write_all_Done rs : ∀ out u out',
  write_all rs out = Done u out' →
  position out' = position out + len (rs ≫= snd) ∧
  events out' = events out ++ written_from (position out) rs.
Proof.
  induction rs as [|r rs IH]; intros out u out'; simpl.
  - intros H; invert H. simpl. by rewrite Z.add_0_r, app_nil_r.
  - destruct (write r.1 r.2 out) as [[] out1| |] eqn:H1; simpl; [|done..].
    apply write_Done in H1 as (Hp & He & _). intros H2.
    apply IH in H2 as (Hp' & He'). split.
    + rewrite Hp', Hp. change (len (r.2 ++ (rs ≫= snd))) with (len (r.2 ++ (rs ≫= snd))).
      rewrite len_app. change (list_bind _ _ snd rs) with (rs ≫= snd). lia.
    + rewrite He', He, Hp, <- app_assoc. done.
Qed.

(** A run of writes stops at the first write that fails. *)
Lemma write_all_Fail rs : ∀ out out',
  write_all rs out = Fail out' →
  ∃ done_ r rest,
    rs = done_ ++ r :: rest ∧
    events out'
    = events out ++ written_from (position out) done_
      ++ [WriteFailed r.1 (position out + len (done_ ≫= snd)) r.2].
Proof.
  induction rs as [|r rs IH]; intros out out'; simpl; [done|].
  destruct (write r.1 r.2 out) as [[] out1| |] eqn:H1; simpl.
  - apply write_Done in H1 as (Hp & He & _). intros H2.
    apply IH in H2 as (done_ & r' & rest & -> & He').
    exists (r :: done_), r', rest. split; [done|].
    rewrite He', He, Hp. simpl. rewrite <- app_assoc. simpl.
    change (list_bind _ _ snd done_) with (done_ ≫= snd). rewrite len_app.
    do 4 f_equal. f_equal. lia.
  - intros [= <-]. apply write_Fail in H1 as (Hp & He).
    exists [], r, rs. split; [done|]. rewrite He. simpl. by rewrite Z.add_0_r.
  - by apply write_not_Abort in H1.
Qed.

Lemma write_all_not_Abort rs : ∀ out out', write_all rs out ≠ Abort out'.
Proof.
  induction rs as [|r rs IH]; intros out out'; simpl; [done|].
  destruct (write r.1 r.2 out) as [[] out1| |] eqn:H1; simpl; [apply IH|done|].
  by apply write_not_Abort in H1.
Qed.

(** *** The records of the tables *)

Lemma OatDexFile_Write_Done d out out' :
  dex_file_location_size_ d = len (dex_file_location_data_ d) →
  OatDexFile_SizeOf exact d < 2 ^ 32 →
  OatDexFile_Write d out = Done () out' →
  position out' = position out + OatDexFile_SizeOf wrap32 d ∧
  events out' = events out ++ written_from (position out) (OatDexFile_ranges wrap32 d).
Proof.
  intros Hloc Hsz HW. unfold OatDexFile_Write in HW.
  apply write_all_Done in HW as (Hp & He). split; [|done]. rewrite Hp. f_equal.
  pose proof (len_nonneg (dex_file_location_data_ d)) as H1.
  pose proof (len_nonneg (methods_offsets_ d)) as H2.
  assert (sizeof_uint32 * len (methods_offsets_ d) < 2 ^ 32) as Hm.
  { unfold OatDexFile_SizeOf, exact in Hsz. lia32. }
  rewrite OatDexFile_ranges_wrap32 by done.
  rewrite len_OatDexFile_ranges by done.
  unfold OatDexFile_SizeOf, exact in *. rewrite wrap32_small; [done|]. lia32.
Qed.

(** X1.  [OatDexFile::Write] and [OatDexFile::SizeOf] agree: for a record
    whose location size is the length of its location, and whose size fits
    32 bits, a [Write] that succeeds has written the five fields one after
    the other (the bytes [UpdateChecksum] folds, from the position the
    stream had) and has advanced the stream by exactly [SizeOf()] bytes. *)
Theorem OatDexFile_Write_SizeOf d out out' :
  dex_file_location_size_ d = len (dex_file_location_data_ d) →
  OatDexFile_SizeOf exact d < 2 ^ 32 →
  OatDexFile_Write d out = Done () out' →
  position out' = position out + OatDexFile_SizeOf wrap32 d ∧
  events out' = events out ++ written_from (position out) (OatDexFile_ranges wrap32 d).
Proof. apply OatDexFile_Write_Done. Qed.

Lemma OatDexFile_Write_SizeOf_witness :
  position (stream_of (OatDexFile_Write (new_OatDexFile wrap32 Sample.dex) (fresh_stream [])))
  = 23.
Proof.
  destruct (OatDexFile_Write_SizeOf (new_OatDexFile wrap32 Sample.dex) (fresh_stream [])
              (stream_of (OatDexFile_Write (new_OatDexFile wrap32 Sample.dex)
                            (fresh_stream []))))
    as (Hp & _).
  - reflexivity.
  - vm_compute. reflexivity.
  - vm_compute. reflexivity.
  - rewrite Hp. vm_compute. reflexivity.
Defined.

Lemma OatClass_Write_Done c out out' :
  OatClass_SizeOf exact c < 2 ^ 32 →
  OatClass_Write c out = Done () out' →
  position out' = position out + OatClass_SizeOf wrap32 c ∧
  OatClass_SizeOf wrap32 c = 4 + 32 * len (method_offsets_ c) ∧
  events out' = events out ++ written_from (position out) (OatClass_ranges wrap32 c).
Proof.
  intros Hsz HW. unfold OatClass_Write in HW.
  apply write_all_Done in HW as (Hp & He).
  pose proof (len_nonneg (method_offsets_ c)) as H2.
  assert (class_record_ok c) as Hok.
  { unfold class_record_ok. unfold OatClass_SizeOf, exact in Hsz. lia32. }
  rewrite OatClass_SizeOf_wrap32 by done.
  split; [|split; [done|done]].
  rewrite Hp, OatClass_ranges_wrap32, len_OatClass_ranges by done. done.
Qed.

(** X2.  [OatClass::Write] and [OatClass::SizeOf] agree: for a record whose
    size fits 32 bits, a [Write] that succeeds has written the status and
    then the method offsets, and has advanced the stream by exactly
    [SizeOf()] bytes, 4 + 32 for each method. *)
Theorem OatClass_Write_SizeOf c out out' :
  OatClass_SizeOf exact c < 2 ^ 32 →
  OatClass_Write c out = Done () out' →
  position out' = position out + OatClass_SizeOf wrap32 c ∧
  OatClass_SizeOf wrap32 c = 4 + 32 * len (method_offsets_ c) ∧
  events out' = events out ++ written_from (position out) (OatClass_ranges wrap32 c).
Proof. apply OatClass_Write_Done. Qed.

Lemma OatClass_Write_SizeOf_witness :
  position (stream_of (OatClass_Write (new_OatClass kStatusNotReady 3) (fresh_stream [])))
  = 100.
Proof.
  destruct (OatClass_Write_SizeOf (new_OatClass kStatusNotReady 3) (fresh_stream [])
              (stream_of (OatClass_Write (new_OatClass kStatusNotReady 3) (fresh_stream []))))
    as (Hp & Hs & _).
  - vm_compute. reflexivity.
  - vm_compute. reflexivity.
  - rewrite Hp, Hs. reflexivity.
Defined.

(** *** Seeks *)

Lemma seek_Done offset whence expected out u out' :
  seek offset whence expected out = Done u out' →
  uint32_of_off_t (position out') = expected ∧
  ∃ target, events out' = events out ++ [Sought target (position out')].
Proof.
  unfold seek, Seek. destruct (decide _) as [Heq|]; [|done].
  intros H; invert H. simpl. split; [done|]. eauto.
Qed.

Lemma seek_not_Abort offset whence expected out out' :
  seek offset whence expected out ≠ Abort out'.
Proof. unfold seek, Seek. by destruct (decide _). Qed.

Lemma seek_stream_inv offset whence expected out :
  stream_inv out → stream_inv (stream_of (seek offset whence expected out)).
Proof.
  unfold seek, Seek, stream_inv. intros H.
  destruct (decide _); simpl; destruct (behaviour out); simpl; try done; by invert H.
Qed.

Lemma write_stream_inv what data out :
  stream_inv out → stream_inv (stream_of (write what data out)).
Proof.
  unfold write, WriteFully, stream_inv. intros H.
  destruct (behaviour out) as [|[|z] rest]; simpl; try done; by invert H.
Qed.

Lemma payload_writes_app evs1 evs2 :
  payload_writes (evs1 ++ evs2) = payload_writes evs1 ++ payload_writes evs2.
Proof. apply omap_app. Qed.

(** X4.  The second loop of [WriteTables]: if it succeeds, each DEX file
    was written, whole, at the position the seek reported, which as a
    32-bit value is the [dex_file_offset_] of its OatDexFile record; the
    payloads are those of the DEX files, in order. *)
Theorem WriteTables_dex_files_at_offsets E ds : ∀ i out out',
  WriteTables_dex_files E ds i out = Done () out' →
  ∃ evs,
    events out' = events out ++ evs ∧
    map (λ pw, uint32_of_off_t pw.1) (payload_writes evs) = map dex_file_offset_ ds ∧
    Forall2 (λ pw dex_file, pw.2 = range (wrap32 (file_size_ dex_file)) (dex_image dex_file))
            (payload_writes evs) (take (length ds) (drop i (dex_files E))).
Proof.
  induction ds as [|d ds IH]; intros i out out'; simpl.
  - intros H; invert H. exists []. rewrite app_nil_r. repeat split; constructor.
  - destruct (seek _ _ _ out) as [[] out1| |] eqn:H1; simpl; [|done..].
    apply seek_Done in H1 as (Hu & target & He1).
    destruct (dex_files E !! i) as [dex|] eqn:Hi; [|done].
    destruct (write _ _ out1) as [[] out2| |] eqn:H2; simpl; [|done..].
    apply write_Done in H2 as (Hp2 & He2 & _).
    intros H3. apply IH in H3 as (evs & He3 & Hpos & Hdata).
    exists ([Sought target (position out1); Written DexFilePayload (position out1)
               (range (wrap32 (file_size_ dex)) (dex_image dex))] ++ evs).
    split; [by rewrite He3, He2, He1, <- !app_assoc|].
    rewrite payload_writes_app. simpl. split; [by rewrite Hpos, Hu|].
    rewrite (drop_S _ dex) by done. simpl. by constructor.
Qed.

Lemma WriteTables_dex_files_at_offsets_witness :
  payload_writes
    (events (stream_of (WriteTables_dex_files Sample.E (oat_dex_files_ Sample.writer) 0
                          (fresh_stream []))))
  = [(60, dex_image Sample.dex)].
Proof.
  destruct (WriteTables_dex_files_at_offsets Sample.E (oat_dex_files_ Sample.writer) 0
              (fresh_stream [])
              (stream_of (WriteTables_dex_files Sample.E (oat_dex_files_ Sample.writer) 0
                            (fresh_stream []))))
    as (evs & He & Hpos & Hdata).
  - vm_compute. reflexivity.
  - vm_compute. reflexivity.
Defined.

(** *** A failed write ends the writing pass *)

Lemma stops_done {A} (failed : A → Prop) out a : stops_at_failure failed out (Done a out).
Proof. exists []. rewrite app_nil_r. split; [done|]. left. constructor. Qed.

Lemma stops_abort {A} (failed : A → Prop) out : stops_at_failure failed out (Abort out).
Proof. exists []. rewrite app_nil_r. split; [done|]. left. constructor. Qed.

Lemma stops_bind {A B} (fa : A → Prop) (fb : B → Prop) out (r : step A)
    (k : A → OutputStream → step B) :
  stops_at_failure fa out r →
  (∀ a out1, fa a → ∃ b, k a out1 = Done b out1 ∧ fb b) →
  (∀ a out1, stops_at_failure fb out1 (k a out1)) →
  stops_at_failure fb out (step_bind r k).
Proof.
  intros (evs & He & Hc) Hstop Hk. destruct r as [a out1|out1|out1]; simpl in *.
  - destruct Hc as [Hc|(evs0 & e & -> & Hc0 & Hf & Hfa)].
    + destruct (Hk a out1) as (evs2 & He2 & Hc2). exists (evs ++ evs2).
      split; [by rewrite He2, He, app_assoc|].
      destruct Hc2 as [Hc2|(evs0 & e & -> & Hc0 & Hf & Hr)].
      * left. by apply Forall_app.
      * right. exists (evs ++ evs0), e. rewrite app_assoc.
        repeat split; try done. by apply Forall_app.
    + destruct (Hstop a out1 Hfa) as (b & -> & Hb). exists (evs0 ++ [e]).
      split; [done|]. right. by exists evs0, e.
  - exists evs. split; [done|]. destruct Hc as [Hc|(evs0 & e & -> & Hc0 & Hf & _)].
    + by left.
    + right. by exists evs0, e.
  - exists evs. split; [done|]. destruct Hc as [Hc|(evs0 & e & -> & Hc0 & Hf & [])].
    by left.
Qed.

(** Binding a part that reports its failures by [Fail]. *)
Lemma stops_bind_unit {A B} (fb : B → Prop) out (r : step A)
    (k : A → OutputStream → step B) :
  stops_at_failure (λ _, False) out r →
  (∀ a out1, stops_at_failure fb out1 (k a out1)) →
  stops_at_failure fb out (step_bind r k).
Proof. intros Hr Hk. eapply stops_bind; [done| |done]. by intros a out1 []. Qed.

Lemma stops_weaken {A} (fa fb : A → Prop) out (r : step A) :
  (∀ a, fa a → fb a) → stops_at_failure fa out r → stops_at_failure fb out r.
Proof.
  intros Hab (evs & He & Hc). exists evs. split; [done|].
  destruct Hc as [Hc|(evs0 & e & -> & Hc0 & Hf & Hr)]; [by left|].
  right. exists evs0, e. repeat split; try done. destruct r; auto.
Qed.

Lemma stops_write (failed : unit → Prop) what data out :
  stops_at_failure failed out (write what data out).
Proof.
  destruct (write what data out) as [[] out1|out1|out1] eqn:H1.
  - apply write_Done in H1 as (_ & He & _). eexists. split; [exact He|].
    left. by repeat constructor.
  - apply write_Fail in H1 as (_ & He). eexists. split; [exact He|].
    right. eexists [], _. repeat split; try done.
  - by apply write_not_Abort in H1.
Qed.

Lemma stops_seek (failed : unit → Prop) offset whence expected out :
  stops_at_failure failed out (seek offset whence expected out).
Proof.
  unfold seek, Seek. destruct (decide _); simpl; eexists; (split; [done|]);
    left; by repeat constructor.
Qed.

Lemma stops_write_all (failed : unit → Prop) rs : ∀ out,
  stops_at_failure failed out (write_all rs out).
Proof.
  induction rs as [|r rs IH]; intros out; simpl; [apply stops_done|].
  eapply stops_bind_unit; [apply stops_write|]. intros _ out1. apply IH.
Qed.

Lemma stops_WriteTables_oat_dex_files (failed : unit → Prop) ds : ∀ out,
  stops_at_failure failed out (WriteTables_oat_dex_files ds out).
Proof.
  induction ds as [|d ds IH]; intros out; simpl; [apply stops_done|].
  eapply stops_bind_unit; [apply stops_write_all|]. intros _ out1. apply IH.
Qed.

Lemma stops_WriteTables_oat_classes (failed : unit → Prop) cs : ∀ out,
  stops_at_failure failed out (WriteTables_oat_classes cs out).
Proof.
  induction cs as [|c cs IH]; intros out; simpl; [apply stops_done|].
  eapply stops_bind_unit; [apply stops_write_all|]. intros _ out1. apply IH.
Qed.

Lemma stops_WriteTables_dex_files (failed : unit → Prop) E ds : ∀ i out,
  stops_at_failure failed out (WriteTables_dex_files E ds i out).
Proof.
  induction ds as [|d ds IH]; intros i out; simpl; [apply stops_done|].
  eapply stops_bind_unit; [apply stops_seek|]. intros _ out1.
  destruct (dex_files E !! i); [|apply stops_abort].
  eapply stops_bind_unit; [apply stops_write|]. intros _ out2. apply IH.
Qed.

Lemma stops_WriteTables (failed : unit → Prop) E w out :
  stops_at_failure failed out (WriteTables E w out).
Proof.
  unfold WriteTables.
  eapply stops_bind_unit; [apply stops_WriteTables_oat_dex_files|]. intros _ out1.
  eapply stops_bind_unit; [apply stops_WriteTables_dex_files|]. intros _ out2.
  apply stops_WriteTables_oat_classes.
Qed.

Lemma stops_WriteCode w out : stops_at_failure (λ c, c = 0) out (WriteCode w out).
Proof.
  unfold WriteCode.
  pose proof (stops_seek (λ _, False) (executable_offset_padding_length_ w) kSeekCurrent
                (GetExecutableOffset (oat_header_ w)) out) as (evs & He & Hc).
  destruct (seek _ _ _ out) as [[] out1|out1|out1]; simpl in *;
    exists evs; (split; [done|]);
    destruct Hc as [Hc|(evs0 & e & -> & Hc0 & Hf & Hr)]; try (by left); try done.
  right. by exists evs0, e.
Qed.

Lemma stops_WriteCodeMethod_align aligned code_offset out :
  stops_at_failure (λ _, False) out (WriteCodeMethod_align aligned code_offset out).
Proof.
  unfold WriteCodeMethod_align. destruct (decide _); [apply stops_done|].
  eapply stops_bind_unit; [apply stops_seek|]. intros _ out1. apply stops_done.
Qed.

Lemma stops_WriteCodeMethod_deduplicate E w code what_size what size offset recorded
    code_offset out :
  stops_at_failure (λ _, False) out
    (WriteCodeMethod_deduplicate E w code what_size what size offset recorded code_offset out).
Proof.
  unfold WriteCodeMethod_deduplicate. destruct (_ && _); [apply stops_done|].
  eapply stops_bind_unit; [apply stops_write|]. intros _ out1.
  eapply stops_bind_unit; [apply stops_write|]. intros _ out2. apply stops_done.
Qed.

Lemma stops_WriteCodeMethod_code E w cm mo code_offset out :
  stops_at_failure (λ _, False) out (WriteCodeMethod_code E w cm mo code_offset out).
Proof.
  unfold WriteCodeMethod_code.
  eapply stops_bind_unit; [apply stops_WriteCodeMethod_align|]. intros c out1.
  destruct (decide _); [apply stops_abort|]. apply stops_WriteCodeMethod_deduplicate.
Qed.

Lemma stops_WriteCodeMethod_invoke_stub E w stub mo code_offset out :
  stops_at_failure (λ _, False) out (WriteCodeMethod_invoke_stub E w stub mo code_offset out).
Proof.
  unfold WriteCodeMethod_invoke_stub.
  eapply stops_bind_unit; [apply stops_WriteCodeMethod_align|]. intros c out1.
  destruct (decide _); [apply stops_abort|]. apply stops_WriteCodeMethod_deduplicate.
Qed.

Lemma stops_WriteCodeMethod_mapping_table E w cm mo code_offset out :
  stops_at_failure (λ _, False) out
    (WriteCodeMethod_mapping_table E w cm mo code_offset out).
Proof.
  unfold WriteCodeMethod_mapping_table. destruct (_ && _); [apply stops_done|].
  eapply stops_bind_unit; [apply stops_write|]. intros _ out1. apply stops_done.
Qed.

Lemma stops_WriteCodeMethod_vmap_table E w cm mo code_offset out :
  stops_at_failure (λ _, False) out (WriteCodeMethod_vmap_table E w cm mo code_offset out).
Proof.
  unfold WriteCodeMethod_vmap_table. destruct (_ && _); [apply stops_done|].
  eapply stops_bind_unit; [apply stops_write|]. intros _ out1. apply stops_done.
Qed.

Lemma stops_WriteCodeMethod_gc_map E w cm mo code_offset out :
  stops_at_failure (λ _, False) out (WriteCodeMethod_gc_map E w cm mo code_offset out).
Proof.
  unfold WriteCodeMethod_gc_map. destruct (_ && _); [apply stops_done|].
  eapply stops_bind_unit; [apply stops_write|]. intros _ out1. apply stops_done.
Qed.

Lemma stops_WriteCodeMethod_compiled E w idx dex mo code_offset out :
  stops_at_failure (λ _, False) out (WriteCodeMethod_compiled E w idx dex mo code_offset out).
Proof.
  unfold WriteCodeMethod_compiled. destruct (GetCompiledMethod _ _ _); [|apply stops_done].
  eapply stops_bind_unit; [apply stops_WriteCodeMethod_code|]. intros c1 out1.
  eapply stops_bind_unit; [apply stops_WriteCodeMethod_mapping_table|]. intros c2 out2.
  eapply stops_bind_unit; [apply stops_WriteCodeMethod_vmap_table|]. intros c3 out3.
  apply stops_WriteCodeMethod_gc_map.
Qed.

Lemma stops_WriteCodeMethod E w out code_offset n k is_static idx dex :
  stops_at_failure (λ c, c = 0) out (WriteCodeMethod E w out code_offset n k is_static idx dex).
Proof.
  unfold WriteCodeMethod.
  assert (stops_at_failure (λ _ : Z, False) out
    (step_bind (WriteCodeMethod_compiled E w idx dex (method_offsets_at w n k) code_offset out)
       (λ code_offset out,
          match FindInvokeStub (compiler E) is_static (GetMethodShorty dex idx) with
          | Some stub =>
              WriteCodeMethod_invoke_stub E w stub (method_offsets_at w n k) code_offset out
          | None => Done code_offset out
          end))) as (evs & He & Hc).
  { eapply stops_bind_unit; [apply stops_WriteCodeMethod_compiled|]. intros c1 out1.
    destruct (FindInvokeStub _ _ _); [apply stops_WriteCodeMethod_invoke_stub|].
    apply stops_done. }
  destruct (step_bind _ _) as [c out1|out1|out1]; simpl in *; exists evs; (split; [done|]);
    destruct Hc as [Hc|(evs0 & e & -> & Hc0 & Hf & Hr)]; try (by left); try done.
  right. by exists evs0, e.
Qed.

Lemma stops_WriteCodeClassDef_methods E w direct ms : ∀ out code_offset n k dex,
  stops_at_failure (λ p, p.1 = 0) out
    (WriteCodeClassDef_methods E w direct ms out code_offset n k dex).
Proof.
  induction ms as [|m ms IH]; intros out code_offset n k dex; simpl; [apply stops_done|].
  eapply stops_bind; [apply stops_WriteCodeMethod| |].
  - intros c out1 ->. rewrite decide_True by done. by eexists.
  - intros c out1. destruct (decide _); [apply stops_done|apply IH].
Qed.

Lemma stops_WriteCodeClassDef E w out code_offset n dex cd :
  stops_at_failure (λ c, c = 0) out (WriteCodeClassDef E w out code_offset n dex cd).
Proof.
  unfold WriteCodeClassDef. destruct (class_data cd) as [d|]; [|apply stops_done].
  eapply stops_bind; [apply stops_WriteCodeClassDef_methods| |].
  - intros [c i] out1 Hc. simpl in Hc. subst c. rewrite decide_True by done. by eexists.
  - intros [c i] out1. destruct (decide _); [apply stops_done|].
    eapply stops_bind; [apply stops_WriteCodeClassDef_methods| |].
    + intros [c' i'] out2 Hc. simpl in Hc. subst c'. by eexists.
    + intros [c' i'] out2. apply stops_done.
Qed.

Lemma stops_WriteCodeDexFile_loop E w cds : ∀ out code_offset n dex,
  stops_at_failure (λ p, p.1 = 0) out (WriteCodeDexFile_loop E w cds out code_offset n dex).
Proof.
  induction cds as [|cd cds IH]; intros out code_offset n dex; simpl; [apply stops_done|].
  eapply stops_bind; [apply stops_WriteCodeClassDef| |].
  - intros c out1 ->. rewrite decide_True by done. by eexists.
  - intros c out1. destruct (decide _); [apply stops_done|apply IH].
Qed.

Lemma stops_WriteCodeDexFiles_loop E w ds : ∀ i out code_offset n,
  stops_at_failure (λ c, c = 0) out (WriteCodeDexFiles_loop E w ds i out code_offset n).
Proof.
  induction ds as [|d ds IH]; intros i out code_offset n; simpl; [apply stops_done|].
  destruct (dex_files E !! i) as [dex|]; [|apply stops_abort].
  eapply stops_bind; [apply stops_WriteCodeDexFile_loop| |].
  - intros [c n'] out1 Hc. simpl in Hc. subst c. rewrite decide_True by done. by eexists.
  - intros [c n'] out1. destruct (decide _); [apply stops_done|apply IH].
Qed.

(** A part that reports its failures by [Fail], read by a caller that
    returns [false] for them. *)
Lemma stops_returns_false out (r : step unit) (k : OutputStream → step bool) :
  stops_at_failure (λ _, False) out r →
  (∀ out1, stops_at_failure (λ b, b = false) out1 (k out1)) →
  stops_at_failure (λ b, b = false) out
    match r with
    | Fail out1 => Done false out1
    | Abort out1 => Abort out1
    | Done _ out1 => k out1
    end.
Proof.
  intros (evs & He & Hc) Hk. destruct r as [[] out1|out1|out1]; simpl in *.
  - destruct Hc as [Hc|(evs0 & e & -> & Hc0 & Hf & [])].
    destruct (Hk out1) as (evs2 & He2 & Hc2). exists (evs ++ evs2).
    split; [by rewrite He2, He, app_assoc|].
    destruct Hc2 as [Hc2|(evs0 & e & -> & Hc0 & Hf & Hr)].
    + left. by apply Forall_app.
    + right. exists (evs ++ evs0), e. rewrite app_assoc.
      repeat split; try done. by apply Forall_app.
  - exists evs. split; [done|]. destruct Hc as [Hc|(evs0 & e & -> & Hc0 & Hf & _)].
    + by left.
    + right. by exists evs0, e.
  - exists evs. split; [done|]. destruct Hc as [Hc|(evs0 & e & -> & Hc0 & Hf & [])].
    by left.
Qed.

Lemma stops_Write E w out : stops_at_failure (λ b, b = false) out (Write E w out).
Proof.
  unfold Write.
  apply stops_returns_false; [apply stops_write|]. intros out1.
  apply stops_returns_false; [apply stops_write|]. intros out2.
  apply stops_returns_false; [apply stops_WriteTables|]. intros out3.
  eapply stops_bind; [apply stops_WriteCode| |].
  - intros c out4 ->. rewrite decide_True by done. by eexists.
  - intros c out4. destruct (decide _); [apply stops_done|].
    eapply stops_bind; [apply stops_WriteCodeDexFiles_loop| |].
    + intros c' out5 ->. rewrite decide_True by done. by eexists.
    + intros c' out5. destruct (decide _); apply stops_done.
Qed.

(** X5.  Whatever the writer holds and however the stream behaves: either
    no [WriteFully] fails during [Write], or the first one that fails is
    the last call [Write] makes of the stream, and [Write] returns
    [false]. *)
Theorem Write_stops_at_failed_write E w out :
  ∃ evs,
    events (stream_of (Write E w out)) = events out ++ evs ∧
    (Forall (λ e, is_WriteFailed e = false) evs ∨
     ∃ evs0 e,
       evs = evs0 ++ [e] ∧ Forall (λ e, is_WriteFailed e = false) evs0 ∧
       is_WriteFailed e = true ∧ Write E w out = Done false (stream_of (Write E w out))).
Proof.
  destruct (stops_Write E w out) as (evs & He & Hc). exists evs. split; [done|].
  destruct Hc as [Hc|(evs0 & e & -> & Hc0 & Hf & Hr)]; [by left|].
  right. exists evs0, e. repeat split; try done.
  pose proof (never_fails_Write E w out) as Hnf.
  destruct (Write E w out) as [b out1| |]; try done. simpl. by subst b.
Qed.

(** *** The journal of the table phases *)

Lemma seek_Done_exact offset whence expected out u out' :
  stream_inv out → 0 <= offset < 2 ^ 31 → 0 <= expected < 2 ^ 31 →
  expected = match whence with
             | kSeekSet => offset
             | kSeekCurrent => position out + offset
             end →
  seek offset whence expected out = Done u out' →
  position out' = expected ∧ events out' = events out ++ [Sought expected expected].
Proof.
  intros Hinv Hoff Hexp Heq Hr.
  destruct (ptracks_seek (λ e, e = Sought expected expected) offset whence expected out
              Hinv Hoff Hexp Heq eq_refl) as [T Em].
  rewrite Hr in T. destruct T as (_ & _ & _ & _ & _ & Hpos & _). split; [done|].
  destruct (Em u out' Hr) as (evs & He & HP).
  apply seek_Done in Hr as (_ & target & He').
  rewrite He' in He. apply app_inv_head in He. subst evs.
  invert HP. rewrite He'. by rewrite H1.
Qed.

Lemma WriteTables_oat_dex_files_events ds : ∀ out out',
  Forall (λ d, dex_file_location_size_ d = len (dex_file_location_data_ d) ∧
               OatDexFile_SizeOf exact d < 2 ^ 32) ds →
  WriteTables_oat_dex_files ds out = Done () out' →
  events out' = events out
                ++ records_from (OatDexFile_ranges wrap32) (OatDexFile_SizeOf wrap32)
                     (position out) ds.
Proof.
  induction ds as [|d ds IH]; intros out out' Hok; simpl.
  - intros H; invert H. by rewrite app_nil_r.
  - invert Hok. destruct H1 as [Hloc Hsz].
    destruct (OatDexFile_Write d out) as [[] out1| |] eqn:H1; simpl; [|done..].
    apply OatDexFile_Write_Done in H1 as (Hp & He); [|done..].
    intros Hrest. apply IH in Hrest; [|done]. by rewrite Hrest, He, Hp, <- app_assoc.
Qed.

Lemma WriteTables_oat_classes_events cs : ∀ out out',
  Forall (λ c, OatClass_SizeOf exact c < 2 ^ 32) cs →
  WriteTables_oat_classes cs out = Done () out' →
  events out' = events out
                ++ records_from (OatClass_ranges wrap32) (OatClass_SizeOf wrap32)
                     (position out) cs.
Proof.
  induction cs as [|c cs IH]; intros out out' Hok; simpl.
  - intros H; invert H. by rewrite app_nil_r.
  - invert Hok.
    destruct (OatClass_Write c out) as [[] out1| |] eqn:HW; simpl; [|done..].
    apply OatClass_Write_Done in HW as (Hp & _ & He); [|done].
    intros Hrest. apply IH in Hrest; [|done]. by rewrite Hrest, He, Hp, <- app_assoc.
Qed.

Lemma WriteTables_dex_files_events E dfs : ∀ ds i o o' out out',
  dex_layout dfs o (map dex_file_offset_ ds) o' →
  (∀ j, dfs !! j = dex_files E !! (i + j)%nat) →
  0 <= o → o' < 2 ^ 31 → stream_inv out →
  WriteTables_dex_files E ds i out = Done () out' →
  events out' = events out ++ payload_events ds dfs.
Proof.
  induction dfs as [|d dfs IH]; intros [|x ds] i o o' out out'; simpl; try done.
  - intros _ _ _ _ _ H; invert H. by rewrite app_nil_r.
  - intros [Ha Hlay] Hsuf Ho Ho' Hinv.
    pose proof (RoundUp_exact o 4 ltac:(lia)) as [Hr _].
    pose proof (dex_layout_le _ _ _ _ Hlay) as Hle.
    pose proof (len_nonneg (dex_image d)) as Hl. unfold file_size_ in *.
    pose proof (seek_stream_inv (dex_file_offset_ x) kSeekSet (dex_file_offset_ x) out Hinv)
      as Hinv1.
    destruct (seek _ _ _ out) as [[] out1| |] eqn:H1; simpl; [|done..].
    apply seek_Done_exact in H1 as (Hp1 & He1); [|done|lia32|lia32|done].
    pose proof (Hsuf 0%nat) as H0. simpl in H0. rewrite Nat.add_0_r in H0. rewrite <- H0.
    rewrite wrap32_small by lia32. rewrite range_all by done.
    pose proof (write_stream_inv DexFilePayload (dex_image d) out1 Hinv1) as Hinv2.
    destruct (write _ _ out1) as [[] out2| |] eqn:H2; simpl; [|done..].
    apply write_Done in H2 as (Hp2 & He2 & _).
    intros Hrest. eapply IH in Hrest; [|exact Hlay| |lia|done|done].
    + rewrite Hrest, He2, He1, Hp1, <- !app_assoc. done.
    + intros j. specialize (Hsuf (S j)). simpl in Hsuf. rewrite Hsuf. f_equal. lia.
Qed.

Lemma WriteCode_events w out o4 o5 c out' :
  stream_inv out → position out = o4 → 0 <= o4 → o4 <= o5 < 2 ^ 31 →
  hdr_executable_offset (oat_header_ w) = o5 →
  executable_offset_padding_length_ w = o5 - o4 →
  WriteCode w out = Done c out' → c ≠ 0 →
  events out' = events out ++ [Sought o5 o5].
Proof.
  intros Hinv Hpos H4 H5 He Hp. unfold WriteCode, GetExecutableOffset.
  rewrite He, Hp.
  destruct (seek (o5 - o4) kSeekCurrent o5 out) as [[] out1|out1|out1] eqn:Hs; simpl;
    intros H Hc; invert H; [|done].
  apply seek_Done_exact in Hs as (_ & Hev); [done|done|lia32|lia32|simpl; lia].
Qed.

(** ** The claims on the layout, the checksum and the interning *)

(** C1, the counterexample.  On the sample input [Write] succeeds and
    leaves the stream at position 4128, the final offset of the planning
    pass, but the last byte it writes ends at 4122: the last method has
    nothing new to write, and the alignment before its code is only sought
    over. *)
Lemma written_length_counterexample :
  ∃ out',
    OatWriter_new wrap32 Sample.E ∅ = Some (4128, Sample.writer) ∧
    Write Sample.E Sample.writer (fresh_stream []) = Done true out' ∧
    position out' = 4128 ∧
    written_end (events out') = 4122.
Proof. eexists. vm_compute. repeat split; reflexivity. Qed.

(** C1, amended.  For every admissible input whose planned file fits the
    offsets of the platform, the program's constructor (32-bit arithmetic)
    returns the planned length [L]; and whenever [Write] succeeds on a
    stream opened at position 0, the stream position at each checkpoint of
    the writing pass is the offset the planning pass computed for it.
    After each phase: after the header ([sizeof_OatHeader]), after the
    image-location string, after the OatDexFile records, after the embedded
    DEX payloads, after the OatClass records, after the executable gap
    (where [WriteCode] also returns that offset), and at the end, where the
    final position of the stream is the final offset [L] of the planning
    pass, which [WriteCodeDexFiles] returns.  Within the phases, the
    calls of the stream are these, in this order: the header at 0; the
    image location after it; each OatDexFile record, field by field, where
    the record before it ended, the first at [o1]; for each DEX file a seek
    that lands on the offset stored in its OatDexFile record and its
    payload written there; each OatClass record where the one before it
    ended, the first at [o3]; the seek over the executable gap that lands
    on [o5]; and then only seeks that land on their targets and, for a
    method of the input, writes of an artifact of that method (code size,
    code, mapping table, vmap table, GC map, stub size, stub) at the
    position the OatMethodOffsets record of that method gives for it.  The
    end of the last byte written is not part of the statement: it can be
    below [L]. *)
Theorem Write_position_follows_plan E rt L w o1 o2 o3 o4 o5 out out' :
  plans E rt L w →
  phase_offsets wrap32 E rt = (o1, o2, o3, o4, o5) →
  stream_inv out → position out = 0 →
  Write E w out = Done true out' →
  OatWriter_new wrap32 E rt = Some (L, w) ∧
  (∃ out1 out2 out3 out4 out5 out6,
    write OatHeaderStruct (OatHeader_bytes (oat_header_ w)) out = Done () out1 ∧
    position out1 = sizeof_OatHeader ∧
    write ImageFileLocation
      (range (wrap32 (len (image_file_location E))) (image_file_location E)) out1
    = Done () out2 ∧
    position out2 = o1 ∧
    WriteTables_oat_dex_files (oat_dex_files_ w) out2 = Done () out3 ∧
    position out3 = o2 ∧
    WriteTables_dex_files E (oat_dex_files_ w) 0 out3 = Done () out4 ∧
    position out4 = o3 ∧
    WriteTables_oat_classes (oat_classes_ w) out4 = Done () out5 ∧
    position out5 = o4 ∧
    WriteCode w out5 = Done o5 out6 ∧
    position out6 = o5 ∧
    WriteCodeDexFiles E w out6 o5 = Done L out' ∧
    position out' = L) ∧
  ∃ evs_code,
    events out'
    = events out
      ++ [Written OatHeaderStruct 0 (OatHeader_bytes (oat_header_ w));
          Written ImageFileLocation sizeof_OatHeader (image_file_location E)]
      ++ records_from (OatDexFile_ranges wrap32) (OatDexFile_SizeOf wrap32) o1
           (oat_dex_files_ w)
      ++ payload_events (oat_dex_files_ w) (dex_files E)
      ++ records_from (OatClass_ranges wrap32) (OatClass_SizeOf wrap32) o3 (oat_classes_ w)
      ++ Sought o5 o5 :: evs_code ∧
    Forall (placed E w) evs_code.
Proof.
  intros Hp Hoffs Hinv Hpos HW.
  destruct (plans_bounds _ _ _ _ Hp)
    as (p1 & p2 & p3 & p4 & p5 & He & Hw32 & H01 & _).
  rewrite Hoffs in Hw32. injection Hw32 as <- <- <- <- <-.
  split. { destruct Hp as (? & ? & ?). by apply bridge_OatWriter_new. }
  pose proof (Write_phases_placed _ _ _ _ _ _ _ _ _ Hp He) as Ph.
  unfold Write, WriteTables in HW.
  destruct (Ph out Hinv)
    as (T1 & _ & _ & _ & _ & _ & _ & Fd & Flay & Fc & Fexe & Fpad & F2 & F3 & F4 & F5).
  specialize (T1 Hpos).
  destruct (write OatHeaderStruct _ out) as [[] out1| |] eqn:E1; try done.
  destruct (tracks_Done _ _ _ _ _ _ _ T1 eq_refl) as (_ & P1 & _).
  pose proof T1 as (I1 & _). simpl in I1.
  destruct (Ph out1 I1) as (_ & T2 & _). specialize (T2 P1).
  destruct (write ImageFileLocation _ out1) as [[] out2| |] eqn:E2; try done.
  destruct (tracks_Done _ _ _ _ _ _ _ T2 eq_refl) as (_ & P2 & evs2 & Hevs2 & _ & Hws2).
  pose proof T2 as (I2 & _). simpl in I2.
  destruct (Ph out2 I2) as (_ & _ & T3 & _). specialize (T3 P2).
  destruct (WriteTables_oat_dex_files _ out2) as [[] out3| |] eqn:E3; try done.
  destruct (tracks_Done _ _ _ _ _ _ _ T3 eq_refl) as (_ & P3 & _).
  pose proof T3 as (I3 & _). simpl in I3, HW.
  destruct (Ph out3 I3) as (_ & _ & _ & T4 & _). specialize (T4 P3).
  destruct (WriteTables_dex_files _ _ _ out3) as [[] out4| |] eqn:E4; try done.
  destruct (tracks_Done _ _ _ _ _ _ _ T4 eq_refl) as (_ & P4 & _).
  pose proof T4 as (I4 & _). simpl in I4, HW.
  destruct (Ph out4 I4) as (_ & _ & _ & _ & T5 & _). specialize (T5 P4).
  destruct (WriteTables_oat_classes _ out4) as [[] out5| |] eqn:E5; try done.
  destruct (tracks_Done _ _ _ _ _ _ _ T5 eq_refl) as (_ & P5 & _).
  pose proof T5 as (I5 & _). simpl in I5, HW.
  destruct (Ph out5 I5) as (_ & _ & _ & _ & _ & T6 & _). specialize (T6 P5).
  destruct (WriteCode w out5) as [c6 out6| |] eqn:E6; try done. simpl in HW.
  destruct (decide (c6 = 0)) as [|Hc6]; [done|].
  destruct (tracks_reported_Done id _ _ _ _ _ _ _ T6 eq_refl Hc6) as (-> & P6 & _).
  assert (stream_inv out6) as I6.
  { destruct T6 as (I6 & _). simpl in I6. by rewrite decide_False in I6. }
  destruct (Ph out6 I6) as (_ & _ & _ & _ & _ & _ & T7 & _).
  destruct (T7 P6) as (ws & T7' & Em7).
  destruct (WriteCodeDexFiles E w out6 o5) as [c7 out7| |] eqn:E7; try done. simpl in HW.
  destruct (decide (c7 = 0)) as [|Hc7]; [done|].
  destruct (tracks_reported_Done id _ _ _ _ _ _ _ T7' eq_refl Hc7) as (-> & P7 & _).
  injection HW as <-.
  split. { exists out1, out2, out3, out4, out5, out6. repeat split; done. }
  destruct (Em7 L out7) as (evs & Hev7 & HP7).
  { simpl. by rewrite decide_False. }
  exists evs. split; [|done].
  pose proof (len_nonneg (image_file_location E)) as Hloc.
  apply write_Done in E1 as (_ & Hev1 & _).
  apply write_Done in E2 as (_ & Hev2 & _).
  rewrite Hev2 in Hevs2. apply app_inv_head in Hevs2. subst evs2.
  injection Hws2 as Hrange. rewrite Hrange in Hev2.
  apply WriteTables_oat_dex_files_events in E3 as Hev3; [|done].
  eapply WriteTables_dex_files_events in E4 as Hev4;
    [|exact Flay|done|done|done|done].
  apply WriteTables_oat_classes_events in E5 as Hev5; [|done].
  eapply WriteCode_events in E6 as Hev6; [|done|done|done|done|done|done|done].
  rewrite Hev7, Hev6, Hev5, Hev4, Hev3, Hev2, Hev1, Hpos, P1, P2, P4.
  by rewrite <- !app_assoc.
Qed.

Lemma Write_position_follows_plan_witness :
  OatWriter_new wrap32 Sample.E ∅ = Some (Sample.planned_length, Sample.writer) ∧
  position (stream_of (Write Sample.E Sample.writer (fresh_stream [])))
  = Sample.planned_length.
Proof.
  destruct (Write_position_follows_plan Sample.E ∅ Sample.planned_length Sample.writer
              36 59 67 171 4096 (fresh_stream [])
              (stream_of (Write Sample.E Sample.writer (fresh_stream []))))
    as (Hnew & (out1 & out2 & out3 & out4 & out5 & out6 & H) & _).
  - exact Sample_plans.
  - vm_compute; reflexivity.
  - constructor.
  - reflexivity.
  - vm_compute; reflexivity.
  - split; [exact Hnew|]. apply H.
Defined.

(** *** The parts of [InitOatCodeMethod] *)

Lemma InitOatCodeMethod_inv cast E offset n k type idx dex w offset' w' :
  InitOatCodeMethod cast E offset n k type idx dex w = Some (offset', w') →
  ∃ mo o1 w1 r w2,
    InitOatCodeMethod_compiled cast E idx dex offset w = Some (mo, o1, w1) ∧
    match FindInvokeStub (compiler E) (bool_decide (type = kStatic))
            (GetMethodShorty dex idx) with
    | Some stub => InitOatCodeMethod_invoke_stub cast E stub o1 w1
    | None => Some (0, o1, w1)
    end = Some (r, offset', w2) ∧
    oat_classes_ w'
    = alter (set_method_offsets k (set_invoke_stub_offset r mo)) n (oat_classes_ w) ∧
    code_offsets_ w' = code_offsets_ w2 ∧
    table_maps w' = table_maps w2 ∧
    oat_header_ w' = oat_header_ w2.
Proof.
  unfold InitOatCodeMethod.
  destruct (InitOatCodeMethod_compiled _ _ _ _ _ _) as [[[mo o1] w1]|] eqn:H1; [|done].
  simpl.
  assert (∀ r o2 w2,
    match FindInvokeStub (compiler E) (bool_decide (type = kStatic))
                         (GetMethodShorty dex idx) with
    | Some stub => InitOatCodeMethod_invoke_stub cast E stub o1 w1
    | None => Some (0, o1, w1)
    end = Some (r, o2, w2) → frame w1 w2) as Hstub.
  { intros r o2 w2. destruct (FindInvokeStub _ _ _).
    - apply frame_invoke_stub.
    - by intros [= <- <- <-]. }
  destruct (match FindInvokeStub _ _ _ with Some _ => _ | None => _ end)
    as [[[r o2] w2]|] eqn:H2; [|done].
  simpl. destruct (Hstub _ _ _ eq_refl) as (Hc2 & _).
  pose proof (frame_compiled _ _ _ _ _ _ _ _ _ H1) as (Hc1 & _).
  unfold InitOatCodeMethod_image.
  destruct (IsImage _).
  - destruct (ResolveMethod _ _ _ _) as [a|]; [|done]. simpl.
    destruct (runtime_methods _ !! a) as [m|]; [|done]. simpl.
    intros [= <- <-]. exists mo, o1, w1, r, w2. simpl. by rewrite Hc2, Hc1.
  - intros [= <- <-]. exists mo, o1, w1, r, w2. simpl. by rewrite Hc2, Hc1.
Qed.

Lemma InitOatCodeMethod_compiled_inv cast E idx dex offset w mo o' w' cm :
  GetCompiledMethod (compiler E) (dex_addr dex) idx = Some cm →
  InitOatCodeMethod_compiled cast E idx dex offset w = Some (mo, o', w') →
  ∃ c o1 w1 m o2 w2 v o3 w3 g,
    InitOatCodeMethod_code cast E cm offset w = Some (c, o1, w1) ∧
    InitOatCodeMethod_mapping_table cast E cm o1 w1 = (m, o2, w2) ∧
    InitOatCodeMethod_vmap_table cast E cm o2 w2 = (v, o3, w3) ∧
    InitOatCodeMethod_gc_map cast E cm o3 w3 = (g, o', w') ∧
    mo = {| code_offset_ := c;
            frame_size_in_bytes_ := cm_frame_size_in_bytes cm;
            core_spill_mask_ := cm_core_spill_mask cm;
            fp_spill_mask_ := cm_fp_spill_mask cm;
            mapping_table_offset_ := m; vmap_table_offset_ := v; gc_map_offset_ := g;
            invoke_stub_offset_ := 0 |}.
Proof.
  intros Hcm. unfold InitOatCodeMethod_compiled. rewrite Hcm.
  destruct (InitOatCodeMethod_code cast E cm offset w) as [[[c o1] w1]|] eqn:H1; [|done].
  simpl.
  destruct (InitOatCodeMethod_mapping_table cast E cm o1 w1) as [[m o2] w2] eqn:H2.
  destruct (InitOatCodeMethod_vmap_table cast E cm o2 w2) as [[v o3] w3] eqn:H3.
  destruct (InitOatCodeMethod_gc_map cast E cm o3 w3) as [[g o4] w4] eqn:H4.
  intros [= <- <- <-]. by exists c, o1, w1, m, o2, w2, v, o3, w3, g.
Qed.

(** The blocks of the code phase and the tables they do not own. *)
Lemma table_maps_code cast E cm offset w r o' w' :
  InitOatCodeMethod_code cast E cm offset w = Some (r, o', w') → table_maps w' = table_maps w.
Proof.
  unfold InitOatCodeMethod_code. destruct (decide _); [done|].
  intros [= H]. by eapply table_maps_deduplicate.
Qed.

Lemma table_maps_invoke_stub cast E stub offset w r o' w' :
  InitOatCodeMethod_invoke_stub cast E stub offset w = Some (r, o', w') →
  table_maps w' = table_maps w.
Proof.
  unfold InitOatCodeMethod_invoke_stub. destruct (decide _); [done|].
  intros [= H]. by eapply table_maps_deduplicate.
Qed.

Lemma mapping_table_others cast E cm offset w r o' w' :
  InitOatCodeMethod_mapping_table cast E cm offset w = (r, o', w') →
  vmap_table_offsets_ w' = vmap_table_offsets_ w ∧
  gc_map_offsets_ w' = gc_map_offsets_ w ∧ code_offsets_ w' = code_offsets_ w.
Proof.
  unfold InitOatCodeMethod_mapping_table.
  destruct (mapping_table_offsets_ w !! _); intros [= <- <- <-]; done.
Qed.

Lemma vmap_table_others cast E cm offset w r o' w' :
  InitOatCodeMethod_vmap_table cast E cm offset w = (r, o', w') →
  mapping_table_offsets_ w' = mapping_table_offsets_ w ∧
  gc_map_offsets_ w' = gc_map_offsets_ w ∧ code_offsets_ w' = code_offsets_ w.
Proof.
  unfold InitOatCodeMethod_vmap_table.
  destruct (vmap_table_offsets_ w !! _); intros [= <- <- <-]; done.
Qed.

Lemma gc_map_others cast E cm offset w r o' w' :
  InitOatCodeMethod_gc_map cast E cm offset w = (r, o', w') →
  mapping_table_offsets_ w' = mapping_table_offsets_ w ∧
  vmap_table_offsets_ w' = vmap_table_offsets_ w ∧ code_offsets_ w' = code_offsets_ w.
Proof.
  unfold InitOatCodeMethod_gc_map.
  destruct (gc_map_offsets_ w !! _); intros [= <- <- <-]; done.
Qed.

(** C9.  For a method with a compiled method, the record that
    [InitOatCodeMethod] stores for it holds, for the mapping table, the
    vmap table and the GC map in this order, the offset the interning rule
    gives: the tentative offset of a table is the offset cursor where the
    table is met (no size prefix, no code delta), or 0 if the table has no
    bytes; a table whose identity is not yet interned is interned and
    recorded at the tentative offset and the cursor advances by its byte
    size; for a table already interned the stored offset is recorded and
    the cursor stays.  The cursor of the mapping table is the one the code
    block leaves, the cursor of each later table the one the table before
    it leaves, and the invoke-stub part starts where the GC map leaves it.
    A table without bytes is recorded at offset 0 in either case, since the
    offsets interned for such tables are 0, which the call keeps true. *)
Theorem table_offsets_rule E offset oat_class_index class_def_method_index type
    method_idx dex_file w offset' w' compiled_method :
  tables_zero E w →
  GetCompiledMethod (compiler E) (dex_addr dex_file) method_idx = Some compiled_method →
  InitOatCodeMethod wrap32 E offset oat_class_index class_def_method_index type
    method_idx dex_file w = Some (offset', w') →
  let mapping_size :=
    wrap32 (len (vec32 (memory E) (cm_mapping_table compiled_method)) * 4) in
  let vmap_size := wrap32 (len (vec16 (memory E) (cm_vmap_table compiled_method)) * 2) in
  let gc_size := wrap32 (len (vec8 (memory E) (cm_native_gc_map compiled_method)) * 1) in
  ∃ mo code_offset o1 w1 o2 o3 o4,
    oat_classes_ w'
    = alter (set_method_offsets class_def_method_index mo) oat_class_index (oat_classes_ w) ∧
    InitOatCodeMethod_code wrap32 E compiled_method offset w = Some (code_offset, o1, w1) ∧
    spec_intern_table (mapping_table_offsets_ w) (cm_mapping_table compiled_method)
      mapping_size o1 (mapping_table_offset_ mo) o2 (mapping_table_offsets_ w') ∧
    spec_intern_table (vmap_table_offsets_ w) (cm_vmap_table compiled_method)
      vmap_size o2 (vmap_table_offset_ mo) o3 (vmap_table_offsets_ w') ∧
    spec_intern_table (gc_map_offsets_ w) (cm_native_gc_map compiled_method)
      gc_size o3 (gc_map_offset_ mo) o4 (gc_map_offsets_ w') ∧
    (mapping_size = 0 → mapping_table_offset_ mo = 0) ∧
    (vmap_size = 0 → vmap_table_offset_ mo = 0) ∧
    (gc_size = 0 → gc_map_offset_ mo = 0) ∧
    match FindInvokeStub (compiler E) (bool_decide (type = kStatic))
            (GetMethodShorty dex_file method_idx) with
    | Some compiled_invoke_stub =>
        ∃ w4 w5, InitOatCodeMethod_invoke_stub wrap32 E compiled_invoke_stub o4 w4
                 = Some (invoke_stub_offset_ mo, offset', w5)
    | None => offset' = o4
    end ∧
    tables_zero E w'.
Proof.
  intros Hz Hcm H. simpl.
  apply InitOatCodeMethod_inv in H as (mo & o4 & w4 & r & w5 & Hc & Hs & Hcl & _ & Ht & _).
  eapply InitOatCodeMethod_compiled_inv in Hc
    as (c & o1 & w1 & m & o2 & w2 & v & o3 & w3 & g & H1 & H2 & H3 & H4 & Hmo); [|done].
  subst mo.
  pose proof (table_maps_code _ _ _ _ _ _ _ _ H1) as Ht1.
  assert (tables_zero E w1) as Hz1 by (by eapply tables_zero_table_maps).
  destruct (mapping_table_rule _ _ _ _ _ _ _ Hz1 H2) as (S2 & Z2 & Hz2).
  destruct (vmap_table_rule _ _ _ _ _ _ _ Hz2 H3) as (S3 & Z3 & Hz3).
  destruct (gc_map_rule _ _ _ _ _ _ _ Hz3 H4) as (S4 & Z4 & Hz4).
  destruct (mapping_table_others _ _ _ _ _ _ _ _ H2) as (Hv2 & Hg2 & _).
  destruct (vmap_table_others _ _ _ _ _ _ _ _ H3) as (Hm3 & Hg3 & _).
  destruct (gc_map_others _ _ _ _ _ _ _ _ H4) as (Hm4 & Hv4 & _).
  assert (table_maps w5 = table_maps w4) as Ht5.
  { destruct (FindInvokeStub _ _ _).
    - by eapply table_maps_invoke_stub.
    - by injection Hs as _ _ <-. }
  unfold table_maps in Ht, Ht1, Ht5.
  injection Ht as Htm Htv Htg. injection Ht1 as Htm1 Htv1 Htg1.
  injection Ht5 as Htm5 Htv5 Htg5.
  exists (set_invoke_stub_offset r
            {| code_offset_ := c;
               frame_size_in_bytes_ := cm_frame_size_in_bytes compiled_method;
               core_spill_mask_ := cm_core_spill_mask compiled_method;
               fp_spill_mask_ := cm_fp_spill_mask compiled_method;
               mapping_table_offset_ := m; vmap_table_offset_ := v; gc_map_offset_ := g;
               invoke_stub_offset_ := 0 |}), c, o1, w1, o2, o3, o4.
  simpl. split; [done|]. split; [done|].
  split. { by rewrite Htm, Htm5, Hm4, Hm3, <- Htm1. }
  split. { by rewrite Htv, Htv5, Hv4, <- Htv1, <- Hv2. }
  split. { by rewrite Htg, Htg5, <- Htg1, <- Hg2, <- Hg3. }
  repeat (split; [done|]).
  split.
  - destruct (FindInvokeStub _ _ _); [by exists w4, w5|]. by injection Hs as _ <- _.
  - eapply tables_zero_table_maps; [|exact Hz4].
    unfold table_maps. by rewrite Htm, Htv, Htg, Htm5, Htv5, Htg5.
Qed.

Lemma table_offsets_rule_witness :
  ∃ w', InitOatCodeMethod wrap32 Sample.E 4096 0 0 kDirect 0 Sample.dex
          Sample.writer_before_code = Some (4122, w') ∧
        (mapping_table_offset_ <$> method_offsets_of w' 0 0) = Some 4105 ∧
        (vmap_table_offset_ <$> method_offsets_of w' 0 0) = Some 0.
Proof.
  assert (∃ w', InitOatCodeMethod wrap32 Sample.E 4096 0 0 kDirect 0 Sample.dex
                  Sample.writer_before_code = Some (4122, w')) as [w' H]
    by (eexists; vm_compute; reflexivity).
  exists w'. split; [exact H|].
  destruct (table_offsets_rule Sample.E 4096 0 0 kDirect 0 Sample.dex
              Sample.writer_before_code 4122 w' Sample.cm
              (tables_zero_plan_tables Sample.E ∅) eq_refl H)
    as (mo & c & o1 & w1 & o2 & o3 & o4 & Hcl & H1 & Hm & Hv & _).
  vm_compute in H1. injection H1 as <- <- <-.
  unfold spec_intern_table in Hm, Hv.
  change (mapping_table_offsets_ Sample.writer_before_code !! cm_mapping_table Sample.cm)
    with (@None Z) in Hm.
  change (vmap_table_offsets_ Sample.writer_before_code !! cm_vmap_table Sample.cm)
    with (@None Z) in Hv.
  destruct Hm as (Hm & -> & _). destruct Hv as (Hv & _).
  unfold method_offsets_of. rewrite Hcl.
  set (cs := oat_classes_ Sample.writer_before_code). vm_compute in cs. subst cs.
  simpl. rewrite Hm, Hv. split; reflexivity.
Defined.

(** *** One method in the two passes *)

Lemma ptracks_reported_Done {A} P (z : A → Z) out (r : step A) a o ws c out' :
  ptracks P out (reported z r) a o ws → r = Done c out' → z c ≠ 0 →
  c = a ∧ position out' = o ∧
  ∃ evs, events out' = events out ++ evs ∧ writes_of evs = ws ∧ Forall P evs.
Proof.
  intros [Ht Em] Hr Hz.
  destruct (tracks_reported_Done _ _ _ _ _ _ _ _ Ht Hr Hz) as (-> & Hpos & evs & Hev & _ & Hws).
  split; [done|]. split; [done|]. exists evs. split; [done|]. split; [done|].
  destruct (Em a out') as (evs' & Hev' & HP).
  { rewrite Hr. simpl. by rewrite decide_False. }
  rewrite Hev in Hev'. apply app_inv_head in Hev'. by subst evs'.
Qed.

(** What the writing pass does for a method is what the planning pass
    planned for it. *)
Lemma method_step E o n k type idx dex w o' w' :
  plans_method E o n k type idx dex w o' w' →
  InitOatCodeMethod wrap32 E o n k type idx dex w = Some (o', w') ∧
  o ≤ o' ∧ Inv o' w' ∧ extends w w' ∧
  ∃ mo cks,
    method_offsets_of w' n k = Some mo ∧
    hdr_checksum_ranges (oat_header_ w') = hdr_checksum_ranges (oat_header_ w) ++ cks ∧
    ∀ wf out c out',
      extends w' wf → method_offsets_of wf n k = Some mo →
      stream_inv out → position out = o →
      WriteCodeMethod E wf out o n k (bool_decide (type = kStatic)) idx dex = Done c out' →
      c ≠ 0 →
      c = o' ∧ position out' = o' ∧
      ∃ evs, events out' = events out ++ evs ∧ covers (writes_of evs) cks ∧
             Forall (method_event E mo dex idx (bool_decide (type = kStatic))) evs.
Proof.
  intros (Hadm & HI & Hslot & Hrun & Ho').
  split; [by apply bridge_method|].
  eapply lockstep_method in Hrun as (cks & mo & P & Hmo & _ & G); [|done..].
  destruct P as (Hle & HI' & Hext & Hck).
  repeat (split; [done|]). exists mo, cks. repeat (split; [done|]).
  intros wf out c out' Hwf Hrec Hinv Hpos HW Hc.
  destruct (G wf Hwf Hrec Ho') as (ws & Hcov & T).
  specialize (T (method_event E mo dex idx (bool_decide (type = kStatic))) out).
  assert (ptracks (method_event E mo dex idx (bool_decide (type = kStatic))) out
            (reported id (WriteCodeMethod E wf out o n k (bool_decide (type = kStatic))
                            idx dex)) o' o' ws) as T'.
  { apply T; [| | |done|done].
    - intros t. left. by exists t.
    - intros cm Hcm. apply Forall_forall. intros e He. right. left. by exists cm.
    - intros s Hs. apply Forall_forall. intros e He. right. right. by exists s. }
  destruct (ptracks_reported_Done _ id _ _ _ _ _ _ _ T' HW Hc)
    as (-> & Hp & evs & Hev & Hws & HP).
  split; [done|]. split; [done|]. exists evs. by rewrite Hws.
Qed.

(** *** What a call of [InitOatCodeMethod] folds into the checksum *)

Lemma deduplicate_folds cast E code what size code_offset offset w r o' w' :
  InitOatCodeMethod_deduplicate cast E code what size code_offset offset w = (r, o', w') →
  hdr_checksum_ranges (oat_header_ w')
  = hdr_checksum_ranges (oat_header_ w)
    ++ folded_if_new (code_offsets_ w) code what (range size (code_bytes (memory E) code)) ∧
  code_offsets_ w ⊆ code_offsets_ w'.
Proof.
  unfold InitOatCodeMethod_deduplicate, folded_if_new.
  destruct (code_offsets_ w !! code) eqn:Hl; intros [= <- <- <-]; simpl.
  - by rewrite app_nil_r.
  - split; [done|]. by apply insert_subseteq.
Qed.

Lemma code_folds cast E cm offset w r o' w' :
  InitOatCodeMethod_code cast E cm offset w = Some (r, o', w') →
  hdr_checksum_ranges (oat_header_ w')
  = hdr_checksum_ranges (oat_header_ w)
    ++ folded_if_new (code_offsets_ w) (cm_code cm) MethodCode
         (range (cast (len (code_bytes (memory E) (cm_code cm)) * 1))
            (code_bytes (memory E) (cm_code cm))) ∧
  code_offsets_ w ⊆ code_offsets_ w'.
Proof.
  unfold InitOatCodeMethod_code. destruct (decide _); [done|].
  intros [= H]. by eapply deduplicate_folds.
Qed.

Lemma invoke_stub_folds cast E stub offset w r o' w' :
  InitOatCodeMethod_invoke_stub cast E stub offset w = Some (r, o', w') →
  hdr_checksum_ranges (oat_header_ w')
  = hdr_checksum_ranges (oat_header_ w)
    ++ folded_if_new (code_offsets_ w) (stub_code stub) InvokeStubCode
         (range (cast (len (code_bytes (memory E) (stub_code stub)) * 1))
            (code_bytes (memory E) (stub_code stub))) ∧
  code_offsets_ w ⊆ code_offsets_ w'.
Proof.
  unfold InitOatCodeMethod_invoke_stub. destruct (decide _); [done|].
  intros [= H]. by eapply deduplicate_folds.
Qed.

Lemma mapping_table_folds cast E cm offset w r o' w' :
  InitOatCodeMethod_mapping_table cast E cm offset w = (r, o', w') →
  ∃ cks, hdr_checksum_ranges (oat_header_ w') = hdr_checksum_ranges (oat_header_ w) ++ cks ∧
         Forall (λ r, r.1 ∈ [MappingTable; VmapTable; GcMap]) cks.
Proof.
  unfold InitOatCodeMethod_mapping_table.
  destruct (mapping_table_offsets_ w !! _); intros [= <- <- <-]; simpl.
  - exists []. by rewrite app_nil_r.
  - eexists [_]. split; [done|]. repeat constructor.
Qed.

Lemma vmap_table_folds cast E cm offset w r o' w' :
  InitOatCodeMethod_vmap_table cast E cm offset w = (r, o', w') →
  ∃ cks, hdr_checksum_ranges (oat_header_ w') = hdr_checksum_ranges (oat_header_ w) ++ cks ∧
         Forall (λ r, r.1 ∈ [MappingTable; VmapTable; GcMap]) cks.
Proof.
  unfold InitOatCodeMethod_vmap_table.
  destruct (vmap_table_offsets_ w !! _); intros [= <- <- <-]; simpl.
  - exists []. by rewrite app_nil_r.
  - eexists [_]. split; [done|]. repeat constructor.
Qed.

Lemma gc_map_folds cast E cm offset w r o' w' :
  InitOatCodeMethod_gc_map cast E cm offset w = (r, o', w') →
  ∃ cks, hdr_checksum_ranges (oat_header_ w') = hdr_checksum_ranges (oat_header_ w) ++ cks ∧
         Forall (λ r, r.1 ∈ [MappingTable; VmapTable; GcMap]) cks.
Proof.
  unfold InitOatCodeMethod_gc_map.
  destruct (gc_map_offsets_ w !! _); intros [= <- <- <-]; simpl.
  - exists []. by rewrite app_nil_r.
  - eexists [_]. split; [done|]. repeat constructor.
Qed.

Lemma compiled_folds cast E idx dex o w mo o4 w4 :
  InitOatCodeMethod_compiled cast E idx dex o w = Some (mo, o4, w4) →
  ∃ cks_tables,
    hdr_checksum_ranges (oat_header_ w4)
    = hdr_checksum_ranges (oat_header_ w)
      ++ match GetCompiledMethod (compiler E) (dex_addr dex) idx with
         | Some cm =>
             folded_if_new (code_offsets_ w) (cm_code cm) MethodCode
               (range (cast (len (code_bytes (memory E) (cm_code cm)) * 1))
                  (code_bytes (memory E) (cm_code cm)))
         | None => []
         end
      ++ cks_tables ∧
    Forall (λ r, r.1 ∈ [MappingTable; VmapTable; GcMap]) cks_tables ∧
    code_offsets_ w ⊆ code_offsets_ w4.
Proof.
  destruct (GetCompiledMethod (compiler E) (dex_addr dex) idx) as [cm|] eqn:Hcm.
  2:{ unfold InitOatCodeMethod_compiled. rewrite Hcm. intros [= <- <- <-].
      exists []. by rewrite !app_nil_r. }
  intros H. eapply InitOatCodeMethod_compiled_inv in H
    as (c & o1 & w1 & m & o2 & w2 & v & o3 & w3 & g & H1 & H2 & H3 & H4 & _); [|done].
  apply code_folds in H1 as (F1 & S1).
  destruct (mapping_table_others _ _ _ _ _ _ _ _ H2) as (_ & _ & C2).
  destruct (vmap_table_others _ _ _ _ _ _ _ _ H3) as (_ & _ & C3).
  destruct (gc_map_others _ _ _ _ _ _ _ _ H4) as (_ & _ & C4).
  apply mapping_table_folds in H2 as (k2 & F2 & L2).
  apply vmap_table_folds in H3 as (k3 & F3 & L3).
  apply gc_map_folds in H4 as (k4 & F4 & L4).
  exists (k2 ++ k3 ++ k4). split; [|split].
  - rewrite F4, F3, F2, F1. by rewrite <- !app_assoc.
  - by rewrite !Forall_app.
  - by rewrite C4, C3, C2.
Qed.

(** *** Labels of the ranges written *)

Lemma covers_labels ws cks what what_size :
  covers ws cks → size_label what = Some what_size →
  Forall (λ r, r.1 ≠ what) cks →
  Forall (λ r, r.1 ≠ what ∧ r.1 ≠ what_size) ws.
Proof.
  unfold covers. intros -> Hs. induction 1 as [|[l d] cks Hne _ IH]; [constructor|].
  rewrite filter_cons. destruct (decide _) as [[Hb _]|]; [|done].
  rewrite bind_cons. apply Forall_app. split; [|done].
  simpl in *. unfold emitted. simpl.
  destruct l, what; simpl in *; try done; injection Hs as <-;
    repeat constructor; simpl; done.
Qed.

Lemma writes_of_elem what data evs :
  (what, data) ∈ writes_of evs ↔ ∃ p, Written what p data ∈ evs.
Proof.
  unfold writes_of. rewrite list_elem_of_omap. split.
  - intros (e & He & Hf). destruct e; try done. injection Hf as <- <-. by eexists.
  - intros (p & He). by eexists.
Qed.

Lemma writes_of_not_written (Q : What * list Z → Prop) evs what p data :
  Forall Q (writes_of evs) → Written what p data ∈ evs → Q (what, data).
Proof.
  intros HQ He. rewrite Forall_forall in HQ. apply HQ, writes_of_elem. by exists p.
Qed.

(** *** The steps of a call in the reference run *)

Lemma AlignCode_wrap32 g o isa :
  globals_wf g → 0 ≤ o < 2 ^ 31 →
  AlignCode wrap32 g o isa = AlignCode exact g o isa.
Proof.
  intros Hg Ho. pose proof (CodeAlignment_pos g isa Hg).
  unfold AlignCode. apply RoundUp_wrap32; lia32.
Qed.

Lemma code_exact_cases E cm o w c o1 w1 :
  InitOatCodeMethod_code exact E cm o w = Some (c, o1, w1) →
  let a := AlignCode exact (globals E) o (cm_instruction_set cm) in
  code_bytes (memory E) (cm_code cm) ≠ [] ∧
  match code_offsets_ w !! cm_code cm with
  | Some stored => c = stored ∧ o1 = a ∧ w1 = w
  | None =>
      c = a + sizeof_uint32 + CodeDelta (cm_instruction_set cm) ∧
      o1 = a + sizeof_uint32 + len (code_bytes (memory E) (cm_code cm)) ∧
      code_offsets_ w1 = <[cm_code cm := c]> (code_offsets_ w)
  end.
Proof.
  unfold InitOatCodeMethod_code, InitOatCodeMethod_deduplicate, exact.
  destruct (decide _) as [|Hsz]; [done|]. simpl. intros H.
  split. { intros Hnil. apply Hsz. by rewrite Hnil. }
  revert H.
  destruct (code_offsets_ w !! cm_code cm); intros [= <- <- <-]; [done|].
  simpl. repeat split; lia.
Qed.

Lemma stub_exact_cases E stub o w c o1 w1 :
  InitOatCodeMethod_invoke_stub exact E stub o w = Some (c, o1, w1) →
  let a := AlignCode exact (globals E) o (GetInstructionSet (compiler E)) in
  code_bytes (memory E) (stub_code stub) ≠ [] ∧
  match code_offsets_ w !! stub_code stub with
  | Some stored => c = stored ∧ o1 = a ∧ w1 = w
  | None =>
      c = a + sizeof_uint32 + CodeDelta (stub_instruction_set stub) ∧
      o1 = a + sizeof_uint32 + len (code_bytes (memory E) (stub_code stub)) ∧
      code_offsets_ w1 = <[stub_code stub := c]> (code_offsets_ w)
  end.
Proof.
  unfold InitOatCodeMethod_invoke_stub, InitOatCodeMethod_deduplicate, exact.
  destruct (decide _) as [|Hsz]; [done|]. simpl. intros H.
  split. { intros Hnil. apply Hsz. by rewrite Hnil. }
  revert H.
  destruct (code_offsets_ w !! stub_code stub); intros [= <- <- <-]; [done|].
  simpl. repeat split; lia.
Qed.

Lemma compiled_exact_steps E idx dex o w mo o4 w4 cm :
  admissible E → Inv o w →
  GetCompiledMethod (compiler E) (dex_addr dex) idx = Some cm →
  InitOatCodeMethod_compiled exact E idx dex o w = Some (mo, o4, w4) →
  ∃ o1 w1,
    InitOatCodeMethod_code exact E cm o w = Some (code_offset_ mo, o1, w1) ∧
    o ≤ o1 ∧ o1 ≤ o4 ∧ code_offsets_ w4 = code_offsets_ w1 ∧
    (o4 < 2 ^ 31 →
     InitOatCodeMethod_code wrap32 E cm o w = Some (code_offset_ mo, o1, w1)).
Proof.
  intros Hadm HI Hcm H.
  eapply InitOatCodeMethod_compiled_inv in H
    as (c & o1 & w1 & m & o2 & w2 & v & o3 & w3 & g & H1 & H2 & H3 & H4 & ->); [|done].
  pose proof H1 as H1'. pose proof H2 as H2'. pose proof H3 as H3'. pose proof H4 as H4'.
  rewrite InitOatCodeMethod_code_eq in H1'.
  eapply (lockstep_code_blob _ _ _ _ MethodCodeSize) in H1' as (cks1 & P1 & _); [|done..].
  eapply lockstep_mapping_table in H2' as (cks2 & P2 & _); [|done|by eapply planned_Inv].
  eapply lockstep_vmap_table in H3' as (cks3 & P3 & _); [|done|by eapply planned_Inv].
  eapply lockstep_gc_map in H4' as (cks4 & P4 & _); [|done|by eapply planned_Inv].
  pose proof (planned_le _ _ _ _ _ P1). pose proof (planned_le _ _ _ _ _ P2).
  pose proof (planned_le _ _ _ _ _ P3). pose proof (planned_le _ _ _ _ _ P4).
  pose proof (Inv_pos _ _ HI).
  destruct (mapping_table_others _ _ _ _ _ _ _ _ H2) as (_ & _ & C2).
  destruct (vmap_table_others _ _ _ _ _ _ _ _ H3) as (_ & _ & C3).
  destruct (gc_map_others _ _ _ _ _ _ _ _ H4) as (_ & _ & C4).
  exists o1, w1. simpl. split; [done|]. split; [lia|]. split; [lia|].
  split; [by rewrite C4, C3, C2|].
  intros Ho4. rewrite InitOatCodeMethod_code_eq in *.
  apply bridge_code_blob; [done|lia|done|lia].
Qed.

Lemma method_exact_steps E o n k type idx dex w o' w' :
  plans_method E o n k type idx dex w o' w' →
  ∃ mo r o4 w4 w5,
    method_offsets_of w' n k = Some (set_invoke_stub_offset r mo) ∧
    InitOatCodeMethod_compiled exact E idx dex o w = Some (mo, o4, w4) ∧
    InitOatCodeMethod_compiled wrap32 E idx dex o w = Some (mo, o4, w4) ∧
    match FindInvokeStub (compiler E) (bool_decide (type = kStatic))
            (GetMethodShorty dex idx) with
    | Some stub =>
        InitOatCodeMethod_invoke_stub exact E stub o4 w4 = Some (r, o', w5) ∧
        InitOatCodeMethod_invoke_stub wrap32 E stub o4 w4 = Some (r, o', w5)
    | None => r = 0 ∧ o' = o4 ∧ w5 = w4
    end ∧
    0 < o ∧ o ≤ o4 ∧ o4 ≤ o' ∧ Inv o4 w4 ∧
    code_offsets_ w' = code_offsets_ w5 ∧ oat_header_ w' = oat_header_ w5.
Proof.
  intros (Hadm & HI & Hslot & Hrun & Ho').
  pose proof Hrun as Hrun'.
  apply InitOatCodeMethod_inv in Hrun' as (mo & o4 & w4 & r & w5 & Hc & Hs & Hcl & Hco & _ & Hh).
  pose proof Hc as Hc'.
  eapply lockstep_compiled in Hc' as (cks1 & P1 & C1 & _); [|done..].
  pose proof (planned_le _ _ _ _ _ P1) as Hle1.
  pose proof (planned_Inv _ _ _ _ _ P1) as HI4.
  pose proof (Inv_pos _ _ HI) as Hpos.
  assert (o4 ≤ o') as Hle2.
  { destruct (FindInvokeStub _ _ _) as [stub|].
    - rewrite InitOatCodeMethod_invoke_stub_eq in Hs.
      eapply (lockstep_code_blob _ _ _ _ InvokeStubCodeSize) in Hs as (cks2 & P2 & _);
        [|done..].
      by eapply planned_le.
    - injection Hs as _ <- _. lia. }
  exists mo, r, o4, w4, w5.
  split.
  { unfold method_offsets_of in *. rewrite Hcl.
    destruct Hslot as [x Hx]. destruct (oat_classes_ w !! n) as [c|] eqn:Hcn; [|done].
    simpl in Hx. rewrite list_lookup_alter_eq, Hcn. simpl.
    apply list_lookup_insert_eq. by eapply lookup_lt_Some. }
  split; [done|].
  split. { apply bridge_compiled; [done|done|done|lia]. }
  split.
  { destruct (FindInvokeStub _ _ _) as [stub|].
    - split; [done|]. rewrite InitOatCodeMethod_invoke_stub_eq in *.
      apply bridge_code_blob; [done|lia|done|done].
    - by injection Hs as <- <- <-. }
  repeat (split; [done|]). done.
Qed.

Lemma range_exact_all (l : list Z) : range (exact (len l * 1)) l = l.
Proof. apply range_all. unfold exact. lia. Qed.

(** The ranges a call folds: the code if it is new, ranges of the three
    tables, and the invoke stub if it is new where its block starts. *)
Lemma method_ranges E o n k type idx dex w o' w' :
  plans_method E o n k type idx dex w o' w' →
  ∃ mo r o4 w4 w5 cks_tables,
    method_offsets_of w' n k = Some (set_invoke_stub_offset r mo) ∧
    InitOatCodeMethod_compiled exact E idx dex o w = Some (mo, o4, w4) ∧
    InitOatCodeMethod_compiled wrap32 E idx dex o w = Some (mo, o4, w4) ∧
    match FindInvokeStub (compiler E) (bool_decide (type = kStatic))
            (GetMethodShorty dex idx) with
    | Some stub =>
        InitOatCodeMethod_invoke_stub exact E stub o4 w4 = Some (r, o', w5) ∧
        InitOatCodeMethod_invoke_stub wrap32 E stub o4 w4 = Some (r, o', w5)
    | None => r = 0 ∧ o' = o4 ∧ w5 = w4
    end ∧
    0 < o ∧ o ≤ o4 ∧ o4 ≤ o' ∧ Inv o4 w4 ∧
    code_offsets_ w' = code_offsets_ w5 ∧ oat_header_ w' = oat_header_ w5 ∧
    code_offsets_ w ⊆ code_offsets_ w4 ∧ code_offsets_ w4 ⊆ code_offsets_ w5 ∧
    Forall (λ r, r.1 ∈ [MappingTable; VmapTable; GcMap]) cks_tables ∧
    hdr_checksum_ranges (oat_header_ w')
    = hdr_checksum_ranges (oat_header_ w)
      ++ match GetCompiledMethod (compiler E) (dex_addr dex) idx with
         | Some cm =>
             folded_if_new (code_offsets_ w) (cm_code cm) MethodCode
               (code_bytes (memory E) (cm_code cm))
         | None => []
         end
      ++ cks_tables
      ++ match FindInvokeStub (compiler E) (bool_decide (type = kStatic))
                 (GetMethodShorty dex idx) with
         | Some stub =>
             folded_if_new (code_offsets_ w4) (stub_code stub) InvokeStubCode
               (code_bytes (memory E) (stub_code stub))
         | None => []
         end.
Proof.
  intros Hp.
  destruct (method_exact_steps _ _ _ _ _ _ _ _ _ _ Hp)
    as (mo & r & o4 & w4 & w5 & Hrec & Hce & Hcw & Hs & Hpos & Hle1 & Hle2 & HI4 & Hco & Hh).
  destruct (compiled_folds _ _ _ _ _ _ _ _ _ Hce) as (cks_tables & Hf1 & Hl & Hsub1).
  exists mo, r, o4, w4, w5, cks_tables.
  repeat (split; [done|]).
  assert (code_offsets_ w4 ⊆ code_offsets_ w5 ∧
          hdr_checksum_ranges (oat_header_ w5)
          = hdr_checksum_ranges (oat_header_ w4)
            ++ match FindInvokeStub (compiler E) (bool_decide (type = kStatic))
                       (GetMethodShorty dex idx) with
               | Some stub =>
                   folded_if_new (code_offsets_ w4) (stub_code stub) InvokeStubCode
                     (code_bytes (memory E) (stub_code stub))
               | None => []
               end) as (Hsub2 & Hf2).
  { destruct (FindInvokeStub _ _ _) as [stub|].
    - destruct Hs as (Hs & _). apply invoke_stub_folds in Hs as (Hf & Hsub).
      rewrite range_exact_all in Hf. done.
    - destruct Hs as (_ & _ & ->). by rewrite app_nil_r. }
  repeat (split; [done|]).
  rewrite Hh, Hf2, Hf1. rewrite <- !app_assoc.
  destruct (GetCompiledMethod _ _ _); [|done]. by rewrite range_exact_all.
Qed.

(** An artifact among the ranges written for a method was written at the
    position the record gives. *)
Lemma method_event_code E mo dex idx is_static cm p data :
  GetCompiledMethod (compiler E) (dex_addr dex) idx = Some cm →
  method_event E mo dex idx is_static (Written MethodCode p data) →
  p = code_offset_ mo - CodeDelta (cm_instruction_set cm).
Proof.
  intros Hcm [(t & Ht)|[(cm' & Hcm' & He)|(s & Hs & He)]]; [done| |].
  - rewrite Hcm in Hcm'. injection Hcm' as <-. unfold compiled_events in He.
    repeat (apply elem_of_cons in He as [He|He];
            [first [discriminate He | by injection He as -> ->]|]).
    by apply elem_of_nil in He.
  - unfold stub_events in He.
    repeat (apply elem_of_cons in He as [He|He]; [discriminate He|]).
    by apply elem_of_nil in He.
Qed.

Lemma method_event_code_size E mo dex idx is_static cm p data :
  GetCompiledMethod (compiler E) (dex_addr dex) idx = Some cm →
  method_event E mo dex idx is_static (Written MethodCodeSize p data) →
  p = code_offset_ mo - CodeDelta (cm_instruction_set cm) - sizeof_uint32.
Proof.
  intros Hcm [(t & Ht)|[(cm' & Hcm' & He)|(s & Hs & He)]]; [done| |].
  - rewrite Hcm in Hcm'. injection Hcm' as <-. unfold compiled_events in He.
    repeat (apply elem_of_cons in He as [He|He];
            [first [discriminate He | by injection He as -> ->]|]).
    by apply elem_of_nil in He.
  - unfold stub_events in He.
    repeat (apply elem_of_cons in He as [He|He]; [discriminate He|]).
    by apply elem_of_nil in He.
Qed.

(** C3, the counterexample.  On the sample input the second method has the
    compiled method of the first, so the same code array, which the call for
    the first method interned at 4101.  The code block of the second method
    still takes the cursor from 4122 to 4128, the next multiple of the code
    alignment, and the call returns 4128: a later occurrence advances the
    cursor.  And with a compiler that gives the second method a compiled
    method for kArm over the same code array, both records get the code
    offset 4101, which is 4096 after the code delta 1 of kThumb2 and the
    size prefix are subtracted, and 4097 after the code delta 0 of kArm and
    the size prefix are subtracted. *)
Lemma later_occurrence_counterexample :
  (code_offsets_ Sample.writer_after_m0 !! cm_code Sample.cm = Some 4101 ∧
   GetCompiledMethod (compiler Sample.E) (dex_addr Sample.dex) 1 = Some Sample.cm ∧
   fst <$> InitOatCodeMethod_code wrap32 Sample.E Sample.cm 4122 Sample.writer_after_m0
   = Some (4101, 4128) ∧
   fst <$> InitOatCodeMethod wrap32 Sample.E 4122 0 1 kVirtual 1 Sample.dex
             Sample.writer_after_m0
   = Some 4128) ∧
  (let w0 := (plan_tables wrap32 Sample.env_mixed ∅).2 in
   ∃ w1 w2 mo1 mo2,
     InitOatCodeMethod wrap32 Sample.env_mixed 4096 0 0 kDirect 0 Sample.dex w0
     = Some (4122, w1) ∧
     InitOatCodeMethod wrap32 Sample.env_mixed 4122 0 1 kVirtual 1 Sample.dex w1
     = Some (4128, w2) ∧
     method_offsets_of w2 0 0 = Some mo1 ∧ method_offsets_of w2 0 1 = Some mo2 ∧
     code_offset_ mo1 = 4101 ∧ code_offset_ mo2 = 4101 ∧
     code_offset_ mo1 - CodeDelta (cm_instruction_set Sample.cm) - sizeof_uint32 = 4096 ∧
     code_offset_ mo2 - CodeDelta (cm_instruction_set Sample.cm_arm) - sizeof_uint32 = 4097).
Proof.
  split; [vm_compute; repeat split; reflexivity|].
  simpl. eexists _, _, _, _.
  split; [vm_compute; reflexivity|].
  split; [vm_compute; reflexivity|].
  split; [vm_compute; reflexivity|].
  split; [vm_compute; reflexivity|].
  vm_compute. repeat split; reflexivity.
Qed.

(** C3, amended.  Two methods whose compiled methods have the same code
    array (the same identity): the first is met when the array is not yet
    in [code_offsets_], the second in any later state of the code phase.
    The calls of [InitOatCodeMethod] store for both methods a record with
    the same code offset.  For the first, the array is new: it is interned
    at, and the record holds, the tentative offset (aligned cursor + size
    prefix + code delta), and the cursor advances past the size prefix and
    the code; the writing pass writes the size at the aligned cursor and the
    code after it.  For the second, the array is present: the record holds
    the stored offset, nothing is interned or folded into the checksum by
    the code block, the cursor is only raised to the code alignment of the
    second method, and the writing pass writes neither the size nor the
    code.  After subtracting the code deltas and the size-prefix widths the
    two code offsets are equal when the two code deltas are. *)
Theorem same_code_written_once E
    o1 n1 k1 type1 idx1 dex1 w1 o1' w1' cm1
    o2 n2 k2 type2 idx2 dex2 w2 o2' w2' cm2 :
  plans_method E o1 n1 k1 type1 idx1 dex1 w1 o1' w1' →
  GetCompiledMethod (compiler E) (dex_addr dex1) idx1 = Some cm1 →
  code_offsets_ w1 !! cm_code cm1 = None →
  extends w1' w2 →
  plans_method E o2 n2 k2 type2 idx2 dex2 w2 o2' w2' →
  GetCompiledMethod (compiler E) (dex_addr dex2) idx2 = Some cm2 →
  cm_code cm2 = cm_code cm1 →
  let code := code_bytes (memory E) (cm_code cm1) in
  let delta1 := CodeDelta (cm_instruction_set cm1) in
  let delta2 := CodeDelta (cm_instruction_set cm2) in
  let aligned1 := AlignCode wrap32 (globals E) o1 (cm_instruction_set cm1) in
  let aligned2 := AlignCode wrap32 (globals E) o2 (cm_instruction_set cm2) in
  InitOatCodeMethod wrap32 E o1 n1 k1 type1 idx1 dex1 w1 = Some (o1', w1') ∧
  InitOatCodeMethod wrap32 E o2 n2 k2 type2 idx2 dex2 w2 = Some (o2', w2') ∧
  ∃ mo1 mo2 w1a,
    method_offsets_of w1' n1 k1 = Some mo1 ∧
    method_offsets_of w2' n2 k2 = Some mo2 ∧
    code_offset_ mo1 = aligned1 + sizeof_uint32 + delta1 ∧
    code_offset_ mo2 = code_offset_ mo1 ∧
    (delta1 = delta2 →
     code_offset_ mo1 - delta1 - sizeof_uint32 = code_offset_ mo2 - delta2 - sizeof_uint32) ∧
    InitOatCodeMethod_code wrap32 E cm1 o1 w1
    = Some (code_offset_ mo1, aligned1 + sizeof_uint32 + len code, w1a) ∧
    code_offsets_ w1a = <[cm_code cm1 := code_offset_ mo1]> (code_offsets_ w1) ∧
    code_offsets_ w2 !! cm_code cm2 = Some (code_offset_ mo1) ∧
    InitOatCodeMethod_code wrap32 E cm2 o2 w2 = Some (code_offset_ mo1, aligned2, w2) ∧
    o2 ≤ aligned2 < o2 + CodeAlignment (globals E) (cm_instruction_set cm2) ∧
    (∀ wf out c out',
       extends w1' wf → method_offsets_of wf n1 k1 = Some mo1 →
       stream_inv out → position out = o1 →
       WriteCodeMethod E wf out o1 n1 k1 (bool_decide (type1 = kStatic)) idx1 dex1
       = Done c out' →
       c ≠ 0 →
       ∃ evs, events out' = events out ++ evs ∧
              Written MethodCodeSize aligned1 (le32 (len code)) ∈ evs ∧
              Written MethodCode (aligned1 + sizeof_uint32) code ∈ evs) ∧
    (∀ wf out c out',
       extends w2' wf → method_offsets_of wf n2 k2 = Some mo2 →
       stream_inv out → position out = o2 →
       WriteCodeMethod E wf out o2 n2 k2 (bool_decide (type2 = kStatic)) idx2 dex2
       = Done c out' →
       c ≠ 0 →
       ∃ evs, events out' = events out ++ evs ∧
              ∀ p data, (Written MethodCodeSize p data ∉ evs) ∧
                        (Written MethodCode p data ∉ evs)).
Proof.
  intros Hp1 Hcm1 Hnew Hlater Hp2 Hcm2 Hsame. simpl.
  pose proof Hp1 as (Hadm & HI1 & _ & _ & Ho1').
  pose proof Hp2 as (_ & HI2 & _ & _ & Ho2').
  pose proof Hadm as (Hg & Hm & _).
  destruct (method_step _ _ _ _ _ _ _ _ _ _ Hp1)
    as (W1 & _ & _ & _ & mo1 & cks1 & Hm1 & Hck1 & G1).
  destruct (method_step _ _ _ _ _ _ _ _ _ _ Hp2)
    as (W2 & _ & _ & _ & mo2 & cks2 & Hm2 & Hck2 & G2).
  destruct (method_ranges _ _ _ _ _ _ _ _ _ _ Hp1)
    as (mx1 & r1 & o41 & w41 & w51 & kt1 & Hrec1 & Hce1 & _ & _ & Hpos1 & Hle1 & Hle1'
        & _ & Hco1 & _ & _ & Hsub1 & Hl1 & Hf1).
  destruct (method_ranges _ _ _ _ _ _ _ _ _ _ Hp2)
    as (mx2 & r2 & o42 & w42 & w52 & kt2 & Hrec2 & Hce2 & _ & _ & Hpos2 & Hle2 & Hle2'
        & _ & _ & _ & _ & _ & Hl2 & Hf2).
  rewrite Hm1 in Hrec1. injection Hrec1 as ->.
  rewrite Hm2 in Hrec2. injection Hrec2 as ->.
  destruct (compiled_exact_steps _ _ _ _ _ _ _ _ _ Hadm HI1 Hcm1 Hce1)
    as (o1a & w1a & Hcode1 & _ & Hle1a & Hco41 & Hb1).
  destruct (compiled_exact_steps _ _ _ _ _ _ _ _ _ Hadm HI2 Hcm2 Hce2)
    as (o2a & w2a & Hcode2 & _ & Hle2a & _ & Hb2).
  specialize (Hb1 ltac:(lia)). specialize (Hb2 ltac:(lia)).
  destruct (code_exact_cases _ _ _ _ _ _ _ Hcode1) as (Hne & Hcase1).
  rewrite Hnew in Hcase1. destruct Hcase1 as (Hc1 & Ho1a & Hins).
  assert (code_offsets_ w2 !! cm_code cm2 = Some (code_offset_ mx1)) as Hlk2.
  { rewrite Hsame. destruct Hlater as (Hsub & _). eapply lookup_weaken; [|exact Hsub].
    rewrite Hco1. eapply lookup_weaken; [|exact Hsub1].
    rewrite Hco41, Hins. apply lookup_insert_eq. }
  destruct (code_exact_cases _ _ _ _ _ _ _ Hcode2) as (_ & Hcase2).
  rewrite Hlk2 in Hcase2. destruct Hcase2 as (Hc2 & Ho2a & ->).
  rewrite (AlignCode_wrap32 _ o1) by (done || lia).
  rewrite (AlignCode_wrap32 _ o2) by (done || lia).
  pose proof (AlignCode_exact (globals E) o2 (cm_instruction_set cm2) Hg) as Ha2.
  split; [done|]. split; [done|].
  exists (set_invoke_stub_offset r1 mx1), (set_invoke_stub_offset r2 mx2), w1a. simpl.
  split; [done|]. split; [done|]. split; [done|]. split; [done|].
  split; [intros ->; by rewrite Hc2|].
  split. { rewrite Hb1. by rewrite Ho1a. }
  split; [done|]. split; [done|].
  split. { rewrite Hb2. by rewrite Hc2, Ho2a. }
  split; [lia|].
  split.
  - intros wf out c out' Hwf Hrec Hinv Hpos HW Hc.
    destruct (G1 wf out c out' Hwf Hrec Hinv Hpos HW Hc)
      as (_ & _ & evs & Hev & Hcov & HP).
    exists evs. split; [done|].
    rewrite Hf1 in Hck1. apply app_inv_head in Hck1. subst cks1.
    rewrite Hcm1 in Hcov. unfold folded_if_new in Hcov. rewrite Hnew in Hcov.
    unfold covers in Hcov. simpl in Hcov. rewrite filter_cons in Hcov.
    rewrite decide_True in Hcov by done.
    rewrite bind_cons in Hcov. unfold emitted at 1 in Hcov. simpl in Hcov.
    assert ((MethodCodeSize, le32 (len (code_bytes (memory E) (cm_code cm1))))
            ∈ writes_of evs) as Hin1 by (rewrite Hcov; apply elem_of_cons; by left).
    assert ((MethodCode, code_bytes (memory E) (cm_code cm1)) ∈ writes_of evs) as Hin2
      by (rewrite Hcov; apply elem_of_cons; right; apply elem_of_cons; by left).
    apply writes_of_elem in Hin1 as (p1 & Hin1). apply writes_of_elem in Hin2 as (p2 & Hin2).
    rewrite Forall_forall in HP.
    pose proof (method_event_code_size _ _ _ _ _ _ _ _ Hcm1 (HP _ Hin1)) as Hp1'.
    pose proof (method_event_code _ _ _ _ _ _ _ _ Hcm1 (HP _ Hin2)) as Hp2'.
    simpl in Hp1', Hp2'. rewrite Hc1 in Hp1', Hp2'.
    replace (AlignCode exact (globals E) o1 (cm_instruction_set cm1)) with p1 by lia.
    split; [done|]. by replace (p1 + sizeof_uint32) with p2 by lia.
  - intros wf out c out' Hwf Hrec Hinv Hpos HW Hc.
    destruct (G2 wf out c out' Hwf Hrec Hinv Hpos HW Hc)
      as (_ & _ & evs & Hev & Hcov & HP).
    exists evs. split; [done|].
    rewrite Hf2 in Hck2. apply app_inv_head in Hck2. subst cks2.
    rewrite Hcm2 in Hcov. unfold folded_if_new at 1 in Hcov. rewrite Hlk2 in Hcov.
    simpl in Hcov.
    eapply (covers_labels _ _ MethodCode MethodCodeSize) in Hcov; [|done|].
    2:{ apply Forall_app. split.
        - eapply Forall_impl; [exact Hl2|]. simpl. intros r Hr Heq. rewrite Heq in Hr.
          repeat (apply elem_of_cons in Hr as [Hr|Hr]; [discriminate Hr|]).
          by apply elem_of_nil in Hr.
        - destruct (FindInvokeStub _ _ _); [|constructor]. unfold folded_if_new.
          destruct (code_offsets_ w42 !! _); [constructor|].
          constructor; [done|constructor]. }
    intros p data. split; intros Hin;
      apply (writes_of_not_written _ _ _ _ _ Hcov) in Hin; simpl in Hin; tauto.
Qed.

Lemma Sample_Inv_before_code : Inv 4096 Sample.writer_before_code.
Proof.
  split; [lia|].
  change (code_offsets_ Sample.writer_before_code) with (∅ : gmap ptr Z).
  change (mapping_table_offsets_ Sample.writer_before_code) with (∅ : gmap ptr Z).
  change (vmap_table_offsets_ Sample.writer_before_code) with (∅ : gmap ptr Z).
  change (gc_map_offsets_ Sample.writer_before_code) with (∅ : gmap ptr Z).
  repeat split; apply map_Forall_empty.
Qed.

Lemma Sample_plans_m0 :
  plans_method Sample.E 4096 0 0 kDirect 0 Sample.dex Sample.writer_before_code
    4122 Sample.writer_after_m0.
Proof.
  split; [apply Sample_admissible|]. split; [apply Sample_Inv_before_code|].
  split; [eexists; vm_compute; reflexivity|].
  split; [vm_compute; reflexivity|lia].
Qed.

Lemma same_code_written_once_witness :
  ∃ w2' mo1 mo2,
    InitOatCodeMethod wrap32 Sample.E 4096 0 0 kDirect 0 Sample.dex
      Sample.writer_before_code = Some (4122, Sample.writer_after_m0) ∧
    InitOatCodeMethod wrap32 Sample.E 4122 0 1 kVirtual 1 Sample.dex
      Sample.writer_after_m0 = Some (4128, w2') ∧
    method_offsets_of Sample.writer_after_m0 0 0 = Some mo1 ∧
    method_offsets_of w2' 0 1 = Some mo2 ∧
    code_offset_ mo1 = 4101 ∧ code_offset_ mo2 = 4101.
Proof.
  assert (∃ w2', InitOatCodeMethod exact Sample.E 4122 0 1 kVirtual 1 Sample.dex
                   Sample.writer_after_m0 = Some (4128, w2')) as [w2' H2]
    by (eexists; vm_compute; reflexivity).
  destruct (method_step _ _ _ _ _ _ _ _ _ _ Sample_plans_m0) as (_ & _ & HI & _).
  assert (plans_method Sample.E 4122 0 1 kVirtual 1 Sample.dex Sample.writer_after_m0
            4128 w2') as Hp2.
  { split; [apply Sample_admissible|]. split; [exact HI|].
    split; [eexists; vm_compute; reflexivity|]. split; [exact H2|lia]. }
  destruct (same_code_written_once Sample.E
              4096 0%nat 0%nat kDirect 0 Sample.dex Sample.writer_before_code
              4122 Sample.writer_after_m0 Sample.cm
              4122 0%nat 1%nat kVirtual 1 Sample.dex Sample.writer_after_m0 4128 w2' Sample.cm
              Sample_plans_m0 eq_refl eq_refl (extends_refl _) Hp2 eq_refl eq_refl)
    as (W1 & W2 & mo1 & mo2 & w1a & Hm1 & Hm2 & Hc1 & Hc2 & _).
  exists w2', mo1, mo2. repeat (split; [done|]).
  rewrite Hc2, Hc1. split; vm_compute; reflexivity.
Defined.

Lemma compiled_stub_offset_zero cast E idx dex o w mo o4 w4 r :
  InitOatCodeMethod_compiled cast E idx dex o w = Some (mo, o4, w4) →
  set_invoke_stub_offset 0 (set_invoke_stub_offset r mo) = mo.
Proof.
  unfold InitOatCodeMethod_compiled.
  destruct (GetCompiledMethod _ _ _) as [cm|]; [|by intros [= <- <- <-]].
  destruct (InitOatCodeMethod_code cast E cm o w) as [[[c o1] w1]|]; [|done]. simpl.
  destruct (InitOatCodeMethod_mapping_table cast E cm o1 w1) as [[m o2] w2].
  destruct (InitOatCodeMethod_vmap_table cast E cm o2 w2) as [[v o3] w3].
  destruct (InitOatCodeMethod_gc_map cast E cm o3 w3) as [[g o5] w5].
  by intros [= <- <- <-].
Qed.

(** C10, the counterexample.  On the sample input the call for the first
    method interned the invoke stub at 4117 and returned the cursor 4122.
    A call there for a method without a compiled method and with the same
    invoke stub records 4117 as the invoke-stub offset, and returns the
    cursor 4128: the cursor was raised to the code alignment although the
    stub was interned before. *)
Lemma interned_stub_cursor_counterexample :
  FindInvokeStub (compiler Sample.E) (bool_decide (kVirtual = kStatic))
    (GetMethodShorty Sample.dex 2) = Some Sample.stub ∧
  code_offsets_ Sample.writer_after_m0 !! stub_code Sample.stub = Some 4117 ∧
  GetCompiledMethod (compiler Sample.E) (dex_addr Sample.dex) 2 = None ∧
  ∃ w', InitOatCodeMethod wrap32 Sample.E 4122 0 1 kVirtual 2 Sample.dex
          Sample.writer_after_m0 = Some (4128, w') ∧
        (invoke_stub_offset_ <$> method_offsets_of w' 0 1) = Some 4117.
Proof.
  split; [vm_compute; reflexivity|]. split; [vm_compute; reflexivity|].
  split; [vm_compute; reflexivity|]. eexists.
  split; vm_compute; reflexivity.
Qed.

(** C10, amended.  The invoke stubs are interned in [code_offsets_], the
    table of the method code, not in a table of their own.  A method whose
    invoke stub has a code array that was interned before, by the code
    block of a compiled method or by the invoke-stub block of another
    method, met in any later state of the code phase: the record that
    [InitOatCodeMethod] stores for the method holds, as its invoke-stub
    offset, the offset stored then; the invoke-stub block interns nothing
    and folds nothing into the checksum; the cursor is only raised to the
    code alignment of the instruction set of the compiler, it does not
    advance past a size or a stub; and the writing pass writes neither the
    size nor the stub for the method.  The block of the proxy stubs, which
    only the build with ART_USE_LLVM_COMPILER has, looks its code array up
    in the same table: for an array that is there it returns the stored
    offset, raises the cursor to the alignment and leaves the writer as it
    is. *)
Theorem invoke_stub_shares_code_table E o0 w0 c0 o0' w0'
    o n k type idx dex w o' w' compiled_invoke_stub :
  ((∃ compiled_method,
      cm_code compiled_method = stub_code compiled_invoke_stub ∧
      InitOatCodeMethod_code wrap32 E compiled_method o0 w0 = Some (c0, o0', w0')) ∨
   (∃ other_stub,
      stub_code other_stub = stub_code compiled_invoke_stub ∧
      InitOatCodeMethod_invoke_stub wrap32 E other_stub o0 w0 = Some (c0, o0', w0'))) →
  code_offsets_ w0' ⊆ code_offsets_ w →
  plans_method E o n k type idx dex w o' w' →
  FindInvokeStub (compiler E) (bool_decide (type = kStatic)) (GetMethodShorty dex idx)
  = Some compiled_invoke_stub →
  InitOatCodeMethod wrap32 E o n k type idx dex w = Some (o', w') ∧
  ∃ mo o4 w4,
    method_offsets_of w' n k = Some mo ∧
    code_offsets_ w !! stub_code compiled_invoke_stub = Some c0 ∧
    invoke_stub_offset_ mo = c0 ∧
    InitOatCodeMethod_compiled wrap32 E idx dex o w
    = Some (set_invoke_stub_offset 0 mo, o4, w4) ∧
    InitOatCodeMethod_invoke_stub wrap32 E compiled_invoke_stub o4 w4 = Some (c0, o', w4) ∧
    o' = AlignCode wrap32 (globals E) o4 (GetInstructionSet (compiler E)) ∧
    o4 ≤ o' < o4 + CodeAlignment (globals E) (GetInstructionSet (compiler E)) ∧
    code_offsets_ w' = code_offsets_ w4 ∧ oat_header_ w' = oat_header_ w4 ∧
    (∀ wf out c out',
       extends w' wf → method_offsets_of wf n k = Some mo →
       stream_inv out → position out = o →
       WriteCodeMethod E wf out o n k (bool_decide (type = kStatic)) idx dex = Done c out' →
       c ≠ 0 →
       c = o' ∧ position out' = o' ∧
       ∃ evs, events out' = events out ++ evs ∧
              ∀ p data, (Written InvokeStubCodeSize p data ∉ evs) ∧
                        (Written InvokeStubCode p data ∉ evs)) ∧
    (∀ proxy_type compiled_proxy_stub o5 w5 stored,
       proxy_type ≠ kStatic →
       wrap32 (len (code_bytes (memory E) (stub_code compiled_proxy_stub)) * 1) ≠ 0 →
       code_offsets_ w5 !! stub_code compiled_proxy_stub = Some stored →
       InitOatCodeMethod_proxy_stub wrap32 E proxy_type (Some compiled_proxy_stub) o5 w5
       = Some (stored, AlignCode wrap32 (globals E) o5 (GetInstructionSet (compiler E)), w5)).
Proof.
  intros H0 Hsub Hp Hstub.
  pose proof Hp as (Hadm & HI & _ & _ & Ho').
  pose proof Hadm as (Hg & _ & _).
  destruct (method_step _ _ _ _ _ _ _ _ _ _ Hp)
    as (W & _ & _ & _ & mo & cks & Hm & Hck & G).
  destruct (method_ranges _ _ _ _ _ _ _ _ _ _ Hp)
    as (mx & r & o4 & w4 & w5 & kt & Hrec & Hce & Hcw & Hs & Hpos & Hle & Hle'
        & _ & Hco & Hh & Hsub1 & _ & Hl & Hf).
  rewrite Hm in Hrec. injection Hrec as ->.
  rewrite Hstub in Hs, Hf. destruct Hs as (Hse & Hsw).
  assert (code_offsets_ w !! stub_code compiled_invoke_stub = Some c0) as Hlk.
  { eapply lookup_weaken; [|exact Hsub].
    destruct H0 as [(cm & <- & H0)|(other & <- & H0)].
    - unfold InitOatCodeMethod_code in H0. destruct (decide _); [done|].
      injection H0 as H0. by eapply deduplicate_stored.
    - unfold InitOatCodeMethod_invoke_stub in H0. destruct (decide _); [done|].
      injection H0 as H0. by eapply deduplicate_stored. }
  assert (code_offsets_ w4 !! stub_code compiled_invoke_stub = Some c0) as Hlk4
    by (by eapply lookup_weaken).
  destruct (stub_exact_cases _ _ _ _ _ _ _ Hse) as (_ & Hcase).
  rewrite Hlk4 in Hcase. destruct Hcase as (-> & Ho4 & ->).
  pose proof (AlignCode_exact (globals E) o4 (GetInstructionSet (compiler E)) Hg) as Ha.
  split; [done|].
  exists (set_invoke_stub_offset c0 mx), o4, w4. simpl.
  rewrite (AlignCode_wrap32 _ o4) by (done || lia).
  split; [done|]. split; [done|]. split; [done|].
  split. { by rewrite (compiled_stub_offset_zero _ _ _ _ _ _ _ _ _ c0 Hcw). }
  split; [done|]. split; [done|]. split; [lia|]. split; [done|]. split; [done|].
  split.
  - intros wf out c out' Hwf Hrec Hinv Hpo HW Hc.
    destruct (G wf out c out' Hwf Hrec Hinv Hpo HW Hc) as (-> & Hp' & evs & Hev & Hcov & _).
    split; [done|]. split; [done|]. exists evs. split; [done|].
    rewrite Hf in Hck. apply app_inv_head in Hck. subst cks.
    unfold folded_if_new at 2 in Hcov. rewrite Hlk4, app_nil_r in Hcov.
    eapply (covers_labels _ _ InvokeStubCode InvokeStubCodeSize) in Hcov; [|done|].
    2:{ apply Forall_app. split.
        - destruct (GetCompiledMethod _ _ _) as [cmx|]; [|constructor].
          unfold folded_if_new.
          destruct (code_offsets_ w !! cm_code cmx); [constructor|].
          constructor; [done|constructor].
        - eapply Forall_impl; [exact Hl|]. simpl. intros x Hx Heq. rewrite Heq in Hx.
          repeat (apply elem_of_cons in Hx as [Hx|Hx]; [discriminate Hx|]).
          by apply elem_of_nil in Hx. }
    intros p data. split; intros Hin;
      apply (writes_of_not_written _ _ _ _ _ Hcov) in Hin; simpl in Hin; tauto.
  - intros proxy_type proxy o5 w5' stored Hty Hsz Hl5.
    unfold InitOatCodeMethod_proxy_stub. rewrite bool_decide_eq_true_2 by done.
    rewrite decide_False by done.
    unfold InitOatCodeMethod_deduplicate. by rewrite Hl5.
Qed.

Lemma invoke_stub_shares_code_table_witness :
  ∃ w',
    InitOatCodeMethod wrap32 Sample.E 4122 0 1 kVirtual 2 Sample.dex
      Sample.writer_after_m0 = Some (4128, w') ∧
    (invoke_stub_offset_ <$> method_offsets_of w' 0 1) = Some 4117.
Proof.
  assert (∃ w0', InitOatCodeMethod_invoke_stub wrap32 Sample.E Sample.stub 4109
                   Sample.writer_before_code = Some (4117, 4122, w0') ∧
                 code_offsets_ w0' = {[ 2%nat := 4117 ]})
    as (w0' & H0 & Hmap) by (eexists; split; vm_compute; reflexivity).
  assert (∃ w', InitOatCodeMethod exact Sample.E 4122 0 1 kVirtual 2 Sample.dex
                  Sample.writer_after_m0 = Some (4128, w')) as [w' H]
    by (eexists; vm_compute; reflexivity).
  destruct (method_step _ _ _ _ _ _ _ _ _ _ Sample_plans_m0) as (_ & _ & HI & _).
  assert (plans_method Sample.E 4122 0 1 kVirtual 2 Sample.dex Sample.writer_after_m0
            4128 w') as Hp.
  { split; [apply Sample_admissible|]. split; [exact HI|].
    split; [eexists; vm_compute; reflexivity|]. split; [exact H|lia]. }
  destruct (invoke_stub_shares_code_table Sample.E 4109 Sample.writer_before_code
              4117 4122 w0' 4122 0%nat 1%nat kVirtual 2 Sample.dex Sample.writer_after_m0
              4128 w' Sample.stub)
    as (W & mo & o4 & w4 & Hm & _ & Hc & _).
  - right. exists Sample.stub. split; [reflexivity|exact H0].
  - rewrite Hmap. apply map_singleton_subseteq_l. vm_compute. reflexivity.
  - exact Hp.
  - reflexivity.
  - exists w'. split; [exact W|]. rewrite Hm. simpl. by rewrite Hc.
Defined.

(** *** The OatClass records in the checksum *)

Lemma drop_take_split {A} (l : list A) : ∀ n m n',
  (n ≤ m ≤ n')%nat → drop n (take n' l) = drop n (take m l) ++ drop m (take n' l).
Proof.
  induction l as [|a l IH]; intros n m n' H.
  - by rewrite !take_nil, !drop_nil.
  - destruct n' as [|n']; [by replace m with 0%nat by lia; replace n with 0%nat by lia|].
    destruct m as [|m]; [by replace n with 0%nat by lia|].
    destruct n as [|n]; simpl.
    + f_equal. apply (IH 0%nat). lia.
    + apply IH. lia.
Qed.

Lemma filter_not_blob_blobs (cks : list (What * list Z)) :
  Forall (λ r, is_blob r.1 = true) cks → filter (λ r, is_blob r.1 = false) cks = [].
Proof.
  induction 1 as [|r cks Hr _ IH]; [done|].
  rewrite filter_cons. rewrite decide_False by (by rewrite Hr). done.
Qed.

Lemma folds_classes_refl cast n w : folds_classes cast n n w w.
Proof.
  split; [done|]. split; [done|]. exists []. split; [by rewrite app_nil_r|].
  rewrite drop_ge; [done|]. rewrite length_take. lia.
Qed.

Lemma folds_classes_trans cast n m n' w w1 w' :
  (n ≤ m ≤ n')%nat →
  folds_classes cast n m w w1 → folds_classes cast m n' w1 w' →
  folds_classes cast n n' w w'.
Proof.
  intros Hle (L1 & T1 & cks1 & H1 & F1) (L2 & T2 & cks2 & H2 & F2).
  assert (take n (oat_classes_ w') = take n (oat_classes_ w1)) as T3.
  { replace n with (n `min` m)%nat by lia. rewrite <- !take_take. by rewrite T2. }
  split; [congruence|]. split; [congruence|].
  exists (cks1 ++ cks2). split; [by rewrite H2, H1, app_assoc|].
  rewrite filter_app, F1, F2, <- T2, <- bind_app. f_equal.
  symmetry. by apply drop_take_split.
Qed.

Lemma folds_classes_method cast E o n k type idx dex w o' w' :
  InitOatCodeMethod cast E o n k type idx dex w = Some (o', w') →
  folds_classes cast n n w w'.
Proof.
  intros H.
  apply InitOatCodeMethod_inv in H as (mo & o4 & w4 & r & w5 & Hc & Hs & Hcl & _ & _ & Hh).
  destruct (compiled_folds _ _ _ _ _ _ _ _ _ Hc) as (kt & Hf1 & Hl & _).
  split; [by rewrite Hcl, length_alter|].
  split; [rewrite Hcl; by apply take_alter_ge|].
  assert (∃ ks, hdr_checksum_ranges (oat_header_ w5)
                = hdr_checksum_ranges (oat_header_ w4) ++ ks ∧
                Forall (λ r, is_blob r.1 = true) ks) as (ks & Hf2 & Hb2).
  { destruct (FindInvokeStub _ _ _) as [stub|].
    - apply invoke_stub_folds in Hs as (Hf & _). eexists. split; [exact Hf|].
      unfold folded_if_new. destruct (code_offsets_ w4 !! _); repeat constructor.
    - injection Hs as _ _ <-. exists []. by rewrite app_nil_r. }
  eexists. split; [by rewrite Hh, Hf2, Hf1, <- !app_assoc|].
  rewrite (drop_ge (take n _)) by (rewrite length_take; lia).
  apply filter_not_blob_blobs. rewrite !Forall_app. split; [|split; [|done]].
  - destruct (GetCompiledMethod _ _ _) as [cm|]; [|constructor].
    unfold folded_if_new. destruct (code_offsets_ w !! _); repeat constructor.
  - eapply Forall_impl; [exact Hl|]. simpl. intros x Hx.
    repeat (apply elem_of_cons in Hx as [Hx|Hx]; [by rewrite Hx|]).
    by apply elem_of_nil in Hx.
Qed.

Lemma folds_classes_methods cast E ms : ∀ o n k dex w o' k' w',
  InitOatCodeClassDef_methods cast E ms o n k dex w = Some (o', k', w') →
  folds_classes cast n n w w'.
Proof.
  induction ms as [|m ms IH]; intros o n k dex w o' k' w'; simpl.
  - intros [= <- <- <-]. apply folds_classes_refl.
  - destruct (InitOatCodeMethod _ _ _ _ _ _ _ _ _) as [[o1 w1]|] eqn:H1; [|done]. simpl.
    intros Hrest. apply folds_classes_method in H1. apply IH in Hrest.
    by eapply (folds_classes_trans _ n n n).
Qed.

Lemma folds_classes_class_def cast E o n dex cd w o' w' :
  InitOatCodeClassDef cast E o n dex cd w = Some (o', w') →
  folds_classes cast n n w w'.
Proof.
  unfold InitOatCodeClassDef. destruct (class_data cd) as [d|].
  2:{ intros [= <- <-]. apply folds_classes_refl. }
  destruct (oat_classes_ w !! n) as [c|]; [|done]. simpl.
  destruct (decide _); [|done].
  destruct (InitOatCodeClassDef_methods _ _ (direct_methods d) _ _ _ _ _)
    as [[[o1 k1] w1]|] eqn:H1; [|done]. simpl.
  destruct (InitOatCodeClassDef_methods _ _ (virtual_methods d) _ _ _ _ _)
    as [[[o2 k2] w2]|] eqn:H2; [|done]. simpl.
  intros [= <- <-]. apply folds_classes_methods in H1, H2.
  by eapply (folds_classes_trans _ n n n).
Qed.

Lemma folds_classes_update cast n w :
  folds_classes cast n (S n) w (OatClass_UpdateChecksum_at cast n w).
Proof.
  unfold OatClass_UpdateChecksum_at.
  destruct (oat_classes_ w !! n) as [c|] eqn:Hc.
  - split; [done|]. split; [done|]. exists (OatClass_ranges cast c).
    split.
    { change (oat_header_ (with_header (OatClass_UpdateChecksum cast c) w))
        with (OatClass_UpdateChecksum cast c (oat_header_ w)).
      apply (proj1 (hdr_ranges_fold (OatClass_ranges cast c) (oat_header_ w))). }
    change (oat_classes_ (with_header (OatClass_UpdateChecksum cast c) w))
      with (oat_classes_ w).
    rewrite (take_S_r _ _ _ Hc), drop_app_length'.
    2:{ rewrite length_take. apply lookup_lt_Some in Hc. lia. }
    reflexivity.
  - split; [done|]. split; [done|]. exists []. split; [by rewrite app_nil_r|].
    apply lookup_ge_None in Hc. rewrite drop_ge; [done|]. rewrite length_take. lia.
Qed.

Lemma folds_classes_dex_file_loop cast E cds : ∀ o n dex w o' n' w',
  InitOatCodeDexFile_loop cast E cds o n dex w = Some (o', n', w') →
  n' = (n + length cds)%nat ∧ folds_classes cast n n' w w'.
Proof.
  induction cds as [|cd cds IH]; intros o n dex w o' n' w'; simpl.
  - intros [= <- <- <-]. split; [lia|]. apply folds_classes_refl.
  - destruct (InitOatCodeClassDef _ _ _ _ _ _ _) as [[o1 w1]|] eqn:H1; [|done]. simpl.
    intros Hrest. apply IH in Hrest as (-> & Hrest). split; [lia|].
    apply folds_classes_class_def in H1.
    eapply (folds_classes_trans _ n (S n)); [lia| |exact Hrest].
    eapply (folds_classes_trans _ n n); [lia|exact H1|apply folds_classes_update].
Qed.

Lemma length_new_OatClasses E dex cds : ∀ i, length (new_OatClasses E dex cds i) = length cds.
Proof. induction cds as [|cd cds IH]; intros i; simpl; [done|]. by rewrite IH. Qed.

Lemma folds_classes_dex_files_loop cast E dfs : ∀ o n w o' n' w',
  InitOatCodeDexFiles_loop cast E dfs o n w = Some (o', n', w') →
  n' = (n + length (new_OatClasses_all E dfs))%nat ∧ folds_classes cast n n' w w'.
Proof.
  induction dfs as [|dex dfs IH]; intros o n w o' n' w'; simpl.
  - intros [= <- <- <-]. split; [unfold new_OatClasses_all; simpl; lia|].
    apply folds_classes_refl.
  - unfold InitOatCodeDexFile.
    destruct (InitOatCodeDexFile_loop _ _ _ _ _ _ _) as [[[o1 n1] w1]|] eqn:H1; [|done].
    simpl. intros Hrest. apply IH in Hrest as (-> & Hrest).
    apply folds_classes_dex_file_loop in H1 as (-> & H1).
    unfold new_OatClasses_all in *. simpl. rewrite length_app, length_new_OatClasses.
    split; [lia|].
    eapply (folds_classes_trans _ n (n + length (class_defs dex))); [lia|exact H1|].
    exact Hrest.
Qed.

Lemma OatDexFile_ranges_labels ds :
  Forall (λ r, r.1 ∉ [DexFilePayload; MethodCodeSize; InvokeStubCodeSize])
    (ds ≫= OatDexFile_ranges exact).
Proof.
  induction ds as [|d ds IH]; [constructor|].
  rewrite bind_cons. apply Forall_app. split; [|done].
  unfold OatDexFile_ranges.
  repeat (constructor;
          [simpl; intros Hx;
           repeat (apply elem_of_cons in Hx as [Hx|Hx]; [discriminate Hx|]);
           by apply elem_of_nil in Hx|]).
  constructor.
Qed.

Lemma OatClass_ranges_labels cs r :
  r ∈ cs ≫= OatClass_ranges exact → r.1 = ClassStatus ∨ r.1 = MethodOffsets.
Proof.
  intros Hr. apply list_elem_of_bind in Hr as (c & Hr & _). unfold OatClass_ranges in Hr.
  apply elem_of_cons in Hr as [->|Hr]; [by left|].
  apply elem_of_cons in Hr as [->|Hr]; [by right|]. by apply elem_of_nil in Hr.
Qed.

(** C2, amended.  On an admissible input whose planned file fits the
    offsets of the platform, a [Write] that succeeds has written, in this
    order: the header, the image location, the OatDexFile records, the DEX
    payloads, the OatClass records and the ranges [ws_code] of the code
    phase.  The checksum of the header starts from what the constructor of
    the header left, has then folded the OatDexFile records, the same
    ranges with the same bytes as written, has gone through
    [SetExecutableOffset], and has then folded the ranges [cks_code] of the
    code phase.  The ranges written in the code phase are exactly the
    non-empty compiled artifacts (code, mapping tables, vmap tables, GC
    maps, invoke stubs) folded there, with the same bytes and in the same
    order, each code array after the four bytes of its size.  What the code
    phase folds apart from compiled artifacts are the OatClass records, all
    of them, in their order and as they are written; they are written
    before the code phase.  No range that the planning pass of the writer
    folds is a DEX payload or a size. *)
Theorem checksum_covers_artifacts E rt L w out out' :
  plans E rt L w → stream_inv out → position out = 0 →
  Write E w out = Done true out' →
  ∃ evs ws_code cks_code,
    events out' = events out ++ evs ∧
    writes_of evs
    = [(OatHeaderStruct, OatHeader_bytes (oat_header_ w));
       (ImageFileLocation, image_file_location E)]
      ++ (oat_dex_files_ w ≫= OatDexFile_ranges exact)
      ++ map (λ d, (DexFilePayload, dex_image d)) (dex_files E)
      ++ (oat_classes_ w ≫= OatClass_ranges exact)
      ++ ws_code ∧
    hdr_checksum_ranges (oat_header_ w)
    = hdr_checksum_ranges
        (SetExecutableOffset (hdr_executable_offset (oat_header_ w))
           (append_checksum (oat_dex_files_ w ≫= OatDexFile_ranges exact)
              (new_OatHeader wrap32 E)))
      ++ cks_code ∧
    hdr_checksum_ranges
      (append_checksum (oat_dex_files_ w ≫= OatDexFile_ranges exact) (new_OatHeader wrap32 E))
    = hdr_checksum_ranges (new_OatHeader wrap32 E)
      ++ (oat_dex_files_ w ≫= OatDexFile_ranges exact) ∧
    covers ws_code cks_code ∧
    filter (λ r, is_blob r.1 = false) cks_code = oat_classes_ w ≫= OatClass_ranges exact ∧
    Forall (λ r, r.1 ∉ [DexFilePayload; MethodCodeSize; InvokeStubCodeSize])
      ((oat_dex_files_ w ≫= OatDexFile_ranges exact) ++ cks_code).
Proof.
  intros Hp Hinv Hpos HW. pose proof Hp as (Hadm & Hnew & HL).
  destruct (Write_tracks _ _ _ _ Hadm Hnew HL) as (ws & cks & Hck & Hcov & T).
  specialize (T out Hinv Hpos).
  destruct (tracks_reported_Done Z_of_bool _ _ _ _ _ _ _ T HW ltac:(done))
    as (_ & _ & evs & Hev & _ & Hws).
  exists evs, ws, cks. split; [done|]. split; [done|].
  destruct (plans_writer _ _ _ _ Hp)
    as (o1 & o2 & o3 & o4 & o5 & w5 & Hte & _ & _ & _ & _ & Hcl5 & Hexe5 & _ & _ & Hext).
  destruct (OatWriter_new_exact_inv _ _ _ _ Hnew)
    as (ds & o3' & w5' & n' & _ & _ & Htab & Hw5 & Hcode).
  simpl in Htab, Hw5, Hcode. rewrite Hte in Htab. injection Htab as -> -> <- -> Ho5 <-.
  rewrite <- Ho5 in Hcode, Hw5.
  destruct (plans_bounds _ _ _ _ Hp) as (p1 & p2 & p3 & p4 & p5 & Hpe & _ & H01 & Hle).
  assert (new_OatHeader wrap32 E = new_OatHeader exact E) as Hhdr.
  { unfold phase_offsets in Hpe. rewrite Hte in Hpe. injection Hpe as <- <- <- <- <-.
    pose proof (len_nonneg (image_file_location E)).
    unfold new_OatHeader, exact. rewrite wrap32_small; [done|]. lia32. }
  pose proof Hext as (_ & _ & _ & _ & Hds & Hexe & _ & _).
  assert (oat_dex_files_ w = ds) as Hds' by (rewrite Hds; by subst w5).
  assert (hdr_executable_offset (oat_header_ w) = o5) as Hexe' by (by rewrite Hexe).
  assert (oat_header_ w5
          = SetExecutableOffset o5
              (append_checksum (ds ≫= OatDexFile_ranges exact) (new_OatHeader exact E)))
    as Hh5 by (by subst w5).
  destruct (folds_classes_dex_files_loop _ _ _ _ _ _ _ _ _ Hcode)
    as (Hn' & Hlen & _ & cks' & Hck' & Hfilter).
  rewrite Hcl5 in Hlen.
  rewrite take_ge, drop_0 in Hfilter by lia.
  assert (hdr_checksum_ranges (oat_header_ w5) = ds ≫= OatDexFile_ranges exact) as Hr5.
  { rewrite Hh5. simpl. unfold append_checksum.
    by destruct (hdr_ranges_fold (ds ≫= OatDexFile_ranges exact) (new_OatHeader exact E))
      as [-> _]. }
  assert (cks' = cks) as ->.
  { rewrite Hck, Hds', <- Hr5 in Hck'. by apply app_inv_head in Hck'. }
  rewrite Hexe', Hds', Hhdr, <- Hh5.
  split; [done|].
  split.
  { unfold append_checksum.
    by destruct (hdr_ranges_fold (ds ≫= OatDexFile_ranges exact) (new_OatHeader exact E))
      as [-> _]. }
  split; [done|]. split; [done|].
  apply Forall_app. split; [apply OatDexFile_ranges_labels|].
  apply Forall_forall. intros r Hr Hx.
  destruct (is_blob r.1) eqn:Hb.
  - repeat (apply elem_of_cons in Hx as [Hx|Hx]; [by rewrite Hx in Hb|]).
    by apply elem_of_nil in Hx.
  - assert (r ∈ filter (λ r, is_blob r.1 = false) cks) as Hf
      by (by apply list_elem_of_filter).
    rewrite Hfilter in Hf. apply OatClass_ranges_labels in Hf as [Hf|Hf]; rewrite Hf in Hx;
      repeat (apply elem_of_cons in Hx as [Hx|Hx]; [discriminate Hx|]);
      by apply elem_of_nil in Hx.
Qed.

Lemma checksum_covers_artifacts_witness :
  ∃ ws_code cks_code,
    covers ws_code cks_code ∧
    filter (λ r, is_blob r.1 = false) cks_code
    = oat_classes_ Sample.writer ≫= OatClass_ranges exact.
Proof.
  destruct (checksum_covers_artifacts Sample.E ∅ Sample.planned_length Sample.writer
              (fresh_stream []) (stream_of (Write Sample.E Sample.writer (fresh_stream []))))
    as (evs & ws & cks & _ & _ & _ & _ & Hcov & Hf & _).
  - exact Sample_plans.
  - constructor.
  - reflexivity.
  - vm_compute; reflexivity.
  - by exists ws, cks.
Defined.

(** ** Further properties of the planning pass *)

(** *** The embedded DEX files *)

Lemma dex_layout_spec dfs : ∀ o offs o',
  dex_layout dfs o offs o' →
  length offs = length dfs ∧
  Forall (λ a, a mod 4 = 0 ∧ o ≤ a) offs ∧
  ∀ i j di ai aj, (i < j)%nat → dfs !! i = Some di → offs !! i = Some ai →
                  offs !! j = Some aj → ai + file_size_ di ≤ aj.
Proof.
  induction dfs as [|d dfs IH]; intros o [|a offs] o' H; simpl in H; try done.
  destruct H as (Ha & H). apply IH in H as (Hlen & Hall & Hsep).
  pose proof (RoundUp_exact o 4 ltac:(lia)) as ((Hle & _) & Hmod). rewrite <- Ha in *.
  unfold file_size_ in *. pose proof (len_nonneg (dex_image d)) as Hd.
  split; [simpl; by rewrite Hlen|]. split.
  - constructor; [done|]. eapply Forall_impl; [exact Hall|]. simpl. intros x [? ?].
    split; [done|lia].
  - intros [|i] [|j] di ai aj Hij Hdi Hai Haj; try lia; simpl in *.
    + injection Hdi as <-. injection Hai as <-.
      rewrite Forall_forall in Hall.
      destruct (Hall aj) as [_ ?]; [by eapply list_elem_of_lookup_2|done].
    + eapply (Hsep i j); [lia|done..].
Qed.

(** X3.  The planning pass puts every embedded DEX file at a multiple of
    four, and one after the other: the payload of a DEX file ends at or
    before the offset of every later one. *)
Theorem dex_payloads_aligned_disjoint E rt L w :
  plans E rt L w →
  length (oat_dex_files_ w) = length (dex_files E) ∧
  Forall (λ d, dex_file_offset_ d mod 4 = 0) (oat_dex_files_ w) ∧
  ∀ i j dex_file oat_dex_file later,
    (i < j)%nat → dex_files E !! i = Some dex_file →
    oat_dex_files_ w !! i = Some oat_dex_file → oat_dex_files_ w !! j = Some later →
    dex_file_offset_ oat_dex_file + len (dex_image dex_file) ≤ dex_file_offset_ later.
Proof.
  intros Hp.
  destruct (plans_bounds _ _ _ _ Hp) as (o1 & o2 & o3 & o4 & o5 & He & _).
  destruct (Write_phases_placed _ _ _ _ _ _ _ _ _ Hp He (fresh_stream []) ltac:(constructor))
    as (_ & _ & _ & _ & _ & _ & _ & _ & Hlay & _).
  apply dex_layout_spec in Hlay as (Hlen & Hall & Hsep).
  rewrite length_map in Hlen. split; [done|]. split.
  - rewrite Forall_map in Hall. eapply Forall_impl; [exact Hall|]. simpl. by intros d [? _].
  - intros i j dex_file d later Hij Hdi Hi Hj.
    apply (Hsep i j dex_file); [done|done|..]; rewrite list_lookup_fmap.
    + by rewrite Hi.
    + by rewrite Hj.
Qed.

Lemma dex_payloads_aligned_disjoint_witness :
  Forall (λ d, dex_file_offset_ d mod 4 = 0) (oat_dex_files_ Sample.writer).
Proof.
  exact (proj1 (proj2 (dex_payloads_aligned_disjoint Sample.E ∅ Sample.planned_length
                         Sample.writer Sample_plans))).
Defined.

(** *** A compiled method without code *)

(** X6.  A compiled method, or an invoke stub, whose code array is empty
    stops the planning pass: the call of [InitOatCodeMethod] for the method
    does not return, whatever the cursor and the state of the writer. *)
Theorem empty_code_aborts E offset oat_class_index class_def_method_index type method_idx
    dex_file w :
  (∃ compiled_method,
     GetCompiledMethod (compiler E) (dex_addr dex_file) method_idx = Some compiled_method ∧
     code_bytes (memory E) (cm_code compiled_method) = []) ∨
  (∃ compiled_invoke_stub,
     FindInvokeStub (compiler E) (bool_decide (type = kStatic))
       (GetMethodShorty dex_file method_idx) = Some compiled_invoke_stub ∧
     code_bytes (memory E) (stub_code compiled_invoke_stub) = []) →
  InitOatCodeMethod wrap32 E offset oat_class_index class_def_method_index type method_idx
    dex_file w = None.
Proof.
  intros [(cm & Hcm & Hnil)|(stub & Hs & Hnil)]; unfold InitOatCodeMethod.
  - unfold InitOatCodeMethod_compiled, InitOatCodeMethod_code. rewrite Hcm, Hnil.
    by rewrite decide_True by done.
  - destruct (InitOatCodeMethod_compiled _ _ _ _ _ _) as [[[mo o1] w1]|]; [|done]. simpl.
    rewrite Hs. unfold InitOatCodeMethod_invoke_stub. rewrite Hnil.
    by rewrite decide_True by done.
Qed.

Lemma empty_code_aborts_witness :
  InitOatCodeMethod wrap32 Sample.env_empty 4096 0 0 kDirect 0 Sample.dex
    (plan_tables wrap32 Sample.env_empty ∅).2 = None.
Proof.
  apply empty_code_aborts. left. exists Sample.cm_empty. split; reflexivity.
Defined.

(** *** The record of a method *)

(** X7.  A call of [InitOatCodeMethod] stores one record, the one of its
    method: the record of every other method, the statuses of the OatClass
    records, the number of records of every class and the OatDexFile
    records are as before. *)
Theorem InitOatCodeMethod_own_record E offset oat_class_index class_def_method_index type
    method_idx dex_file w offset' w' :
  InitOatCodeMethod wrap32 E offset oat_class_index class_def_method_index type method_idx
    dex_file w = Some (offset', w') →
  (∀ n k, (n, k) ≠ (oat_class_index, class_def_method_index) →
          method_offsets_of w' n k = method_offsets_of w n k) ∧
  Forall2 same_shape (oat_classes_ w) (oat_classes_ w') ∧
  oat_dex_files_ w' = oat_dex_files_ w.
Proof.
  intros H. pose proof H as H'.
  apply InitOatCodeMethod_inv in H as (mo & o4 & w4 & r & w5 & Hc & Hs & Hcl & _).
  split; [|split].
  - intros n k Hne. unfold method_offsets_of. rewrite Hcl.
    destruct (decide (n = oat_class_index)) as [->|Hn].
    + rewrite list_lookup_alter_eq.
      destruct (oat_classes_ w !! oat_class_index) as [c|]; [|done]. simpl.
      apply list_lookup_insert_ne. congruence.
    + by rewrite list_lookup_alter_ne.
  - rewrite Hcl. apply same_shape_alter.
  - revert H'. unfold InitOatCodeMethod. rewrite Hc. simpl. rewrite Hs. simpl.
    apply frame_compiled in Hc as (_ & _ & Hd1).
    assert (oat_dex_files_ w5 = oat_dex_files_ w4) as Hd2.
    { destruct (FindInvokeStub _ _ _).
      - by apply frame_invoke_stub in Hs as (_ & _ & ?).
      - by injection Hs as _ _ <-. }
    unfold InitOatCodeMethod_image. destruct (IsImage _).
    + destruct (ResolveMethod _ _ _ _) as [a|]; [|done]. simpl.
      destruct (runtime_methods _ !! a) as [m|]; [|done]. simpl.
      intros [= <-]. simpl. congruence.
    + intros [= <-]. simpl. congruence.
Qed.

Lemma InitOatCodeMethod_own_record_witness :
  ∃ w', InitOatCodeMethod wrap32 Sample.E 4096 0 0 kDirect 0 Sample.dex
          Sample.writer_before_code = Some (4122, w') ∧
        method_offsets_of w' 0 1 = method_offsets_of Sample.writer_before_code 0 1.
Proof.
  assert (∃ w', InitOatCodeMethod wrap32 Sample.E 4096 0 0 kDirect 0 Sample.dex
                  Sample.writer_before_code = Some (4122, w')) as [w' H]
    by (eexists; vm_compute; reflexivity).
  exists w'. split; [exact H|].
  apply (InitOatCodeMethod_own_record _ _ _ _ _ _ _ _ _ _ H). done.
Defined.

(** *** The alignment of the code *)

(** X8.  The code of a compiled method that is new to [code_offsets_] is
    planned at a multiple of the code alignment of its instruction set:
    the code offset in the record of the method, less the code delta and
    the four bytes of the size, is such a multiple, and it is the position
    at which the writing pass writes the size. *)
Theorem new_code_is_aligned E o n k type idx dex w o' w' compiled_method :
  plans_method E o n k type idx dex w o' w' →
  GetCompiledMethod (compiler E) (dex_addr dex) idx = Some compiled_method →
  code_offsets_ w !! cm_code compiled_method = None →
  ∃ mo,
    InitOatCodeMethod wrap32 E o n k type idx dex w = Some (o', w') ∧
    method_offsets_of w' n k = Some mo ∧
    (code_offset_ mo - CodeDelta (cm_instruction_set compiled_method) - sizeof_uint32)
      mod CodeAlignment (globals E) (cm_instruction_set compiled_method) = 0 ∧
    o ≤ code_offset_ mo - CodeDelta (cm_instruction_set compiled_method) - sizeof_uint32
      < o + CodeAlignment (globals E) (cm_instruction_set compiled_method).
Proof.
  intros Hp Hcm Hnew.
  pose proof Hp as (Hadm & HI & _ & _ & Ho'). pose proof Hadm as (Hg & _ & _).
  destruct (method_exact_steps _ _ _ _ _ _ _ _ _ _ Hp)
    as (mx & r & o4 & w4 & w5 & Hrec & Hce & _).
  destruct (compiled_exact_steps _ _ _ _ _ _ _ _ _ Hadm HI Hcm Hce)
    as (o1a & w1a & Hcode & _).
  destruct (code_exact_cases _ _ _ _ _ _ _ Hcode) as (_ & Hcase).
  rewrite Hnew in Hcase. destruct Hcase as (Hc & _).
  exists (set_invoke_stub_offset r mx).
  split; [by apply (method_step _ _ _ _ _ _ _ _ _ _ Hp)|]. split; [done|]. simpl.
  rewrite Hc.
  pose proof (CodeAlignment_pos (globals E) (cm_instruction_set compiled_method) Hg) as Hal.
  pose proof (RoundUp_exact o (CodeAlignment (globals E) (cm_instruction_set compiled_method))
                ltac:(lia)) as (Hle & Hmod).
  unfold AlignCode.
  replace (RoundUp exact o (CodeAlignment (globals E) (cm_instruction_set compiled_method))
             + sizeof_uint32 + CodeDelta (cm_instruction_set compiled_method)
           - CodeDelta (cm_instruction_set compiled_method) - sizeof_uint32)
    with (RoundUp exact o (CodeAlignment (globals E) (cm_instruction_set compiled_method)))
    by lia.
  done.
Qed.

Lemma new_code_is_aligned_witness :
  ∃ mo, method_offsets_of Sample.writer_after_m0 0 0 = Some mo ∧
        (code_offset_ mo - CodeDelta (cm_instruction_set Sample.cm) - sizeof_uint32)
          mod CodeAlignment (globals Sample.E) (cm_instruction_set Sample.cm) = 0.
Proof.
  destruct (new_code_is_aligned Sample.E 4096 0%nat 0%nat kDirect 0 Sample.dex
              Sample.writer_before_code 4122 Sample.writer_after_m0 Sample.cm
              Sample_plans_m0 eq_refl eq_refl) as (mo & _ & Hm & Hmod & _).
  by exists mo.
Defined.
